(** * The L2 wiring engine of the SFC controller

    A shallow embedding of [controller/cnpdriver/l2driver/sfcctlr_l2_driver.go]:
    the driver object [sfcCtlrL2CNPDriver], its entity and state caches, the
    sequencer, the resource builders and the wiring operations, followed by
    the properties of the engine that the specification states.

    Conventions.
    - A Go [uint32] is a [Z] in [0, 2^32); increments and decrements wrap.
    - A Go [string] is a [string]; [len] is [String.length].
    - A Go map keyed by strings is a [gmap string _].
    - A nil-able pointer to a record that is never mutated after it was built
      is an [option]; bridge domains are mutated through their pointer, so
      they live in a heap and are referred to by address.
    - A method of the driver is a computation [M A] over the driver state
      with four outcomes: a result, a returned Go [error], a nil-pointer
      panic, or a loop that does not exit. *)

From Stdlib Require Import ZArith String Ascii List Lia.
From stdpp Require Import base option list strings gmap fin_maps.

Local Open Scope string_scope.
Local Open Scope list_scope.
Local Open Scope Z_scope.

(** ** Integers and strings *)

Definition u32 (z : Z) : Z := z mod 2 ^ 32.

Definition lowerDigits : string := "0123456789abcdefghijklmnopqrstuvwxyz".
Definition upperDigits : string := "0123456789ABCDEFGHIJKLMNOPQRSTUVWXYZ".

Definition digitChar (alphabet : string) (d : Z) : ascii :=
  match String.get (Z.to_nat d) alphabet with
  | Some c => c
  | None => "0"%char
  end.

(** Positional digits of an unsigned number, most significant first. *)
Fixpoint formatDigits (fuel : nat) (alphabet : string) (base v : Z) : string :=
  match fuel with
  | O => ""
  | S f =>
      if v <? base then String (digitChar alphabet v) ""
      else formatDigits f alphabet base (v / base)
           +:+ String (digitChar alphabet (v mod base)) ""
  end.

(** [strconv.FormatUint(v, base)]: a [uint64] has at most 64 digits. *)
Definition FormatUint (v base : Z) : string := formatDigits 64 lowerDigits base v.

(** [strconv.Itoa] on the non-negative values the driver passes. *)
Definition Itoa (v : Z) : string := FormatUint v 10.

(** [fmt.Sprintf("%02X", v)]: upper-case hexadecimal, zero-padded to width 2. *)
Definition Sprintf_02X (v : Z) : string :=
  let s := formatDigits 16 upperDigits 16 v in
  if (String.length s <? 2)%nat then "0" +:+ s else s.

(** [strings.Split(s, sep)] for a one-character separator. *)
Fixpoint Split (s : string) (sep : ascii) : list string :=
  match s with
  | EmptyString => [EmptyString]
  | String a r =>
      if Ascii.eqb a sep then EmptyString :: Split r sep
      else match Split r sep with
           | h :: t => String a h :: t
           | [] => [String a EmptyString]
           end
  end.

Definition slash : ascii := "/"%char.

(** if the ip address has a /xx subnet attached, it is stripped off *)
Definition stripSlashAndSubnetIpv4Address (ipAndSubnetStr : string) : string :=
  match Split ipAndSubnetStr slash with
  | s0 :: _ => s0
  | [] => ""
  end.

Definition replaceSlashesWithUScores (slashesString : string) : string :=
  match Split slashesString slash with
  | s0 :: rest => fold_left (fun acc s => acc +:+ "_" +:+ s) rest s0
  | [] => ""
  end.

Definition macOctets (macInstanceID32 : Z) : list Z :=
  let macInstanceID := macInstanceID32 in
  [ 2;
    Z.land 255 (Z.shiftr macInstanceID (8 * 4));
    Z.land 255 (Z.shiftr macInstanceID (8 * 3));
    Z.land 255 (Z.shiftr macInstanceID (8 * 2));
    Z.land 255 (Z.shiftr macInstanceID (8 * 1));
    Z.land 255 (Z.shiftr macInstanceID (8 * 0)) ].

Definition formatMacAddress (macInstanceID32 : Z) : string :=
  let octets := macOctets macInstanceID32 in
  let macOctetString :=
    fold_left (fun acc o => acc +:+ Sprintf_02X o +:+ ":") (take 5 octets) "" in
  macOctetString +:+ Sprintf_02X (nth 5 octets 0).

(** [fmt.Sprintf("%c", b)] for a byte [b]: the UTF-8 encoding of the code
    point [b], which is the byte itself below 128 and two bytes from 128 on. *)
Definition Sprintf_c (b : ascii) : string :=
  let c := nat_of_ascii b in
  if (c <? 128)%nat then String b ""
  else String (ascii_of_nat (192 + c / 64))
         (String (ascii_of_nat (128 + c mod 64)) "").

(** [str[i]]; the index is in range wherever stringFirstNLastM reads it. *)
Definition byteAt (str : string) (i : nat) : string :=
  match String.get i str with
  | Some b => Sprintf_c b
  | None => ""
  end.

Definition stringFirstNLastM (n m : nat) (str : string) : string :=
  if (String.length str <=? n + m)%nat then str
  else
    let outStr := fold_left (λ outStr i, outStr +:+ byteAt str i) (seq 0 n) "" in
    fold_left (λ outStr i, outStr +:+ byteAt str (String.length str - m + i)) (seq 0 m)
      outStr.

Definition constructBaseHostName (container port v : string) : string :=
  let cb := 2%nat in let ce := 3%nat in let pb := 2%nat in let pe := 3%nat in
  let '(pb, pe) :=
    match String.length container with
    | 4%nat => (pb + 1, pe)
    | 3%nat => (pb + 1, pe + 1)
    | 2%nat => (pb + 2, pe + 1)
    | 1%nat => (pb + 2, pe + 2)
    | _ => (pb, pe)
    end%nat in
  let '(cb, ce) :=
    match String.length port with
    | 4%nat => (cb + 1, ce)
    | 3%nat => (cb + 1, ce + 1)
    | 2%nat => (cb + 2, ce + 1)
    | 1%nat => (cb + 2, ce + 2)
    | _ => (cb, ce)
    end%nat in
  let '(cb, ce) :=
    match String.length v with
    | 2%nat => (cb + 1, ce)
    | 1%nat => (cb + 1, ce + 1)
    | _ => (cb, ce)
    end%nat in
  stringFirstNLastM cb ce container +:+ "_" +:+ stringFirstNLastM pb pe port.

Example formatMacAddress_5000 : formatMacAddress 5000 = "02:00:00:00:13:88".
Proof. reflexivity. Qed.

Example constructBaseHostName_doc :
  constructBaseHostName "vnfunction1" "myport1" "2" = "vnfion1_myrt1".
Proof. vm_compute. reflexivity. Qed.

(** ** The declarative input model ([controller.proto]) *)

Inductive RxModeType := RX_MODE_UNKNOWN | RX_MODE_POLLING | RX_MODE_INTERRUPT.

Module BDParms.
Record t := mk {
  Flood : bool;
  UnknownUnicastFlood : bool;
  Forward : bool;
  Learn : bool;
  ArpTermination : bool;
  MacAge : Z }.
End BDParms.

Module SystemParameters.
Record t := mk {
  Mtu : Z;
  StartingVlanId : Z;
  DefaultStaticRouteWeight : Z;
  DefaultStaticRoutePreference : Z;
  DynamicBridgeParms : option BDParms.t;
  StaticBridgeParms : option BDParms.t }.
Definition zero : t := mk 0 0 0 0 None None.
End SystemParameters.

Module HostInterface.
Record t := mk { IfName : string; Ipv4Addr : string }.
End HostInterface.

Module HostVxlan.
Record t := mk { IfName : string; SourceIpv4 : string }.
End HostVxlan.

Module HostBD.
Record t := mk { Id : Z; BdiIpv4 : string; Interfaces : list string }.
End HostBD.

Inductive ExtEntDriverType := EE_DRIVER_TYPE_UNKNOWN | EE_DRIVER_TYPE_IOSXE_SSH.

Module ExternalEntity.
Record t := mk {
  Name : string;
  MgmntIpAddress : string;
  MgmntPort : Z;
  BasicAuthUser : string;
  BasicAuthPasswd : string;
  EeDriverType : ExtEntDriverType;
  HostInterface : option HostInterface.t;
  HostVxlan : option HostVxlan.t;
  HostBd : option HostBD.t }.
Definition zero : t := mk "" "" 0 "" "" EE_DRIVER_TYPE_UNKNOWN None None None.
End ExternalEntity.

Module HostEntity.
Record t := mk {
  Name : string;
  EthIfName : string;
  EthIpv4 : string;
  EthIpv6 : string;
  LoopbackMacAddr : string;
  LoopbackIpv4 : string;
  LoopbackIpv6 : string;
  VxlanTunnelIpv4 : string;
  CreateVxlanStaticRoute : bool;
  Mtu : Z;
  RxMode : RxModeType }.
Definition zero : t := mk "" "" "" "" "" "" "" "" false 0 RX_MODE_UNKNOWN.
End HostEntity.

Inductive SfcType :=
| SFC_UNKNOWN_TYPE
| SFC_NS_VXLAN
| SFC_NS_NIC_BD
| SFC_NS_NIC_L2XCONN
| SFC_NS_NIC_VRF
| SFC_EW_BD
| SFC_EW_L2XCONN
| SFC_EW_BD_L2FIB
| SFC_EW_VRF_FIB
| SFC_EW_MEMIF
| SFC_EW_VETH.

Inductive SfcElementType :=
| ELEMENT_UNKNOWN
| EXTERNAL_ENTITY
| VPP_CONTAINER_MEMIF
| NON_VPP_CONTAINER_AFP
| NON_VPP_CONTAINER_MEMIF
| HOST_ENTITY
| VPP_CONTAINER_AFP.

Module L3VRFRoute.
Record t := mk {
  VrfId : Z;
  Description : string;
  DstIpAddr : string;
  NextHopAddr : string;
  OutgoingInterface : string;
  Weight : Z;
  Preference : Z }.
End L3VRFRoute.

Module L3ArpEntry.
Record t := mk { IpAddress : string; PhysAddress : string }.
End L3ArpEntry.

Module SfcElement.
Record t := mk {
  Container : string;
  PortLabel : string;
  EtcdVppSwitchKey : string;
  Ipv4Addr : string;
  MacAddr : string;
  Type_ : SfcElementType;
  VlanId : Z;
  Mtu : Z;
  RxMode : RxModeType;
  L2FibMacs : list string;
  Ipv6Addr : string;
  L3VrfRoutes : list L3VRFRoute.t;
  L3ArpEntries : list L3ArpEntry.t }.
End SfcElement.

Module SfcEntity.
Record t := mk {
  Name : string;
  Description : string;
  Type_ : SfcType;
  SfcIpv4Prefix : string;
  VnfRepeatCount : Z;
  BdParms : option BDParms.t;
  Elements : list SfcElement.t }.
End SfcEntity.

#[global] Instance RxModeType_eq_dec : EqDecision RxModeType.
Proof. solve_decision. Defined.
#[global] Instance SfcType_eq_dec : EqDecision SfcType.
Proof. solve_decision. Defined.
#[global] Instance SfcElementType_eq_dec : EqDecision SfcElementType.
Proof. solve_decision. Defined.

(** ** The dataplane resources (vpp-agent models of the fields the driver sets) *)

Inductive InterfaceType :=
| SOFTWARE_LOOPBACK
| ETHERNET_CSMACD
| MEMORY_INTERFACE
| VXLAN_TUNNEL
| AF_PACKET_INTERFACE.

Inductive IfRxModeType := IF_RX_POLLING | IF_RX_INTERRUPT.

Module Vxlan.
Record t := mk { SrcAddress : string; DstAddress : string; Vni : Z }.
End Vxlan.

Module Memif.
Record t := mk { Id : Z; Master : bool; SocketFilename : string }.
End Memif.

Module Interface.
Record t := mk {
  Name : string;
  Type_ : InterfaceType;
  Enabled : bool;
  PhysAddress : string;
  Mtu : Z;
  IpAddresses : list string;
  Vxlan : option Vxlan.t;
  Memif : option Memif.t;
  Afpacket : option string;
  RxModeSettings : option IfRxModeType }.
End Interface.

Module BDInterface.
Record t := mk { Name : string }.
End BDInterface.

Module BridgeDomain.
Record t := mk {
  Name : string;
  Flood : bool;
  UnknownUnicastFlood : bool;
  Forward : bool;
  Learn : bool;
  ArpTermination : bool;
  MacAge : Z;
  Interfaces : list BDInterface.t }.
End BridgeDomain.

Module Route.
Record t := mk {
  VrfId : Z;
  Description : string;
  DstIpAddr : string;
  NextHopAddr : string;
  Weight : Z;
  OutgoingInterface : string;
  Preference : Z }.
End Route.

Module ArpTableEntry.
Record t := mk {
  Interface : string;
  Static : bool;
  IpAddress : string;
  PhysAddress : string }.
End ArpTableEntry.

Module XConnectPair.
Record t := mk { ReceiveInterface : string; TransmitInterface : string }.
End XConnectPair.

Inductive FibAction := FIB_FORWARD | FIB_DROP.

Module FibTableEntry.
Record t := mk {
  BridgeDomain : string;
  PhysAddress : string;
  Action : FibAction;
  OutgoingInterface : string;
  StaticConfig : bool }.
End FibTableEntry.

Module LinuxInterface.
Record t := mk {
  Name : string;
  Enabled : bool;
  PhysAddress : string;
  HostIfName : string;
  IpAddresses : list string;
  Mtu : Z;
  NamespaceMicroservice : string;
  VethPeerIfName : string }.
End LinuxInterface.

Inductive Resource :=
| RInterface (i : Interface.t)
| RLinuxInterface (l : LinuxInterface.t)
| RBridgeDomain (b : BridgeDomain.t)
| RStaticRoute (r : Route.t)
| RArpEntry (a : ArpTableEntry.t)
| RXConnect (x : XConnectPair.t)
| RL2Fib (f : FibTableEntry.t).

(** ** Persisted ID bindings and the key-value store

    The records of [l2driver/model] and the [Datastore...] accessors are not
    in the driver file; the driver reads the fields named below. *)

Module HEIDs.
Record t := mk { LoopbackMacAddrId : Z }.
End HEIDs.

Module HE2EEIDs.
Record t := mk { VlanId : Z }.
End HE2EEIDs.

Module HE2HEIDs.
Record t := mk { VlanId : Z }.
End HE2HEIDs.

Module SFCIDs.
Record t := mk { IpId : Z; MacAddrId : Z; MemifId : Z; VethId : Z }.
End SFCIDs.

(** A write that reached the store: through a remote-client transaction of
    one switch ([rc.Put()...Send()]) or directly under a key ([db.Put]). *)
Inductive StoreWrite :=
| TxnPut (switch : string) (r : Resource)
| DbPut (key : string) (r : Resource).

(** The store is an external collaborator. [puts] is the log of the resource
    writes it accepted, oldest first. [faults] scripts its failures: each put
    consumes one entry and is rejected when the entry is [true]; with the
    script exhausted every put is accepted. The four tables are the
    persisted ID bindings. *)
Module KVStore.
Record t := mk {
  puts : list StoreWrite;
  faults : list bool;
  heIDs : gmap string HEIDs.t;
  he2eeIDs : gmap (string * string) HE2EEIDs.t;
  he2heIDs : gmap (string * string) HE2HEIDs.t;
  sfcIDs : gmap (string * string * string) SFCIDs.t }.
Definition empty : t := mk [] [] ∅ ∅ ∅ ∅.
Definition set_puts (f : list StoreWrite → list StoreWrite) (d : t) : t :=
  mk (f (puts d)) (faults d) (heIDs d) (he2eeIDs d) (he2heIDs d) (sfcIDs d).
Definition set_faults (fs : list bool) (d : t) : t :=
  mk (puts d) fs (heIDs d) (he2eeIDs d) (he2heIDs d) (sfcIDs d).
Definition set_heIDs (f : gmap string HEIDs.t → gmap string HEIDs.t) (d : t) : t :=
  mk (puts d) (faults d) (f (heIDs d)) (he2eeIDs d) (he2heIDs d) (sfcIDs d).
Definition set_he2eeIDs
  (f : gmap (string * string) HE2EEIDs.t → gmap (string * string) HE2EEIDs.t) (d : t) : t :=
  mk (puts d) (faults d) (heIDs d) (f (he2eeIDs d)) (he2heIDs d) (sfcIDs d).
Definition set_he2heIDs
  (f : gmap (string * string) HE2HEIDs.t → gmap (string * string) HE2HEIDs.t) (d : t) : t :=
  mk (puts d) (faults d) (heIDs d) (he2eeIDs d) (f (he2heIDs d)) (sfcIDs d).
Definition set_sfcIDs
  (f : gmap (string * string * string) SFCIDs.t → gmap (string * string * string) SFCIDs.t)
  (d : t) : t :=
  mk (puts d) (faults d) (heIDs d) (he2eeIDs d) (he2heIDs d) (f (sfcIDs d)).
End KVStore.

(** The "after" buffer of a reconcile cycle, keyed by switch and resource
    identity, and by binding key for the ID tables. *)
Module reconcileCacheType.
Record t := mk {
  ifs : gmap (string * string) Interface.t;
  lifs : gmap (string * string) LinuxInterface.t;
  bds : gmap (string * string) BridgeDomain.t;
  l3Routes : gmap (string * Z * string * string) Route.t;
  heIDs : gmap string HEIDs.t;
  he2eeIDs : gmap (string * string) HE2EEIDs.t;
  he2heIDs : gmap (string * string) HE2HEIDs.t;
  sfcIDs : gmap (string * string * string) SFCIDs.t }.
Definition empty : t := mk ∅ ∅ ∅ ∅ ∅ ∅ ∅ ∅.
Definition set_ifs
  (f : gmap (string * string) Interface.t → gmap (string * string) Interface.t) (c : t) : t :=
  mk (f (ifs c)) (lifs c) (bds c) (l3Routes c) (heIDs c) (he2eeIDs c) (he2heIDs c) (sfcIDs c).
Definition set_lifs
  (f : gmap (string * string) LinuxInterface.t → gmap (string * string) LinuxInterface.t)
  (c : t) : t :=
  mk (ifs c) (f (lifs c)) (bds c) (l3Routes c) (heIDs c) (he2eeIDs c) (he2heIDs c) (sfcIDs c).
Definition set_bds
  (f : gmap (string * string) BridgeDomain.t → gmap (string * string) BridgeDomain.t)
  (c : t) : t :=
  mk (ifs c) (lifs c) (f (bds c)) (l3Routes c) (heIDs c) (he2eeIDs c) (he2heIDs c) (sfcIDs c).
Definition set_l3Routes
  (f : gmap (string * Z * string * string) Route.t → gmap (string * Z * string * string) Route.t)
  (c : t) : t :=
  mk (ifs c) (lifs c) (bds c) (f (l3Routes c)) (heIDs c) (he2eeIDs c) (he2heIDs c) (sfcIDs c).
Definition set_heIDs (f : gmap string HEIDs.t → gmap string HEIDs.t) (c : t) : t :=
  mk (ifs c) (lifs c) (bds c) (l3Routes c) (f (heIDs c)) (he2eeIDs c) (he2heIDs c) (sfcIDs c).
Definition set_he2eeIDs
  (f : gmap (string * string) HE2EEIDs.t → gmap (string * string) HE2EEIDs.t) (c : t) : t :=
  mk (ifs c) (lifs c) (bds c) (l3Routes c) (heIDs c) (f (he2eeIDs c)) (he2heIDs c) (sfcIDs c).
Definition set_he2heIDs
  (f : gmap (string * string) HE2HEIDs.t → gmap (string * string) HE2HEIDs.t) (c : t) : t :=
  mk (ifs c) (lifs c) (bds c) (l3Routes c) (heIDs c) (he2eeIDs c) (f (he2heIDs c)) (sfcIDs c).
Definition set_sfcIDs
  (f : gmap (string * string * string) SFCIDs.t → gmap (string * string * string) SFCIDs.t)
  (c : t) : t :=
  mk (ifs c) (lifs c) (bds c) (l3Routes c) (heIDs c) (he2eeIDs c) (he2heIDs c) (f (sfcIDs c)).
End reconcileCacheType.

(** ** The driver object *)

Module sequencer.
Record t := mk { VLanID : Z; MemIfID : Z; MacInstanceID : Z; VethID : Z }.
Definition zero : t := mk 0 0 0 0.
Definition set_VLanID (v : Z) (q : t) : t := mk v (MemIfID q) (MacInstanceID q) (VethID q).
Definition set_MemIfID (v : Z) (q : t) : t := mk (VLanID q) v (MacInstanceID q) (VethID q).
Definition set_MacInstanceID (v : Z) (q : t) : t := mk (VLanID q) (MemIfID q) v (VethID q).
Definition set_VethID (v : Z) (q : t) : t := mk (VLanID q) (MemIfID q) (MacInstanceID q) v.
End sequencer.

Module sfcInterfaceAddressStateType.
Record t := mk { ipAddress : string; macAddress : string }.
End sfcInterfaceAddressStateType.

(** Address of a bridge domain in the heap [Driver.bridgeDomains]. *)
Definition bdPtr := nat.

Module heToEEStateType.
Record t := mk {
  vlanIf : option Interface.t;
  bd : option bdPtr;
  l3Route : option Route.t }.
Definition zero : t := mk None None None.
End heToEEStateType.

Module heToHEStateType.
Record t := mk {
  vlanIf : option Interface.t;
  bd : option bdPtr;
  l3Route : option Route.t }.
Definition zero : t := mk None None None.
End heToHEStateType.

Module heStateType.
Record t := mk { ewBD : option bdPtr; ewBDL2Fib : option bdPtr }.
Definition zero : t := mk None None.
End heStateType.

Module l2CNPStateCacheType.
Record t := mk {
  HEToEEs : gmap string (gmap string heToEEStateType.t);
  HEToHEs : gmap string (gmap string heToHEStateType.t);
  SFCToHEs : gmap string (gmap string heStateType.t);
  HE : gmap string heStateType.t;
  SFCIFAddr : gmap string sfcInterfaceAddressStateType.t }.
Definition empty : t := mk ∅ ∅ ∅ ∅ ∅.
Definition set_HEToEEs
  (f : gmap string (gmap string heToEEStateType.t) → gmap string (gmap string heToEEStateType.t))
  (c : t) : t :=
  mk (f (HEToEEs c)) (HEToHEs c) (SFCToHEs c) (HE c) (SFCIFAddr c).
Definition set_HEToHEs
  (f : gmap string (gmap string heToHEStateType.t) → gmap string (gmap string heToHEStateType.t))
  (c : t) : t :=
  mk (HEToEEs c) (f (HEToHEs c)) (SFCToHEs c) (HE c) (SFCIFAddr c).
Definition set_SFCToHEs
  (f : gmap string (gmap string heStateType.t) → gmap string (gmap string heStateType.t))
  (c : t) : t :=
  mk (HEToEEs c) (HEToHEs c) (f (SFCToHEs c)) (HE c) (SFCIFAddr c).
Definition set_HE (f : gmap string heStateType.t → gmap string heStateType.t) (c : t) : t :=
  mk (HEToEEs c) (HEToHEs c) (SFCToHEs c) (f (HE c)) (SFCIFAddr c).
Definition set_SFCIFAddr
  (f : gmap string sfcInterfaceAddressStateType.t → gmap string sfcInterfaceAddressStateType.t)
  (c : t) : t :=
  mk (HEToEEs c) (HEToHEs c) (SFCToHEs c) (HE c) (f (SFCIFAddr c)).
End l2CNPStateCacheType.

Module l2CNPEntityCacheType.
Record t := mk {
  EEs : gmap string ExternalEntity.t;
  HEs : gmap string HostEntity.t;
  SFCs : gmap string SfcEntity.t;
  SysParms : SystemParameters.t }.
Definition empty : t := mk ∅ ∅ ∅ SystemParameters.zero.
Definition set_EEs (f : gmap string ExternalEntity.t → gmap string ExternalEntity.t) (c : t) : t :=
  mk (f (EEs c)) (HEs c) (SFCs c) (SysParms c).
Definition set_HEs (f : gmap string HostEntity.t → gmap string HostEntity.t) (c : t) : t :=
  mk (EEs c) (f (HEs c)) (SFCs c) (SysParms c).
Definition set_SFCs (f : gmap string SfcEntity.t → gmap string SfcEntity.t) (c : t) : t :=
  mk (EEs c) (HEs c) (f (SFCs c)) (SysParms c).
Definition set_SysParms (sp : SystemParameters.t) (c : t) : t :=
  mk (EEs c) (HEs c) (SFCs c) sp.
End l2CNPEntityCacheType.

(** A request handed to the external-entity driver. *)
Inductive DriverCall :=
| SfcCtlrL2WireExternalEntityToHostEntity
    (ee : ExternalEntity.t) (he : HostEntity.t) (vlanID : Z) (sr : Route.t)
| SfcCtlrL2WireExternalEntityInternals (ee : ExternalEntity.t).

Inductive ipam_error := PrefixNotConfigured | IdOutOfRange | Exhausted.

(** The IPAM package is a collaborator outside the driver file. Its state is
    the script of the replies it will give: a call that returns an address
    takes the next reply, and fails with [PrefixNotConfigured] once the
    script is exhausted. *)
Inductive ipam_reply :=
| IpamFails (e : ipam_error)
| IpamGives (addr : string) (id : Z).

Module Driver.
Record t := mk {
  db : KVStore.t;
  l2CNPEntityCache : l2CNPEntityCacheType.t;
  l2CNPStateCache : l2CNPStateCacheType.t;
  reconcileAfter : reconcileCacheType.t;
  reconcileInProgress : bool;
  seq : sequencer.t;
  bridgeDomains : list BridgeDomain.t;
  extEntityDriver : list DriverCall;
  ipam : list ipam_reply }.
Definition set_db (f : KVStore.t → KVStore.t) (s : t) : t :=
  mk (f (db s)) (l2CNPEntityCache s) (l2CNPStateCache s) (reconcileAfter s)
     (reconcileInProgress s) (seq s) (bridgeDomains s) (extEntityDriver s) (ipam s).
Definition set_l2CNPEntityCache
  (f : l2CNPEntityCacheType.t → l2CNPEntityCacheType.t) (s : t) : t :=
  mk (db s) (f (l2CNPEntityCache s)) (l2CNPStateCache s) (reconcileAfter s)
     (reconcileInProgress s) (seq s) (bridgeDomains s) (extEntityDriver s) (ipam s).
Definition set_l2CNPStateCache
  (f : l2CNPStateCacheType.t → l2CNPStateCacheType.t) (s : t) : t :=
  mk (db s) (l2CNPEntityCache s) (f (l2CNPStateCache s)) (reconcileAfter s)
     (reconcileInProgress s) (seq s) (bridgeDomains s) (extEntityDriver s) (ipam s).
Definition set_reconcileAfter
  (f : reconcileCacheType.t → reconcileCacheType.t) (s : t) : t :=
  mk (db s) (l2CNPEntityCache s) (l2CNPStateCache s) (f (reconcileAfter s))
     (reconcileInProgress s) (seq s) (bridgeDomains s) (extEntityDriver s) (ipam s).
Definition set_reconcileInProgress (b : bool) (s : t) : t :=
  mk (db s) (l2CNPEntityCache s) (l2CNPStateCache s) (reconcileAfter s)
     b (seq s) (bridgeDomains s) (extEntityDriver s) (ipam s).
Definition set_seq (f : sequencer.t → sequencer.t) (s : t) : t :=
  mk (db s) (l2CNPEntityCache s) (l2CNPStateCache s) (reconcileAfter s)
     (reconcileInProgress s) (f (seq s)) (bridgeDomains s) (extEntityDriver s) (ipam s).
Definition set_bridgeDomains
  (f : list BridgeDomain.t → list BridgeDomain.t) (s : t) : t :=
  mk (db s) (l2CNPEntityCache s) (l2CNPStateCache s) (reconcileAfter s)
     (reconcileInProgress s) (seq s) (f (bridgeDomains s)) (extEntityDriver s) (ipam s).
Definition set_extEntityDriver (f : list DriverCall → list DriverCall) (s : t) : t :=
  mk (db s) (l2CNPEntityCache s) (l2CNPStateCache s) (reconcileAfter s)
     (reconcileInProgress s) (seq s) (bridgeDomains s) (f (extEntityDriver s)) (ipam s).
Definition set_ipam (i : list ipam_reply) (s : t) : t :=
  mk (db s) (l2CNPEntityCache s) (l2CNPStateCache s) (reconcileAfter s)
     (reconcileInProgress s) (seq s) (bridgeDomains s) (extEntityDriver s) i.
End Driver.

(** NewSfcCtlrL2CNPDriver: empty caches, zero sequencer, over a given store. *)
Definition NewSfcCtlrL2CNPDriver (db : KVStore.t) (ipam : list ipam_reply) : Driver.t :=
  Driver.mk db l2CNPEntityCacheType.empty l2CNPStateCacheType.empty
            reconcileCacheType.empty false sequencer.zero [] [] ipam.

(** ** Driver computations *)

Inductive error :=
| ErrInvalidExternalEntityConfig
| ErrUnknownEntityType (t : SfcType)
| ErrNSVxlanOnlyOneEE (sfc : string)
| ErrNSVxlanEENotFound (ee sfc : string)
| ErrNSVxlanOnlyOneDestHost (sfc : string)
| ErrNSVxlanDestHostNotFound (dh sfc : string)
| ErrNSVxlanNoEEOrDH (sfc : string)
| ErrToExtEntityHostNotFound (host sfc : string)
| ErrToExtEntityNotWired (host ee sfc : string)
| ErrToDestHostHostNotFound (host sfc : string)
| ErrToDestHostNotWired (sh dh sfc : string)
| ErrNSNicOnlyOneHE (sfc : string)
| ErrNSNicNoHE (sfc : string)
| ErrEWMemifPairs (sfc : string)
| ErrEWExternalEntity (sfc : string)
| ErrEWHostBridgeNotFound (host sfc : string)
| ErrAddressesNotFound (container port : string)
| ErrStore
| ErrIpam (e : ipam_error).

Inductive outcome (A : Type) :=
| Ok (a : A) (s : Driver.t)
| Err (e : error) (s : Driver.t)
| Panic (s : Driver.t)
| Diverge.
Arguments Ok {A} a s.
Arguments Err {A} e s.
Arguments Panic {A} s.
Arguments Diverge {A}.

Definition M (A : Type) : Type := Driver.t → outcome A.

#[global] Instance M_ret : MRet M := λ A a s, Ok a s.
#[global] Instance M_bind : MBind M := λ A B f m s,
  match m s with
  | Ok a s' => f a s'
  | Err e s' => Err e s'
  | Panic s' => Panic s'
  | Diverge => Diverge
  end.

Definition raise {A} (e : error) : M A := λ s, Err e s.
Definition panic {A} : M A := λ s, Panic s.
Definition diverge {A} : M A := λ _, Diverge.
Definition gets {A} (f : Driver.t → A) : M A := λ s, Ok (f s) s.
Definition modify (f : Driver.t → Driver.t) : M unit := λ s, Ok tt (f s).

(** [v, err := call(...)] where the caller inspects [err] itself. *)
Definition attempt {A} (m : M A) : M (error + A) := λ s,
  match m s with
  | Ok a s' => Ok (inr a) s'
  | Err e s' => Ok (inl e) s'
  | Panic s' => Panic s'
  | Diverge => Diverge
  end.

(** Dereference of a pointer that may be nil. *)
Definition deref {A} (p : option A) : M A :=
  match p with
  | Some a => mret a
  | None => panic
  end.

Definition result {A} (o : outcome A) : option (error + A) :=
  match o with
  | Ok a _ => Some (inr a)
  | Err e _ => Some (inl e)
  | _ => None
  end.

Definition final {A} (o : outcome A) : option Driver.t :=
  match o with
  | Ok _ s | Err _ s | Panic s => Some s
  | Diverge => None
  end.

Definition returnsError {A} (o : outcome A) : bool :=
  match o with Err _ _ => true | _ => false end.

(** ** Store gateway, persisted bindings, reconcile hooks, IPAM *)

(** One put against the store: rejected or logged, as [KVStore.faults] says. *)
Definition storePut (w : StoreWrite) : M unit := λ s,
  match KVStore.faults (Driver.db s) with
  | true :: fs => Err ErrStore (Driver.set_db (KVStore.set_faults fs) s)
  | false :: fs =>
      Ok tt (Driver.set_db
               (λ d, KVStore.set_puts (λ l, l ++ [w]) (KVStore.set_faults fs d)) s)
  | [] => Ok tt (Driver.set_db (KVStore.set_puts (λ l, l ++ [w])) s)
  end.

(** [NewRemoteClientTxn(switch, ...)] followed by [Put()...Send().ReceiveReply()]. *)
Definition txnPut (switch : string) (r : Resource) : M unit := storePut (TxnPut switch r).

(** A put of an ID binding: rejected, or applied to its table. *)
Definition bindingPut (upd : KVStore.t → KVStore.t) : M unit := λ s,
  match KVStore.faults (Driver.db s) with
  | true :: fs => Err ErrStore (Driver.set_db (KVStore.set_faults fs) s)
  | false :: fs => Ok tt (Driver.set_db (λ d, upd (KVStore.set_faults fs d)) s)
  | [] => Ok tt (Driver.set_db upd s)
  end.

(** Modelled from the spec: the [Datastore...Retrieve] accessors, which are
    not in the driver file. Each returns the binding persisted under the key,
    or nil when there is none (section 3, "Persisted ID bindings"). *)
Definition DatastoreHEIDsRetrieve (he : string) : M (option HEIDs.t) :=
  gets (λ s, KVStore.heIDs (Driver.db s) !! he).
Definition DatastoreHE2EEIDsRetrieve (he ee : string) : M (option HE2EEIDs.t) :=
  gets (λ s, KVStore.he2eeIDs (Driver.db s) !! (he, ee)).
Definition DatastoreHE2HEIDsRetrieve (sh dh : string) : M (option HE2HEIDs.t) :=
  gets (λ s, KVStore.he2heIDs (Driver.db s) !! (sh, dh)).
Definition DatastoreSFCIDsRetrieve (sfc container port : string) : M (option SFCIDs.t) :=
  gets (λ s, KVStore.sfcIDs (Driver.db s) !! (sfc, container, port)).

(** Modelled from the spec: the [Datastore...Create] accessors, which are not
    in the driver file. Each persists the binding under its key and returns
    the key and the record (section 4.A, "persists the binding"). *)
Definition DatastoreHEIDsCreate (he : string) (macAddrID : Z) : M (string * HEIDs.t) :=
  let ids := HEIDs.mk macAddrID in
  bindingPut (KVStore.set_heIDs <[he := ids]>) ;; mret (he, ids).
Definition DatastoreHE2EEIDsCreate (he ee : string) (vlanID : Z)
  : M (string * string * HE2EEIDs.t) :=
  let ids := HE2EEIDs.mk vlanID in
  bindingPut (KVStore.set_he2eeIDs <[(he, ee) := ids]>) ;; mret (he, ee, ids).
Definition DatastoreHE2HEIDsCreate (sh dh : string) (vlanID : Z)
  : M (string * string * HE2HEIDs.t) :=
  let ids := HE2HEIDs.mk vlanID in
  bindingPut (KVStore.set_he2heIDs <[(sh, dh) := ids]>) ;; mret (sh, dh, ids).
Definition DatastoreSFCIDsCreate (sfc container port : string)
  (ipID macAddrID memifID vethID : Z) : M (string * string * string * SFCIDs.t) :=
  let ids := SFCIDs.mk ipID macAddrID memifID vethID in
  bindingPut (KVStore.set_sfcIDs <[(sfc, container, port) := ids]>) ;;
  mret (sfc, container, port, ids).

Definition bdHasInterface (members : list BDInterface.t) (iface : BDInterface.t) : bool :=
  existsb (λ bi, String.eqb (BDInterface.Name bi) (BDInterface.Name iface)) members.

(** only add the interface if it is not already in the interface array *)
Definition associateIfs (members ifs : list BDInterface.t) : list BDInterface.t :=
  fold_left (λ acc iface, if bdHasInterface acc iface then acc else acc ++ [iface])
            ifs members.

Definition BridgeDomain_set_Interfaces (ifs : list BDInterface.t) (bd : BridgeDomain.t)
  : BridgeDomain.t :=
  BridgeDomain.mk (BridgeDomain.Name bd) (BridgeDomain.Flood bd)
    (BridgeDomain.UnknownUnicastFlood bd) (BridgeDomain.Forward bd)
    (BridgeDomain.Learn bd) (BridgeDomain.ArpTermination bd) (BridgeDomain.MacAge bd) ifs.

(** Modelled from the spec: the reconcile hooks, which are not in the driver
    file. In reconcile mode a write is "appended to an in-memory after set
    keyed by the full store key"; the hooks "merge updates into the buffered
    record (bridges accumulate members across calls)" (section 4.F). *)
Definition reconcileInterface (switch : string) (i : Interface.t) : M unit :=
  modify (Driver.set_reconcileAfter
            (reconcileCacheType.set_ifs <[(switch, Interface.Name i) := i]>)).
Definition reconcileLinuxInterface (switch ifname : string) (l : LinuxInterface.t) : M unit :=
  modify (Driver.set_reconcileAfter
            (reconcileCacheType.set_lifs <[(switch, ifname) := l]>)).
Definition reconcileBridgeDomain (switch : string) (bd : BridgeDomain.t) : M unit :=
  modify (Driver.set_reconcileAfter (reconcileCacheType.set_bds (λ m,
    let merged :=
      match m !! (switch, BridgeDomain.Name bd) with
      | Some old =>
          BridgeDomain_set_Interfaces
            (associateIfs (BridgeDomain.Interfaces old) (BridgeDomain.Interfaces bd)) bd
      | None => bd
      end in
    <[(switch, BridgeDomain.Name bd) := merged]> m))).
Definition reconcileStaticRoute (switch : string) (sr : Route.t) : M unit :=
  modify (Driver.set_reconcileAfter
            (reconcileCacheType.set_l3Routes
               <[(switch, Route.VrfId sr, Route.DstIpAddr sr, Route.NextHopAddr sr) := sr]>)).

(** Modelled from the spec: [utils.ArpEntryKey], which is not in the driver
    file: "<switch>/<arp-prefix>/<outgoing-if>/<ip>" (section 6). *)
Definition ArpEntryKey (etcdPrefix outGoingIf destIPAddress : string) : string :=
  etcdPrefix +:+ "/arp/" +:+ outGoingIf +:+ "/" +:+ destIPAddress.

Definition ipamNext : M (string * Z) := λ s,
  match Driver.ipam s with
  | IpamGives addr id :: rest => Ok (addr, id) (Driver.set_ipam rest s)
  | IpamFails e :: rest => Err (ErrIpam e) (Driver.set_ipam rest s)
  | [] => Err (ErrIpam PrefixNotConfigured) s
  end.
Definition AllocateFromSubnet (prefix : string) : M (string * Z) := ipamNext.
Definition SetIpIDInSubnet (prefix : string) (id : Z) : M string :=
  r ← ipamNext; mret (fst r).
Definition SetIpAddrIfInsideSubnet (prefix addr : string) : M unit := mret tt.

(** ** The heap of bridge domains *)

Definition newBD (bd : BridgeDomain.t) : M bdPtr := λ s,
  Ok (length (Driver.bridgeDomains s)) (Driver.set_bridgeDomains (λ h, h ++ [bd]) s).

Definition loadBD (p : option bdPtr) : M (bdPtr * BridgeDomain.t) :=
  ptr ← deref p;
  bd ← gets (λ s, Driver.bridgeDomains s !! ptr);
  b ← deref bd;
  mret (ptr, b).

Definition storeBD (ptr : bdPtr) (bd : BridgeDomain.t) : M unit :=
  modify (Driver.set_bridgeDomains (λ h, <[ptr := bd]> h)).

(** ** Resource builders *)

Definition isEmpty (s : string) : bool := String.eqb s "".

Definition constructIpv4AndV6AddressArray (ipv4 ipv6 : string) : list string :=
  let ipAddrArray : list string := [] in
  if negb (isEmpty ipv4) || negb (isEmpty ipv6) then
    let ipAddrArray := if negb (isEmpty ipv4) then [ipv4] else ipAddrArray in
    if negb (isEmpty ipv6) then
      match ipAddrArray with
      | [] => [ipv6]
      | _ => ipAddrArray ++ [ipv6]
      end
    else ipAddrArray
  else ipAddrArray.

Definition rxModeControllerToInterface (contrtollerRxMode : RxModeType)
  : option IfRxModeType :=
  match contrtollerRxMode with
  | RX_MODE_INTERRUPT => Some IF_RX_INTERRUPT
  | RX_MODE_POLLING => Some IF_RX_POLLING
  | RX_MODE_UNKNOWN => None
  end.

Definition getMtu (mtu : Z) : M Z :=
  if mtu =? 0
  then gets (λ s, SystemParameters.Mtu
                    (l2CNPEntityCacheType.SysParms (Driver.l2CNPEntityCache s)))
  else mret mtu.

Definition bridgedDomainCreateWithIfs (etcdVppSwitchKey bdName : string)
  (ifs : list BDInterface.t) (bdParms : option BDParms.t) : M bdPtr :=
  parms ← deref bdParms;
  let bd := BridgeDomain.mk bdName (BDParms.Flood parms)
              (BDParms.UnknownUnicastFlood parms) (BDParms.Forward parms)
              (BDParms.Learn parms) (BDParms.ArpTermination parms)
              (BDParms.MacAge parms) ifs in
  ptr ← newBD bd;
  reconcileInProgress ← gets Driver.reconcileInProgress;
  (if reconcileInProgress : bool
   then reconcileBridgeDomain etcdVppSwitchKey bd
   else txnPut etcdVppSwitchKey (RBridgeDomain bd)) ;;
  mret ptr.

(** using the existing bridge, append the new if to the existing ifs in the
    bridge. The bridge is updated in place, before the write. *)
Definition bridgedDomainAssociateWithIfs (etcdVppSwitchKey : string)
  (bd : option bdPtr) (ifs : list BDInterface.t) : M unit :=
  '(ptr, b) ← loadBD bd;
  let b' := BridgeDomain_set_Interfaces (associateIfs (BridgeDomain.Interfaces b) ifs) b in
  storeBD ptr b' ;;
  reconcileInProgress ← gets Driver.reconcileInProgress;
  if reconcileInProgress : bool
  then reconcileBridgeDomain etcdVppSwitchKey b'
  else txnPut etcdVppSwitchKey (RBridgeDomain b').

Definition vxLanCreate (etcdVppSwitchKey ifname : string) (vni : Z)
  (srcStr dstStr : string) : M Interface.t :=
  let src := stripSlashAndSubnetIpv4Address srcStr in
  let dst := stripSlashAndSubnetIpv4Address dstStr in
  let iface := Interface.mk ifname VXLAN_TUNNEL true "" 0 []
                 (Some (Vxlan.mk src dst vni)) None None None in
  reconcileInProgress ← gets Driver.reconcileInProgress;
  (if reconcileInProgress : bool
   then reconcileInterface etcdVppSwitchKey iface
   else txnPut etcdVppSwitchKey (RInterface iface)) ;;
  mret iface.

Definition memIfCreate (etcdPrefix memIfName : string) (memifID : Z) (isMaster : bool)
  (masterContainer ipv4 macAddress ipv6 : string) (mtu : Z) (rxMode : RxModeType)
  : M Interface.t :=
  let memIf := Interface.mk memIfName MEMORY_INTERFACE true macAddress mtu
                 (constructIpv4AndV6AddressArray ipv4 ipv6) None
                 (Some (Memif.mk memifID isMaster
                          ("/tmp/memif_" +:+ masterContainer +:+ ".sock")))
                 None (rxModeControllerToInterface rxMode) in
  reconcileInProgress ← gets Driver.reconcileInProgress;
  (if reconcileInProgress : bool
   then reconcileInterface etcdPrefix memIf
   else txnPut etcdPrefix (RInterface memIf)) ;;
  mret memIf.

Definition createEthernet (etcdPrefix ifname ipv4 macAddr ipv6 : string) (mtu : Z)
  (rxMode : RxModeType) : M unit :=
  let iface := Interface.mk ifname ETHERNET_CSMACD true macAddr mtu
                 (constructIpv4AndV6AddressArray ipv4 ipv6) None None None
                 (rxModeControllerToInterface rxMode) in
  reconcileInProgress ← gets Driver.reconcileInProgress;
  if reconcileInProgress : bool
  then reconcileInterface etcdPrefix iface
  else txnPut etcdPrefix (RInterface iface).

Definition afPacketCreate (etcdPrefix ifName hostIfName ipv4 macAddress ipv6 : string)
  (mtu : Z) (rxMode : RxModeType) : M Interface.t :=
  let afPacketIf := Interface.mk ifName AF_PACKET_INTERFACE true macAddress mtu
                      (constructIpv4AndV6AddressArray ipv4 ipv6) None None
                      (Some hostIfName) (rxModeControllerToInterface rxMode) in
  reconcileInProgress ← gets Driver.reconcileInProgress;
  (if reconcileInProgress : bool
   then reconcileInterface etcdPrefix afPacketIf
   else txnPut etcdPrefix (RInterface afPacketIf)) ;;
  mret afPacketIf.

Definition createLoopback (etcdPrefix ifname physAddr ipv4 ipv6 : string) (mtu : Z)
  (rxMode : RxModeType) : M unit :=
  let iface := Interface.mk ifname SOFTWARE_LOOPBACK true physAddr mtu
                 (constructIpv4AndV6AddressArray ipv4 ipv6) None None None
                 (rxModeControllerToInterface rxMode) in
  reconcileInProgress ← gets Driver.reconcileInProgress;
  if reconcileInProgress : bool
  then reconcileInterface etcdPrefix iface
  else txnPut etcdPrefix (RInterface iface).

Definition vEthIfCreate (etcdPrefix ifname hostIfName peerIfName container
  physAddr ipv4 ipv6 : string) (mtu : Z) : M unit :=
  let linuxif := LinuxInterface.mk ifname true physAddr hostIfName
                   (constructIpv4AndV6AddressArray ipv4 ipv6) mtu container peerIfName in
  reconcileInProgress ← gets Driver.reconcileInProgress;
  if reconcileInProgress : bool
  then reconcileLinuxInterface etcdPrefix ifname linuxif
  else txnPut etcdPrefix (RLinuxInterface linuxif).

Definition createStaticRoute (vrfID : Z) (etcdPrefix description destIpv4AddrStr
  netHopIpv4Addr outGoingIf : string) (weight pref : Z) : M Route.t :=
  let sr := Route.mk vrfID description destIpv4AddrStr
              (stripSlashAndSubnetIpv4Address netHopIpv4Addr) weight outGoingIf pref in
  reconcileInProgress ← gets Driver.reconcileInProgress;
  (if reconcileInProgress : bool
   then reconcileStaticRoute etcdPrefix sr
   else txnPut etcdPrefix (RStaticRoute sr)) ;;
  mret sr.

(** The reconcile branch of this builder is commented out in the source. *)
Definition createStaticArpEntry (etcdPrefix destIPAddress physAddress outGoingIf : string)
  : M ArpTableEntry.t :=
  let ae := ArpTableEntry.mk outGoingIf true destIPAddress physAddress in
  let key := ArpEntryKey etcdPrefix outGoingIf destIPAddress in
  storePut (DbPut key (RArpEntry ae)) ;;
  mret ae.

Definition createXConnect (etcdPrefix rxIf txIf : string) : M unit :=
  let xconn := XConnectPair.mk rxIf txIf in
  txnPut etcdPrefix (RXConnect xconn).

Definition createXConnectPair (etcdPrefix if1 if2 : string) : M unit :=
  createXConnect etcdPrefix if1 if2 ;;
  createXConnect etcdPrefix if2 if1.

(** The reconcile branch of this builder is commented out in the source. *)
Definition createL2FibEntry (etcdPrefix bdName destMacAddr outGoingIf : string)
  : M FibTableEntry.t :=
  let l2fib := FibTableEntry.mk bdName destMacAddr FIB_FORWARD outGoingIf true in
  txnPut etcdPrefix (RL2Fib l2fib) ;;
  mret l2fib.

Definition setSfcInterfaceIPAndMac (container port ip mac : string) : M unit :=
  let sfcIFAddr := sfcInterfaceAddressStateType.mk ip mac in
  modify (Driver.set_l2CNPStateCache
            (l2CNPStateCacheType.set_SFCIFAddr <[container +:+ "/" +:+ port := sfcIFAddr]>)).

Definition GetSfcInterfaceIPAndMac (container port : string) : M (string * string) :=
  a ← gets (λ s, l2CNPStateCacheType.SFCIFAddr (Driver.l2CNPStateCache s)
                   !! (container +:+ "/" +:+ port));
  match a with
  | Some sfcIFAddr =>
      mret (stripSlashAndSubnetIpv4Address (sfcInterfaceAddressStateType.ipAddress sfcIFAddr),
            sfcInterfaceAddressStateType.macAddress sfcIFAddr)
  | None => raise (ErrAddressesNotFound container port)
  end.

(** ByIfName.Less and sortBridgedInterfaces: insertion sort by interface name
    stands for [sort.Sort]. No function of the driver calls it. *)
Definition ByIfName_Less (a b : BDInterface.t) : bool :=
  String.ltb (BDInterface.Name a) (BDInterface.Name b).

Fixpoint insertByIfName (x : BDInterface.t) (l : list BDInterface.t) : list BDInterface.t :=
  match l with
  | [] => [x]
  | y :: r => if ByIfName_Less y x then y :: insertByIfName x r else x :: l
  end.

Definition sortBridgedInterfaces (ifs : list BDInterface.t) : list BDInterface.t :=
  fold_right insertByIfName [] ifs.

(** ** Wiring of system parameters, hosts and external entities *)

Fixpoint forEach {A} (l : list A) (body : A → M unit) : M unit :=
  match l with
  | [] => mret tt
  | a :: rest => body a ;; forEach rest body
  end.

Definition getSysParms : M SystemParameters.t :=
  gets (λ s, l2CNPEntityCacheType.SysParms (Driver.l2CNPEntityCache s)).
Definition getHEs : M (gmap string HostEntity.t) :=
  gets (λ s, l2CNPEntityCacheType.HEs (Driver.l2CNPEntityCache s)).
Definition getEEs : M (gmap string ExternalEntity.t) :=
  gets (λ s, l2CNPEntityCacheType.EEs (Driver.l2CNPEntityCache s)).
Definition getSeq : M sequencer.t := gets Driver.seq.

(** SetSystemParameters caches the current settings for the system *)
Definition SetSystemParameters (sp : SystemParameters.t) : M unit :=
  modify (Driver.set_l2CNPEntityCache (l2CNPEntityCacheType.set_SysParms sp)) ;;
  q ← getSeq;
  if sequencer.VLanID q =? 0 then
    sp' ← getSysParms;
    modify (Driver.set_seq
              (sequencer.set_VLanID (u32 (SystemParameters.StartingVlanId sp' - 1))))
  else mret tt.

(** Perform CNP specific wiring for "connecting" a source host to a dest host *)
Definition WireHostEntityToDestinationHostEntity (sh dh : HostEntity.t) : M unit :=
  modify (Driver.set_l2CNPEntityCache
            (l2CNPEntityCacheType.set_HEs <[HostEntity.Name sh := sh]>)) ;;
  modify (Driver.set_l2CNPEntityCache
            (l2CNPEntityCacheType.set_HEs <[HostEntity.Name dh := dh]>)) ;;
  m ← gets (λ s, l2CNPStateCacheType.HEToHEs (Driver.l2CNPStateCache s)
                   !! HostEntity.Name sh);
  heToHEMap ←
    match m with
    | Some heToHEMap => mret heToHEMap
    | None =>
        modify (Driver.set_l2CNPStateCache
                  (l2CNPStateCacheType.set_HEToHEs <[HostEntity.Name sh := ∅]>)) ;;
        mret ∅
    end;
  match heToHEMap !! HostEntity.Name dh with
  | Some _ => mret tt
  | None =>
      modify (Driver.set_l2CNPStateCache
                (l2CNPStateCacheType.set_HEToHEs
                   <[HostEntity.Name sh :=
                       <[HostEntity.Name dh := heToHEStateType.zero]> heToHEMap]>))
  end.

(** Perform CNP specific wiring for "connecting" an external router to a host
    server, called after the host is wired to the ee *)
Definition wireExternalEntityToHostEntity (ee : ExternalEntity.t) (he : HostEntity.t)
  : M unit :=
  m ← gets (λ s, l2CNPStateCacheType.HEToEEs (Driver.l2CNPStateCache s)
                   !! HostEntity.Name he);
  match m with
  | None => mret tt
  | Some heToEEMap =>
      match heToEEMap !! ExternalEntity.Name ee with
      | None => mret tt
      | Some heToEEState =>
          vlanIf ← deref (heToEEStateType.vlanIf heToEEState);
          vxlan ← deref (Interface.Vxlan vlanIf);
          let tmpVlanid := Vxlan.Vni vxlan in
          let description := "IF_STATIC_ROUTE_E2H_" +:+ HostEntity.Name he in
          hostInterface ← deref (ExternalEntity.HostInterface ee);
          sp ← getSysParms;
          sr ← createStaticRoute 0 (ExternalEntity.Name ee) description
                 (HostEntity.VxlanTunnelIpv4 he) (HostEntity.EthIpv4 he)
                 (HostInterface.IfName hostInterface)
                 (SystemParameters.DefaultStaticRouteWeight sp)
                 (SystemParameters.DefaultStaticRoutePreference sp);
          modify (Driver.set_extEntityDriver (λ calls,
            calls ++ [SfcCtlrL2WireExternalEntityToHostEntity ee he tmpVlanid sr]))
      end
  end.

(** Perform CNP specific wiring for "connecting" a host server to an external router *)
Definition WireHostEntityToExternalEntity (he : HostEntity.t) (ee : ExternalEntity.t)
  : M unit :=
  modify (Driver.set_l2CNPEntityCache
            (l2CNPEntityCacheType.set_HEs <[HostEntity.Name he := he]>)) ;;
  modify (Driver.set_l2CNPEntityCache
            (l2CNPEntityCacheType.set_EEs <[ExternalEntity.Name ee := ee]>)) ;;
  match ExternalEntity.HostInterface ee, ExternalEntity.HostVxlan ee with
  | Some _, Some _ =>
      m ← gets (λ s, l2CNPStateCacheType.HEToEEs (Driver.l2CNPStateCache s)
                       !! HostEntity.Name he);
      heToEEMap ←
        match m with
        | Some heToEEMap => mret heToEEMap
        | None =>
            modify (Driver.set_l2CNPStateCache
                      (l2CNPStateCacheType.set_HEToEEs <[HostEntity.Name he := ∅]>)) ;;
            mret ∅
        end;
      match heToEEMap !! ExternalEntity.Name ee with
      | Some _ => mret tt
      | None =>
          modify (Driver.set_l2CNPStateCache
                    (l2CNPStateCacheType.set_HEToEEs
                       <[HostEntity.Name he :=
                           <[ExternalEntity.Name ee := heToEEStateType.zero]> heToEEMap]>))
      end
  | _, _ => raise ErrInvalidExternalEntityConfig
  end.

(** The write [heState.field = bd] through the pointer held in [HE[name]]. *)
Definition updateHEState (name : string) (f : heStateType.t → heStateType.t) : M unit :=
  modify (Driver.set_l2CNPStateCache (l2CNPStateCacheType.set_HE (alter f name))).

(** [seq.MacInstanceID++], returning the new value. *)
Definition nextMacInstanceID : M Z :=
  q ← getSeq;
  let v := u32 (sequencer.MacInstanceID q + 1) in
  modify (Driver.set_seq (sequencer.set_MacInstanceID v)) ;; mret v.
Definition nextVLanID : M Z :=
  q ← getSeq;
  let v := u32 (sequencer.VLanID q + 1) in
  modify (Driver.set_seq (sequencer.set_VLanID v)) ;; mret v.
Definition nextMemIfID : M Z :=
  q ← getSeq;
  let v := u32 (sequencer.MemIfID q + 1) in
  modify (Driver.set_seq (sequencer.set_MemIfID v)) ;; mret v.
Definition nextVethID : M Z :=
  q ← getSeq;
  let v := u32 (sequencer.VethID q + 1) in
  modify (Driver.set_seq (sequencer.set_VethID v)) ;; mret v.

(** [bd, err := bridgedDomainCreateWithIfs(...)] followed by
    [if err != nil { log.Errorf(..., bd.Name); return err }]: on an error the
    returned pointer is nil and the log statement dereferences it. *)
Definition bridgedDomainCreateWithIfs_logged (etcdVppSwitchKey bdName : string)
  (ifs : list BDInterface.t) (bdParms : option BDParms.t) : M bdPtr :=
  r ← attempt (bridgedDomainCreateWithIfs etcdVppSwitchKey bdName ifs bdParms);
  match r with
  | inr bd => mret bd
  | inl _ => panic
  end.

(** Perform CNP specific wiring for "preparing" a host server *)
Definition WireInternalsForHostEntity (he : HostEntity.t) : M unit :=
  let name := HostEntity.Name he in
  modify (Driver.set_l2CNPEntityCache (l2CNPEntityCacheType.set_HEs <[name := he]>)) ;;
  st ← gets (λ s, l2CNPStateCacheType.HE (Driver.l2CNPStateCache s) !! name);
  match st with
  | Some _ => mret tt
  | None =>
      modify (Driver.set_l2CNPStateCache
                (l2CNPStateCacheType.set_HE <[name := heStateType.zero]>)) ;;
      mtu ← getMtu (HostEntity.Mtu he);
      (if negb (isEmpty (HostEntity.EthIfName he))
       then createEthernet name (HostEntity.EthIfName he) (HostEntity.EthIpv4 he) ""
              (HostEntity.EthIpv6 he) mtu (HostEntity.RxMode he)
       else mret tt) ;;
      loopbackMacAddrID ←
        (if negb (isEmpty (HostEntity.LoopbackIpv4 he))
            || negb (isEmpty (HostEntity.LoopbackIpv6 he))
         then
           '(loopbackMacAddress, loopbackMacAddrID) ←
             (if isEmpty (HostEntity.LoopbackMacAddr he) then
                heID ← DatastoreHEIDsRetrieve name;
                match heID with
                | Some ids =>
                    if HEIDs.LoopbackMacAddrId ids =? 0
                    then id ← nextMacInstanceID; mret (formatMacAddress id, id)
                    else mret (formatMacAddress (HEIDs.LoopbackMacAddrId ids),
                               HEIDs.LoopbackMacAddrId ids)
                | None => id ← nextMacInstanceID; mret (formatMacAddress id, id)
                end
              else mret (HostEntity.LoopbackMacAddr he, 0));
           mtu ← getMtu (HostEntity.Mtu he);
           createLoopback name ("IF_LOOPBACK_H_" +:+ name) loopbackMacAddress
             (HostEntity.LoopbackIpv4 he) (HostEntity.LoopbackIpv6 he) mtu
             (HostEntity.RxMode he) ;;
           mret loopbackMacAddrID
         else mret 0);
      sp ← getSysParms;
      bd ← bridgedDomainCreateWithIfs_logged name ("BD_INTERNAL_EW_" +:+ name) []
             (SystemParameters.DynamicBridgeParms sp);
      updateHEState name (λ h, heStateType.mk (Some bd) (heStateType.ewBDL2Fib h)) ;;
      sp ← getSysParms;
      bd ← bridgedDomainCreateWithIfs_logged name ("BD_INTERNAL_EW_L2FIB_" +:+ name) []
             (SystemParameters.StaticBridgeParms sp);
      updateHEState name (λ h, heStateType.mk (heStateType.ewBD h) (Some bd)) ;;
      '(key, heID) ← DatastoreHEIDsCreate name loopbackMacAddrID;
      reconcileInProgress ← gets Driver.reconcileInProgress;
      if reconcileInProgress : bool
      then modify (Driver.set_reconcileAfter (reconcileCacheType.set_heIDs <[key := heID]>))
      else mret tt
  end.

(** Perform CNP specific wiring for "preparing" an external entity *)
Definition WireInternalsForExternalEntity (ee : ExternalEntity.t) : M unit :=
  modify (Driver.set_extEntityDriver (λ calls,
    calls ++ [SfcCtlrL2WireExternalEntityInternals ee])).

(** ** Tunnels and bridges toward an external entity or a destination host *)

Definition getHEToEEState (heName eeName : string) : M (option heToEEStateType.t) :=
  m ← gets (λ s, l2CNPStateCacheType.HEToEEs (Driver.l2CNPStateCache s) !! heName);
  match m with
  | None => mret None
  | Some eeMap => mret (eeMap !! eeName)
  end.

Definition getHEToHEState (shName dhName : string) : M (option heToHEStateType.t) :=
  m ← gets (λ s, l2CNPStateCacheType.HEToHEs (Driver.l2CNPStateCache s) !! shName);
  match m with
  | None => mret None
  | Some heMap => mret (heMap !! dhName)
  end.

(** A field write through the pointer held in [HEToEEs[he][ee]]. *)
Definition updateHEToEEState (heName eeName : string)
  (f : heToEEStateType.t → heToEEStateType.t) : M unit :=
  modify (Driver.set_l2CNPStateCache
            (l2CNPStateCacheType.set_HEToEEs (alter (alter f eeName) heName))).

Definition updateHEToHEState (shName dhName : string)
  (f : heToHEStateType.t → heToHEStateType.t) : M unit :=
  modify (Driver.set_l2CNPStateCache
            (l2CNPStateCacheType.set_HEToHEs (alter (alter f dhName) shName))).

Definition lookupHE (name : string) : M HostEntity.t :=
  hes ← getHEs; mret (default HostEntity.zero (hes !! name)).
Definition lookupEE (name : string) : M ExternalEntity.t :=
  ees ← getEEs; mret (default ExternalEntity.zero (ees !! name)).

(** The three blocks of createVxLANAndBridgeToExtEntity. Each reads the
    cache entry through the pointer [heToEEState] and fills one field. *)

(** first time sfc is wired from this host to this external ee so create a
    vxlan tunnel *)
Definition h2eEnsureVxlan (hostName eeName : string) (vlanID : Z) : M unit :=
  st ← getHEToEEState hostName eeName;
  heToEEState ← deref st;
  match heToEEStateType.vlanIf heToEEState with
  | Some _ => mret tt
  | None =>
      he ← lookupHE hostName;
      ee ← lookupEE eeName;
      let ifName := "IF_VXLAN_H2E_" +:+ HostEntity.Name he +:+ "_"
                    +:+ ExternalEntity.Name ee in
      vlanID ←
        (if vlanID =? 0 then
           he2eeID ← DatastoreHE2EEIDsRetrieve (HostEntity.Name he)
                       (ExternalEntity.Name ee);
           match he2eeID with
           | Some ids =>
               if HE2EEIDs.VlanId ids =? 0 then nextVLanID
               else mret (HE2EEIDs.VlanId ids)
           | None => nextVLanID
           end
         else mret vlanID);
      hostVxlan ← deref (ExternalEntity.HostVxlan ee);
      vlanIf ← vxLanCreate (HostEntity.Name he) ifName vlanID
                 (HostEntity.VxlanTunnelIpv4 he) (HostVxlan.SourceIpv4 hostVxlan);
      updateHEToEEState hostName eeName (λ st,
        heToEEStateType.mk (Some vlanIf) (heToEEStateType.bd st)
                           (heToEEStateType.l3Route st)) ;;
      r ← attempt (DatastoreHE2EEIDsCreate (HostEntity.Name he)
                     (ExternalEntity.Name ee) vlanID);
      reconcileInProgress ← gets Driver.reconcileInProgress;
      match r with
      | inr (k1, k2, he2eeID) =>
          if reconcileInProgress : bool
          then modify (Driver.set_reconcileAfter
                         (reconcileCacheType.set_he2eeIDs <[(k1, k2) := he2eeID]>))
          else mret tt
      | inl _ => mret tt
      end
  end.

(** configure static route from this host to the external entity *)
Definition h2eEnsureRoute (hostName eeName : string) : M unit :=
  st ← getHEToEEState hostName eeName;
  heToEEState ← deref st;
  match heToEEStateType.l3Route heToEEState with
  | Some _ => mret tt
  | None =>
      he ← lookupHE hostName;
      ee ← lookupEE eeName;
      if HostEntity.CreateVxlanStaticRoute he then
        let description := "IF_STATIC_ROUTE_H2E_" +:+ ExternalEntity.Name ee in
        hostVxlan ← deref (ExternalEntity.HostVxlan ee);
        hostInterface ← deref (ExternalEntity.HostInterface ee);
        sp ← getSysParms;
        sr ← createStaticRoute 0 (HostEntity.Name he) description
               (HostVxlan.SourceIpv4 hostVxlan) (HostInterface.Ipv4Addr hostInterface)
               (HostEntity.EthIfName he)
               (SystemParameters.DefaultStaticRouteWeight sp)
               (SystemParameters.DefaultStaticRoutePreference sp);
        updateHEToEEState hostName eeName (λ st,
          heToEEStateType.mk (heToEEStateType.vlanIf st) (heToEEStateType.bd st)
                             (Some sr))
      else mret tt
  end.

(** first time sfc is wired from this host to this external ee so create a
    bridge; now we can wire the external entity to this host *)
Definition h2eEnsureBridge (hostName eeName : string) : M unit :=
  st ← getHEToEEState hostName eeName;
  heToEEState ← deref st;
  match heToEEStateType.bd heToEEState with
  | Some _ => mret tt
  | None =>
      he ← lookupHE hostName;
      ee ← lookupEE eeName;
      let bdName := "BD_H2E_" +:+ HostEntity.Name he +:+ "_"
                    +:+ ExternalEntity.Name ee in
      vlanIf ← deref (heToEEStateType.vlanIf heToEEState);
      let ifs := [BDInterface.mk (Interface.Name vlanIf)] in
      sp ← getSysParms;
      bd ← bridgedDomainCreateWithIfs_logged (HostEntity.Name he) bdName ifs
             (SystemParameters.DynamicBridgeParms sp);
      updateHEToEEState hostName eeName (λ st,
        heToEEStateType.mk (heToEEStateType.vlanIf st) (Some bd)
                           (heToEEStateType.l3Route st)) ;;
      attempt (wireExternalEntityToHostEntity ee he) ;;
      mret tt
  end.

(** createVxLANAndBridgeToExtEntity and ensure vxlan and bridge are created if
    not already done yet *)
Definition createVxLANAndBridgeToExtEntity (sfc : SfcEntity.t)
  (hostName eeName : string) (vlanID : Z) : M (option bdPtr) :=
  m ← gets (λ s, l2CNPStateCacheType.HEToEEs (Driver.l2CNPStateCache s) !! hostName);
  match m with
  | None => raise (ErrToExtEntityHostNotFound hostName (SfcEntity.Name sfc))
  | Some heToEEMap =>
      match heToEEMap !! eeName with
      | None => raise (ErrToExtEntityNotWired hostName eeName (SfcEntity.Name sfc))
      | Some _ =>
          h2eEnsureVxlan hostName eeName vlanID ;;
          h2eEnsureRoute hostName eeName ;;
          h2eEnsureBridge hostName eeName ;;
          st ← getHEToEEState hostName eeName;
          heToEEState ← deref st;
          mret (heToEEStateType.bd heToEEState)
      end
  end.

(** The three blocks of createVxLANAndBridgeToDestHost. *)

(** first time sfc is wired from this host to this dest host so create a vxlan
    tunnel. The binding is looked up with [DatastoreHE2EEIDsRetrieve] and
    persisted with [DatastoreHE2HEIDsCreate], as in the source. *)
Definition h2hEnsureVxlan (shName dhName : string) (vlanID : Z) : M unit :=
  st ← getHEToHEState shName dhName;
  heToHEState ← deref st;
  match heToHEStateType.vlanIf heToHEState with
  | Some _ => mret tt
  | None =>
      sh ← lookupHE shName;
      dh ← lookupHE dhName;
      let ifName := "IF_VXLAN_H2H_" +:+ HostEntity.Name sh +:+ "_"
                    +:+ HostEntity.Name dh in
      vlanID ←
        (if vlanID =? 0 then
           he2eeID ← DatastoreHE2EEIDsRetrieve (HostEntity.Name sh)
                       (HostEntity.Name dh);
           match he2eeID with
           | Some ids =>
               if HE2EEIDs.VlanId ids =? 0 then nextVLanID
               else mret (HE2EEIDs.VlanId ids)
           | None => nextVLanID
           end
         else mret vlanID);
      vlanIf ← vxLanCreate (HostEntity.Name sh) ifName vlanID
                 (HostEntity.VxlanTunnelIpv4 sh) (HostEntity.VxlanTunnelIpv4 dh);
      updateHEToHEState shName dhName (λ st,
        heToHEStateType.mk (Some vlanIf) (heToHEStateType.bd st)
                           (heToHEStateType.l3Route st)) ;;
      r ← attempt (DatastoreHE2HEIDsCreate (HostEntity.Name sh)
                     (HostEntity.Name dh) vlanID);
      reconcileInProgress ← gets Driver.reconcileInProgress;
      match r with
      | inr (k1, k2, sh2dhID) =>
          if reconcileInProgress : bool
          then modify (Driver.set_reconcileAfter
                         (reconcileCacheType.set_he2heIDs <[(k1, k2) := sh2dhID]>))
          else mret tt
      | inl _ => mret tt
      end
  end.

(** configure static route from this host to the dest host *)
Definition h2hEnsureRoute (shName dhName : string) : M unit :=
  st ← getHEToHEState shName dhName;
  heToHEState ← deref st;
  match heToHEStateType.l3Route heToHEState with
  | Some _ => mret tt
  | None =>
      sh ← lookupHE shName;
      dh ← lookupHE dhName;
      if HostEntity.CreateVxlanStaticRoute sh then
        let description := "IF_STATIC_ROUTE_H2H_" +:+ HostEntity.Name dh in
        sp ← getSysParms;
        sr ← createStaticRoute 0 (HostEntity.Name sh) description
               (HostEntity.VxlanTunnelIpv4 dh) (HostEntity.EthIpv4 dh)
               (HostEntity.EthIfName sh)
               (SystemParameters.DefaultStaticRouteWeight sp)
               (SystemParameters.DefaultStaticRoutePreference sp);
        updateHEToHEState shName dhName (λ st,
          heToHEStateType.mk (heToHEStateType.vlanIf st) (heToHEStateType.bd st)
                             (Some sr))
      else mret tt
  end.

(** first time sfc is wired from this host to this dest host so create a bridge *)
Definition h2hEnsureBridge (shName dhName : string) : M unit :=
  st ← getHEToHEState shName dhName;
  heToHEState ← deref st;
  match heToHEStateType.bd heToHEState with
  | Some _ => mret tt
  | None =>
      sh ← lookupHE shName;
      dh ← lookupHE dhName;
      let bdName := "BD_H2H_" +:+ HostEntity.Name sh +:+ "_"
                    +:+ HostEntity.Name dh in
      vlanIf ← deref (heToHEStateType.vlanIf heToHEState);
      let ifs := [BDInterface.mk (Interface.Name vlanIf)] in
      sp ← getSysParms;
      bd ← bridgedDomainCreateWithIfs_logged (HostEntity.Name sh) bdName ifs
             (SystemParameters.DynamicBridgeParms sp);
      updateHEToHEState shName dhName (λ st,
        heToHEStateType.mk (heToHEStateType.vlanIf st) (Some bd)
                           (heToHEStateType.l3Route st))
  end.

(** createVxLANAndBridgeToDestHost and ensure vxlan and bridge are created if
    not already done yet *)
Definition createVxLANAndBridgeToDestHost (sfc : SfcEntity.t)
  (shName dhName : string) (vlanID : Z) : M (option bdPtr) :=
  m ← gets (λ s, l2CNPStateCacheType.HEToHEs (Driver.l2CNPStateCache s) !! shName);
  match m with
  | None => raise (ErrToDestHostHostNotFound shName (SfcEntity.Name sfc))
  | Some heToHEMap =>
      match heToHEMap !! dhName with
      | None => raise (ErrToDestHostNotWired shName dhName (SfcEntity.Name sfc))
      | Some _ =>
          h2hEnsureVxlan shName dhName vlanID ;;
          h2hEnsureRoute shName dhName ;;
          h2hEnsureBridge shName dhName ;;
          st ← getHEToHEState shName dhName;
          heToHEState ← deref st;
          mret (heToHEStateType.bd heToHEState)
      end
  end.

(** ** Container interface pairs *)

(** The address an element gets: its own (with "/24" appended when it has no
    prefix length), or one from IPAM when the chain has a prefix. Returns the
    address and the IPAM id to persist. *)
Definition assignIpv4 (sfc : SfcEntity.t) (vnfChainElement : SfcElement.t)
  (sfcID : option SFCIDs.t) (generateAddresses : bool) : M (string * Z) :=
  if isEmpty (SfcElement.Ipv4Addr vnfChainElement) then
    if generateAddresses && negb (isEmpty (SfcEntity.SfcIpv4Prefix sfc)) then
      match sfcID with
      | Some ids =>
          if SFCIDs.IpId ids =? 0 then AllocateFromSubnet (SfcEntity.SfcIpv4Prefix sfc)
          else
            ipv4Address ← SetIpIDInSubnet (SfcEntity.SfcIpv4Prefix sfc) (SFCIDs.IpId ids);
            mret (ipv4Address, SFCIDs.IpId ids)
      | None => AllocateFromSubnet (SfcEntity.SfcIpv4Prefix sfc)
      end
    else mret ("", 0)
  else
    let strs := Split (SfcElement.Ipv4Addr vnfChainElement) slash in
    let ipv4Address :=
      if (length strs =? 2)%nat then SfcElement.Ipv4Addr vnfChainElement
      else SfcElement.Ipv4Addr vnfChainElement +:+ "/24" in
    (if negb (isEmpty (SfcEntity.SfcIpv4Prefix sfc))
     then SetIpAddrIfInsideSubnet (SfcEntity.SfcIpv4Prefix sfc) (nth 0 strs "")
     else mret tt) ;;
    mret (ipv4Address, 0).

(** The MAC an element gets: its own, or one formatted from a MAC instance id. *)
Definition assignMac (vnfChainElement : SfcElement.t) (sfcID : option SFCIDs.t)
  (generateAddresses : bool) : M (string * Z) :=
  if isEmpty (SfcElement.MacAddr vnfChainElement) then
    if generateAddresses then
      match sfcID with
      | Some ids =>
          if SFCIDs.MacAddrId ids =? 0
          then id ← nextMacInstanceID; mret (formatMacAddress id, id)
          else mret (formatMacAddress (SFCIDs.MacAddrId ids), SFCIDs.MacAddrId ids)
      | None => id ← nextMacInstanceID; mret (formatMacAddress id, id)
      end
    else mret ("", 0)
  else mret (SfcElement.MacAddr vnfChainElement, 0).

Definition recordSfcIDs (r : error + (string * string * string * SFCIDs.t)) : M unit :=
  reconcileInProgress ← gets Driver.reconcileInProgress;
  match r with
  | inr (k1, k2, k3, sfcID) =>
      if reconcileInProgress : bool
      then modify (Driver.set_reconcileAfter
                     (reconcileCacheType.set_sfcIDs <[(k1, k2, k3) := sfcID]>))
      else mret tt
  | inl _ => mret tt
  end.

(** createInterContainerMemIfPair creates a memif pair between two containers *)
Definition createInterContainerMemIfPair (sfcName vnf1Container vnf1Port
  vnf2Container vnf2Port : string) (mtu : Z) (rxMode : RxModeType) (memIFID : Z) : M unit :=
  memIfCreate vnf1Container vnf1Port memIFID true vnf1Container "" "" "" mtu rxMode ;;
  memIfCreate vnf2Container vnf2Port memIFID false vnf1Container "" "" "" mtu rxMode ;;
  mret tt.

(** The loop of createOneOrMoreInterContainerMemIfPairs:
    [for repeatCount := uint32(0); repeatCount <= vnfRepeatCount; repeatCount++].
    [fuel] bounds the number of iterations; the counter wraps as a uint32. *)
Fixpoint interContainerMemIfPairsLoop (fuel : nat) (sfcName : string)
  (vnfElement1 vnfElement2 : SfcElement.t) (vnfRepeatCount mtu : Z)
  (rxMode : RxModeType) (repeatCount : Z) : M unit :=
  match fuel with
  | O => diverge
  | S fuel' =>
      if repeatCount <=? vnfRepeatCount then
        let container1Name :=
          if repeatCount =? 0 then SfcElement.Container vnfElement1
          else "vnfx-" +:+ Itoa (u32 (repeatCount - 1)) in
        let vnf1Port := SfcElement.PortLabel vnfElement1 in
        let container2Name :=
          if repeatCount =? vnfRepeatCount then SfcElement.Container vnfElement2
          else "vnfx-" +:+ Itoa repeatCount in
        let vnf2Port := SfcElement.PortLabel vnfElement2 in
        sfcID ← DatastoreSFCIDsRetrieve sfcName container1Name vnf1Port;
        memifID ←
          match sfcID with
          | Some ids => if SFCIDs.MemifId ids =? 0 then nextMemIfID
                        else mret (SFCIDs.MemifId ids)
          | None => nextMemIfID
          end;
        createInterContainerMemIfPair sfcName container1Name vnf1Port
          container2Name vnf2Port mtu rxMode memifID ;;
        r ← attempt (DatastoreSFCIDsCreate sfcName container1Name vnf1Port 0 0 memifID 0);
        recordSfcIDs r ;;
        interContainerMemIfPairsLoop fuel' sfcName vnfElement1 vnfElement2
          vnfRepeatCount mtu rxMode (u32 (repeatCount + 1))
      else mret tt
  end.

Definition createOneOrMoreInterContainerMemIfPairs (sfcName : string)
  (vnfElement1 vnfElement2 : SfcElement.t) (vnfRepeatCount : Z) : M unit :=
  mtu ← getMtu (SfcElement.Mtu vnfElement1);
  let rxMode := SfcElement.RxMode vnfElement1 in
  interContainerMemIfPairsLoop (Z.to_nat vnfRepeatCount + 2) sfcName
    vnfElement1 vnfElement2 vnfRepeatCount mtu rxMode 0.

(** createMemIfPair creates memif pair and returns vswitch-end memif interface name *)
Definition createMemIfPair (sfc : SfcEntity.t) (hostName : string)
  (vnfChainElement : SfcElement.t) (generateAddresses : bool) : M string :=
  let container := SfcElement.Container vnfChainElement in
  let port := SfcElement.PortLabel vnfChainElement in
  let switch := SfcElement.EtcdVppSwitchKey vnfChainElement in
  sfcID ← DatastoreSFCIDsRetrieve (SfcEntity.Name sfc) container port;
  memifID ←
    match sfcID with
    | Some ids => if SFCIDs.MemifId ids =? 0 then nextMemIfID else mret (SFCIDs.MemifId ids)
    | None => nextMemIfID
    end;
  '(ipv4Address, ipID) ← assignIpv4 sfc vnfChainElement sfcID generateAddresses;
  '(macAddress, macAddrID) ← assignMac vnfChainElement sfcID generateAddresses;
  mtu ← getMtu (SfcElement.Mtu vnfChainElement);
  let rxMode := SfcElement.RxMode vnfChainElement in
  memIfCreate container port memifID false switch ipv4Address macAddress
    (SfcElement.Ipv6Addr vnfChainElement) mtu rxMode ;;
  let memIfName := "IF_MEMIF_VSWITCH_" +:+ container +:+ "_" +:+ port in
  r ← attempt (memIfCreate switch memIfName memifID true switch "" "" "" mtu rxMode);
  match r with
  | inl _ => panic
  | inr _ =>
      r ← attempt (DatastoreSFCIDsCreate (SfcEntity.Name sfc) container port
                     ipID macAddrID memifID 0);
      recordSfcIDs r ;;
      setSfcInterfaceIPAndMac container port ipv4Address macAddress ;;
      match r with
      | inl err => raise err
      | inr _ => mret memIfName
      end
  end.

(** createMemIfPairAndAddToBridge creates a memif pair and adds the vswitch-end
    interface into the provided bridge domain *)
Definition createMemIfPairAndAddToBridge (sfc : SfcEntity.t) (hostName : string)
  (bd : option bdPtr) (vnfChainElement : SfcElement.t) (generateAddresses : bool)
  : M string :=
  memIfName ← createMemIfPair sfc hostName vnfChainElement generateAddresses;
  let ifs := [BDInterface.mk memIfName] in
  bridgedDomainAssociateWithIfs (SfcElement.EtcdVppSwitchKey vnfChainElement) bd ifs ;;
  mret memIfName.

Definition createAFPacketVEthPair (sfc : SfcEntity.t) (vnfChainElement : SfcElement.t)
  : M string :=
  let container := SfcElement.Container vnfChainElement in
  let port := SfcElement.PortLabel vnfChainElement in
  let switch := SfcElement.EtcdVppSwitchKey vnfChainElement in
  let ipv6Address := SfcElement.Ipv6Addr vnfChainElement in
  sfcID ← DatastoreSFCIDsRetrieve (SfcEntity.Name sfc) container port;
  vethID ←
    match sfcID with
    | Some ids => if SFCIDs.VethId ids =? 0 then nextVethID else mret (SFCIDs.VethId ids)
    | None => nextVethID
    end;
  '(ipv4Address, ipID) ← assignIpv4 sfc vnfChainElement sfcID true;
  '(macAddress, macAddrID) ← assignMac vnfChainElement sfcID true;
  mtu ← getMtu (SfcElement.Mtu vnfChainElement);
  let rxMode := SfcElement.RxMode vnfChainElement in
  let veth1Name := "IF_VETH_VNF_" +:+ container +:+ "_" +:+ port in
  let veth2Name := "IF_VETH_VSWITCH_" +:+ container +:+ "_" +:+ port in
  let host1Name := port in
  let vethIDStr := FormatUint vethID 36 in
  let baseHostName := constructBaseHostName container port vethIDStr in
  let host2Name := baseHostName +:+ "_" +:+ vethIDStr in
  let isVppAfp :=
    bool_decide (SfcElement.Type_ vnfChainElement = VPP_CONTAINER_AFP) in
  let ipv4AddrForVEth := if isVppAfp then "" else ipv4Address in
  let ipv6AddrForVEth := if isVppAfp then "" else ipv6Address in
  let ipv4AddrForAFP := ipv4Address in
  let ipv6AddrForAFP := ipv6Address in
  vEthIfCreate switch veth1Name host1Name veth2Name container macAddress
    ipv4AddrForVEth ipv6AddrForVEth mtu ;;
  vEthIfCreate switch veth2Name host2Name veth1Name switch "" "" "" mtu ;;
  (if isVppAfp then
     r ← attempt (afPacketCreate container port host1Name ipv4AddrForAFP macAddress
                    ipv6AddrForAFP mtu rxMode);
     match r with
     | inl _ => panic
     | inr _ => mret tt
     end
   else mret tt) ;;
  let afPktName := "IF_AFPIF_VSWITCH_" +:+ container +:+ "_" +:+ port in
  r ← attempt (afPacketCreate switch afPktName host2Name "" "" "" mtu rxMode);
  match r with
  | inl _ => panic
  | inr afPktIf2 =>
      r ← attempt (DatastoreSFCIDsCreate (SfcEntity.Name sfc) container port
                     ipID macAddrID 0 vethID);
      recordSfcIDs r ;;
      setSfcInterfaceIPAndMac container port ipv4Address macAddress ;;
      mret (Interface.Name afPktIf2)
  end.

Definition createAFPacketVEthPairAndAddToBridge (sfc : SfcEntity.t)
  (bd : option bdPtr) (vnfChainElement : SfcElement.t) : M string :=
  afPktIfName ← createAFPacketVEthPair sfc vnfChainElement;
  let ifs := [BDInterface.mk afPktIfName] in
  bridgedDomainAssociateWithIfs (SfcElement.EtcdVppSwitchKey vnfChainElement) bd ifs ;;
  mret afPktIfName.

(** ** Wiring of SFC entities *)

(** What the first loop of wireSfcNorthSouthVXLANElements collects. *)
Module nsScan.
Record t := mk {
  eeCount : Z;
  eeName : string;
  eeSfcElement : option SfcElement.t;
  dhCount : Z;
  dhName : string;
  dhSfcElement : option SfcElement.t }.
Definition init : t := mk 0 "" None 0 "" None.
End nsScan.

(** find the external entity and ensure there is only one allowed *)
Fixpoint nsVxlanScan (sfc : SfcEntity.t) (elements : list SfcElement.t) (acc : nsScan.t)
  : M nsScan.t :=
  match elements with
  | [] => mret acc
  | sfcEntityElement :: rest =>
      match SfcElement.Type_ sfcEntityElement with
      | EXTERNAL_ENTITY =>
          let eeCount := nsScan.eeCount acc + 1 in
          if 1 <? eeCount then raise (ErrNSVxlanOnlyOneEE (SfcEntity.Name sfc))
          else
            let eeName := SfcElement.Container sfcEntityElement in
            ees ← getEEs;
            match ees !! SfcElement.Container sfcEntityElement with
            | None => raise (ErrNSVxlanEENotFound eeName (SfcEntity.Name sfc))
            | Some _ =>
                nsVxlanScan sfc rest
                  (nsScan.mk eeCount eeName (Some sfcEntityElement) (nsScan.dhCount acc)
                     (nsScan.dhName acc) (nsScan.dhSfcElement acc))
            end
      | HOST_ENTITY =>
          let dhCount := nsScan.dhCount acc + 1 in
          if 1 <? dhCount then raise (ErrNSVxlanOnlyOneDestHost (SfcEntity.Name sfc))
          else
            let dhName := SfcElement.Container sfcEntityElement in
            hes ← getHEs;
            match hes !! SfcElement.Container sfcEntityElement with
            | None => raise (ErrNSVxlanDestHostNotFound dhName (SfcEntity.Name sfc))
            | Some _ =>
                nsVxlanScan sfc rest
                  (nsScan.mk (nsScan.eeCount acc) (nsScan.eeName acc)
                     (nsScan.eeSfcElement acc) dhCount dhName (Some sfcEntityElement))
            end
      | _ => nsVxlanScan sfc rest acc
      end
  end.

(** The bridge a container of a north/south vxlan chain is attached to. *)
Definition nsVxlanBridge (sfc : SfcEntity.t) (scan : nsScan.t)
  (sfcEntityElement : SfcElement.t) : M (option bdPtr) :=
  if negb (nsScan.eeCount scan =? 0) then
    eeSfcElement ← deref (nsScan.eeSfcElement scan);
    createVxLANAndBridgeToExtEntity sfc (SfcElement.EtcdVppSwitchKey sfcEntityElement)
      (nsScan.eeName scan) (SfcElement.VlanId eeSfcElement)
  else
    dhSfcElement ← deref (nsScan.dhSfcElement scan);
    createVxLANAndBridgeToDestHost sfc (SfcElement.EtcdVppSwitchKey sfcEntityElement)
      (nsScan.dhName scan) (SfcElement.VlanId dhSfcElement).

(** now wire each container to the bridge wired from the host to the ee *)
Definition nsVxlanWireElement (sfc : SfcEntity.t) (scan : nsScan.t)
  (sfcEntityElement : SfcElement.t) : M unit :=
  match SfcElement.Type_ sfcEntityElement with
  | VPP_CONTAINER_AFP | NON_VPP_CONTAINER_AFP =>
      bd ← nsVxlanBridge sfc scan sfcEntityElement;
      createAFPacketVEthPairAndAddToBridge sfc bd sfcEntityElement ;;
      mret tt
  | VPP_CONTAINER_MEMIF | NON_VPP_CONTAINER_MEMIF =>
      bd ← nsVxlanBridge sfc scan sfcEntityElement;
      createMemIfPairAndAddToBridge sfc (SfcElement.EtcdVppSwitchKey sfcEntityElement)
        bd sfcEntityElement false ;;
      mret tt
  | _ => mret tt
  end.

(** for now, ensure there is only one ee ... as each container will be wirred to it *)
Definition wireSfcNorthSouthVXLANElements (sfc : SfcEntity.t) : M unit :=
  scan ← nsVxlanScan sfc (SfcEntity.Elements sfc) nsScan.init;
  if (nsScan.eeCount scan =? 0) && (nsScan.dhCount scan =? 0)
  then raise (ErrNSVxlanNoEEOrDH (SfcEntity.Name sfc))
  else forEach (SfcEntity.Elements sfc) (nsVxlanWireElement sfc scan).

Definition createVRFEntries (etcdVppSwitchKey : string) (sfcEntityElement : SfcElement.t)
  (ifaceName defaultDescription : string) : M unit :=
  forEach (SfcElement.L3VrfRoutes sfcEntityElement) (λ l3VRFRoute,
    sp ← getSysParms;
    let weight :=
      if L3VRFRoute.Weight l3VRFRoute =? 0
      then SystemParameters.DefaultStaticRouteWeight sp
      else L3VRFRoute.Weight l3VRFRoute in
    let pref :=
      if L3VRFRoute.Preference l3VRFRoute =? 0
      then SystemParameters.DefaultStaticRoutePreference sp
      else L3VRFRoute.Preference l3VRFRoute in
    let vrfDescription :=
      if negb (isEmpty (L3VRFRoute.Description l3VRFRoute))
      then L3VRFRoute.Description l3VRFRoute
      else defaultDescription in
    createStaticRoute (L3VRFRoute.VrfId l3VRFRoute) etcdVppSwitchKey vrfDescription
      (L3VRFRoute.DstIpAddr l3VRFRoute) (L3VRFRoute.NextHopAddr l3VRFRoute)
      ifaceName weight pref ;;
    mret tt) ;;
  forEach (SfcElement.L3ArpEntries sfcEntityElement) (λ l3VRFArpEntry,
    createStaticArpEntry etcdVppSwitchKey (L3ArpEntry.IpAddress l3VRFArpEntry)
      (L3ArpEntry.PhysAddress l3VRFArpEntry) ifaceName ;;
    mret tt).

(** [bd.Name] for a bridge held by pointer. *)
Definition bdName (bd : option bdPtr) : M string :=
  '(_, b) ← loadBD bd; mret (BridgeDomain.Name b).

(** now create the l2fib entries *)
Definition createL2FibEntries (etcdPrefix : string) (bd : option bdPtr)
  (macs : list string) (outGoingIf : string) : M unit :=
  forEach macs (λ macAddr,
    name ← bdName bd;
    createL2FibEntry etcdPrefix name macAddr outGoingIf ;;
    mret tt).

(** find the host entity and ensure there is only one allowed *)
Fixpoint nsNicScan (sfc : SfcEntity.t) (elements : list SfcElement.t)
  (heCount : Z) (he : option SfcElement.t) : M (Z * option SfcElement.t) :=
  match elements with
  | [] => mret (heCount, he)
  | sfcEntityElement :: rest =>
      match SfcElement.Type_ sfcEntityElement with
      | HOST_ENTITY =>
          let heCount := heCount + 1 in
          if 1 <? heCount then raise (ErrNSNicOnlyOneHE (SfcEntity.Name sfc))
          else nsNicScan sfc rest heCount (Some sfcEntityElement)
      | _ => nsNicScan sfc rest heCount he
      end
  end.

Definition vrfDescriptionFor (sfc : SfcEntity.t) (e : SfcElement.t) : string :=
  "VRF_" +:+ SfcEntity.Name sfc +:+ "_" +:+ SfcElement.Container e +:+ "_"
  +:+ SfcElement.PortLabel e.

(** now wire each container to the bridge on the he *)
Definition nsNicWireElement (sfc : SfcEntity.t) (he : SfcElement.t) (bd : option bdPtr)
  (sfcEntityElement : SfcElement.t) : M unit :=
  let switch := SfcElement.EtcdVppSwitchKey sfcEntityElement in
  match SfcElement.Type_ sfcEntityElement with
  | VPP_CONTAINER_AFP | NON_VPP_CONTAINER_AFP =>
      match SfcEntity.Type_ sfc with
      | SFC_NS_NIC_BD =>
          ifName ← createAFPacketVEthPairAndAddToBridge sfc bd sfcEntityElement;
          createL2FibEntries switch bd (SfcElement.L2FibMacs sfcEntityElement) ifName
      | SFC_NS_NIC_VRF =>
          afIfName ← createAFPacketVEthPair sfc sfcEntityElement;
          createVRFEntries switch sfcEntityElement afIfName
            (vrfDescriptionFor sfc sfcEntityElement)
      | _ =>
          afIfName ← createAFPacketVEthPair sfc sfcEntityElement;
          createXConnectPair switch (SfcElement.PortLabel he) afIfName
      end
  | VPP_CONTAINER_MEMIF | NON_VPP_CONTAINER_MEMIF =>
      match SfcEntity.Type_ sfc with
      | SFC_NS_NIC_BD =>
          ifName ← createMemIfPairAndAddToBridge sfc switch bd sfcEntityElement false;
          createL2FibEntries switch bd (SfcElement.L2FibMacs sfcEntityElement) ifName
      | SFC_NS_NIC_VRF =>
          afIfName ← createAFPacketVEthPair sfc sfcEntityElement;
          createVRFEntries switch sfcEntityElement afIfName
            (vrfDescriptionFor sfc sfcEntityElement)
      | _ =>
          memIfName ← createMemIfPair sfc switch sfcEntityElement false;
          createXConnectPair switch (SfcElement.PortLabel he) memIfName
      end
  | _ => mret tt
  end.

(** north/south NIC type, memIfs/cntrs connect to physical NIC *)
Definition wireSfcNorthSouthNICElements (sfc : SfcEntity.t) : M unit :=
  '(heCount, heElement) ← nsNicScan sfc (SfcEntity.Elements sfc) 0 None;
  if heCount =? 0 then raise (ErrNSNicNoHE (SfcEntity.Name sfc))
  else
    he ← deref heElement;
    mtu ← getMtu (SfcElement.Mtu he);
    createEthernet (SfcElement.Container he) (SfcElement.PortLabel he) ""
      (SfcElement.MacAddr he) (SfcElement.Ipv6Addr he) mtu (SfcElement.RxMode he) ;;
    bd ←
      (if bool_decide (SfcEntity.Type_ sfc = SFC_NS_NIC_BD) then
         let ifEntry := BDInterface.mk (SfcElement.PortLabel he) in
         sp ← getSysParms;
         let bdParms :=
           match SfcEntity.BdParms sfc with
           | None => SystemParameters.StaticBridgeParms sp
           | Some p => Some p
           end in
         let bdName := "BD_INTERNAL_NS_"
                       +:+ replaceSlashesWithUScores (SfcElement.PortLabel he) in
         bd ← bridgedDomainCreateWithIfs_logged (SfcElement.Container he) bdName
                [ifEntry] bdParms;
         createL2FibEntries (SfcElement.Container he) (Some bd)
           (SfcElement.L2FibMacs he) (SfcElement.PortLabel he) ;;
         mret (Some bd)
       else mret None);
    (if bool_decide (SfcEntity.Type_ sfc = SFC_NS_NIC_VRF)
     then createVRFEntries (SfcElement.Container he) he (SfcElement.PortLabel he)
            (vrfDescriptionFor sfc he)
     else mret tt) ;;
    forEach (SfcEntity.Elements sfc) (nsNicWireElement sfc he bd).

Definition isEWBridgeType (t : SfcType) : bool :=
  bool_decide (t = SFC_EW_BD) || bool_decide (t = SFC_EW_BD_L2FIB).

(** The bridge an element of an east/west bridge chain joins: the host's
    dynamic bridge, its static bridge, or a bridge of the chain's own when the
    chain carries bridge parameters. The source repeats this block in the
    af-packet and the memif case. *)
Definition ewBridge (sfc : SfcEntity.t) (sfcEntityElement : SfcElement.t)
  : M (option bdPtr) :=
  let switch := SfcElement.EtcdVppSwitchKey sfcEntityElement in
  h ← gets (λ s, l2CNPStateCacheType.HE (Driver.l2CNPStateCache s) !! switch);
  match h with
  | None => raise (ErrEWHostBridgeNotFound switch (SfcEntity.Name sfc))
  | Some heState =>
      if bool_decide (SfcEntity.Type_ sfc = SFC_EW_BD) then mret (heStateType.ewBD heState)
      else
        match SfcEntity.BdParms sfc with
        | None => mret (heStateType.ewBDL2Fib heState)
        | Some _ =>
            m ← gets (λ s, l2CNPStateCacheType.SFCToHEs (Driver.l2CNPStateCache s)
                             !! SfcEntity.Name sfc);
            sfcToHEMap ←
              match m with
              | Some sfcToHEMap => mret sfcToHEMap
              | None =>
                  modify (Driver.set_l2CNPStateCache
                            (l2CNPStateCacheType.set_SFCToHEs
                               <[SfcEntity.Name sfc := ∅]>)) ;;
                  mret ∅
              end;
            match sfcToHEMap !! switch with
            | None =>
                let bdName := "BD_INTERNAL_EW_" +:+ SfcEntity.Name sfc +:+ "_" +:+ switch in
                bd ← bridgedDomainCreateWithIfs_logged switch bdName []
                       (SfcEntity.BdParms sfc);
                modify (Driver.set_l2CNPStateCache
                          (l2CNPStateCacheType.set_SFCToHEs
                             <[SfcEntity.Name sfc :=
                                 <[switch := heStateType.mk None (Some bd)]> sfcToHEMap]>)) ;;
                mret (Some bd)
            | Some heState => mret (heStateType.ewBDL2Fib heState)
            end
        end
  end.

(** l2xconnect-based wiring: the first interface of a pair is carried in
    [prevMemIfName], the second one is cross-connected to it. Returns the
    carry for the next element. *)
Definition ewXConnect (etcdPrefix ifName prevMemIfName : string) : M string :=
  if negb (isEmpty prevMemIfName) then
    createXConnectPair etcdPrefix ifName prevMemIfName ;; mret ""
  else mret ifName.

(** The body of the loop of wireSfcEastWestElements for the element at index
    [i] (which is [sfc.Elements[i]]); returns the new [prevMemIfName]. *)
Definition ewWireElement (sfc : SfcEntity.t) (i : nat) (sfcEntityElement : SfcElement.t)
  (prevMemIfName : string) : M string :=
  let switch := SfcElement.EtcdVppSwitchKey sfcEntityElement in
  match SfcElement.Type_ sfcEntityElement with
  | EXTERNAL_ENTITY => raise (ErrEWExternalEntity (SfcEntity.Name sfc))
  | VPP_CONTAINER_AFP | NON_VPP_CONTAINER_AFP =>
      if isEWBridgeType (SfcEntity.Type_ sfc) then
        bd ← ewBridge sfc sfcEntityElement;
        ifName ← createAFPacketVEthPairAndAddToBridge sfc bd sfcEntityElement;
        createL2FibEntries switch bd (SfcElement.L2FibMacs sfcEntityElement) ifName ;;
        mret prevMemIfName
      else
        afIfName ← createAFPacketVEthPair sfc sfcEntityElement;
        ewXConnect switch afIfName prevMemIfName
  | VPP_CONTAINER_MEMIF | NON_VPP_CONTAINER_MEMIF =>
      if bool_decide (SfcEntity.Type_ sfc = SFC_EW_MEMIF) then
        (if Nat.even i then
           vnfElement2 ← deref (SfcEntity.Elements sfc !! S i);
           createOneOrMoreInterContainerMemIfPairs (SfcEntity.Name sfc)
             sfcEntityElement vnfElement2 (SfcEntity.VnfRepeatCount sfc)
         else mret tt) ;;
        mret prevMemIfName
      else if isEWBridgeType (SfcEntity.Type_ sfc) then
        bd ← ewBridge sfc sfcEntityElement;
        ifName ← createMemIfPairAndAddToBridge sfc switch bd sfcEntityElement true;
        createL2FibEntries switch bd (SfcElement.L2FibMacs sfcEntityElement) ifName ;;
        mret prevMemIfName
      else
        memIfName ← createMemIfPair sfc switch sfcEntityElement false;
        ewXConnect switch memIfName prevMemIfName
  | _ => mret prevMemIfName
  end.

Fixpoint ewWireLoop (sfc : SfcEntity.t) (elements : list SfcElement.t) (i : nat)
  (prevMemIfName : string) : M unit :=
  match elements with
  | [] => mret tt
  | sfcEntityElement :: rest =>
      prevMemIfName ← ewWireElement sfc i sfcEntityElement prevMemIfName;
      ewWireLoop sfc rest (S i) prevMemIfName
  end.

(** This is a group of containers that need to be wired to an e/w bridge. *)
Definition wireSfcEastWestElements (sfc : SfcEntity.t) : M unit :=
  if bool_decide (SfcEntity.Type_ sfc = SFC_EW_MEMIF)
     && negb (Nat.even (length (SfcEntity.Elements sfc)))
  then raise (ErrEWMemifPairs (SfcEntity.Name sfc))
  else ewWireLoop sfc (SfcEntity.Elements sfc) 0 "".

(** Perform CNP specific wiring for inter-container wiring, and container to
    external router wiring *)
Definition WireSfcEntity (sfc : SfcEntity.t) : M unit :=
  let cacheSfc :=
    modify (Driver.set_l2CNPEntityCache
              (l2CNPEntityCacheType.set_SFCs <[SfcEntity.Name sfc := sfc]>)) in
  match SfcEntity.Type_ sfc with
  | SFC_NS_VXLAN => cacheSfc ;; wireSfcNorthSouthVXLANElements sfc
  | SFC_NS_NIC_BD | SFC_NS_NIC_VRF | SFC_NS_NIC_L2XCONN =>
      cacheSfc ;; wireSfcNorthSouthNICElements sfc
  | SFC_EW_MEMIF | SFC_EW_BD | SFC_EW_BD_L2FIB | SFC_EW_L2XCONN =>
      cacheSfc ;; wireSfcEastWestElements sfc
  | _ => raise (ErrUnknownEntityType (SfcEntity.Type_ sfc))
  end.

(** * Properties *)

(** ** MAC addresses from instance ids *)

(** Two upper-case hexadecimal digits of a byte. *)
Definition hexByte (b : Z) : string :=
  String (digitChar upperDigits (b / 16)) (String (digitChar upperDigits (b mod 16)) "").

(** The [n] low bytes of [v], most significant first. *)
Fixpoint bigEndian (n : nat) (v : Z) : list Z :=
  match n with
  | O => []
  | S k => (v / 256 ^ Z.of_nat k) mod 256 :: bigEndian k v
  end.

(** Octets written as colon-separated hexadecimal pairs. *)
Definition macString (octets : list Z) : string :=
  String.concat ":" (map hexByte octets).

Definition hexValue (c : ascii) : Z :=
  match String.index 0 (String c "") upperDigits with
  | Some n => Z.of_nat n
  | None => 0
  end.

Lemma hexValue_digitChar d : 0 <= d < 16 → hexValue (digitChar upperDigits d) = d.
Proof.
  intros H.
  assert (Hc : d = 0 ∨ d = 1 ∨ d = 2 ∨ d = 3 ∨ d = 4 ∨ d = 5 ∨ d = 6 ∨ d = 7 ∨
               d = 8 ∨ d = 9 ∨ d = 10 ∨ d = 11 ∨ d = 12 ∨ d = 13 ∨ d = 14 ∨ d = 15)
    by lia.
  repeat (destruct Hc as [-> | Hc]; [reflexivity |]). subst d. reflexivity.
Qed.

Lemma Sprintf_02X_byte b : 0 <= b < 256 → Sprintf_02X b = hexByte b.
Proof.
  intros H. unfold Sprintf_02X, hexByte. cbn [formatDigits].
  destruct (Z.ltb_spec b 16) as [Hlt | Hge].
  - rewrite Z.div_small, Z.mod_small by lia. reflexivity.
  - assert (Hq : (b / 16 <? 16) = true).
    { apply Z.ltb_lt. apply Z.div_lt_upper_bound; lia. }
    rewrite Hq. reflexivity.
Qed.

Lemma hexByte_inj a b : 0 <= a < 256 → 0 <= b < 256 → hexByte a = hexByte b → a = b.
Proof.
  intros Ha Hb Heq. unfold hexByte in Heq. injection Heq as H1 H2.
  apply (f_equal hexValue) in H1, H2.
  rewrite !hexValue_digitChar in H1, H2;
    try (apply Z.mod_pos_bound; lia);
    try (split; [apply Z.div_pos; lia | apply Z.div_lt_upper_bound; lia]).
  rewrite (Z.div_mod a 16), (Z.div_mod b 16) by lia. congruence.
Qed.

Lemma land_255_shiftr v k : 0 <= k → Z.land 255 (Z.shiftr v k) = (v / 2 ^ k) mod 256.
Proof.
  intros Hk. rewrite Z.land_comm, Z.shiftr_div_pow2 by lia.
  change 255 with (Z.ones 8). rewrite Z.land_ones by lia. reflexivity.
Qed.

Lemma formatMacAddress_octets id :
  0 <= id < 2 ^ 32 → formatMacAddress id = macString (2 :: bigEndian 5 id).
Proof.
  intros H. unfold formatMacAddress, macOctets, macString.
  cbn [take fold_left nth map bigEndian String.concat].
  rewrite !land_255_shiftr by lia.
  rewrite !Sprintf_02X_byte; try (apply Z.mod_pos_bound; lia); try lia.
  cbn. reflexivity.
Qed.

Definition isByte (b : Z) : Prop := 0 <= b < 256.

Lemma macString_inj (l1 l2 : list Z) :
  Forall isByte l1 → Forall isByte l2 → length l1 = length l2 →
  macString l1 = macString l2 → l1 = l2.
Proof.
  revert l2. induction l1 as [| x xs IH]; intros [| y ys] H1 H2 Hlen Heq;
    try discriminate; [reflexivity |].
  inversion H1 as [| ? ? Hx Hxs]; inversion H2 as [| ? ? Hy Hys]; subst.
  unfold macString in *.
  destruct xs as [| x' xs'], ys as [| y' ys']; try discriminate.
  - cbn [map String.concat] in Heq. f_equal. by apply hexByte_inj.
  - cbn [map String.concat] in Heq. cbn [map String.concat] in IH.
    unfold hexByte in Heq at 1. unfold hexByte in Heq at 2.
    cbn [String.append] in Heq.
    injection Heq as Hd1 Hd2 Hrest.
    assert (x = y) as ->.
    { apply hexByte_inj; [done | done |]. unfold hexByte. by rewrite Hd1, Hd2. }
    f_equal. apply IH; [done | done | simpl in Hlen |- *; lia | done].
Qed.

Lemma bigEndian_isByte n v : Forall isByte (bigEndian n v).
Proof.
  induction n as [| k IH]; cbn [bigEndian]; constructor; [| done].
  apply Z.mod_pos_bound. lia.
Qed.

Lemma bigEndian4_inj a b :
  0 <= a < 2 ^ 32 → 0 <= b < 2 ^ 32 → bigEndian 4 a = bigEndian 4 b → a = b.
Proof.
  intros Ha Hb Heq. cbn [bigEndian] in Heq.
  change (256 ^ Z.of_nat 3) with 16777216 in Heq.
  change (256 ^ Z.of_nat 2) with 65536 in Heq.
  change (256 ^ Z.of_nat 1) with 256 in Heq.
  change (256 ^ Z.of_nat 0) with 1 in Heq.
  change (2 ^ 32) with 4294967296 in *.
  injection Heq as H3 H2 H1 H0.
  Z.div_mod_to_equations. lia.
Qed.

(** C9. For every id in [1, 2^32) the MAC string has first octet 02 and then
    the five big-endian bytes of the id, and no two ids of that range format
    to the same string. *)
Theorem formatMacAddress_big_endian_injective (id : Z) :
  1 <= id < 2 ^ 32 →
  formatMacAddress id = macString (2 :: bigEndian 5 id)
  ∧ hexByte 2 = "02"
  ∧ ∀ id', 1 <= id' < 2 ^ 32 → formatMacAddress id = formatMacAddress id' → id = id'.
Proof.
  intros H. split; [apply formatMacAddress_octets; lia |]. split; [reflexivity |].
  intros id' H' Heq.
  rewrite !formatMacAddress_octets in Heq by lia.
  apply macString_inj in Heq.
  - apply bigEndian4_inj; try lia.
    cbn [bigEndian] in Heq |- *. congruence.
  - constructor; [unfold isByte; lia | apply bigEndian_isByte].
  - constructor; [unfold isByte; lia | apply bigEndian_isByte].
  - reflexivity.
Qed.

Lemma formatMacAddress_witness :
  formatMacAddress 5000 = "02:00:00:00:13:88"
  ∧ (formatMacAddress 5000 = formatMacAddress 5001 → 5000 = 5001).
Proof.
  assert (R1 : 1 <= 5000 < 2 ^ 32) by lia.
  assert (R2 : 1 <= 5001 < 2 ^ 32) by lia.
  destruct (formatMacAddress_big_endian_injective 5000 R1) as (Hfmt & _ & Hinj).
  split.
  - rewrite Hfmt. reflexivity.
  - exact (Hinj 5001 R2).
Defined.

(** ** Reasoning about driver computations *)

Lemma bind_unfold {A B} (m : M A) (k : A → M B) (s : Driver.t) :
  (m ≫= k) s =
  match m s with
  | Ok a s' => k a s'
  | Err e s' => Err e s'
  | Panic s' => Panic s'
  | Diverge => Diverge
  end.
Proof. reflexivity. Qed.

Lemma bind_Ok {A B} (m : M A) (k : A → M B) s a s' :
  m s = Ok a s' → (m ≫= k) s = k a s'.
Proof. intros H. rewrite bind_unfold, H. reflexivity. Qed.

Lemma bind_Err {A B} (m : M A) (k : A → M B) s e s' :
  m s = Err e s' → (m ≫= k) s = Err e s'.
Proof. intros H. rewrite bind_unfold, H. reflexivity. Qed.

Lemma forEach_app {A} (l1 l2 : list A) (body : A → M unit) s :
  forEach (l1 ++ l2) body s = (forEach l1 body ;; forEach l2 body) s.
Proof.
  revert s. induction l1 as [| a l1 IH]; intros s; cbn [forEach app].
  - reflexivity.
  - rewrite !bind_unfold. destruct (body a s); try reflexivity.
    rewrite IH. reflexivity.
Qed.

(** Unfold the monad operations of a computation applied to a state. *)
Ltac runM :=
  unfold mbind, M_bind, mret, M_ret, gets, modify, raise, panic, diverge,
    attempt, deref in *; cbn beta iota in *.

(** Expose the fields behind the record setters. *)
Ltac unfold_setters :=
  unfold Driver.set_db, Driver.set_l2CNPEntityCache, Driver.set_l2CNPStateCache,
    Driver.set_reconcileAfter, Driver.set_reconcileInProgress, Driver.set_seq,
    Driver.set_bridgeDomains, Driver.set_extEntityDriver, Driver.set_ipam,
    KVStore.set_puts, KVStore.set_faults, KVStore.set_heIDs, KVStore.set_he2eeIDs,
    KVStore.set_he2heIDs, KVStore.set_sfcIDs,
    reconcileCacheType.set_ifs, reconcileCacheType.set_lifs, reconcileCacheType.set_bds,
    reconcileCacheType.set_l3Routes, reconcileCacheType.set_heIDs,
    reconcileCacheType.set_he2eeIDs, reconcileCacheType.set_he2heIDs,
    reconcileCacheType.set_sfcIDs,
    l2CNPStateCacheType.set_HEToEEs, l2CNPStateCacheType.set_HEToHEs,
    l2CNPStateCacheType.set_SFCToHEs, l2CNPStateCacheType.set_HE,
    l2CNPStateCacheType.set_SFCIFAddr,
    l2CNPEntityCacheType.set_EEs, l2CNPEntityCacheType.set_HEs,
    l2CNPEntityCacheType.set_SFCs, l2CNPEntityCacheType.set_SysParms,
    sequencer.set_VLanID, sequencer.set_MemIfID, sequencer.set_MacInstanceID,
    sequencer.set_VethID in *;
  cbn in *.

(** ** Seeding of the VLAN counter *)

Definition vlanCounter (s : Driver.t) : Z := sequencer.VLanID (Driver.seq s).

Lemma SetSystemParameters_run sp s :
  SetSystemParameters sp s =
  Ok tt (if vlanCounter s =? 0
         then Driver.set_seq
                (sequencer.set_VLanID (u32 (SystemParameters.StartingVlanId sp - 1)))
                (Driver.set_l2CNPEntityCache (l2CNPEntityCacheType.set_SysParms sp) s)
         else Driver.set_l2CNPEntityCache (l2CNPEntityCacheType.set_SysParms sp) s).
Proof.
  unfold SetSystemParameters, getSeq, getSysParms, vlanCounter. runM.
  destruct s as [db ec sc ra rip q h ext ip]; cbn.
  destruct (sequencer.VLanID q =? 0); reflexivity.
Qed.

(** The counter after a sequence of SetSystemParameters calls. *)
Definition afterSetSystemParameters (sps : list SystemParameters.t) (s : Driver.t)
  : option Z :=
  vlanCounter <$> final (forEach sps SetSystemParameters s).

(** A counter that was seeded to a non-zero value survives every later call. *)
Lemma SetSystemParameters_keeps_nonzero sps s :
  vlanCounter s ≠ 0 → afterSetSystemParameters sps s = Some (vlanCounter s).
Proof.
  unfold afterSetSystemParameters. revert s.
  induction sps as [| sp sps IH]; intros s Hnz; cbn [forEach].
  - reflexivity.
  - rewrite bind_unfold, SetSystemParameters_run.
    apply Z.eqb_neq in Hnz. rewrite Hnz.
    rewrite IH; [reflexivity |].
    destruct s; cbn in *. by apply Z.eqb_neq.
Qed.

(** On a new driver the first call seeds the counter to starting_vlan_id - 1;
    when that value is not 0, no later call changes it. *)
Lemma SetSystemParameters_seeds_once db ip sp sps :
  u32 (SystemParameters.StartingVlanId sp - 1) ≠ 0 →
  afterSetSystemParameters (sp :: sps) (NewSfcCtlrL2CNPDriver db ip)
  = Some (u32 (SystemParameters.StartingVlanId sp - 1)).
Proof.
  intros Hnz. unfold afterSetSystemParameters. cbn [forEach].
  rewrite bind_unfold, SetSystemParameters_run. cbn [vlanCounter].
  change (vlanCounter (NewSfcCtlrL2CNPDriver db ip) =? 0) with true. cbn iota.
  match goal with
  | |- vlanCounter <$> final (forEach sps SetSystemParameters ?s) = _ =>
      pose proof (SetSystemParameters_keeps_nonzero sps s Hnz) as H
  end.
  exact H.
Qed.

Definition sysParmsStartingAt (start : Z) : SystemParameters.t :=
  SystemParameters.mk 1500 start 5 0 None None.

(** C5. With starting_vlan_id = 1 the first call seeds the counter to 0, the
    value the driver takes for "not yet set", and the second call seeds it
    again, to 4999. *)
Theorem SetSystemParameters_reseeds_after_start_1 :
  afterSetSystemParameters [sysParmsStartingAt 1]
    (NewSfcCtlrL2CNPDriver KVStore.empty []) = Some 0
  ∧ afterSetSystemParameters [sysParmsStartingAt 1; sysParmsStartingAt 5000]
      (NewSfcCtlrL2CNPDriver KVStore.empty []) = Some 4999.
Proof. split; reflexivity. Qed.

(** ** Recording host-to-host and host-to-external-entity edges *)

Definition heToHE (s : Driver.t) (sh dh : string) : option heToHEStateType.t :=
  l2CNPStateCacheType.HEToHEs (Driver.l2CNPStateCache s) !! sh ≫= (λ m, m !! dh).

Definition heToEE (s : Driver.t) (he ee : string) : option heToEEStateType.t :=
  l2CNPStateCacheType.HEToEEs (Driver.l2CNPStateCache s) !! he ≫= (λ m, m !! ee).

Definition cachedHE (s : Driver.t) (name : string) : option HostEntity.t :=
  l2CNPEntityCacheType.HEs (Driver.l2CNPEntityCache s) !! name.

Definition cachedEE (s : Driver.t) (name : string) : option ExternalEntity.t :=
  l2CNPEntityCacheType.EEs (Driver.l2CNPEntityCache s) !! name.

(** Everything the driver derives or publishes: the store with its write log
    and ID tables, the reconcile buffer, the bridge domains, the requests to
    the external-entity driver, the sequences, and the IPAM. *)
Definition derivedState (s : Driver.t) :=
  (Driver.db s, Driver.reconcileAfter s, Driver.bridgeDomains s,
   Driver.extEntityDriver s, Driver.seq s, Driver.ipam s).

Lemma insert_twice_idem {V} (m : gmap string V) k1 v1 k2 v2 :
  <[k2 := v2]> (<[k1 := v1]> (<[k2 := v2]> (<[k1 := v1]> m)))
  = <[k2 := v2]> (<[k1 := v1]> m).
Proof.
  apply map_eq. intros k. rewrite !lookup_insert.
  repeat case_decide; done.
Qed.

Lemma WireHostEntityToDestinationHostEntity_frame sh dh s :
  ∃ s', WireHostEntityToDestinationHostEntity sh dh s = Ok tt s'
    ∧ derivedState s' = derivedState s
    ∧ Driver.reconcileInProgress s' = Driver.reconcileInProgress s
    ∧ l2CNPStateCacheType.HEToEEs (Driver.l2CNPStateCache s')
      = l2CNPStateCacheType.HEToEEs (Driver.l2CNPStateCache s)
    ∧ heToHE s' (HostEntity.Name sh) (HostEntity.Name dh)
      = Some (default heToHEStateType.zero
                (heToHE s (HostEntity.Name sh) (HostEntity.Name dh)))
    ∧ (∀ a b, (a, b) ≠ (HostEntity.Name sh, HostEntity.Name dh) →
              heToHE s' a b = heToHE s a b)
    ∧ WireHostEntityToDestinationHostEntity sh dh s' = Ok tt s'.
Proof.
  destruct s as [db [ees hes sfcs sp] [h2e h2h s2h hh addr] ra rip q heap ext ip].
  unfold WireHostEntityToDestinationHostEntity, heToHE, derivedState. runM.
  unfold_setters.
  destruct (h2h !! HostEntity.Name sh) as [inner |] eqn:Hsh; cbn.
  - destruct (inner !! HostEntity.Name dh) as [entry |] eqn:Hdh; cbn.
    + eexists. split; [reflexivity |]. cbn. rewrite Hsh. cbn. rewrite Hdh. cbn.
      rewrite insert_twice_idem.
      repeat split; try done.
    + eexists. split; [reflexivity |]. cbn.
      rewrite !lookup_insert_eq. cbn. rewrite !lookup_insert_eq. cbn.
      rewrite insert_twice_idem.
      repeat split; try done.
      intros a b Hne. rewrite lookup_insert. case_decide as Ha; [| done].
      subst a. cbn. rewrite Hsh. cbn. rewrite lookup_insert_ne; [done |].
      intros Hb. subst b. by apply Hne.
  - rewrite lookup_empty. cbn.
    eexists. split; [reflexivity |]. cbn.
    rewrite !lookup_insert_eq. cbn. rewrite !lookup_insert_eq. cbn.
    rewrite insert_twice_idem.
    repeat split; try done.
    intros a b Hne. rewrite !lookup_insert. case_decide as Ha; [| done].
    subst a. cbn. rewrite Hsh. cbn. rewrite lookup_insert_ne; [done |].
    intros Hb. subst b. by apply Hne.
Qed.

Lemma WireHostEntityToExternalEntity_frame he ee s :
  is_Some (ExternalEntity.HostInterface ee) → is_Some (ExternalEntity.HostVxlan ee) →
  ∃ s', WireHostEntityToExternalEntity he ee s = Ok tt s'
    ∧ derivedState s' = derivedState s
    ∧ Driver.reconcileInProgress s' = Driver.reconcileInProgress s
    ∧ l2CNPStateCacheType.HEToHEs (Driver.l2CNPStateCache s')
      = l2CNPStateCacheType.HEToHEs (Driver.l2CNPStateCache s)
    ∧ heToEE s' (HostEntity.Name he) (ExternalEntity.Name ee)
      = Some (default heToEEStateType.zero
                (heToEE s (HostEntity.Name he) (ExternalEntity.Name ee)))
    ∧ (∀ a b, (a, b) ≠ (HostEntity.Name he, ExternalEntity.Name ee) →
              heToEE s' a b = heToEE s a b)
    ∧ WireHostEntityToExternalEntity he ee s' = Ok tt s'.
Proof.
  intros [hi Hhi] [hv Hhv].
  destruct s as [db [ees hes sfcs sp] [h2e h2h s2h hh addr] ra rip q heap ext ip].
  unfold WireHostEntityToExternalEntity, heToEE, derivedState. rewrite Hhi, Hhv. runM.
  unfold_setters.
  destruct (h2e !! HostEntity.Name he) as [inner |] eqn:Hhe; cbn.
  - destruct (inner !! ExternalEntity.Name ee) as [entry |] eqn:Hee; cbn.
    + eexists. split; [reflexivity |]. cbn. rewrite Hhe. cbn. rewrite Hee. cbn.
      rewrite !insert_insert_eq.
      repeat split; try done.
    + eexists. split; [reflexivity |]. cbn.
      rewrite !lookup_insert_eq. cbn. rewrite !lookup_insert_eq. cbn.
      rewrite !insert_insert_eq.
      repeat split; try done.
      intros a b Hne. rewrite lookup_insert. case_decide as Ha; [| done].
      subst a. cbn. rewrite Hhe. cbn. rewrite lookup_insert_ne; [done |].
      intros Hb. subst b. by apply Hne.
  - rewrite lookup_empty. cbn.
    eexists. split; [reflexivity |]. cbn.
    rewrite !lookup_insert_eq. cbn. rewrite !lookup_insert_eq. cbn.
    rewrite !insert_insert_eq.
    repeat split; try done.
    intros a b Hne. rewrite !lookup_insert. case_decide as Ha; [| done].
    subst a. cbn. rewrite Hhe. cbn. rewrite lookup_insert_ne; [done |].
    intros Hb. subst b. by apply Hne.
Qed.

(** The external entities in the entity cache. *)
Definition cachedEEs (s : Driver.t) : gmap string ExternalEntity.t :=
  l2CNPEntityCacheType.EEs (Driver.l2CNPEntityCache s).

(** The entity cache apart from the hosts and the external entities: the
    chains and the system parameters. *)
Definition entityCacheRest (s : Driver.t) :=
  (l2CNPEntityCacheType.SFCs (Driver.l2CNPEntityCache s),
   l2CNPEntityCacheType.SysParms (Driver.l2CNPEntityCache s)).

(** The state cache apart from the two tables of edges: the state of the
    hosts, of the hosts of the chains, and the addresses of the interfaces of
    the chains. *)
Definition stateCacheRest (s : Driver.t) :=
  (l2CNPStateCacheType.HE (Driver.l2CNPStateCache s),
   l2CNPStateCacheType.SFCToHEs (Driver.l2CNPStateCache s),
   l2CNPStateCacheType.SFCIFAddr (Driver.l2CNPStateCache s)).

(** The table of edges once the edge (a, b) is recorded: as it was when the
    edge is there, and with the entry [zero] added for it otherwise. *)
Definition recordEdge {V} (zero : V) (a b : string) (m : gmap string (gmap string V))
  : gmap string (gmap string V) :=
  match m !! a ≫= (λ x, x !! b) with
  | Some _ => m
  | None => <[a := <[b := zero]> (default ∅ (m !! a))]> m
  end.

(** The state in which the two hosts are cached and their edge is recorded,
    everything else being as in [s]. *)
Definition h2hRecorded (sh dh : HostEntity.t) (s : Driver.t) : Driver.t :=
  Driver.set_l2CNPStateCache
    (l2CNPStateCacheType.set_HEToHEs
       (recordEdge (heToHEStateType.mk None None None)
          (HostEntity.Name sh) (HostEntity.Name dh)))
    (Driver.set_l2CNPEntityCache
       (l2CNPEntityCacheType.set_HEs
          (λ m, <[HostEntity.Name dh := dh]> (<[HostEntity.Name sh := sh]> m))) s).

(** The state in which the host and the external entity are cached and their
    edge is recorded, everything else being as in [s]. *)
Definition h2eRecorded (he : HostEntity.t) (ee : ExternalEntity.t) (s : Driver.t)
  : Driver.t :=
  Driver.set_l2CNPStateCache
    (l2CNPStateCacheType.set_HEToEEs
       (recordEdge (heToEEStateType.mk None None None)
          (HostEntity.Name he) (ExternalEntity.Name ee)))
    (Driver.set_l2CNPEntityCache
       (λ c, l2CNPEntityCacheType.set_EEs <[ExternalEntity.Name ee := ee]>
               (l2CNPEntityCacheType.set_HEs <[HostEntity.Name he := he]> c)) s).

Lemma WireHostEntityToDestinationHostEntity_run sh dh s :
  WireHostEntityToDestinationHostEntity sh dh s = Ok tt (h2hRecorded sh dh s).
Proof.
  destruct s as [db [ees hes sfcs sp] [h2e h2h s2h hh addr] ra rip q heap ext ip].
  unfold WireHostEntityToDestinationHostEntity, h2hRecorded, recordEdge. runM.
  unfold_setters. cbn.
  destruct (h2h !! HostEntity.Name sh) as [inner |] eqn:Hsh; cbn.
  - by destruct (inner !! HostEntity.Name dh).
  - rewrite lookup_empty. cbn. by rewrite insert_insert_eq.
Qed.

Lemma WireHostEntityToExternalEntity_run he ee s :
  is_Some (ExternalEntity.HostInterface ee) → is_Some (ExternalEntity.HostVxlan ee) →
  WireHostEntityToExternalEntity he ee s = Ok tt (h2eRecorded he ee s).
Proof.
  intros [hi Hhi] [hv Hhv].
  destruct s as [db [ees hes sfcs sp] [h2e h2h s2h hh addr] ra rip q heap ext ip].
  unfold WireHostEntityToExternalEntity, h2eRecorded, recordEdge. rewrite Hhi, Hhv. runM.
  unfold_setters. cbn.
  destruct (h2e !! HostEntity.Name he) as [inner |] eqn:Hhe; cbn.
  - by destruct (inner !! ExternalEntity.Name ee).
  - rewrite lookup_empty. cbn. by rewrite insert_insert_eq.
Qed.

Lemma recordEdge_recorded {V} (zero : V) a b m :
  is_Some (m !! a ≫= (λ x, x !! b)) → recordEdge zero a b m = m.
Proof. intros [v Hv]. unfold recordEdge. by rewrite Hv. Qed.

(** C6. Wiring a host to a destination host, or to an external entity that
    has its host interface and its host vxlan, returns successfully in the
    state in which the two entities are cached under their names and the edge
    is recorded, and which is otherwise the state before: the store, the
    reconcile buffer and mode, the bridge domains, the requests to the
    external-entity driver, the sequences, the IPAM, the system parameters,
    the cached chains, the state of the hosts, of the chains and of the
    interfaces of the chains, and every other edge are as they were. An edge
    not yet recorded is recorded with its three sub-resources nil; for a
    recorded edge the state cache is as it was. Repeating the call changes
    nothing. *)
Theorem wire_host_edges_only_record_the_edge (s : Driver.t) :
  (∀ sh dh,
     let s' := h2hRecorded sh dh s in
     WireHostEntityToDestinationHostEntity sh dh s = Ok tt s'
     ∧ derivedState s' = derivedState s
     ∧ Driver.reconcileInProgress s' = Driver.reconcileInProgress s
     ∧ l2CNPEntityCacheType.HEs (Driver.l2CNPEntityCache s')
       = <[HostEntity.Name dh := dh]>
           (<[HostEntity.Name sh := sh]>
              (l2CNPEntityCacheType.HEs (Driver.l2CNPEntityCache s)))
     ∧ entityCacheRest s' = entityCacheRest s
     ∧ cachedEEs s' = cachedEEs s
     ∧ stateCacheRest s' = stateCacheRest s
     ∧ heToHE s' (HostEntity.Name sh) (HostEntity.Name dh)
       = Some (default (heToHEStateType.mk None None None)
                 (heToHE s (HostEntity.Name sh) (HostEntity.Name dh)))
     ∧ (∀ a b, (a, b) ≠ (HostEntity.Name sh, HostEntity.Name dh) →
               heToHE s' a b = heToHE s a b)
     ∧ (∀ a b, heToEE s' a b = heToEE s a b)
     ∧ (is_Some (heToHE s (HostEntity.Name sh) (HostEntity.Name dh)) →
        Driver.l2CNPStateCache s' = Driver.l2CNPStateCache s)
     ∧ WireHostEntityToDestinationHostEntity sh dh s' = Ok tt s')
  ∧ (∀ he ee,
       is_Some (ExternalEntity.HostInterface ee) →
       is_Some (ExternalEntity.HostVxlan ee) →
       let s' := h2eRecorded he ee s in
       WireHostEntityToExternalEntity he ee s = Ok tt s'
       ∧ derivedState s' = derivedState s
       ∧ Driver.reconcileInProgress s' = Driver.reconcileInProgress s
       ∧ l2CNPEntityCacheType.HEs (Driver.l2CNPEntityCache s')
         = <[HostEntity.Name he := he]>
             (l2CNPEntityCacheType.HEs (Driver.l2CNPEntityCache s))
       ∧ cachedEEs s' = <[ExternalEntity.Name ee := ee]> (cachedEEs s)
       ∧ entityCacheRest s' = entityCacheRest s
       ∧ stateCacheRest s' = stateCacheRest s
       ∧ heToEE s' (HostEntity.Name he) (ExternalEntity.Name ee)
         = Some (default (heToEEStateType.mk None None None)
                   (heToEE s (HostEntity.Name he) (ExternalEntity.Name ee)))
       ∧ (∀ a b, (a, b) ≠ (HostEntity.Name he, ExternalEntity.Name ee) →
                 heToEE s' a b = heToEE s a b)
       ∧ (∀ a b, heToHE s' a b = heToHE s a b)
       ∧ (is_Some (heToEE s (HostEntity.Name he) (ExternalEntity.Name ee)) →
          Driver.l2CNPStateCache s' = Driver.l2CNPStateCache s)
       ∧ WireHostEntityToExternalEntity he ee s' = Ok tt s').
Proof.
  split.
  - intros sh dh s'.
    pose proof (WireHostEntityToDestinationHostEntity_run sh dh s) as Hrun.
    destruct (WireHostEntityToDestinationHostEntity_frame sh dh s)
      as (s1 & Hrun1 & Hd & Hrip & Hee & Hedge & Hother & Hidem).
    rewrite Hrun in Hrun1. injection Hrun1 as <-.
    split; [exact Hrun |]. split; [exact Hd |]. split; [exact Hrip |].
    do 4 (split; [reflexivity |]).
    split; [exact Hedge |]. split; [exact Hother |].
    split; [| split; [| exact Hidem]].
    + intros a b. unfold heToEE. subst s'. by rewrite Hee.
    + intros Hrec. unfold s', h2hRecorded. unfold_setters. cbn.
      rewrite recordEdge_recorded by done. by destruct s as [? ? []].
  - intros he ee Hhi Hhv s'.
    pose proof (WireHostEntityToExternalEntity_run he ee s Hhi Hhv) as Hrun.
    destruct (WireHostEntityToExternalEntity_frame he ee s Hhi Hhv)
      as (s1 & Hrun1 & Hd & Hrip & Hhh & Hedge & Hother & Hidem).
    rewrite Hrun in Hrun1. injection Hrun1 as <-.
    split; [exact Hrun |]. split; [exact Hd |]. split; [exact Hrip |].
    do 4 (split; [reflexivity |]).
    split; [exact Hedge |]. split; [exact Hother |].
    split; [| split; [| exact Hidem]].
    + intros a b. unfold heToHE. subst s'. by rewrite Hhh.
    + intros Hrec. unfold s', h2eRecorded. unfold_setters. cbn.
      rewrite recordEdge_recorded by done. by destruct s as [? ? []].
Qed.

Definition host1 : HostEntity.t :=
  HostEntity.mk "h1" "eth0" "10.0.0.1/24" "" "" "" "" "10.0.20.1/24" false 0 RX_MODE_UNKNOWN.
Definition host2 : HostEntity.t :=
  HostEntity.mk "h2" "eth0" "10.0.0.2/24" "" "" "" "" "10.0.20.2/24" false 0 RX_MODE_UNKNOWN.
Definition router1 : ExternalEntity.t :=
  ExternalEntity.mk "ee1" "" 0 "" "" EE_DRIVER_TYPE_UNKNOWN
    (Some (HostInterface.mk "Gig1" "10.0.0.9/24"))
    (Some (HostVxlan.mk "nve1" "10.0.30.1")) None.
(** An external entity without host interface and host vxlan. *)
Definition router_bare : ExternalEntity.t :=
  ExternalEntity.mk "ee1" "" 0 "" "" EE_DRIVER_TYPE_UNKNOWN None None None.

Definition newDriver : Driver.t := NewSfcCtlrL2CNPDriver KVStore.empty [].

Lemma wire_host_edges_witness :
  WireHostEntityToExternalEntity host1 router1 newDriver
  = Ok tt (h2eRecorded host1 router1 newDriver)
  ∧ derivedState (h2eRecorded host1 router1 newDriver) = derivedState newDriver
  ∧ heToEE (h2eRecorded host1 router1 newDriver) "h1" "ee1"
    = Some (heToEEStateType.mk None None None).
Proof.
  destruct (proj2 (wire_host_edges_only_record_the_edge newDriver) host1 router1)
    as (Hrun & Hd & _ & _ & _ & _ & _ & Hedge & _); [by eexists | by eexists |].
  repeat split; done.
Defined.

(** For the recorded pair (h1, ee1), a repeated call that passes the external
    entity without its host interface and host vxlan returns an error and
    replaces the cached record of the external entity; for a pair not yet
    recorded such a call returns the error and records no edge. *)
Lemma wire_host_edge_invalid_ee_not_recorded :
  let s := h2eRecorded host1 router1 newDriver in
  WireHostEntityToExternalEntity host1 router1 newDriver = Ok tt s
  ∧ is_Some (heToEE s "h1" "ee1")
  ∧ cachedEE s "ee1" = Some router1
  ∧ (∃ s', WireHostEntityToExternalEntity host1 router_bare s
           = Err ErrInvalidExternalEntityConfig s'
           ∧ heToEE s' "h1" "ee1" = heToEE s "h1" "ee1"
           ∧ cachedEE s' "ee1" = Some router_bare)
  ∧ (∃ s', WireHostEntityToExternalEntity host1 router_bare newDriver
           = Err ErrInvalidExternalEntityConfig s'
           ∧ heToEE s' "h1" "ee1" = None).
Proof.
  cbv zeta. split; [apply WireHostEntityToExternalEntity_run; by eexists |].
  split; [vm_compute; by eexists |].
  split; [vm_compute; reflexivity |].
  split; eexists; (split; [vm_compute; reflexivity |]); vm_compute; done.
Qed.

(** C10. With the host interface or the host vxlan of the external entity
    missing, the call returns an error and the state cache is as before, so
    no edge is recorded; the host and the external entity are in the entity
    caches all the same. *)
Theorem WireHostEntityToExternalEntity_invalid_ee he ee s :
  ExternalEntity.HostInterface ee = None ∨ ExternalEntity.HostVxlan ee = None →
  ∃ s', WireHostEntityToExternalEntity he ee s = Err ErrInvalidExternalEntityConfig s'
    ∧ Driver.l2CNPStateCache s' = Driver.l2CNPStateCache s
    ∧ (∀ a b, heToEE s' a b = heToEE s a b)
    ∧ derivedState s' = derivedState s
    ∧ cachedHE s' (HostEntity.Name he) = Some he
    ∧ cachedEE s' (ExternalEntity.Name ee) = Some ee.
Proof.
  intros Hbad.
  destruct s as [db [ees hes sfcs sp] sc ra rip q heap ext ip].
  exists (Driver.mk db
            (l2CNPEntityCacheType.mk (<[ExternalEntity.Name ee := ee]> ees)
               (<[HostEntity.Name he := he]> hes) sfcs sp)
            sc ra rip q heap ext ip).
  unfold WireHostEntityToExternalEntity, cachedHE, cachedEE, heToEE, derivedState.
  runM. unfold_setters. rewrite !lookup_insert_eq.
  destruct Hbad as [-> | ->]; [| destruct (ExternalEntity.HostInterface ee)];
    repeat split; done.
Qed.

Lemma WireHostEntityToExternalEntity_invalid_ee_witness :
  ∃ s', WireHostEntityToExternalEntity host1 router_bare newDriver
        = Err ErrInvalidExternalEntityConfig s'
        ∧ heToEE s' "h1" "ee1" = None
        ∧ cachedHE newDriver "h1" = None
        ∧ cachedHE s' "h1" = Some host1
        ∧ cachedEE s' "ee1" = Some router_bare.
Proof.
  destruct (WireHostEntityToExternalEntity_invalid_ee host1 router_bare newDriver)
    as (s' & Hrun & _ & Hedge & _ & Hhe & Hee); [by left |].
  exists s'. repeat split; done.
Defined.

(** ** Relational postconditions

    [keeps R m]: whenever [m] stops in a state (with a result, an error or a
    panic), the final state is related to the initial one by [R]. For a
    preorder [R] this composes along the sequencing of the driver code. *)

Definition keeps (R : relation Driver.t) {A} (m : M A) : Prop :=
  ∀ s s', final (m s) = Some s' → R s s'.

Section keeps.
Context (R : relation Driver.t) `{!PreOrder R}.

Lemma keeps_ret {A} (a : A) : keeps R (mret a).
Proof. intros s s' [= <-]. reflexivity. Qed.

Lemma keeps_raise {A} e : keeps R (@raise A e).
Proof. intros s s' [= <-]. reflexivity. Qed.

Lemma keeps_panic {A} : keeps R (@panic A).
Proof. intros s s' [= <-]. reflexivity. Qed.

Lemma keeps_diverge {A} : keeps R (@diverge A).
Proof. intros s s' [=]. Qed.

Lemma keeps_gets {A} (f : Driver.t → A) : keeps R (gets f).
Proof. intros s s' [= <-]. reflexivity. Qed.

Lemma keeps_deref {A} (p : option A) : keeps R (deref p).
Proof. destruct p; [apply keeps_ret | apply keeps_panic]. Qed.

Lemma keeps_modify (f : Driver.t → Driver.t) : (∀ s, R s (f s)) → keeps R (modify f).
Proof. intros H s s' [= <-]. apply H. Qed.

Lemma keeps_bind {A B} (m : M A) (k : A → M B) :
  keeps R m → (∀ a, keeps R (k a)) → keeps R (m ≫= k).
Proof.
  intros Hm Hk s s' Hfin. rewrite bind_unfold in Hfin.
  destruct (m s) as [a s1 | e s1 | s1 |] eqn:Hms; cbn in Hfin.
  - transitivity s1; [apply Hm; by rewrite Hms | by apply (Hk a)].
  - injection Hfin as <-. apply Hm. by rewrite Hms.
  - injection Hfin as <-. apply Hm. by rewrite Hms.
  - done.
Qed.

Lemma keeps_attempt {A} (m : M A) : keeps R m → keeps R (attempt m).
Proof.
  intros Hm s s' Hfin. apply Hm. unfold attempt in Hfin.
  destruct (m s); cbn in *; done.
Qed.

Lemma keeps_forEach {A} (l : list A) (body : A → M unit) :
  (∀ a, keeps R (body a)) → keeps R (forEach l body).
Proof.
  intros Hb. induction l as [| a l IH]; cbn [forEach].
  - apply keeps_ret.
  - apply keeps_bind; [apply Hb | intros _; apply IH].
Qed.

End keeps.

(** The shape of a state change: which components differ. *)
Lemma keeps_weaken (R R' : relation Driver.t) {A} (m : M A) :
  (∀ s s', R s s' → R' s s') → keeps R m → keeps R' m.
Proof. intros H Hm s s' Hfin. apply H, Hm, Hfin. Qed.

(** One step of a proof of [keeps R m], by the syntax of [m]. *)
Ltac keeps_tc := try (typeclasses eauto).
Ltac keeps_step :=
  lazymatch goal with
  | |- ∀ _, _ => intros ?
  | |- keeps _ (mret _) => apply keeps_ret; keeps_tc
  | |- keeps _ (raise _) => apply keeps_raise; keeps_tc
  | |- keeps _ panic => apply keeps_panic; keeps_tc
  | |- keeps _ diverge => apply keeps_diverge
  | |- keeps _ (gets _) => apply keeps_gets; keeps_tc
  | |- keeps _ (deref _) => apply keeps_deref; keeps_tc
  | |- keeps _ (attempt _) => apply keeps_attempt
  | |- keeps _ (mbind _ _) => apply keeps_bind; keeps_tc
  | |- keeps _ (forEach _ _) => apply keeps_forEach; keeps_tc
  | |- keeps _ (match ?x with _ => _ end) => destruct x
  | |- keeps _ ((λ _, _) _) => cbv beta
  | |- keeps _ (let _ := _ in _) => cbv zeta
  end.

(** A relation is a frame for a component of the driver when every change of
    that component alone is allowed by it. The caches of external entities and
    of hosts only ever change by [cache[e.Name] = e], and a store that accepts
    every write keeps doing so. *)
Class FrameDb (R : relation Driver.t) :=
  frame_db : ∀ f s,
    (KVStore.faults (Driver.db s) = [] → KVStore.faults (f (Driver.db s)) = []) →
    R s (Driver.set_db f s).
Class FrameEEs (R : relation Driver.t) :=
  frame_EEs : ∀ ee s,
    R s (Driver.set_l2CNPEntityCache
           (l2CNPEntityCacheType.set_EEs <[ExternalEntity.Name ee := ee]>) s).
Class FrameHEs (R : relation Driver.t) :=
  frame_HEs : ∀ he s,
    R s (Driver.set_l2CNPEntityCache
           (l2CNPEntityCacheType.set_HEs <[HostEntity.Name he := he]>) s).
Class FrameSFCs (R : relation Driver.t) :=
  frame_SFCs : ∀ f s,
    R s (Driver.set_l2CNPEntityCache (l2CNPEntityCacheType.set_SFCs f) s).
Class FrameSysParms (R : relation Driver.t) :=
  frame_SysParms : ∀ sp s,
    R s (Driver.set_l2CNPEntityCache (l2CNPEntityCacheType.set_SysParms sp) s).
Class FrameHEToEEs (R : relation Driver.t) :=
  frame_HEToEEs : ∀ f s,
    R s (Driver.set_l2CNPStateCache (l2CNPStateCacheType.set_HEToEEs f) s).
Class FrameHEToHEs (R : relation Driver.t) :=
  frame_HEToHEs : ∀ f s,
    R s (Driver.set_l2CNPStateCache (l2CNPStateCacheType.set_HEToHEs f) s).
Class FrameSFCToHEs (R : relation Driver.t) :=
  frame_SFCToHEs : ∀ f s,
    R s (Driver.set_l2CNPStateCache (l2CNPStateCacheType.set_SFCToHEs f) s).
Class FrameHE (R : relation Driver.t) :=
  frame_HE : ∀ f s,
    R s (Driver.set_l2CNPStateCache (l2CNPStateCacheType.set_HE f) s).
Class FrameSFCIFAddr (R : relation Driver.t) :=
  frame_SFCIFAddr : ∀ f s,
    R s (Driver.set_l2CNPStateCache (l2CNPStateCacheType.set_SFCIFAddr f) s).
Class FrameAfter (R : relation Driver.t) :=
  frame_after : ∀ f s, R s (Driver.set_reconcileAfter f s).
Class FrameSeq (R : relation Driver.t) :=
  frame_seq : ∀ f s, R s (Driver.set_seq f s).
Class FrameHeap (R : relation Driver.t) :=
  frame_heap : ∀ f s, R s (Driver.set_bridgeDomains f s).
Class FrameExt (R : relation Driver.t) :=
  frame_ext : ∀ f s, R s (Driver.set_extEntityDriver f s).
Class FrameIpam (R : relation Driver.t) :=
  frame_ipam : ∀ i s, R s (Driver.set_ipam i s).

Ltac keeps_frame :=
  first [ apply frame_db | apply frame_EEs | apply frame_HEs | apply frame_SFCs
        | apply frame_SysParms | apply frame_HEToEEs | apply frame_HEToHEs
        | apply frame_SFCToHEs | apply frame_HE | apply frame_SFCIFAddr
        | apply frame_after | apply frame_seq | apply frame_heap | apply frame_ext
        | apply frame_ipam ].

Create HintDb keeps discriminated.

Ltac keeps_auto :=
  repeat first
    [ keeps_step
    | apply keeps_modify; intros ?; keeps_frame
    | solve [eauto 3 with keeps typeclass_instances] ].

(** *** Builders and accessors *)

Section keeps_builders.
Context (R : relation Driver.t) `{!PreOrder R}.

Lemma keeps_storePut `{!FrameDb R} w : keeps R (storePut w).
Proof.
  intros s s'. unfold storePut.
  destruct (KVStore.faults (Driver.db s)) as [| [] fs] eqn:Hf; intros [= <-];
    apply frame_db; by rewrite Hf.
Qed.

Lemma keeps_txnPut `{!FrameDb R} k r : keeps R (txnPut k r).
Proof. apply keeps_storePut. Qed.

Lemma keeps_bindingPut `{!FrameDb R} upd :
  (∀ d, KVStore.faults (upd d) = KVStore.faults d) → keeps R (bindingPut upd).
Proof.
  intros Hupd s s'. unfold bindingPut.
  destruct (KVStore.faults (Driver.db s)) as [| [] fs] eqn:Hf; intros [= <-];
    apply frame_db; rewrite ?Hupd, Hf; done.
Qed.

Lemma keeps_ipamNext `{!FrameIpam R} : keeps R ipamNext.
Proof.
  intros s s'. unfold ipamNext.
  destruct (Driver.ipam s) as [| [e | a i] rest]; intros [= <-];
    first [apply frame_ipam | reflexivity].
Qed.

Lemma keeps_newBD `{!FrameHeap R} bd : keeps R (newBD bd).
Proof. intros s s' [= <-]. apply frame_heap. Qed.

#[local] Hint Resolve keeps_storePut keeps_txnPut keeps_bindingPut keeps_ipamNext
  keeps_newBD : keeps.

Lemma keeps_DatastoreHEIDsRetrieve k : keeps R (DatastoreHEIDsRetrieve k).
Proof. unfold DatastoreHEIDsRetrieve. keeps_auto. Qed.
Lemma keeps_DatastoreHE2EEIDsRetrieve a b : keeps R (DatastoreHE2EEIDsRetrieve a b).
Proof. unfold DatastoreHE2EEIDsRetrieve. keeps_auto. Qed.
Lemma keeps_DatastoreHE2HEIDsRetrieve a b : keeps R (DatastoreHE2HEIDsRetrieve a b).
Proof. unfold DatastoreHE2HEIDsRetrieve. keeps_auto. Qed.
Lemma keeps_DatastoreSFCIDsRetrieve a b c : keeps R (DatastoreSFCIDsRetrieve a b c).
Proof. unfold DatastoreSFCIDsRetrieve. keeps_auto. Qed.

Lemma keeps_DatastoreHEIDsCreate `{!FrameDb R} a v : keeps R (DatastoreHEIDsCreate a v).
Proof. unfold DatastoreHEIDsCreate. keeps_auto. Qed.
Lemma keeps_DatastoreHE2EEIDsCreate `{!FrameDb R} a b v :
  keeps R (DatastoreHE2EEIDsCreate a b v).
Proof. unfold DatastoreHE2EEIDsCreate. keeps_auto. Qed.
Lemma keeps_DatastoreHE2HEIDsCreate `{!FrameDb R} a b v :
  keeps R (DatastoreHE2HEIDsCreate a b v).
Proof. unfold DatastoreHE2HEIDsCreate. keeps_auto. Qed.
Lemma keeps_DatastoreSFCIDsCreate `{!FrameDb R} a b c v1 v2 v3 v4 :
  keeps R (DatastoreSFCIDsCreate a b c v1 v2 v3 v4).
Proof. unfold DatastoreSFCIDsCreate. keeps_auto. Qed.

Lemma keeps_reconcileInterface `{!FrameAfter R} k i : keeps R (reconcileInterface k i).
Proof. unfold reconcileInterface. keeps_auto. Qed.
Lemma keeps_reconcileLinuxInterface `{!FrameAfter R} k n l :
  keeps R (reconcileLinuxInterface k n l).
Proof. unfold reconcileLinuxInterface. keeps_auto. Qed.
Lemma keeps_reconcileBridgeDomain `{!FrameAfter R} k b : keeps R (reconcileBridgeDomain k b).
Proof. unfold reconcileBridgeDomain. keeps_auto. Qed.
Lemma keeps_reconcileStaticRoute `{!FrameAfter R} k r : keeps R (reconcileStaticRoute k r).
Proof. unfold reconcileStaticRoute. keeps_auto. Qed.

#[local] Hint Resolve keeps_DatastoreHEIDsRetrieve keeps_DatastoreHE2EEIDsRetrieve
  keeps_DatastoreHE2HEIDsRetrieve keeps_DatastoreSFCIDsRetrieve
  keeps_DatastoreHEIDsCreate keeps_DatastoreHE2EEIDsCreate
  keeps_DatastoreHE2HEIDsCreate keeps_DatastoreSFCIDsCreate
  keeps_reconcileInterface keeps_reconcileLinuxInterface keeps_reconcileBridgeDomain
  keeps_reconcileStaticRoute : keeps.

Lemma keeps_AllocateFromSubnet `{!FrameIpam R} p : keeps R (AllocateFromSubnet p).
Proof. unfold AllocateFromSubnet. keeps_auto. Qed.
Lemma keeps_SetIpIDInSubnet `{!FrameIpam R} p i : keeps R (SetIpIDInSubnet p i).
Proof. unfold SetIpIDInSubnet. keeps_auto. Qed.
Lemma keeps_SetIpAddrIfInsideSubnet p a : keeps R (SetIpAddrIfInsideSubnet p a).
Proof. unfold SetIpAddrIfInsideSubnet. keeps_auto. Qed.

Lemma keeps_getMtu mtu : keeps R (getMtu mtu).
Proof. unfold getMtu. keeps_auto. Qed.
Lemma keeps_getSysParms : keeps R getSysParms.
Proof. unfold getSysParms. keeps_auto. Qed.
Lemma keeps_getHEs : keeps R getHEs.
Proof. unfold getHEs. keeps_auto. Qed.
Lemma keeps_getEEs : keeps R getEEs.
Proof. unfold getEEs. keeps_auto. Qed.
Lemma keeps_getSeq : keeps R getSeq.
Proof. unfold getSeq. keeps_auto. Qed.

#[local] Hint Resolve keeps_AllocateFromSubnet keeps_SetIpIDInSubnet
  keeps_SetIpAddrIfInsideSubnet keeps_getMtu keeps_getSysParms keeps_getHEs
  keeps_getEEs keeps_getSeq : keeps.

Lemma keeps_lookupHE n : keeps R (lookupHE n).
Proof. unfold lookupHE. keeps_auto. Qed.
Lemma keeps_lookupEE n : keeps R (lookupEE n).
Proof. unfold lookupEE. keeps_auto. Qed.
Lemma keeps_getHEToEEState a b : keeps R (getHEToEEState a b).
Proof. unfold getHEToEEState. keeps_auto. Qed.
Lemma keeps_getHEToHEState a b : keeps R (getHEToHEState a b).
Proof. unfold getHEToHEState. keeps_auto. Qed.

Lemma keeps_nextMacInstanceID `{!FrameSeq R} : keeps R nextMacInstanceID.
Proof. unfold nextMacInstanceID. keeps_auto. Qed.
Lemma keeps_nextVLanID `{!FrameSeq R} : keeps R nextVLanID.
Proof. unfold nextVLanID. keeps_auto. Qed.
Lemma keeps_nextMemIfID `{!FrameSeq R} : keeps R nextMemIfID.
Proof. unfold nextMemIfID. keeps_auto. Qed.
Lemma keeps_nextVethID `{!FrameSeq R} : keeps R nextVethID.
Proof. unfold nextVethID. keeps_auto. Qed.

Lemma keeps_loadBD p : keeps R (loadBD p).
Proof. unfold loadBD. keeps_auto. Qed.

#[local] Hint Resolve keeps_lookupHE keeps_lookupEE keeps_getHEToEEState
  keeps_getHEToHEState keeps_nextMacInstanceID keeps_nextVLanID keeps_nextMemIfID
  keeps_nextVethID keeps_loadBD : keeps.

Lemma keeps_vxLanCreate `{!FrameDb R, !FrameAfter R} k n v a b :
  keeps R (vxLanCreate k n v a b).
Proof. unfold vxLanCreate. keeps_auto. Qed.
Lemma keeps_memIfCreate `{!FrameDb R, !FrameAfter R} k n i ma mc a b c mtu rx :
  keeps R (memIfCreate k n i ma mc a b c mtu rx).
Proof. unfold memIfCreate. keeps_auto. Qed.
Lemma keeps_createEthernet `{!FrameDb R, !FrameAfter R} k n a b c mtu rx :
  keeps R (createEthernet k n a b c mtu rx).
Proof. unfold createEthernet. keeps_auto. Qed.
Lemma keeps_afPacketCreate `{!FrameDb R, !FrameAfter R} k n h a b c mtu rx :
  keeps R (afPacketCreate k n h a b c mtu rx).
Proof. unfold afPacketCreate. keeps_auto. Qed.
Lemma keeps_createLoopback `{!FrameDb R, !FrameAfter R} k n p a b mtu rx :
  keeps R (createLoopback k n p a b mtu rx).
Proof. unfold createLoopback. keeps_auto. Qed.
Lemma keeps_vEthIfCreate `{!FrameDb R, !FrameAfter R} k n h p c ph a b mtu :
  keeps R (vEthIfCreate k n h p c ph a b mtu).
Proof. unfold vEthIfCreate. keeps_auto. Qed.
Lemma keeps_createStaticRoute `{!FrameDb R, !FrameAfter R} v k d a b c w p :
  keeps R (createStaticRoute v k d a b c w p).
Proof. unfold createStaticRoute. keeps_auto. Qed.
Lemma keeps_createStaticArpEntry `{!FrameDb R} k a b c :
  keeps R (createStaticArpEntry k a b c).
Proof. unfold createStaticArpEntry. keeps_auto. Qed.
Lemma keeps_createXConnect `{!FrameDb R} k a b : keeps R (createXConnect k a b).
Proof. unfold createXConnect. keeps_auto. Qed.
Lemma keeps_createXConnectPair `{!FrameDb R} k a b : keeps R (createXConnectPair k a b).
Proof. unfold createXConnectPair. keeps_auto; apply keeps_createXConnect. Qed.
Lemma keeps_createL2FibEntry `{!FrameDb R} k a b c : keeps R (createL2FibEntry k a b c).
Proof. unfold createL2FibEntry. keeps_auto. Qed.
Lemma keeps_setSfcInterfaceIPAndMac `{!FrameSFCIFAddr R} a b c d :
  keeps R (setSfcInterfaceIPAndMac a b c d).
Proof. unfold setSfcInterfaceIPAndMac. keeps_auto. Qed.

End keeps_builders.

#[export] Hint Resolve keeps_storePut keeps_txnPut keeps_bindingPut keeps_ipamNext
  keeps_newBD keeps_DatastoreHEIDsRetrieve keeps_DatastoreHE2EEIDsRetrieve
  keeps_DatastoreHE2HEIDsRetrieve keeps_DatastoreSFCIDsRetrieve
  keeps_DatastoreHEIDsCreate keeps_DatastoreHE2EEIDsCreate
  keeps_DatastoreHE2HEIDsCreate keeps_DatastoreSFCIDsCreate
  keeps_reconcileInterface keeps_reconcileLinuxInterface keeps_reconcileBridgeDomain
  keeps_reconcileStaticRoute keeps_AllocateFromSubnet keeps_SetIpIDInSubnet
  keeps_SetIpAddrIfInsideSubnet keeps_getMtu keeps_getSysParms keeps_getHEs
  keeps_getEEs keeps_getSeq keeps_lookupHE keeps_lookupEE keeps_getHEToEEState
  keeps_getHEToHEState keeps_nextMacInstanceID keeps_nextVLanID keeps_nextMemIfID
  keeps_nextVethID keeps_loadBD keeps_vxLanCreate keeps_memIfCreate
  keeps_createEthernet keeps_afPacketCreate keeps_createLoopback keeps_vEthIfCreate
  keeps_createStaticRoute keeps_createStaticArpEntry keeps_createXConnect
  keeps_createXConnectPair keeps_createL2FibEntry keeps_setSfcInterfaceIPAndMac
  : keeps.

(** *** Wiring operations

    The two operations that write bridge domains, and the one that creates
    the tunnel and the bridge toward an external entity, are taken as
    hypotheses, so that the lemmas serve relations that constrain the bridge
    heap, the table of edges or the requests to the external-entity driver. *)

Section keeps_wiring.
Context (R : relation Driver.t) `{!PreOrder R}.
Context `{!FrameDb R, !FrameEEs R, !FrameHEs R, !FrameSFCs R, !FrameSysParms R,
          !FrameHEToEEs R, !FrameHEToHEs R, !FrameSFCToHEs R, !FrameHE R,
          !FrameSFCIFAddr R, !FrameAfter R, !FrameSeq R, !FrameExt R, !FrameIpam R}.
Hypothesis keeps_bridgedDomainCreateWithIfs : ∀ k n ifs p,
  (length ifs ≤ 1)%nat → keeps R (bridgedDomainCreateWithIfs k n ifs p).
Hypothesis keeps_bridgedDomainAssociateWithIfs : ∀ k bd ifs,
  keeps R (bridgedDomainAssociateWithIfs k bd ifs).
Hypothesis keeps_createVxLANAndBridgeToExtEntity : ∀ sfc a b v,
  keeps R (createVxLANAndBridgeToExtEntity sfc a b v).

#[local] Hint Resolve keeps_bridgedDomainAssociateWithIfs
  keeps_createVxLANAndBridgeToExtEntity : keeps.

Lemma keeps_bridgedDomainCreateWithIfs_logged k n ifs p :
  (length ifs ≤ 1)%nat → keeps R (bridgedDomainCreateWithIfs_logged k n ifs p).
Proof.
  intros Hlen. unfold bridgedDomainCreateWithIfs_logged. keeps_auto.
Qed.

Lemma keeps_bridgedDomainCreateWithIfs_logged_nil k n p :
  keeps R (bridgedDomainCreateWithIfs_logged k n [] p).
Proof. apply keeps_bridgedDomainCreateWithIfs_logged. cbn. lia. Qed.

Lemma keeps_bridgedDomainCreateWithIfs_logged_one k n i p :
  keeps R (bridgedDomainCreateWithIfs_logged k n [i] p).
Proof. apply keeps_bridgedDomainCreateWithIfs_logged. cbn. lia. Qed.

#[local] Hint Resolve keeps_bridgedDomainCreateWithIfs_logged_nil
  keeps_bridgedDomainCreateWithIfs_logged_one : keeps.

Lemma keeps_updateHEState n f : keeps R (updateHEState n f).
Proof. unfold updateHEState. keeps_auto. Qed.
Lemma keeps_updateHEToEEState a b f : keeps R (updateHEToEEState a b f).
Proof. unfold updateHEToEEState. keeps_auto. Qed.
Lemma keeps_updateHEToHEState a b f : keeps R (updateHEToHEState a b f).
Proof. unfold updateHEToHEState. keeps_auto. Qed.

#[local] Hint Resolve keeps_updateHEState keeps_updateHEToEEState
  keeps_updateHEToHEState : keeps.

Lemma keeps_SetSystemParameters sp : keeps R (SetSystemParameters sp).
Proof. unfold SetSystemParameters. keeps_auto. Qed.

Lemma keeps_WireHostEntityToDestinationHostEntity sh dh :
  keeps R (WireHostEntityToDestinationHostEntity sh dh).
Proof. unfold WireHostEntityToDestinationHostEntity. keeps_auto. Qed.

Lemma keeps_wireExternalEntityToHostEntity ee he :
  keeps R (wireExternalEntityToHostEntity ee he).
Proof. unfold wireExternalEntityToHostEntity. keeps_auto. Qed.

Lemma keeps_WireHostEntityToExternalEntity he ee :
  keeps R (WireHostEntityToExternalEntity he ee).
Proof. unfold WireHostEntityToExternalEntity. keeps_auto. Qed.

Lemma keeps_WireInternalsForHostEntity he : keeps R (WireInternalsForHostEntity he).
Proof. unfold WireInternalsForHostEntity. keeps_auto. Qed.

Lemma keeps_WireInternalsForExternalEntity ee :
  keeps R (WireInternalsForExternalEntity ee).
Proof. unfold WireInternalsForExternalEntity. keeps_auto. Qed.

Lemma keeps_h2eEnsureVxlan a b v : keeps R (h2eEnsureVxlan a b v).
Proof. unfold h2eEnsureVxlan. keeps_auto. Qed.
Lemma keeps_h2eEnsureRoute a b : keeps R (h2eEnsureRoute a b).
Proof. unfold h2eEnsureRoute. keeps_auto. Qed.
Lemma keeps_h2eEnsureBridge a b : keeps R (h2eEnsureBridge a b).
Proof.
  unfold h2eEnsureBridge. keeps_auto. apply keeps_wireExternalEntityToHostEntity.
Qed.
Lemma keeps_h2hEnsureVxlan a b v : keeps R (h2hEnsureVxlan a b v).
Proof. unfold h2hEnsureVxlan. keeps_auto. Qed.
Lemma keeps_h2hEnsureRoute a b : keeps R (h2hEnsureRoute a b).
Proof. unfold h2hEnsureRoute. keeps_auto. Qed.
Lemma keeps_h2hEnsureBridge a b : keeps R (h2hEnsureBridge a b).
Proof. unfold h2hEnsureBridge. keeps_auto. Qed.

#[local] Hint Resolve keeps_h2hEnsureVxlan keeps_h2hEnsureRoute keeps_h2hEnsureBridge
  : keeps.

(** From the frames alone, without the hypothesis on this function. *)
Lemma keeps_createVxLANAndBridgeToExtEntity_framed sfc a b v :
  keeps R (createVxLANAndBridgeToExtEntity sfc a b v).
Proof.
  unfold createVxLANAndBridgeToExtEntity. clear keeps_createVxLANAndBridgeToExtEntity.
  keeps_auto;
    first [ apply keeps_h2eEnsureVxlan | apply keeps_h2eEnsureRoute
          | apply keeps_h2eEnsureBridge ].
Qed.
Lemma keeps_createVxLANAndBridgeToDestHost sfc a b v :
  keeps R (createVxLANAndBridgeToDestHost sfc a b v).
Proof. unfold createVxLANAndBridgeToDestHost. keeps_auto. Qed.

Lemma keeps_assignIpv4 sfc e i g : keeps R (assignIpv4 sfc e i g).
Proof. unfold assignIpv4. keeps_auto. Qed.
Lemma keeps_assignMac e i g : keeps R (assignMac e i g).
Proof. unfold assignMac. keeps_auto. Qed.
Lemma keeps_recordSfcIDs r : keeps R (recordSfcIDs r).
Proof. unfold recordSfcIDs. keeps_auto. Qed.
Lemma keeps_createInterContainerMemIfPair n a b c d mtu rx i :
  keeps R (createInterContainerMemIfPair n a b c d mtu rx i).
Proof. unfold createInterContainerMemIfPair. keeps_auto. Qed.

#[local] Hint Resolve
  keeps_createVxLANAndBridgeToDestHost keeps_assignIpv4 keeps_assignMac
  keeps_recordSfcIDs keeps_createInterContainerMemIfPair : keeps.

Lemma keeps_interContainerMemIfPairsLoop fuel n e1 e2 c mtu rx i :
  keeps R (interContainerMemIfPairsLoop fuel n e1 e2 c mtu rx i).
Proof.
  revert i. induction fuel as [| fuel IH]; intros i; cbn [interContainerMemIfPairsLoop].
  - apply keeps_diverge.
  - keeps_auto.
Qed.

#[local] Hint Resolve keeps_interContainerMemIfPairsLoop : keeps.

Lemma keeps_createOneOrMoreInterContainerMemIfPairs n e1 e2 c :
  keeps R (createOneOrMoreInterContainerMemIfPairs n e1 e2 c).
Proof. unfold createOneOrMoreInterContainerMemIfPairs. keeps_auto. Qed.
Lemma keeps_createMemIfPair sfc h e g : keeps R (createMemIfPair sfc h e g).
Proof. unfold createMemIfPair. keeps_auto. Qed.
Lemma keeps_createAFPacketVEthPair sfc e : keeps R (createAFPacketVEthPair sfc e).
Proof. unfold createAFPacketVEthPair. keeps_auto. Qed.

#[local] Hint Resolve keeps_createOneOrMoreInterContainerMemIfPairs
  keeps_createMemIfPair keeps_createAFPacketVEthPair : keeps.

Lemma keeps_createMemIfPairAndAddToBridge sfc h bd e g :
  keeps R (createMemIfPairAndAddToBridge sfc h bd e g).
Proof. unfold createMemIfPairAndAddToBridge. keeps_auto. Qed.
Lemma keeps_createAFPacketVEthPairAndAddToBridge sfc bd e :
  keeps R (createAFPacketVEthPairAndAddToBridge sfc bd e).
Proof. unfold createAFPacketVEthPairAndAddToBridge. keeps_auto. Qed.

#[local] Hint Resolve keeps_createMemIfPairAndAddToBridge
  keeps_createAFPacketVEthPairAndAddToBridge : keeps.

Lemma keeps_nsVxlanScan sfc els acc : keeps R (nsVxlanScan sfc els acc).
Proof.
  revert acc. induction els as [| e els IH]; intros acc; cbn [nsVxlanScan]; keeps_auto.
Qed.
Lemma keeps_nsVxlanBridge sfc scan e : keeps R (nsVxlanBridge sfc scan e).
Proof. unfold nsVxlanBridge. keeps_auto. Qed.

#[local] Hint Resolve keeps_nsVxlanScan keeps_nsVxlanBridge : keeps.

Lemma keeps_nsVxlanWireElement sfc scan e : keeps R (nsVxlanWireElement sfc scan e).
Proof. unfold nsVxlanWireElement. keeps_auto. Qed.

#[local] Hint Resolve keeps_nsVxlanWireElement : keeps.

Lemma keeps_wireSfcNorthSouthVXLANElements sfc :
  keeps R (wireSfcNorthSouthVXLANElements sfc).
Proof. unfold wireSfcNorthSouthVXLANElements. keeps_auto. Qed.

Lemma keeps_createVRFEntries k e i d : keeps R (createVRFEntries k e i d).
Proof. unfold createVRFEntries. keeps_auto. Qed.
Lemma keeps_bdName bd : keeps R (bdName bd).
Proof. unfold bdName. keeps_auto. Qed.

#[local] Hint Resolve keeps_createVRFEntries keeps_bdName : keeps.

Lemma keeps_createL2FibEntries k bd macs i : keeps R (createL2FibEntries k bd macs i).
Proof. unfold createL2FibEntries. keeps_auto. Qed.
Lemma keeps_nsNicScan sfc els c he : keeps R (nsNicScan sfc els c he).
Proof.
  revert c he. induction els as [| e els IH]; intros c he; cbn [nsNicScan]; keeps_auto.
Qed.

#[local] Hint Resolve keeps_createL2FibEntries keeps_nsNicScan : keeps.

Lemma keeps_nsNicWireElement sfc he bd e : keeps R (nsNicWireElement sfc he bd e).
Proof. unfold nsNicWireElement. keeps_auto. Qed.

#[local] Hint Resolve keeps_nsNicWireElement : keeps.

Lemma keeps_wireSfcNorthSouthNICElements sfc :
  keeps R (wireSfcNorthSouthNICElements sfc).
Proof. unfold wireSfcNorthSouthNICElements. keeps_auto. Qed.

Lemma keeps_ewBridge sfc e : keeps R (ewBridge sfc e).
Proof. unfold ewBridge. keeps_auto. Qed.
Lemma keeps_ewXConnect k i p : keeps R (ewXConnect k i p).
Proof. unfold ewXConnect. keeps_auto. Qed.

#[local] Hint Resolve keeps_ewBridge keeps_ewXConnect : keeps.

Lemma keeps_ewWireElement sfc i e p : keeps R (ewWireElement sfc i e p).
Proof. unfold ewWireElement. keeps_auto. Qed.

#[local] Hint Resolve keeps_ewWireElement : keeps.

Lemma keeps_ewWireLoop sfc els i p : keeps R (ewWireLoop sfc els i p).
Proof.
  revert i p. induction els as [| e els IH]; intros i p; cbn [ewWireLoop]; keeps_auto.
Qed.

#[local] Hint Resolve keeps_ewWireLoop : keeps.

Lemma keeps_wireSfcEastWestElements sfc : keeps R (wireSfcEastWestElements sfc).
Proof. unfold wireSfcEastWestElements. keeps_auto. Qed.

#[local] Hint Resolve keeps_wireSfcNorthSouthVXLANElements
  keeps_wireSfcNorthSouthNICElements keeps_wireSfcEastWestElements : keeps.

Lemma keeps_WireSfcEntity sfc : keeps R (WireSfcEntity sfc).
Proof. unfold WireSfcEntity. keeps_auto. Qed.

End keeps_wiring.

(** ** The engine's operations and the states it reaches *)

Inductive Call :=
| CallSetSystemParameters (sp : SystemParameters.t)
| CallWireHostEntityToDestinationHostEntity (sh dh : HostEntity.t)
| CallWireHostEntityToExternalEntity (he : HostEntity.t) (ee : ExternalEntity.t)
| CallWireInternalsForHostEntity (he : HostEntity.t)
| CallWireInternalsForExternalEntity (ee : ExternalEntity.t)
| CallWireSfcEntity (sfc : SfcEntity.t).

Definition runCall (c : Call) : M unit :=
  match c with
  | CallSetSystemParameters sp => SetSystemParameters sp
  | CallWireHostEntityToDestinationHostEntity sh dh =>
      WireHostEntityToDestinationHostEntity sh dh
  | CallWireHostEntityToExternalEntity he ee => WireHostEntityToExternalEntity he ee
  | CallWireInternalsForHostEntity he => WireInternalsForHostEntity he
  | CallWireInternalsForExternalEntity ee => WireInternalsForExternalEntity ee
  | CallWireSfcEntity sfc => WireSfcEntity sfc
  end.

(** States of a driver: a new driver over any store and IPAM, then any
    sequence of operations, whatever their outcome, with the reconciler
    switching the reconcile mode in between. *)
Inductive reachable : Driver.t → Prop :=
| reachable_new db ipam : reachable (NewSfcCtlrL2CNPDriver db ipam)
| reachable_call s c s' :
    reachable s → final (runCall c s) = Some s' → reachable s'
| reachable_mode s b : reachable s → reachable (Driver.set_reconcileInProgress b s).

(** ** Members of a bridge domain *)

Definition memberNames (l : list BDInterface.t) : list string := map BDInterface.Name l.

Definition bridgesDistinct (s : Driver.t) : Prop :=
  Forall (λ bd, NoDup (memberNames (BridgeDomain.Interfaces bd))) (Driver.bridgeDomains s).

Definition keepsDistinct : relation Driver.t :=
  λ s s', bridgesDistinct s → bridgesDistinct s'.

#[global] Instance keepsDistinct_preorder : PreOrder keepsDistinct.
Proof. split; [by intros s H | intros s1 s2 s3 H12 H23 H; by apply H23, H12]. Qed.
#[global] Instance keepsDistinct_db : FrameDb keepsDistinct.
Proof. by intros f s _ H. Qed.
#[global] Instance keepsDistinct_EEs : FrameEEs keepsDistinct.
Proof. by intros f s H. Qed.
#[global] Instance keepsDistinct_HEs : FrameHEs keepsDistinct.
Proof. by intros f s H. Qed.
#[global] Instance keepsDistinct_SFCs : FrameSFCs keepsDistinct.
Proof. by intros f s H. Qed.
#[global] Instance keepsDistinct_SysParms : FrameSysParms keepsDistinct.
Proof. by intros f s H. Qed.
#[global] Instance keepsDistinct_HEToEEs : FrameHEToEEs keepsDistinct.
Proof. by intros f s H. Qed.
#[global] Instance keepsDistinct_HEToHEs : FrameHEToHEs keepsDistinct.
Proof. by intros f s H. Qed.
#[global] Instance keepsDistinct_SFCToHEs : FrameSFCToHEs keepsDistinct.
Proof. by intros f s H. Qed.
#[global] Instance keepsDistinct_HE : FrameHE keepsDistinct.
Proof. by intros f s H. Qed.
#[global] Instance keepsDistinct_SFCIFAddr : FrameSFCIFAddr keepsDistinct.
Proof. by intros f s H. Qed.
#[global] Instance keepsDistinct_after : FrameAfter keepsDistinct.
Proof. by intros f s H. Qed.
#[global] Instance keepsDistinct_seq : FrameSeq keepsDistinct.
Proof. by intros f s H. Qed.
#[global] Instance keepsDistinct_ext : FrameExt keepsDistinct.
Proof. by intros f s H. Qed.
#[global] Instance keepsDistinct_ipam : FrameIpam keepsDistinct.
Proof. by intros f s H. Qed.

Lemma bdHasInterface_spec members iface :
  bdHasInterface members iface = true ↔ BDInterface.Name iface ∈ memberNames members.
Proof.
  unfold bdHasInterface, memberNames. rewrite existsb_exists, list_elem_of_fmap.
  split.
  - intros (bi & Hin & Heq). apply String.eqb_eq in Heq.
    exists bi. split; [done | by apply list_elem_of_In].
  - intros (bi & Heq & Hin). exists bi.
    split; [by apply list_elem_of_In | by apply String.eqb_eq].
Qed.

Lemma associateIfs_member members iface :
  BDInterface.Name iface ∈ memberNames members → associateIfs members [iface] = members.
Proof.
  intros H. apply bdHasInterface_spec in H. unfold associateIfs. cbn. by rewrite H.
Qed.

Lemma associateIfs_new members iface :
  BDInterface.Name iface ∉ memberNames members →
  associateIfs members [iface] = members ++ [iface].
Proof.
  intros H. unfold associateIfs. cbn.
  destruct (bdHasInterface members iface) eqn:Hb; [| done].
  by apply bdHasInterface_spec in Hb.
Qed.

Lemma associateIfs_NoDup members ifs :
  NoDup (memberNames members) → NoDup (memberNames (associateIfs members ifs)).
Proof.
  unfold associateIfs. revert members.
  induction ifs as [| iface ifs IH]; intros members H; cbn [fold_left]; [done |].
  apply IH. destruct (bdHasInterface members iface) eqn:Hb; [done |].
  unfold memberNames. rewrite map_app. cbn.
  apply NoDup_app. split; [done |]. split.
  - intros x Hx Hx'. apply list_elem_of_singleton in Hx'. subst x.
    apply bdHasInterface_spec in Hx. congruence.
  - apply NoDup_singleton.
Qed.

Lemma keepsDistinct_bridgedDomainCreateWithIfs k n ifs p :
  (length ifs ≤ 1)%nat → keeps keepsDistinct (bridgedDomainCreateWithIfs k n ifs p).
Proof.
  intros Hlen. unfold bridgedDomainCreateWithIfs. keeps_auto.
  intros s s' [= <-] H. unfold bridgesDistinct in *. cbn.
  apply Forall_app. split; [done |]. constructor; [| done]. cbn.
  destruct ifs as [| i [| j ifs]]; cbn in *; [constructor | apply NoDup_singleton | lia].
Qed.

(** The bridge is updated in the heap, then written as it is held. *)
Lemma bridgedDomainAssociateWithIfs_run k ptr ifs s b :
  Driver.bridgeDomains s !! ptr = Some b →
  let b' := BridgeDomain_set_Interfaces (associateIfs (BridgeDomain.Interfaces b) ifs) b in
  bridgedDomainAssociateWithIfs k (Some ptr) ifs s
  = (if Driver.reconcileInProgress s
     then reconcileBridgeDomain k b'
     else txnPut k (RBridgeDomain b'))
      (Driver.set_bridgeDomains (λ h, <[ptr := b']> h) s).
Proof.
  intros Hb b'. unfold bridgedDomainAssociateWithIfs, loadBD, storeBD. runM.
  cbn. rewrite Hb. reflexivity.
Qed.

Lemma bridgedDomainAssociateWithIfs_nil_or_dangling k bd ifs s :
  (match bd with Some ptr => Driver.bridgeDomains s !! ptr | None => None end) = None →
  bridgedDomainAssociateWithIfs k bd ifs s = Panic s.
Proof.
  intros Hb. unfold bridgedDomainAssociateWithIfs, loadBD. runM.
  destruct bd as [ptr |]; [| done]. cbn. by rewrite Hb.
Qed.

Lemma keepsDistinct_bridgedDomainAssociateWithIfs k bd ifs :
  keeps keepsDistinct (bridgedDomainAssociateWithIfs k bd ifs).
Proof.
  intros s s' Hfin H.
  destruct (match bd with Some ptr => Driver.bridgeDomains s !! ptr | None => None end)
    as [b |] eqn:Hb.
  - destruct bd as [ptr |]; [| done].
    rewrite (bridgedDomainAssociateWithIfs_run k ptr ifs s b Hb) in Hfin.
    assert (Hb' : NoDup (memberNames (BridgeDomain.Interfaces b))).
    { unfold bridgesDistinct in H. rewrite Forall_lookup in H. by apply (H ptr). }
    set (b' := BridgeDomain_set_Interfaces _ b) in Hfin.
    set (s1 := Driver.set_bridgeDomains _ s) in Hfin.
    assert (H1 : bridgesDistinct s1).
    { unfold bridgesDistinct, s1. cbn. apply Forall_insert; [done |].
      cbn. by apply associateIfs_NoDup. }
    assert (Hrest : keeps keepsDistinct
              (if Driver.reconcileInProgress s
               then reconcileBridgeDomain k b' else txnPut k (RBridgeDomain b'))).
    { keeps_auto. }
    by apply (Hrest s1 s').
  - rewrite bridgedDomainAssociateWithIfs_nil_or_dangling in Hfin by done.
    by injection Hfin as <-.
Qed.

Lemma runCall_keepsDistinct c : keeps keepsDistinct (runCall c).
Proof.
  destruct c; cbn [runCall].
  - apply keeps_SetSystemParameters; typeclasses eauto.
  - apply keeps_WireHostEntityToDestinationHostEntity; typeclasses eauto.
  - apply keeps_WireHostEntityToExternalEntity; typeclasses eauto.
  - apply keeps_WireInternalsForHostEntity; try typeclasses eauto.
    apply keepsDistinct_bridgedDomainCreateWithIfs.
  - apply keeps_WireInternalsForExternalEntity; typeclasses eauto.
  - apply keeps_WireSfcEntity; try typeclasses eauto.
    + apply keepsDistinct_bridgedDomainCreateWithIfs.
    + apply keepsDistinct_bridgedDomainAssociateWithIfs.
    + intros. apply keeps_createVxLANAndBridgeToExtEntity_framed;
        try typeclasses eauto.
      apply keepsDistinct_bridgedDomainCreateWithIfs.
Qed.

Lemma reachable_bridgesDistinct s : reachable s → bridgesDistinct s.
Proof.
  induction 1 as [db ipam | s c s' _ IH Hfin | s b _ IH].
  - constructor.
  - by apply (runCall_keepsDistinct c s s').
  - exact IH.
Qed.

Lemma bridgedDomainAssociateWithIfs_writes_as_held k ptr ifs s s' :
  Driver.reconcileInProgress s = false →
  bridgedDomainAssociateWithIfs k (Some ptr) ifs s = Ok tt s' →
  ∃ b b', Driver.bridgeDomains s !! ptr = Some b
    ∧ Driver.bridgeDomains s' !! ptr = Some b'
    ∧ BridgeDomain.Interfaces b' = associateIfs (BridgeDomain.Interfaces b) ifs
    ∧ KVStore.puts (Driver.db s')
      = KVStore.puts (Driver.db s) ++ [TxnPut k (RBridgeDomain b')].
Proof.
  intros Hrip Hrun.
  destruct (Driver.bridgeDomains s !! ptr) as [b |] eqn:Hb.
  - rewrite (bridgedDomainAssociateWithIfs_run k ptr ifs s b Hb), Hrip in Hrun.
    set (b' := BridgeDomain_set_Interfaces _ b) in *.
    exists b, b'. split; [done |].
    assert (Hlt : (ptr < length (Driver.bridgeDomains s))%nat) by by eapply lookup_lt_Some.
    unfold txnPut, storePut in Hrun. cbn in Hrun.
    destruct (KVStore.faults (Driver.db s)) as [| [] fs]; try done;
      injection Hrun as <-; cbn; by rewrite list_lookup_insert_eq.
  - by rewrite bridgedDomainAssociateWithIfs_nil_or_dangling in Hrun.
Qed.


Definition dynamicBridgeParms : BDParms.t := BDParms.mk true true true true false 0.
Definition staticBridgeParms : BDParms.t := BDParms.mk false false true false false 0.
Definition defaultSysParms : SystemParameters.t :=
  SystemParameters.mk 1500 5000 5 0 (Some dynamicBridgeParms) (Some staticBridgeParms).

Definition memifElement (container port switch : string) : SfcElement.t :=
  SfcElement.mk container port switch "" "" VPP_CONTAINER_MEMIF 0 0 RX_MODE_UNKNOWN
    [] "" [] [].

(** An east-west bridge chain whose containers are declared in the order c2, c1. *)
Definition ewBridgeChain : SfcEntity.t :=
  SfcEntity.mk "sfc-ew" "" SFC_EW_BD "" 0 None
    [memifElement "c2" "p1" "h1"; memifElement "c1" "p1" "h1"].

Definition ewBridgeChainCalls : list Call :=
  [CallSetSystemParameters defaultSysParms;
   CallWireInternalsForHostEntity host1;
   CallWireSfcEntity ewBridgeChain].


(** The state after a sequence of operations, each run in the state the one
    before it left, whatever its outcome. *)
Definition stateAfter (calls : list Call) (s : Driver.t) : Driver.t :=
  fold_left (λ s c, default s (final (runCall c s))) calls s.

Lemma reachable_stateAfter calls s : reachable s → reachable (stateAfter calls s).
Proof.
  unfold stateAfter. revert s.
  induction calls as [| c calls IH]; intros s H; cbn [fold_left]; [done |].
  apply IH. destruct (final (runCall c s)) as [s' |] eqn:Hfin; cbn; [| done].
  by apply (reachable_call s c s').
Qed.



(** ** The store gateway in reconcile mode *)

(** [m] returns [a] in [s] without touching the store, and changes the
    "after" buffer by [upd]. *)
Definition buffered {A} (m : M A) (s : Driver.t) (a : A)
  (upd : reconcileCacheType.t → reconcileCacheType.t) : Prop :=
  ∃ s', m s = Ok a s' ∧ Driver.db s' = Driver.db s
        ∧ Driver.reconcileAfter s' = upd (Driver.reconcileAfter s).

(** The record the "after" buffer holds for a bridge domain once [bd] has been
    handed to it: [bd] itself, with the members buffered so far before its
    own. *)
Definition bufferedBridge (c : reconcileCacheType.t) (k : string) (bd : BridgeDomain.t)
  : BridgeDomain.t :=
  match reconcileCacheType.bds c !! (k, BridgeDomain.Name bd) with
  | Some old =>
      BridgeDomain_set_Interfaces
        (associateIfs (BridgeDomain.Interfaces old) (BridgeDomain.Interfaces bd)) bd
  | None => bd
  end.

(** [m] sends the one put [w] to the store in [s], whatever the mode: when the
    store accepts it, [m] returns [a] with [w] logged last, and when the store
    rejects it, [m] returns the store's error with nothing logged. The "after"
    buffer is as it was either way. *)
Definition writtenThrough {A} (m : M A) (s : Driver.t) (a : A) (w : StoreWrite) : Prop :=
  ∃ s', Driver.reconcileAfter s' = Driver.reconcileAfter s
        ∧ Driver.reconcileInProgress s' = Driver.reconcileInProgress s
        ∧ match KVStore.faults (Driver.db s) with
          | true :: _ =>
              m s = Err ErrStore s'
              ∧ KVStore.puts (Driver.db s') = KVStore.puts (Driver.db s)
          | _ =>
              m s = Ok a s'
              ∧ KVStore.puts (Driver.db s') = KVStore.puts (Driver.db s) ++ [w]
          end.

Ltac buffered_builder Hrip :=
  unfold buffered; runM; rewrite Hrip; unfold reconcileInterface,
    reconcileLinuxInterface, reconcileStaticRoute, reconcileBridgeDomain, modify;
  unfold_setters; eexists; split; [reflexivity |]; cbn; done.

Ltac written_builder :=
  unfold writtenThrough, txnPut, storePut; runM;
  destruct (KVStore.faults (Driver.db _)) as [| [] ?];
  unfold_setters; eexists; (split; [| split; [| split; [reflexivity |]]]); done.

(** C2. While reconcileInProgress is set, creating an interface (vxlan, memif,
    ethernet, af-packet, loopback), a linux veth interface, a static route or
    a bridge domain, and associating interfaces with a bridge domain, leave
    the store as it was and put the resource they built in the "after" buffer
    under its switch and name, a bridge domain after the members buffered
    under that name so far. Cross-connects, L2-FIB entries and static ARP
    entries have no reconcile branch: in either mode they are put to the
    store and the "after" buffer is left as it was. *)
Theorem reconcile_mode_buffers_gated_builders :
  (∀ s : Driver.t, Driver.reconcileInProgress s = true →
     (∀ k n v a b,
        let i := Interface.mk n VXLAN_TUNNEL true "" 0 []
                   (Some (Vxlan.mk (stripSlashAndSubnetIpv4Address a)
                                   (stripSlashAndSubnetIpv4Address b) v))
                   None None None in
        buffered (vxLanCreate k n v a b) s i
          (reconcileCacheType.set_ifs <[(k, n) := i]>))
     ∧ (∀ k n id ma mc a b c mtu rx,
          let i := Interface.mk n MEMORY_INTERFACE true b mtu
                     (constructIpv4AndV6AddressArray a c) None
                     (Some (Memif.mk id ma ("/tmp/memif_" +:+ mc +:+ ".sock")))
                     None (rxModeControllerToInterface rx) in
          buffered (memIfCreate k n id ma mc a b c mtu rx) s i
            (reconcileCacheType.set_ifs <[(k, n) := i]>))
     ∧ (∀ k n h a b c mtu rx,
          let i := Interface.mk n AF_PACKET_INTERFACE true b mtu
                     (constructIpv4AndV6AddressArray a c) None None (Some h)
                     (rxModeControllerToInterface rx) in
          buffered (afPacketCreate k n h a b c mtu rx) s i
            (reconcileCacheType.set_ifs <[(k, n) := i]>))
     ∧ (∀ k n a b c mtu rx,
          buffered (createEthernet k n a b c mtu rx) s tt
            (reconcileCacheType.set_ifs
               <[(k, n) := Interface.mk n ETHERNET_CSMACD true b mtu
                             (constructIpv4AndV6AddressArray a c) None None None
                             (rxModeControllerToInterface rx)]>))
     ∧ (∀ k n p a b mtu rx,
          buffered (createLoopback k n p a b mtu rx) s tt
            (reconcileCacheType.set_ifs
               <[(k, n) := Interface.mk n SOFTWARE_LOOPBACK true p mtu
                             (constructIpv4AndV6AddressArray a b) None None None
                             (rxModeControllerToInterface rx)]>))
     ∧ (∀ k n h p ct ph a b mtu,
          buffered (vEthIfCreate k n h p ct ph a b mtu) s tt
            (reconcileCacheType.set_lifs
               <[(k, n) := LinuxInterface.mk n true ph h
                             (constructIpv4AndV6AddressArray a b) mtu ct p]>))
     ∧ (∀ v k d a b c w p,
          let sr := Route.mk v d a (stripSlashAndSubnetIpv4Address b) w c p in
          buffered (createStaticRoute v k d a b c w p) s sr
            (reconcileCacheType.set_l3Routes
               <[(k, v, a, stripSlashAndSubnetIpv4Address b) := sr]>))
     ∧ (∀ k n ifs p,
          let bd := BridgeDomain.mk n (BDParms.Flood p) (BDParms.UnknownUnicastFlood p)
                      (BDParms.Forward p) (BDParms.Learn p) (BDParms.ArpTermination p)
                      (BDParms.MacAge p) ifs in
          buffered (bridgedDomainCreateWithIfs k n ifs (Some p)) s
            (length (Driver.bridgeDomains s))
            (λ c, reconcileCacheType.set_bds <[(k, n) := bufferedBridge c k bd]> c))
     ∧ (∀ k ptr ifs b, Driver.bridgeDomains s !! ptr = Some b →
          let b' := BridgeDomain_set_Interfaces
                      (associateIfs (BridgeDomain.Interfaces b) ifs) b in
          buffered (bridgedDomainAssociateWithIfs k (Some ptr) ifs) s tt
            (λ c, reconcileCacheType.set_bds
                    <[(k, BridgeDomain.Name b) := bufferedBridge c k b']> c))
     ∧ (∀ k n ifs p s', final (bridgedDomainCreateWithIfs k n ifs p s) = Some s' →
          Driver.db s' = Driver.db s)
     ∧ (∀ k bd ifs s', final (bridgedDomainAssociateWithIfs k bd ifs s) = Some s' →
          Driver.db s' = Driver.db s))
  ∧ (∀ s : Driver.t,
       (∀ k rx tx, writtenThrough (createXConnect k rx tx) s tt
          (TxnPut k (RXConnect (XConnectPair.mk rx tx))))
       ∧ (∀ k bd mac out,
            let f := FibTableEntry.mk bd mac FIB_FORWARD out true in
            writtenThrough (createL2FibEntry k bd mac out) s f (TxnPut k (RL2Fib f)))
       ∧ (∀ k ip mac out,
            let a := ArpTableEntry.mk out true ip mac in
            writtenThrough (createStaticArpEntry k ip mac out) s a
              (DbPut (ArpEntryKey k out ip) (RArpEntry a)))).
Proof.
  split.
  - intros s Hrip.
    split; [intros; unfold vxLanCreate; buffered_builder Hrip |].
    split; [intros; unfold memIfCreate; buffered_builder Hrip |].
    split; [intros; unfold afPacketCreate; buffered_builder Hrip |].
    split; [intros; unfold createEthernet; buffered_builder Hrip |].
    split; [intros; unfold createLoopback; buffered_builder Hrip |].
    split; [intros; unfold vEthIfCreate; buffered_builder Hrip |].
    split; [intros; unfold createStaticRoute; buffered_builder Hrip |].
    split.
    { intros. unfold bridgedDomainCreateWithIfs, newBD, buffered. runM. cbn.
      rewrite Hrip. unfold reconcileBridgeDomain, modify. unfold_setters.
      eexists. split; [reflexivity |]. cbn. done. }
    split.
    { intros k ptr ifs b Hb b'. unfold buffered.
      rewrite (bridgedDomainAssociateWithIfs_run k ptr ifs s b Hb), Hrip.
      unfold reconcileBridgeDomain, modify. unfold_setters.
      eexists. split; [reflexivity |]. cbn. done. }
    split.
    { intros k n ifs p s'. unfold bridgedDomainCreateWithIfs, newBD. runM.
      destruct p as [p |]; cbn; [| by intros [= <-]].
      rewrite Hrip. unfold reconcileBridgeDomain, modify. unfold_setters.
      by intros [= <-]. }
    intros k bd ifs s' Hfin.
    destruct (match bd with Some ptr => Driver.bridgeDomains s !! ptr | None => None end)
      as [b |] eqn:Hb.
    + destruct bd as [ptr |]; [| done].
      rewrite (bridgedDomainAssociateWithIfs_run k ptr ifs s b Hb), Hrip in Hfin.
      unfold reconcileBridgeDomain, modify in Hfin. unfold_setters.
      by injection Hfin as <-.
    + rewrite bridgedDomainAssociateWithIfs_nil_or_dangling in Hfin by done.
      by injection Hfin as <-.
  - intros s.
    split; [intros; unfold createXConnect; written_builder |].
    split; [intros; unfold createL2FibEntry; written_builder |].
    intros. unfold createStaticArpEntry. written_builder.
Qed.

Definition reconcilingDriver : Driver.t := Driver.set_reconcileInProgress true newDriver.

Lemma reconcile_mode_witness :
  buffered (createEthernet "h1" "GigabitEthernet0/8/0" "10.0.0.1/24" "" "" 1500
              RX_MODE_UNKNOWN)
    reconcilingDriver tt
    (reconcileCacheType.set_ifs
       <[("h1", "GigabitEthernet0/8/0")
         := Interface.mk "GigabitEthernet0/8/0" ETHERNET_CSMACD true "" 1500
              (constructIpv4AndV6AddressArray "10.0.0.1/24" "") None None None
              (rxModeControllerToInterface RX_MODE_UNKNOWN)]>)
  ∧ writtenThrough (createXConnect "h1" "if1" "if2") reconcilingDriver tt
      (TxnPut "h1" (RXConnect (XConnectPair.mk "if1" "if2"))).
Proof.
  assert (Hrip : Driver.reconcileInProgress reconcilingDriver = true) by reflexivity.
  destruct reconcile_mode_buffers_gated_builders as [Hgated Hungated].
  destruct (Hgated reconcilingDriver Hrip) as (_ & _ & _ & Heth & _).
  destruct (Hungated reconcilingDriver) as (Hxc & _).
  split; [apply Heth | apply Hxc].
Defined.

(** While reconcileInProgress is set, a cross-connect, an L2-FIB entry and a
    static ARP entry are each put to the store. *)
Lemma ungated_builders_write_while_reconciling :
  Driver.reconcileInProgress reconcilingDriver = true
  ∧ (KVStore.puts <$> (Driver.db <$> final (createXConnect "h1" "if1" "if2" reconcilingDriver)))
    = Some [TxnPut "h1" (RXConnect (XConnectPair.mk "if1" "if2"))]
  ∧ (KVStore.puts <$> (Driver.db <$> final
       (createL2FibEntry "h1" "BD" "02:00:00:00:00:01" "if1" reconcilingDriver)))
    = Some [TxnPut "h1" (RL2Fib (FibTableEntry.mk "BD" "02:00:00:00:00:01"
                                   FIB_FORWARD "if1" true))]
  ∧ (KVStore.puts <$> (Driver.db <$> final
       (createStaticArpEntry "h1" "10.0.0.7" "02:00:00:00:00:01" "if1" reconcilingDriver)))
    = Some [DbPut "h1/arp/if1/10.0.0.7"
              (RArpEntry (ArpTableEntry.mk "if1" true "10.0.0.7" "02:00:00:00:00:01"))].
Proof. repeat split. Qed.

(** ** Chains toward a destination host *)

Definition hostElement (name : string) : SfcElement.t :=
  SfcElement.mk name "" "" "" "" HOST_ENTITY 0 0 RX_MODE_UNKNOWN [] "" [] [].

(** A north-south vxlan chain from container c1 on h1 toward host h2, without
    a vlan_id. *)
Definition h2hChain : SfcEntity.t :=
  SfcEntity.mk "sfc-ns" "" SFC_NS_VXLAN "" 0 None
    [hostElement "h2"; memifElement "c1" "p1" "h1"].

Definition h2hCalls : list Call :=
  [CallSetSystemParameters defaultSysParms;
   CallWireHostEntityToDestinationHostEntity host1 host2;
   CallWireSfcEntity h2hChain].

(** A store in which HE2HEIDs[h1, h2] is bound to 6000. *)
Definition storeWithH2HBinding : KVStore.t :=
  KVStore.set_he2heIDs <[("h1", "h2") := HE2HEIDs.mk 6000]> KVStore.empty.

(** A store in which HE2EEIDs[h1, h2] is bound to 7000. *)
Definition storeWithH2EBinding : KVStore.t :=
  KVStore.set_he2eeIDs <[("h1", "h2") := HE2EEIDs.mk 7000]> KVStore.empty.

Definition h2hVni (s : Driver.t) (sh dh : string) : option Z :=
  st ← heToHE s sh dh;
  vlanIf ← heToHEStateType.vlanIf st;
  vxlan ← Interface.Vxlan vlanIf;
  Some (Vxlan.Vni vxlan).

(** ** East-west memif chains *)

Definition isMemifKind (e : SfcElement.t) : Prop :=
  SfcElement.Type_ e = VPP_CONTAINER_MEMIF ∨ SfcElement.Type_ e = NON_VPP_CONTAINER_MEMIF.

(** Consecutive pairs (l[0], l[1]), (l[2], l[3]), ... *)
Fixpoint pairUp {A} (l : list A) : list (A * A) :=
  match l with
  | a :: b :: rest => (a, b) :: pairUp rest
  | _ => []
  end.

(** "for each even index i create an inter-container memif pair between
    element[i] and element[i+1]" *)
Definition wireMemifPairs (sfc : SfcEntity.t) : M unit :=
  forEach (pairUp (SfcEntity.Elements sfc)) (λ p,
    createOneOrMoreInterContainerMemIfPairs (SfcEntity.Name sfc) (fst p) (snd p)
      (SfcEntity.VnfRepeatCount sfc)).

Definition cacheSfc (sfc : SfcEntity.t) (s : Driver.t) : Driver.t :=
  Driver.set_l2CNPEntityCache
    (l2CNPEntityCacheType.set_SFCs <[SfcEntity.Name sfc := sfc]>) s.

Lemma pair_induction {A} (P : list A → Prop) :
  P [] → (∀ a, P [a]) → (∀ a b l, P l → P (a :: b :: l)) → ∀ l, P l.
Proof.
  intros H0 H1 H2.
  assert (H : ∀ l, P l ∧ ∀ a, P (a :: l)).
  { induction l as [| b l [IH1 IH2]]; split; auto. }
  intros l. apply H.
Qed.

(** The wiring of the elements [els] of an east-west memif chain, [els]
    starting at the index [i] of the chain: an element of a memif kind at an
    even index is paired with the element that follows it, whatever its kind,
    and one at an odd index is not wired on its own; an element of an
    af-packet kind gets its veth and af-packet pair, which is cross-connected
    with the one carried in [prev] or carried itself; an external entity is
    rejected; any other element is skipped. In a chain of even length an
    element at an even index has a successor; without one the index [i + 1]
    is out of range. *)
Fixpoint wireMemifChain (sfc : SfcEntity.t) (els : list SfcElement.t) (i : nat)
  (prev : string) : M unit :=
  match els with
  | [] => mret tt
  | e :: rest =>
      match SfcElement.Type_ e with
      | VPP_CONTAINER_MEMIF | NON_VPP_CONTAINER_MEMIF =>
          (if Nat.even i then
             match rest with
             | e2 :: _ =>
                 createOneOrMoreInterContainerMemIfPairs (SfcEntity.Name sfc) e e2
                   (SfcEntity.VnfRepeatCount sfc)
             | [] => panic
             end
           else mret tt) ;;
          wireMemifChain sfc rest (S i) prev
      | VPP_CONTAINER_AFP | NON_VPP_CONTAINER_AFP =>
          afIfName ← createAFPacketVEthPair sfc e;
          if isEmpty prev then wireMemifChain sfc rest (S i) afIfName
          else
            createXConnectPair (SfcElement.EtcdVppSwitchKey e) afIfName prev ;;
            wireMemifChain sfc rest (S i) ""
      | EXTERNAL_ENTITY => raise (ErrEWExternalEntity (SfcEntity.Name sfc))
      | _ => wireMemifChain sfc rest (S i) prev
      end
  end.

(** An element that the loop passes over at an odd index of an east-west
    memif chain: it is not of an af-packet kind and not an external entity. *)
Definition passedOver (e : SfcElement.t) : Prop :=
  SfcElement.Type_ e ≠ VPP_CONTAINER_AFP ∧ SfcElement.Type_ e ≠ NON_VPP_CONTAINER_AFP
  ∧ SfcElement.Type_ e ≠ EXTERNAL_ENTITY.

(** Every first element of a consecutive pair is of a memif kind, and every
    second one is passed over. *)
Fixpoint pairable (els : list SfcElement.t) : Prop :=
  match els with
  | a :: b :: rest => isMemifKind a ∧ passedOver b ∧ pairable rest
  | _ => True
  end.

Lemma ewWireLoop_memif_chain sfc :
  SfcEntity.Type_ sfc = SFC_EW_MEMIF →
  ∀ rest i prev s,
    drop i (SfcEntity.Elements sfc) = rest →
    ewWireLoop sfc rest i prev s = wireMemifChain sfc rest i prev s.
Proof.
  intros Ht rest. induction rest as [| e rest IH]; intros i prev s Hdrop; [reflexivity |].
  assert (Hnext : SfcEntity.Elements sfc !! S i = head rest).
  { replace (S i) with (i + 1)%nat by lia. rewrite <- lookup_drop, Hdrop.
    by destruct rest. }
  assert (Hrest : drop (S i) (SfcEntity.Elements sfc) = rest).
  { replace (S i) with (i + 1)%nat by lia. rewrite <- drop_drop, Hdrop.
    reflexivity. }
  assert (Hgo : ∀ p s1, ewWireLoop sfc rest (S i) p s1 = wireMemifChain sfc rest (S i) p s1)
    by (intros; by apply IH).
  cbn [ewWireLoop wireMemifChain]. rewrite bind_unfold. unfold ewWireElement.
  rewrite Ht, Hnext. cbv zeta.
  change (bool_decide (SFC_EW_MEMIF = SFC_EW_MEMIF)) with true.
  change (isEWBridgeType SFC_EW_MEMIF) with false. cbv iota.
  destruct (SfcElement.Type_ e); cbn [raise]; try done.
  all: try exact (Hgo _ _).
  all: rewrite !bind_unfold.
  all: first
    [ destruct (Nat.even i);
      [ destruct rest as [| e2 rest']; [reflexivity |];
        cbn [head deref]; rewrite !bind_unfold; cbn [mret M_ret];
        destruct (createOneOrMoreInterContainerMemIfPairs _ e e2 _ s) as [[] s1 | | |];
        try reflexivity; exact (Hgo _ _)
      | exact (Hgo _ _) ]
    | destruct (createAFPacketVEthPair sfc e s) as [afIfName s1 | | |]; try reflexivity;
      unfold ewXConnect; destruct (isEmpty prev); cbn [negb];
      [ exact (Hgo _ _)
      | rewrite !bind_unfold;
        destruct (createXConnectPair _ afIfName prev s1) as [[] s2 | | |];
        try reflexivity; exact (Hgo _ _) ] ].
Qed.

Lemma wireMemifChain_pairs sfc :
  ∀ rest i prev s,
    Nat.even i = true → pairable rest → Nat.even (length rest) = true →
    wireMemifChain sfc rest i prev s
    = forEach (pairUp rest) (λ p,
        createOneOrMoreInterContainerMemIfPairs (SfcEntity.Name sfc) (fst p) (snd p)
          (SfcEntity.VnfRepeatCount sfc)) s.
Proof.
  intros rest. induction rest as [| a | a b rest IH] using pair_induction;
    intros i prev s Hi Hp Hlen.
  - reflexivity.
  - discriminate.
  - destruct Hp as (Ha & (Hb1 & Hb2 & Hb3) & Hp).
    assert (Hodd : Nat.even (S i) = false)
      by (by rewrite Nat.even_succ, <- Nat.negb_even, Hi).
    assert (Hnext : ∀ p s1,
      wireMemifChain sfc (b :: rest) (S i) p s1
      = forEach (pairUp rest) (λ p,
          createOneOrMoreInterContainerMemIfPairs (SfcEntity.Name sfc) (fst p) (snd p)
            (SfcEntity.VnfRepeatCount sfc)) s1).
    { intros p s1. cbn [wireMemifChain]. rewrite Hodd.
      assert (Hgo : ∀ q, wireMemifChain sfc rest (S (S i)) q s1
                         = forEach (pairUp rest) (λ p,
          createOneOrMoreInterContainerMemIfPairs (SfcEntity.Name sfc) (fst p) (snd p)
            (SfcEntity.VnfRepeatCount sfc)) s1).
      { intros q. apply IH; [exact Hi | done | done]. }
      destruct (SfcElement.Type_ b); try done; apply Hgo. }
    cbn [wireMemifChain pairUp forEach fst snd]. rewrite Hi.
    destruct Ha as [-> | ->]; rewrite !bind_unfold;
      (destruct (createOneOrMoreInterContainerMemIfPairs _ a b _ s) as [[] s1 | | |];
       [apply Hnext | reflexivity..]).
Qed.

(** C7. An east-west memif chain with an odd number of elements is rejected
    with the chain cached and nothing else done. With an even number of
    elements, wiring the chain visits the elements in order up to the first
    failure: an element of a memif kind at an even index i is paired with
    element[i+1], whatever the kind of element[i+1], and one at an odd index
    is not wired on its own; an element of an af-packet kind gets its veth and
    af-packet pair, cross-connected with the pair of the previous unmatched
    af-packet element; an external entity is rejected; any other element is
    skipped. So when the first element of every consecutive pair is of a
    memif kind and the second is not of an af-packet kind and not an external
    entity, wiring the chain is wiring the pairs (element[i], element[i+1])
    for the even indexes i, in order, up to the first failure. *)
Theorem ew_memif_chain_wired_in_pairs (sfc : SfcEntity.t) (s : Driver.t) :
  SfcEntity.Type_ sfc = SFC_EW_MEMIF →
  (Nat.even (length (SfcEntity.Elements sfc)) = false →
     WireSfcEntity sfc s = Err (ErrEWMemifPairs (SfcEntity.Name sfc)) (cacheSfc sfc s))
  ∧ (Nat.even (length (SfcEntity.Elements sfc)) = true →
     WireSfcEntity sfc s
     = wireMemifChain sfc (SfcEntity.Elements sfc) 0 "" (cacheSfc sfc s)
     ∧ (pairable (SfcEntity.Elements sfc) →
        WireSfcEntity sfc s = wireMemifPairs sfc (cacheSfc sfc s))).
Proof.
  intros Ht. split.
  - intros Hlen. unfold WireSfcEntity, wireSfcEastWestElements. rewrite Ht, Hlen.
    reflexivity.
  - intros Hlen.
    assert (Hloop : WireSfcEntity sfc s
                    = wireMemifChain sfc (SfcEntity.Elements sfc) 0 "" (cacheSfc sfc s)).
    { rewrite <- (ewWireLoop_memif_chain sfc Ht) by done.
      unfold WireSfcEntity, wireSfcEastWestElements. rewrite Ht, Hlen. reflexivity. }
    split; [exact Hloop |]. intros Hp. rewrite Hloop. by apply wireMemifChain_pairs.
Qed.

Definition memifChain3 : SfcEntity.t :=
  SfcEntity.mk "sfc-memif" "" SFC_EW_MEMIF "" 0 None
    [memifElement "c1" "p1" "h1"; memifElement "c2" "p1" "h1";
     memifElement "c3" "p1" "h1"].

Definition memifChain2 : SfcEntity.t :=
  SfcEntity.mk "sfc-memif" "" SFC_EW_MEMIF "" 0 None
    [memifElement "c1" "p1" "h1"; memifElement "c2" "p1" "h1"].

(** An east-west memif chain of a container and a host entity. *)
Definition memifChainToHost : SfcEntity.t :=
  SfcEntity.mk "sfc-memif" "" SFC_EW_MEMIF "" 0 None
    [memifElement "c1" "p1" "h1"; hostElement "h2"].

Lemma ew_memif_chain_witness :
  WireSfcEntity memifChain3 newDriver
  = Err (ErrEWMemifPairs "sfc-memif") (cacheSfc memifChain3 newDriver)
  ∧ WireSfcEntity memifChain2 newDriver
    = createOneOrMoreInterContainerMemIfPairs "sfc-memif" (memifElement "c1" "p1" "h1")
        (memifElement "c2" "p1" "h1") 0 (cacheSfc memifChain2 newDriver)
  ∧ WireSfcEntity memifChainToHost newDriver
    = createOneOrMoreInterContainerMemIfPairs "sfc-memif" (memifElement "c1" "p1" "h1")
        (hostElement "h2") 0 (cacheSfc memifChainToHost newDriver).
Proof.
  split; [by apply (ew_memif_chain_wired_in_pairs memifChain3 newDriver) |].
  split.
  - rewrite (proj2 (proj2 (ew_memif_chain_wired_in_pairs memifChain2 newDriver eq_refl)
                      eq_refl)).
    + reflexivity.
    + cbn. split; [by left |]. done.
  - rewrite (proj2 (proj2 (ew_memif_chain_wired_in_pairs memifChainToHost newDriver
                             eq_refl) eq_refl)).
    + reflexivity.
    + cbn. split; [by left |]. done.
Defined.

(** An east-west memif chain of two host-entity elements. *)
Definition memifChainOfHosts : SfcEntity.t :=
  SfcEntity.mk "sfc-memif" "" SFC_EW_MEMIF "" 0 None [hostElement "h1"; hostElement "h2"].

(** The chain has even length; wiring it succeeds without wiring the pair
    (element[0], element[1]), which would have put memif interfaces. *)
Lemma ew_memif_chain_of_hosts_not_paired :
  Nat.even (length (SfcEntity.Elements memifChainOfHosts)) = true
  ∧ WireSfcEntity memifChainOfHosts newDriver
    = Ok tt (cacheSfc memifChainOfHosts newDriver)
  ∧ KVStore.puts (Driver.db (cacheSfc memifChainOfHosts newDriver)) = []
  ∧ WireSfcEntity memifChainOfHosts newDriver
    ≠ wireMemifPairs memifChainOfHosts (cacheSfc memifChainOfHosts newDriver).
Proof.
  split; [reflexivity |]. split; [reflexivity |]. split; [reflexivity |].
  vm_compute. discriminate.
Qed.

(** ** Validation of north-south vxlan chains *)

Definition countType (t : SfcElementType) (els : list SfcElement.t) : Z :=
  Z.of_nat (length (filter (λ e, SfcElement.Type_ e = t) els)).

(** An element of kind [t] names an entity that is not in the cache [known]. *)
Definition danglingElement {V} (t : SfcElementType) (known : gmap string V)
  (els : list SfcElement.t) : Prop :=
  ∃ e, e ∈ els ∧ SfcElement.Type_ e = t ∧ known !! SfcElement.Container e = None.

(** "there must be <= 1 EXTERNAL_ENTITY and <= 1 HOST_ENTITY, and at least one
    of them", each naming a cached entity. *)
Definition nsVxlanInvalid (s : Driver.t) (sfc : SfcEntity.t) : Prop :=
  let els := SfcEntity.Elements sfc in
  1 < countType EXTERNAL_ENTITY els
  ∨ 1 < countType HOST_ENTITY els
  ∨ (countType EXTERNAL_ENTITY els = 0 ∧ countType HOST_ENTITY els = 0)
  ∨ danglingElement EXTERNAL_ENTITY
      (l2CNPEntityCacheType.EEs (Driver.l2CNPEntityCache s)) els
  ∨ danglingElement HOST_ENTITY
      (l2CNPEntityCacheType.HEs (Driver.l2CNPEntityCache s)) els.

(** What makes the scan fail from the counts [acc] on. *)
Definition scanFails (s : Driver.t) (els : list SfcElement.t) (acc : nsScan.t) : Prop :=
  1 < nsScan.eeCount acc + countType EXTERNAL_ENTITY els
  ∨ 1 < nsScan.dhCount acc + countType HOST_ENTITY els
  ∨ danglingElement EXTERNAL_ENTITY
      (l2CNPEntityCacheType.EEs (Driver.l2CNPEntityCache s)) els
  ∨ danglingElement HOST_ENTITY
      (l2CNPEntityCacheType.HEs (Driver.l2CNPEntityCache s)) els.

Lemma countType_cons t e els :
  countType t (e :: els)
  = (if decide (SfcElement.Type_ e = t) then 1 else 0) + countType t els.
Proof.
  unfold countType. rewrite filter_cons. case_decide; cbn [length]; lia.
Qed.

Lemma countType_nonneg t els : 0 <= countType t els.
Proof. unfold countType. lia. Qed.

Lemma danglingElement_cons {V} t (known : gmap string V) e els :
  danglingElement t known (e :: els)
  ↔ (SfcElement.Type_ e = t ∧ known !! SfcElement.Container e = None)
    ∨ danglingElement t known els.
Proof.
  unfold danglingElement. split.
  - intros (x & Hin & Hx). apply elem_of_cons in Hin as [-> | Hin]; [by left |].
    right. by exists x.
  - intros [Hx | (x & Hin & Hx)].
    + exists e. split; [apply list_elem_of_here | done].
    + exists x. split; [by apply list_elem_of_further | done].
Qed.

Lemma danglingElement_nil {V} t (known : gmap string V) : ¬ danglingElement t known [].
Proof. intros (x & Hin & _). by apply not_elem_of_nil in Hin. Qed.

Lemma nsVxlanScan_spec sfc s els : ∀ acc,
  nsScan.eeCount acc <= 1 → nsScan.dhCount acc <= 1 →
  (scanFails s els acc → ∃ e, nsVxlanScan sfc els acc s = Err e s)
  ∧ (¬ scanFails s els acc →
     ∃ r, nsVxlanScan sfc els acc s = Ok r s
          ∧ nsScan.eeCount r = nsScan.eeCount acc + countType EXTERNAL_ENTITY els
          ∧ nsScan.dhCount r = nsScan.dhCount acc + countType HOST_ENTITY els).
Proof.
  induction els as [| e els IH]; intros acc Hc1 Hc2.
  - split.
    + unfold scanFails, countType. cbn.
      intros [H | [H | [H | H]]]; try lia; by apply danglingElement_nil in H.
    + intros _. exists acc. unfold countType. cbn. repeat split; lia.
  - pose proof (countType_nonneg EXTERNAL_ENTITY els) as Hee.
    pose proof (countType_nonneg HOST_ENTITY els) as Hhe.
    cbn [nsVxlanScan]. unfold scanFails.
    rewrite !countType_cons, !danglingElement_cons.
    destruct (SfcElement.Type_ e) eqn:Ht;
      repeat (case_decide; try done).
    all: try (specialize (IH acc Hc1 Hc2); unfold scanFails in IH;
              destruct IH as [IHbad IHok]; split;
              [ intros Hbad; apply IHbad; clear -Hbad; intuition (try discriminate; lia)
              | intros Hok;
                destruct IHok as (r & Hr & H1 & H2);
                [ clear -Hok; intuition (try discriminate; lia)
                | exists r; repeat split; [done | lia | lia] ] ]).
    + (* EXTERNAL_ENTITY *)
      destruct (Z.ltb_spec 1 (nsScan.eeCount acc + 1)) as [Hgt | Hle].
      { split; [intros _; by eexists | intros Hok; exfalso; apply Hok; left; lia]. }
      unfold getEEs. rewrite bind_unfold. cbn.
      destruct (l2CNPEntityCacheType.EEs (Driver.l2CNPEntityCache s)
                  !! SfcElement.Container e) as [ee |] eqn:Hfound.
      2: { split; [intros _; by eexists
                  | intros Hok; exfalso; apply Hok; right; right; left; by left]. }
      match goal with
      | |- context [nsVxlanScan sfc els ?acc'] =>
          specialize (IH acc' ltac:(cbn; lia) ltac:(cbn; lia))
      end.
      unfold scanFails in IH. cbn in IH. destruct IH as [IHbad IHok]. split.
      * intros Hbad. apply IHbad. clear -Hbad Hfound.
        intuition (try discriminate; try congruence; lia).
      * intros Hok. destruct IHok as (r & Hr & H1 & H2).
        { clear -Hok. intuition (try discriminate; lia). }
        exists r. repeat split; [done | lia | lia].
    + (* HOST_ENTITY *)
      destruct (Z.ltb_spec 1 (nsScan.dhCount acc + 1)) as [Hgt | Hle].
      { split; [intros _; by eexists
               | intros Hok; exfalso; apply Hok; right; left; lia]. }
      unfold getHEs. rewrite bind_unfold. cbn.
      destruct (l2CNPEntityCacheType.HEs (Driver.l2CNPEntityCache s)
                  !! SfcElement.Container e) as [he |] eqn:Hfound.
      2: { split; [intros _; by eexists
                  | intros Hok; exfalso; apply Hok; right; right; right; by left]. }
      match goal with
      | |- context [nsVxlanScan sfc els ?acc'] =>
          specialize (IH acc' ltac:(cbn; lia) ltac:(cbn; lia))
      end.
      unfold scanFails in IH. cbn in IH. destruct IH as [IHbad IHok]. split.
      * intros Hbad. apply IHbad. clear -Hbad Hfound.
        intuition (try discriminate; try congruence; lia).
      * intros Hok. destruct IHok as (r & Hr & H1 & H2).
        { clear -Hok. intuition (try discriminate; lia). }
        exists r. repeat split; [done | lia | lia].
Qed.

Lemma danglingElement_counted {V} t (known : gmap string V) els :
  danglingElement t known els → 1 <= countType t els.
Proof.
  induction els as [| e els IH].
  - intros H. by apply danglingElement_nil in H.
  - rewrite danglingElement_cons, countType_cons.
    pose proof (countType_nonneg t els).
    intros [[Ht _] | H']; case_decide; try done; try lia.
    specialize (IH H'). lia.
Qed.

(** C4. A north-south vxlan chain with more than one external entity, more
    than one host entity, neither of them, or one that is not in its entity
    cache is rejected with the chain cached and no element wired. Any other
    chain passes the validation, and wiring it is wiring its elements in
    order: an error then comes from wiring a container element. *)
Theorem ns_vxlan_chain_validation (sfc : SfcEntity.t) (s : Driver.t) :
  SfcEntity.Type_ sfc = SFC_NS_VXLAN →
  (nsVxlanInvalid s sfc → ∃ e, WireSfcEntity sfc s = Err e (cacheSfc sfc s))
  ∧ (¬ nsVxlanInvalid s sfc →
     ∃ scan,
       nsScan.eeCount scan = countType EXTERNAL_ENTITY (SfcEntity.Elements sfc)
       ∧ nsScan.dhCount scan = countType HOST_ENTITY (SfcEntity.Elements sfc)
       ∧ WireSfcEntity sfc s
         = forEach (SfcEntity.Elements sfc) (nsVxlanWireElement sfc scan)
             (cacheSfc sfc s)).
Proof.
  intros Ht. unfold WireSfcEntity. rewrite Ht. rewrite bind_unfold. cbn.
  fold (cacheSfc sfc s). unfold wireSfcNorthSouthVXLANElements. rewrite bind_unfold.
  destruct (nsVxlanScan_spec sfc (cacheSfc sfc s) (SfcEntity.Elements sfc) nsScan.init)
    as [Hbad Hok]; [cbn; lia | cbn; lia |].
  unfold scanFails in Hbad, Hok. cbn in Hbad, Hok.
  unfold nsVxlanInvalid. cbn zeta.
  set (els := SfcEntity.Elements sfc) in *.
  set (ees := l2CNPEntityCacheType.EEs (Driver.l2CNPEntityCache s)) in *.
  set (hes := l2CNPEntityCacheType.HEs (Driver.l2CNPEntityCache s)) in *.
  pose proof (countType_nonneg EXTERNAL_ENTITY els) as Hee.
  pose proof (countType_nonneg HOST_ENTITY els) as Hhe.
  split.
  - intros [H | [H | [[Hz1 Hz2] | [H | H]]]].
    + destruct Hbad as (e & ->); [by left | by eexists].
    + destruct Hbad as (e & ->); [by right; left | by eexists].
    + destruct Hok as (r & -> & H1 & H2).
      { intros [H | [H | [H | H]]]; try lia;
          apply danglingElement_counted in H; lia. }
      rewrite H1, H2, Hz1, Hz2. cbn. by eexists.
    + destruct Hbad as (e & ->); [by right; right; left | by eexists].
    + destruct Hbad as (e & ->); [by right; right; right | by eexists].
  - intros Hvalid.
    destruct Hok as (r & -> & H1 & H2).
    { intros [H | [H | [H | H]]]; apply Hvalid; tauto. }
    exists r. split; [lia |]. split; [lia |].
    destruct ((nsScan.eeCount r =? 0) && (nsScan.dhCount r =? 0)) eqn:Hzero; [| done].
    exfalso. apply Hvalid. right; right; left.
    apply andb_true_iff in Hzero as [Hz1 Hz2]. lia.
Qed.

Definition eeElement (name : string) : SfcElement.t :=
  SfcElement.mk name "" "" "" "" EXTERNAL_ENTITY 0 0 RX_MODE_UNKNOWN [] "" [] [].

(** h1 is wired to the external entity ee1; no host h9 is. *)
Definition driverWithRouter : Driver.t :=
  stateAfter [CallSetSystemParameters defaultSysParms;
              CallWireHostEntityToExternalEntity host1 router1] newDriver.

(** A north-south chain with two external entities. *)
Definition nsChainTwoRouters : SfcEntity.t :=
  SfcEntity.mk "sfc-ns" "" SFC_NS_VXLAN "" 0 None
    [eeElement "ee1"; eeElement "ee1"; memifElement "c1" "p1" "h1"].

(** A north-south chain toward ee1 whose container sits on h9. *)
Definition nsChainUnwiredHost : SfcEntity.t :=
  SfcEntity.mk "sfc-ns" "" SFC_NS_VXLAN "" 0 None
    [eeElement "ee1"; memifElement "c1" "p1" "h9"].

Lemma nsChainUnwiredHost_valid : ¬ nsVxlanInvalid driverWithRouter nsChainUnwiredHost.
Proof.
  unfold nsVxlanInvalid. cbn zeta.
  change (SfcEntity.Elements nsChainUnwiredHost)
    with [eeElement "ee1"; memifElement "c1" "p1" "h9"].
  rewrite !danglingElement_cons.
  intros [H | [H | [[H _] | [H | H]]]]; try (vm_compute in H; done).
  - destruct H as [[_ H] | [[H _] | H]]; try done.
    by apply danglingElement_nil in H.
  - destruct H as [[H _] | [[H _] | H]]; try done.
    by apply danglingElement_nil in H.
Qed.

Lemma ns_vxlan_chain_witness :
  (∃ e, WireSfcEntity nsChainTwoRouters driverWithRouter
        = Err e (cacheSfc nsChainTwoRouters driverWithRouter))
  ∧ ∃ scan,
      nsScan.eeCount scan = 1 ∧ nsScan.dhCount scan = 0
      ∧ WireSfcEntity nsChainUnwiredHost driverWithRouter
        = forEach (SfcEntity.Elements nsChainUnwiredHost)
            (nsVxlanWireElement nsChainUnwiredHost scan)
            (cacheSfc nsChainUnwiredHost driverWithRouter).
Proof.
  split.
  - apply (ns_vxlan_chain_validation nsChainTwoRouters driverWithRouter eq_refl).
    left. vm_compute. reflexivity.
  - destruct (proj2 (ns_vxlan_chain_validation nsChainUnwiredHost driverWithRouter
                       eq_refl) nsChainUnwiredHost_valid) as (scan & H1 & H2 & Hrun).
    exists scan. by repeat split.
Defined.

(** The chain [nsChainUnwiredHost] has one external entity, which is cached,
    and no host entity, yet wiring it returns an error: its container sits on
    a host that is not wired to the external entity. *)
Lemma ns_vxlan_chain_error_from_wiring :
  ¬ nsVxlanInvalid driverWithRouter nsChainUnwiredHost
  ∧ WireSfcEntity nsChainUnwiredHost driverWithRouter
    = Err (ErrToExtEntityHostNotFound "h9" "sfc-ns")
          (cacheSfc nsChainUnwiredHost driverWithRouter).
Proof. split; [apply nsChainUnwiredHost_valid | vm_compute; reflexivity]. Qed.

(** ** Requests to the external-entity driver *)

(** The request wires the external entity [e] to the host [h]. *)
Definition isWireCall (h e : string) (c : DriverCall) : bool :=
  match c with
  | SfcCtlrL2WireExternalEntityToHostEntity ee he _ _ =>
      String.eqb (HostEntity.Name he) h && String.eqb (ExternalEntity.Name ee) e
  | SfcCtlrL2WireExternalEntityInternals _ => false
  end.

Definition callVni (c : DriverCall) : Z :=
  match c with
  | SfcCtlrL2WireExternalEntityToHostEntity _ _ vlanID _ => vlanID
  | SfcCtlrL2WireExternalEntityInternals _ => 0
  end.

(** The requests made so far for the edge (h, e). *)
Definition edgeCalls (s : Driver.t) (h e : string) : list DriverCall :=
  List.filter (isWireCall h e) (Driver.extEntityDriver s).

Definition edgeBd (s : Driver.t) (h e : string) : option bdPtr :=
  heToEE s h e ≫= heToEEStateType.bd.

(** The VNI of the tunnel interface cached for the edge (h, e). *)
Definition edgeVni (s : Driver.t) (h e : string) : option Z :=
  st ← heToEE s h e;
  vlanIf ← heToEEStateType.vlanIf st;
  vxlan ← Interface.Vxlan vlanIf;
  Some (Vxlan.Vni vxlan).

(** Entities are cached under their names. *)
Definition cachesNamed (s : Driver.t) : Prop :=
  (∀ k he, cachedHE s k = Some he → HostEntity.Name he = k)
  ∧ (∀ k ee, cachedEE s k = Some ee → ExternalEntity.Name ee = k).

(** The two ends of a recorded edge are cached. *)
Definition edgesCached (s : Driver.t) : Prop :=
  ∀ h e, is_Some (heToEE s h e) → is_Some (cachedHE s h) ∧ is_Some (cachedEE s e).

(** No edge has more than one request, and an edge with a request has its
    bridge, and its tunnel interface carries the VNI of the request. *)
Definition callsOnce (s : Driver.t) : Prop :=
  ∀ h e,
    edgeCalls s h e = []
    ∨ ∃ c, edgeCalls s h e = [c] ∧ is_Some (edgeBd s h e)
           ∧ edgeVni s h e = Some (callVni c).

Definition wiredOnce (s : Driver.t) : Prop :=
  cachesNamed s ∧ edgesCached s ∧ callsOnce s.

Definition keepsWiredOnce : relation Driver.t := λ s s', wiredOnce s → wiredOnce s'.

(** The part of the state that [wiredOnce] reads is the same. *)
Definition sameWiring : relation Driver.t := λ s s',
  l2CNPStateCacheType.HEToEEs (Driver.l2CNPStateCache s')
  = l2CNPStateCacheType.HEToEEs (Driver.l2CNPStateCache s)
  ∧ Driver.extEntityDriver s' = Driver.extEntityDriver s
  ∧ l2CNPEntityCacheType.EEs (Driver.l2CNPEntityCache s')
    = l2CNPEntityCacheType.EEs (Driver.l2CNPEntityCache s)
  ∧ l2CNPEntityCacheType.HEs (Driver.l2CNPEntityCache s')
    = l2CNPEntityCacheType.HEs (Driver.l2CNPEntityCache s).

#[global] Instance sameWiring_preorder : PreOrder sameWiring.
Proof.
  split.
  - by intros s.
  - intros s1 s2 s3 (H1 & H2 & H3 & H4) (G1 & G2 & G3 & G4).
    unfold sameWiring. by rewrite G1, G2, G3, G4.
Qed.
#[global] Instance sameWiring_db : FrameDb sameWiring.
Proof. by intros f s _. Qed.
#[global] Instance sameWiring_SFCs : FrameSFCs sameWiring.
Proof. by intros f s. Qed.
#[global] Instance sameWiring_SysParms : FrameSysParms sameWiring.
Proof. by intros f s. Qed.
#[global] Instance sameWiring_HEToHEs : FrameHEToHEs sameWiring.
Proof. by intros f s. Qed.
#[global] Instance sameWiring_SFCToHEs : FrameSFCToHEs sameWiring.
Proof. by intros f s. Qed.
#[global] Instance sameWiring_HE : FrameHE sameWiring.
Proof. by intros f s. Qed.
#[global] Instance sameWiring_SFCIFAddr : FrameSFCIFAddr sameWiring.
Proof. by intros f s. Qed.
#[global] Instance sameWiring_after : FrameAfter sameWiring.
Proof. by intros f s. Qed.
#[global] Instance sameWiring_seq : FrameSeq sameWiring.
Proof. by intros f s. Qed.
#[global] Instance sameWiring_heap : FrameHeap sameWiring.
Proof. by intros f s. Qed.
#[global] Instance sameWiring_ipam : FrameIpam sameWiring.
Proof. by intros f s. Qed.

Lemma sameWiring_views s s' :
  sameWiring s s' →
  (∀ h e, heToEE s' h e = heToEE s h e)
  ∧ (∀ h e, edgeCalls s' h e = edgeCalls s h e)
  ∧ (∀ h e, edgeBd s' h e = edgeBd s h e)
  ∧ (∀ h e, edgeVni s' h e = edgeVni s h e)
  ∧ (∀ k, cachedHE s' k = cachedHE s k)
  ∧ (∀ k, cachedEE s' k = cachedEE s k).
Proof.
  intros (H1 & H2 & H3 & H4).
  unfold heToEE, edgeCalls, edgeBd, edgeVni, heToEE, cachedHE, cachedEE.
  rewrite H1, H2, H3, H4. done.
Qed.

Lemma sameWiring_wiredOnce s s' : sameWiring s s' → wiredOnce s → wiredOnce s'.
Proof.
  intros Hsame (Hn & Hc & Ho).
  destruct (sameWiring_views s s' Hsame) as (V1 & V2 & V3 & V4 & V5 & V6).
  unfold wiredOnce, cachesNamed, edgesCached, callsOnce in *.
  setoid_rewrite V1. setoid_rewrite V2. setoid_rewrite V3. setoid_rewrite V4.
  setoid_rewrite V5. setoid_rewrite V6. done.
Qed.

#[global] Instance keepsWiredOnce_preorder : PreOrder keepsWiredOnce.
Proof. split; [by intros s H | intros s1 s2 s3 H12 H23 H; by apply H23, H12]. Qed.

Lemma sameWiring_keepsWiredOnce s s' : sameWiring s s' → keepsWiredOnce s s'.
Proof. intros H Hw. by apply (sameWiring_wiredOnce s s'). Qed.

#[global] Instance keepsWiredOnce_db : FrameDb keepsWiredOnce.
Proof. intros f s _. by apply sameWiring_keepsWiredOnce. Qed.
#[global] Instance keepsWiredOnce_SFCs : FrameSFCs keepsWiredOnce.
Proof. intros f s. by apply sameWiring_keepsWiredOnce. Qed.
#[global] Instance keepsWiredOnce_SysParms : FrameSysParms keepsWiredOnce.
Proof. intros f s. by apply sameWiring_keepsWiredOnce. Qed.
#[global] Instance keepsWiredOnce_HEToHEs : FrameHEToHEs keepsWiredOnce.
Proof. intros f s. by apply sameWiring_keepsWiredOnce. Qed.
#[global] Instance keepsWiredOnce_SFCToHEs : FrameSFCToHEs keepsWiredOnce.
Proof. intros f s. by apply sameWiring_keepsWiredOnce. Qed.
#[global] Instance keepsWiredOnce_HE : FrameHE keepsWiredOnce.
Proof. intros f s. by apply sameWiring_keepsWiredOnce. Qed.
#[global] Instance keepsWiredOnce_SFCIFAddr : FrameSFCIFAddr keepsWiredOnce.
Proof. intros f s. by apply sameWiring_keepsWiredOnce. Qed.
#[global] Instance keepsWiredOnce_after : FrameAfter keepsWiredOnce.
Proof. intros f s. by apply sameWiring_keepsWiredOnce. Qed.
#[global] Instance keepsWiredOnce_seq : FrameSeq keepsWiredOnce.
Proof. intros f s. by apply sameWiring_keepsWiredOnce. Qed.
#[global] Instance keepsWiredOnce_heap : FrameHeap keepsWiredOnce.
Proof. intros f s. by apply sameWiring_keepsWiredOnce. Qed.
#[global] Instance keepsWiredOnce_ipam : FrameIpam keepsWiredOnce.
Proof. intros f s. by apply sameWiring_keepsWiredOnce. Qed.

#[global] Instance keepsWiredOnce_HEs : FrameHEs keepsWiredOnce.
Proof.
  intros he [db [ees hes sfcs sp] sc ra rip q heap ext ip] ((Hn1 & Hn2) & Hc & Ho).
  unfold wiredOnce, cachesNamed, edgesCached, callsOnce, cachedHE, cachedEE, heToEE,
    edgeCalls, edgeBd, edgeVni, heToEE in *. unfold_setters.
  split; [split; [| done] |].
  - intros k he'. rewrite lookup_insert. case_decide; [by intros [= <-] | apply Hn1].
  - split; [| done]. intros h e Hedge. destruct (Hc h e Hedge) as [H1 H2].
    split; [| done]. rewrite lookup_insert. case_decide; [by eexists | done].
Qed.

#[global] Instance keepsWiredOnce_EEs : FrameEEs keepsWiredOnce.
Proof.
  intros ee [db [ees hes sfcs sp] sc ra rip q heap ext ip] ((Hn1 & Hn2) & Hc & Ho).
  unfold wiredOnce, cachesNamed, edgesCached, callsOnce, cachedHE, cachedEE, heToEE,
    edgeCalls, edgeBd, edgeVni, heToEE in *. unfold_setters.
  split; [split; [done |] |].
  - intros k ee'. rewrite lookup_insert. case_decide; [by intros [= <-] | apply Hn2].
  - split; [| done]. intros h e Hedge. destruct (Hc h e Hedge) as [H1 H2].
    split; [done |]. rewrite lookup_insert. case_decide; [by eexists | done].
Qed.

Section keeps_bridges.
Context (R : relation Driver.t) `{!PreOrder R, !FrameDb R, !FrameAfter R, !FrameHeap R}.

Lemma keeps_storeBD ptr bd : keeps R (storeBD ptr bd).
Proof. unfold storeBD. keeps_auto. Qed.

Lemma keeps_bridgedDomainCreateWithIfs_framed k n ifs p :
  keeps R (bridgedDomainCreateWithIfs k n ifs p).
Proof. unfold bridgedDomainCreateWithIfs. keeps_auto. Qed.

Lemma keeps_bridgedDomainAssociateWithIfs_framed k bd ifs :
  keeps R (bridgedDomainAssociateWithIfs k bd ifs).
Proof. unfold bridgedDomainAssociateWithIfs. keeps_auto. Qed.

End keeps_bridges.

(** How a computation that ends in a state got there through a bind. *)
Lemma final_bind {A B} (m : M A) (k : A → M B) s s' :
  final ((m ≫= k) s) = Some s' →
  (∃ a s1, m s = Ok a s1 ∧ final (k a s1) = Some s')
  ∨ ((∀ a s1, m s ≠ Ok a s1) ∧ final (m s) = Some s').
Proof.
  rewrite bind_unfold. destruct (m s) as [a s1 | e s1 | s1 |]; cbn; intros H.
  - left. by exists a, s1.
  - by right.
  - by right.
  - done.
Qed.

(** The edges and the cached entities are the same. *)
Definition sameEdges : relation Driver.t := λ s s',
  l2CNPStateCacheType.HEToEEs (Driver.l2CNPStateCache s')
  = l2CNPStateCacheType.HEToEEs (Driver.l2CNPStateCache s)
  ∧ l2CNPEntityCacheType.EEs (Driver.l2CNPEntityCache s')
    = l2CNPEntityCacheType.EEs (Driver.l2CNPEntityCache s)
  ∧ l2CNPEntityCacheType.HEs (Driver.l2CNPEntityCache s')
    = l2CNPEntityCacheType.HEs (Driver.l2CNPEntityCache s).

#[global] Instance sameEdges_preorder : PreOrder sameEdges.
Proof.
  split.
  - by intros s.
  - intros s1 s2 s3 (H1 & H2 & H3) (G1 & G2 & G3).
    unfold sameEdges. by rewrite G1, G2, G3.
Qed.
#[global] Instance sameEdges_db : FrameDb sameEdges.
Proof. by intros f s _. Qed.
#[global] Instance sameEdges_after : FrameAfter sameEdges.
Proof. by intros f s. Qed.
#[global] Instance sameEdges_ext : FrameExt sameEdges.
Proof. by intros f s. Qed.

(** *** The request is made from the cached edge *)

Lemma wireExternalEntityToHostEntity_effect ee he s s' :
  final (wireExternalEntityToHostEntity ee he s) = Some s' →
  sameEdges s s'
  ∧ (Driver.extEntityDriver s' = Driver.extEntityDriver s
     ∨ ∃ vni sr,
         edgeVni s (HostEntity.Name he) (ExternalEntity.Name ee) = Some vni
         ∧ Driver.extEntityDriver s'
           = Driver.extEntityDriver s
             ++ [SfcCtlrL2WireExternalEntityToHostEntity ee he vni sr]).
Proof.
  unfold wireExternalEntityToHostEntity, edgeVni, heToEE. intros Hfin.
  apply final_bind in Hfin as [(m & s1 & [= <- <-] & Hfin) | [Hno _]];
    [| by exfalso; eapply Hno].
  destruct (l2CNPStateCacheType.HEToEEs (Driver.l2CNPStateCache s)
              !! HostEntity.Name he) as [heToEEMap |]; cbn in *;
    [| simplify_eq; by split; [| left]].
  destruct (heToEEMap !! ExternalEntity.Name ee) as [st |]; cbn in *;
    [| simplify_eq; by split; [| left]].
  destruct (heToEEStateType.vlanIf st) as [vlanIf |]; cbn in *;
    [| rewrite bind_unfold in Hfin; unfold panic in Hfin; cbn in Hfin;
       simplify_eq; by split; [| left]].
  rewrite bind_unfold in Hfin; cbn in Hfin.
  destruct (Interface.Vxlan vlanIf) as [vxlan |]; cbn in *;
    [| rewrite bind_unfold in Hfin; unfold panic in Hfin; cbn in Hfin;
       simplify_eq; by split; [| left]].
  rewrite bind_unfold in Hfin; cbn in Hfin.
  destruct (ExternalEntity.HostInterface ee) as [hi |]; cbn in *;
    [| rewrite bind_unfold in Hfin; unfold panic in Hfin; cbn in Hfin;
       simplify_eq; by split; [| left]].
  do 2 (rewrite bind_unfold in Hfin; cbn in Hfin).
  apply final_bind in Hfin as [(sr & s1 & Hsr & Hfin) | [_ Hfin]].
  - injection Hfin as <-.
    assert (Hk : sameWiring s s1).
    { eapply (keeps_createStaticRoute sameWiring). by rewrite Hsr. }
    destruct Hk as (H1 & H2 & H3 & H4). unfold sameEdges. cbn. rewrite H2.
    split; [done |]. right. by eexists _, _.
  - assert (Hk : sameWiring s s').
    { by eapply (keeps_createStaticRoute sameWiring). }
    destruct Hk as (H1 & H2 & H3 & H4). split; [done |]. by left.
Qed.

(** *** Writes to the table of edges *)

Lemma heToEE_alter f h e s h' e' :
  heToEE (Driver.set_l2CNPStateCache
            (l2CNPStateCacheType.set_HEToEEs (alter (alter f e) h)) s) h' e'
  = if decide (h = h' ∧ e = e') then f <$> heToEE s h' e' else heToEE s h' e'.
Proof.
  unfold heToEE. unfold_setters. rewrite lookup_alter.
  destruct (decide (h = h')) as [<- | Hh].
  - destruct (l2CNPStateCacheType.HEToEEs (Driver.l2CNPStateCache s) !! h) as [m |];
      cbn; [| by case_decide].
    rewrite lookup_alter. destruct (decide (e = e')) as [<- | He].
    + destruct (decide _) as [_ | Hd]; [done | exfalso; apply Hd; by split].
    + by destruct (decide _) as [[_ Hd] | _].
  - by destruct (decide _) as [[Hd _] | _].
Qed.

Lemma edgeCalls_frame f s h e :
  edgeCalls (Driver.set_l2CNPStateCache f s) h e = edgeCalls s h e.
Proof. reflexivity. Qed.

Lemma edgeBd_None_calls s h e :
  wiredOnce s → edgeBd s h e = None → edgeCalls s h e = [].
Proof.
  intros (_ & _ & Ho) Hbd. destruct (Ho h e) as [H | (c & _ & [b Hb] & _)]; [done |].
  congruence.
Qed.

Lemma edgeVni_None_calls s h e :
  wiredOnce s → edgeVni s h e = None → edgeCalls s h e = [].
Proof.
  intros (_ & _ & Ho) Hv. destruct (Ho h e) as [H | (c & _ & _ & Hc)]; [done |].
  congruence.
Qed.

(** A field of a recorded edge is written. The edge keeps its requests when
    the write keeps the tunnel interface and a present bridge. *)
Lemma wiredOnce_alter f h e s :
  (∀ st, heToEE s h e = Some st → edgeCalls s h e ≠ [] →
         heToEEStateType.vlanIf (f st) = heToEEStateType.vlanIf st
         ∧ (is_Some (heToEEStateType.bd st) → is_Some (heToEEStateType.bd (f st)))) →
  wiredOnce s →
  wiredOnce (Driver.set_l2CNPStateCache
               (l2CNPStateCacheType.set_HEToEEs (alter (alter f e) h)) s).
Proof.
  intros Hf (Hn & Hc & Ho). split; [done |]. split.
  - intros h' e'. rewrite heToEE_alter. intros Hsome. apply Hc.
    case_decide; [| done]. by apply fmap_is_Some in Hsome.
  - intros h' e'. unfold edgeBd, edgeVni. rewrite heToEE_alter, edgeCalls_frame.
    specialize (Ho h' e'). unfold edgeBd, edgeVni in Ho.
    case_decide as Heq; [| done]. destruct Heq as [<- <-].
    destruct Ho as [Ho | (c & Hcalls & Hbd & Hvni)]; [by left |].
    right. exists c. split; [done |].
    destruct (heToEE s h e) as [st |] eqn:Hst; cbn in *; [| by destruct Hbd].
    destruct (Hf st eq_refl) as [Hv Hb]; [by rewrite Hcalls |].
    rewrite Hv. split; [by apply Hb | done].
Qed.

(** A host gets its (empty) map of edges. *)
Lemma wiredOnce_insert_host h s :
  l2CNPStateCacheType.HEToEEs (Driver.l2CNPStateCache s) !! h = None →
  wiredOnce s →
  wiredOnce (Driver.set_l2CNPStateCache
               (l2CNPStateCacheType.set_HEToEEs <[h := ∅]>) s).
Proof.
  intros Hnone Hw.
  assert (Hsame : ∀ h' e',
    heToEE (Driver.set_l2CNPStateCache
              (l2CNPStateCacheType.set_HEToEEs <[h := ∅]>) s) h' e' = heToEE s h' e').
  { intros h' e'. unfold heToEE. unfold_setters. rewrite lookup_insert.
    case_decide as Heq; [subst h'; by rewrite Hnone | done]. }
  destruct Hw as (Hn & Hc & Ho). split; [done |]. split.
  - intros h' e'. rewrite Hsame. apply Hc.
  - intros h' e'. unfold edgeBd, edgeVni. rewrite Hsame, edgeCalls_frame. apply Ho.
Qed.

(** An edge between two cached entities is recorded, with no field set. *)
Lemma wiredOnce_insert_edge h e m s :
  l2CNPStateCacheType.HEToEEs (Driver.l2CNPStateCache s) !! h = Some m →
  m !! e = None →
  is_Some (cachedHE s h) → is_Some (cachedEE s e) →
  wiredOnce s →
  wiredOnce (Driver.set_l2CNPStateCache
               (l2CNPStateCacheType.set_HEToEEs
                  <[h := <[e := heToEEStateType.zero]> m]>) s).
Proof.
  intros Hm He Hh Hee Hw.
  assert (Hnew : ∀ h' e',
    heToEE (Driver.set_l2CNPStateCache
              (l2CNPStateCacheType.set_HEToEEs
                 <[h := <[e := heToEEStateType.zero]> m]>) s) h' e'
    = if decide (h = h' ∧ e = e') then Some heToEEStateType.zero else heToEE s h' e').
  { intros h' e'. unfold heToEE. unfold_setters. rewrite lookup_insert.
    destruct (decide (h = h')) as [<- |]; cbn.
    - rewrite Hm, lookup_insert. cbn.
      destruct (decide (e = e')) as [<- | He'].
      + destruct (decide _) as [_ | Hd]; [done | exfalso; apply Hd; by split].
      + by destruct (decide _) as [[_ Hd] | _].
    - by destruct (decide _) as [[Hd _] | _]. }
  assert (Hold : heToEE s h e = None) by (unfold heToEE; by rewrite Hm).
  pose proof (edgeBd_None_calls s h e Hw) as Hcalls.
  destruct Hw as (Hn & Hc & Ho). split; [done |]. split.
  - intros h' e'. rewrite Hnew. case_decide as Heq; [| apply Hc].
    destruct Heq as [<- <-]. done.
  - intros h' e'. unfold edgeBd, edgeVni. rewrite Hnew, edgeCalls_frame.
    case_decide as Heq; [| apply Ho]. destruct Heq as [<- <-].
    left. apply Hcalls. unfold edgeBd. by rewrite Hold.
Qed.

Lemma sameEdges_sameWiring s s' :
  sameEdges s s' → Driver.extEntityDriver s' = Driver.extEntityDriver s →
  sameWiring s s'.
Proof. intros (H1 & H2 & H3) H4. done. Qed.

(** The request for an edge that has its bridge and its tunnel, and no
    request yet. *)
Lemma wiredOnce_call ee he vni sr s s' :
  sameEdges s s' →
  Driver.extEntityDriver s'
  = Driver.extEntityDriver s ++ [SfcCtlrL2WireExternalEntityToHostEntity ee he vni sr] →
  edgeCalls s (HostEntity.Name he) (ExternalEntity.Name ee) = [] →
  is_Some (edgeBd s (HostEntity.Name he) (ExternalEntity.Name ee)) →
  edgeVni s (HostEntity.Name he) (ExternalEntity.Name ee) = Some vni →
  wiredOnce s → wiredOnce s'.
Proof.
  intros (H1 & H2 & H3) Hext Hnone Hbd Hvni (Hn & Hc & Ho).
  assert (V1 : ∀ h e, heToEE s' h e = heToEE s h e).
  { intros h e. unfold heToEE. by rewrite H1. }
  unfold wiredOnce, cachesNamed, edgesCached, callsOnce, edgeBd, edgeVni,
    cachedHE, cachedEE in *.
  setoid_rewrite V1. rewrite H2, H3. split; [done |]. split; [done |].
  intros h e. unfold edgeCalls in *. rewrite Hext, List.filter_app. cbn.
  destruct (String.eqb_spec (HostEntity.Name he) h) as [<- | Hh]; cbn.
  - destruct (String.eqb_spec (ExternalEntity.Name ee) e) as [<- | He]; cbn.
    + right. rewrite Hnone. cbn. by eexists.
    + rewrite app_nil_r. apply Ho.
  - rewrite app_nil_r. apply Ho.
Qed.

(** The request to prepare an external entity is no request for an edge. *)
Lemma keepsWiredOnce_WireInternalsForExternalEntity ee :
  keeps keepsWiredOnce (WireInternalsForExternalEntity ee).
Proof.
  intros s s' [= <-] (Hn & Hc & Ho). split; [done |]. split; [done |].
  intros h e. specialize (Ho h e).
  unfold edgeCalls in *. unfold_setters.
  rewrite List.filter_app. cbn. rewrite app_nil_r. apply Ho.
Qed.

(** *** Outcomes of a computation from one state *)

(** [wp m Q E s]: run from [s], [m] returns a value and a state in [Q], or
    fails or panics in a state in [E], or diverges. *)
Definition wp {A} (m : M A) (Q : A → Driver.t → Prop) (E : Driver.t → Prop)
  (s : Driver.t) : Prop :=
  match m s with
  | Ok a s' => Q a s'
  | Err _ s' | Panic s' => E s'
  | Diverge => True
  end.

Lemma wp_bind {A B} (m : M A) (k : A → M B) Q E s :
  wp m (λ a s1, wp (k a) Q E s1) E s → wp (m ≫= k) Q E s.
Proof. unfold wp. rewrite bind_unfold. by destruct (m s). Qed.

Lemma wp_keeps (R : relation Driver.t) {A} (m : M A) (Q : A → Driver.t → Prop)
  (E : Driver.t → Prop) s :
  keeps R m → (∀ a s', R s s' → Q a s') → (∀ s', R s s' → E s') → wp m Q E s.
Proof.
  intros Hm HQ HE. unfold wp. specialize (Hm s).
  destruct (m s); cbn in Hm; eauto.
Qed.

Lemma wp_final {A} (m : M A) (P : Driver.t → Prop) s :
  (∀ s', final (m s) = Some s' → P s') → wp m (λ _, P) P s.
Proof. intros H. unfold wp. destruct (m s); cbn in H; eauto. Qed.

Lemma keeps_wp (P : Driver.t → Prop) {A} (m : M A) :
  (∀ s, P s → wp m (λ _, P) P s) → keeps (λ s s', P s → P s') m.
Proof.
  intros H s s' Hfin HP. specialize (H s HP). unfold wp in H.
  destruct (m s); cbn in Hfin; by simplify_eq.
Qed.

Lemma final_attempt_unit {A} (m : M A) s :
  final ((attempt m ;; mret tt) s) = final (m s).
Proof. rewrite bind_unfold. unfold attempt. by destruct (m s). Qed.

Lemma getHEToEEState_run h e s : getHEToEEState h e s = Ok (heToEE s h e) s.
Proof.
  unfold getHEToEEState, heToEE. rewrite bind_unfold. cbn.
  by destruct (l2CNPStateCacheType.HEToEEs (Driver.l2CNPStateCache s) !! h).
Qed.

Lemma lookupHE_run n s :
  lookupHE n s = Ok (default HostEntity.zero (cachedHE s n)) s.
Proof. reflexivity. Qed.

Lemma lookupEE_run n s :
  lookupEE n s = Ok (default ExternalEntity.zero (cachedEE s n)) s.
Proof. reflexivity. Qed.

(** The ends of a recorded edge, as the driver looks them up. *)
Lemma edge_ends s h e :
  wiredOnce s → is_Some (heToEE s h e) →
  HostEntity.Name (default HostEntity.zero (cachedHE s h)) = h
  ∧ ExternalEntity.Name (default ExternalEntity.zero (cachedEE s e)) = e.
Proof.
  intros ((Hn1 & Hn2) & Hc & _) Hedge. destruct (Hc h e Hedge) as [[he Hhe] [ee Hee]].
  rewrite Hhe, Hee. cbn. split; [by apply Hn1 | by apply Hn2].
Qed.

Lemma wp_ret {A} (a : A) (Q : A → Driver.t → Prop) E s : Q a s → wp (mret a) Q E s.
Proof. done. Qed.

Lemma wp_run_bind {A B} (m : M A) (k : A → M B) a Q E s :
  m s = Ok a s → wp (k a) Q E s → wp (m ≫= k) Q E s.
Proof. intros Hm Hk. apply wp_bind. unfold wp at 1. by rewrite Hm. Qed.

Lemma wp_deref_bind {A B} (p : option A) (k : A → M B) Q (E : Driver.t → Prop) s :
  E s → (∀ a, p = Some a → wp (k a) Q E s) → wp (deref p ≫= k) Q E s.
Proof.
  intros HE Hk. apply wp_bind. destruct p as [a |]; [by apply Hk | done].
Qed.

Lemma wp_modify_bind {B} (f : Driver.t → Driver.t) (k : unit → M B) Q E s :
  wp (k tt) Q E (f s) → wp (modify f ≫= k) Q E s.
Proof. intros Hk. by apply wp_bind. Qed.

Lemma wp_same_bind {A B} (m : M A) (k : A → M B) Q (E : Driver.t → Prop) s :
  keeps sameWiring m →
  (∀ s', sameWiring s s' → E s') →
  (∀ a s', sameWiring s s' → wp (k a) Q E s') →
  wp (m ≫= k) Q E s.
Proof. intros Hm HE Hk. apply wp_bind. by apply (wp_keeps sameWiring). Qed.

Lemma wiredOnce_same s : wiredOnce s → ∀ s', sameWiring s s' → wiredOnce s'.
Proof. intros Hw s' Hs. by apply (sameWiring_wiredOnce s). Qed.

(** *** Requests are only made when the bridge of the edge is created *)

(** Once the bridge of the edge (h, e) exists, it stays, and the requests
    made for the edge stay as they are. *)
Definition settled (h e : string) : relation Driver.t := λ s s',
  is_Some (edgeBd s h e) →
  is_Some (edgeBd s' h e) ∧ edgeCalls s' h e = edgeCalls s h e.

#[global] Instance settled_preorder h e : PreOrder (settled h e).
Proof.
  split.
  - by intros s Hs.
  - intros s1 s2 s3 H12 H23 H1. destruct (H12 H1) as [H2 E2].
    destruct (H23 H2) as [H3 E3]. split; [done | by rewrite E3].
Qed.

(** [s] is a consistent state, later than [s0] for the edge (h, e). *)
Definition tracked (s0 : Driver.t) (h e : string) (s : Driver.t) : Prop :=
  wiredOnce s ∧ settled h e s0 s.

Definition keepsTracked (s0 : Driver.t) (h e : string) : relation Driver.t :=
  λ s s', tracked s0 h e s → tracked s0 h e s'.

#[global] Instance keepsTracked_preorder s0 h e : PreOrder (keepsTracked s0 h e).
Proof. split; [by intros s H | intros s1 s2 s3 H12 H23 H; by apply H23, H12]. Qed.

Lemma tracked_step s0 h e s s' :
  tracked s0 h e s → wiredOnce s' → settled h e s s' → tracked s0 h e s'.
Proof. intros [Hw Hs] Hw' Hs'. split; [done | by transitivity s]. Qed.

Lemma sameWiring_settled h e s s' : sameWiring s s' → settled h e s s'.
Proof.
  intros Hs. destruct (sameWiring_views s s' Hs) as (V1 & V2 & V3 & V4 & V5 & V6).
  intros Hbd. by rewrite V3, V2.
Qed.

Lemma tracked_same s0 h e s :
  tracked s0 h e s → ∀ s', sameWiring s s' → tracked s0 h e s'.
Proof.
  intros Ht s' Hs. apply (tracked_step s0 h e s); [done | |].
  - apply (sameWiring_wiredOnce s); [done | apply Ht].
  - by apply sameWiring_settled.
Qed.

Lemma sameWiring_keepsTracked s0 h e s s' : sameWiring s s' → keepsTracked s0 h e s s'.
Proof. intros Hs Ht. by apply (tracked_same s0 h e s). Qed.

#[global] Instance keepsTracked_db s0 h e : FrameDb (keepsTracked s0 h e).
Proof. intros f s _. by apply sameWiring_keepsTracked. Qed.
#[global] Instance keepsTracked_SFCs s0 h e : FrameSFCs (keepsTracked s0 h e).
Proof. intros f s. by apply sameWiring_keepsTracked. Qed.
#[global] Instance keepsTracked_SysParms s0 h e : FrameSysParms (keepsTracked s0 h e).
Proof. intros f s. by apply sameWiring_keepsTracked. Qed.
#[global] Instance keepsTracked_HEToHEs s0 h e : FrameHEToHEs (keepsTracked s0 h e).
Proof. intros f s. by apply sameWiring_keepsTracked. Qed.
#[global] Instance keepsTracked_SFCToHEs s0 h e : FrameSFCToHEs (keepsTracked s0 h e).
Proof. intros f s. by apply sameWiring_keepsTracked. Qed.
#[global] Instance keepsTracked_HE s0 h e : FrameHE (keepsTracked s0 h e).
Proof. intros f s. by apply sameWiring_keepsTracked. Qed.
#[global] Instance keepsTracked_SFCIFAddr s0 h e : FrameSFCIFAddr (keepsTracked s0 h e).
Proof. intros f s. by apply sameWiring_keepsTracked. Qed.
#[global] Instance keepsTracked_after s0 h e : FrameAfter (keepsTracked s0 h e).
Proof. intros f s. by apply sameWiring_keepsTracked. Qed.
#[global] Instance keepsTracked_seq s0 h e : FrameSeq (keepsTracked s0 h e).
Proof. intros f s. by apply sameWiring_keepsTracked. Qed.
#[global] Instance keepsTracked_heap s0 h e : FrameHeap (keepsTracked s0 h e).
Proof. intros f s. by apply sameWiring_keepsTracked. Qed.
#[global] Instance keepsTracked_ipam s0 h e : FrameIpam (keepsTracked s0 h e).
Proof. intros f s. by apply sameWiring_keepsTracked. Qed.

#[global] Instance keepsTracked_HEs s0 h e : FrameHEs (keepsTracked s0 h e).
Proof.
  intros he s Ht. apply (tracked_step s0 h e s); [done | |].
  - apply keepsWiredOnce_HEs, Ht.
  - by intros Hbd.
Qed.
#[global] Instance keepsTracked_EEs s0 h e : FrameEEs (keepsTracked s0 h e).
Proof.
  intros ee s Ht. apply (tracked_step s0 h e s); [done | |].
  - apply keepsWiredOnce_EEs, Ht.
  - by intros Hbd.
Qed.

Lemma settled_alter f h e h1 e1 s :
  (∀ st, is_Some (heToEEStateType.bd st) → is_Some (heToEEStateType.bd (f st))) →
  settled h1 e1 s
    (Driver.set_l2CNPStateCache
       (l2CNPStateCacheType.set_HEToEEs (alter (alter f e) h)) s).
Proof.
  intros Hf Hbd. split; [| done]. unfold edgeBd in *. rewrite heToEE_alter.
  case_decide as Heq; [| done].
  destruct (heToEE s h1 e1) as [st |]; cbn in *; [by apply Hf | done].
Qed.

Lemma tracked_alter f s0 h1 e1 h e s :
  (∀ st, is_Some (heToEEStateType.bd st) → is_Some (heToEEStateType.bd (f st))) →
  (∀ st, heToEE s h e = Some st → edgeCalls s h e ≠ [] →
         heToEEStateType.vlanIf (f st) = heToEEStateType.vlanIf st) →
  tracked s0 h1 e1 s →
  tracked s0 h1 e1
    (Driver.set_l2CNPStateCache
       (l2CNPStateCacheType.set_HEToEEs (alter (alter f e) h)) s).
Proof.
  intros Hbd Hvl Ht. apply (tracked_step s0 h1 e1 s); [done | |].
  - apply wiredOnce_alter; [| apply Ht]. intros st Hst Hne. split; [by apply Hvl | apply Hbd].
  - by apply settled_alter.
Qed.

Lemma tracked_insert_host s0 h1 e1 h s :
  l2CNPStateCacheType.HEToEEs (Driver.l2CNPStateCache s) !! h = None →
  tracked s0 h1 e1 s →
  tracked s0 h1 e1
    (Driver.set_l2CNPStateCache (l2CNPStateCacheType.set_HEToEEs <[h := ∅]>) s).
Proof.
  intros Hnone Ht. apply (tracked_step s0 h1 e1 s); [done | |].
  - apply wiredOnce_insert_host; [done | apply Ht].
  - intros Hbd. split; [| done]. unfold edgeBd, heToEE in *. unfold_setters.
    rewrite lookup_insert. case_decide as Heq; [| done]. subst h1.
    rewrite Hnone in Hbd. by destruct Hbd.
Qed.

Lemma tracked_insert_edge s0 h1 e1 h e m s :
  l2CNPStateCacheType.HEToEEs (Driver.l2CNPStateCache s) !! h = Some m →
  m !! e = None →
  is_Some (cachedHE s h) → is_Some (cachedEE s e) →
  tracked s0 h1 e1 s →
  tracked s0 h1 e1
    (Driver.set_l2CNPStateCache
       (l2CNPStateCacheType.set_HEToEEs <[h := <[e := heToEEStateType.zero]> m]>) s).
Proof.
  intros Hm He Hh Hee Ht. apply (tracked_step s0 h1 e1 s); [done | |].
  - apply wiredOnce_insert_edge; [done .. | apply Ht].
  - intros Hbd. split; [| done]. unfold edgeBd, heToEE in *. unfold_setters.
    rewrite lookup_insert. destruct (decide (h = h1)) as [<- | Hne]; [| done].
    rewrite Hm in Hbd. cbn in *. rewrite lookup_insert.
    destruct (decide (e = e1)) as [<- | Hne]; [| done].
    rewrite He in Hbd. by destruct Hbd.
Qed.

(** A request for another edge. *)
Lemma settled_call ee he vni sr h1 e1 s s' :
  sameEdges s s' →
  Driver.extEntityDriver s'
  = Driver.extEntityDriver s ++ [SfcCtlrL2WireExternalEntityToHostEntity ee he vni sr] →
  ¬ (HostEntity.Name he = h1 ∧ ExternalEntity.Name ee = e1) →
  settled h1 e1 s s'.
Proof.
  intros (H1 & H2 & H3) Hext Hne Hbd. unfold edgeBd, heToEE, edgeCalls in *.
  rewrite H1, Hext, List.filter_app. split; [done |]. cbn.
  destruct (String.eqb_spec (HostEntity.Name he) h1);
    destruct (String.eqb_spec (ExternalEntity.Name ee) e1); cbn;
    rewrite ?app_nil_r; try done.
  by destruct Hne.
Qed.

Lemma keepsTracked_WireInternalsForExternalEntity s0 h e ee :
  keeps (keepsTracked s0 h e) (WireInternalsForExternalEntity ee).
Proof.
  intros s s' Hfin Ht. apply (tracked_step s0 h e s); [done | |].
  - by apply (keepsWiredOnce_WireInternalsForExternalEntity ee s s'); [| apply Ht].
  - injection Hfin as <-. intros Hbd. split; [done |].
    unfold edgeCalls. unfold_setters. rewrite List.filter_app. cbn. by rewrite app_nil_r.
Qed.

Section tracked.
Context (s0 : Driver.t) (h1 e1 : string).

Lemma keepsTracked_h2eEnsureVxlan h e v :
  keeps (keepsTracked s0 h1 e1) (h2eEnsureVxlan h e v).
Proof.
  apply (keeps_wp (tracked s0 h1 e1)). intros s Ht. unfold h2eEnsureVxlan.
  eapply wp_run_bind; [apply getHEToEEState_run |].
  apply wp_deref_bind; [done | intros st Hst].
  destruct (heToEEStateType.vlanIf st) as [vlanIf |] eqn:Hvl; [done |].
  eapply wp_run_bind; [apply lookupHE_run |].
  eapply wp_run_bind; [apply lookupEE_run |].
  cbv zeta.
  assert (Hcalls : edgeCalls s h e = []).
  { apply edgeVni_None_calls; [apply Ht |].
    unfold edgeVni. by rewrite Hst; cbn; rewrite Hvl. }
  apply wp_same_bind; [keeps_auto | by apply tracked_same |].
  intros vlanID s1 Hs1.
  apply wp_deref_bind; [by apply (tracked_same s0 h1 e1 s) | intros hostVxlan _].
  apply wp_same_bind; [keeps_auto | |].
  { intros s2 Hs2. apply (tracked_same s0 h1 e1 s); [done | by transitivity s1]. }
  intros vlanIf s2 Hs2.
  assert (Hs : sameWiring s s2) by by transitivity s1.
  destruct (sameWiring_views s s2 Hs) as (V1 & V2 & V3 & V4 & V5 & V6).
  apply wp_modify_bind.
  match goal with |- wp _ _ _ ?x => set (s3 := x) end.
  assert (Ht3 : tracked s0 h1 e1 s3).
  { apply tracked_alter; [done | | by apply (tracked_same s0 h1 e1 s)].
    intros st' _ Hne. by rewrite V2 in Hne. }
  apply (wp_keeps sameWiring); [keeps_auto | |];
    intros; by apply (tracked_same s0 h1 e1 s3).
Qed.

Lemma keepsTracked_h2eEnsureRoute h e :
  keeps (keepsTracked s0 h1 e1) (h2eEnsureRoute h e).
Proof.
  apply (keeps_wp (tracked s0 h1 e1)). intros s Ht. unfold h2eEnsureRoute.
  eapply wp_run_bind; [apply getHEToEEState_run |].
  apply wp_deref_bind; [done | intros st Hst].
  destruct (heToEEStateType.l3Route st) as [r |] eqn:Hr; [done |].
  eapply wp_run_bind; [apply lookupHE_run |].
  eapply wp_run_bind; [apply lookupEE_run |].
  destruct (HostEntity.CreateVxlanStaticRoute _); [| done].
  cbv zeta.
  apply wp_deref_bind; [done | intros hostVxlan _].
  apply wp_deref_bind; [done | intros hostInterface _].
  eapply wp_run_bind; [reflexivity |].
  apply wp_same_bind; [keeps_auto | by apply tracked_same |].
  intros sr s1 Hs1. apply (wp_final _ (tracked s0 h1 e1)). intros s' [= <-].
  apply tracked_alter; [done | done | by apply (tracked_same s0 h1 e1 s)].
Qed.

Lemma keepsTracked_h2eEnsureBridge h e :
  keeps (keepsTracked s0 h1 e1) (h2eEnsureBridge h e).
Proof.
  apply (keeps_wp (tracked s0 h1 e1)). intros s Ht. unfold h2eEnsureBridge.
  eapply wp_run_bind; [apply getHEToEEState_run |].
  apply wp_deref_bind; [done | intros st Hst].
  destruct (heToEEStateType.bd st) as [bd |] eqn:Hbd; [done |].
  eapply wp_run_bind; [apply lookupHE_run |].
  eapply wp_run_bind; [apply lookupEE_run |].
  destruct (edge_ends s h e) as [Hhe Hee]; [apply Ht | by rewrite Hst |].
  set (he := default HostEntity.zero (cachedHE s h)) in *.
  set (ee := default ExternalEntity.zero (cachedEE s e)) in *.
  cbv zeta. apply wp_deref_bind; [done | intros vlanIf Hvl].
  eapply wp_run_bind; [reflexivity |].
  assert (Hnobd : edgeBd s h e = None) by (unfold edgeBd; by rewrite Hst).
  assert (Hcalls : edgeCalls s h e = []).
  { apply edgeBd_None_calls; [apply Ht | done]. }
  apply wp_same_bind.
  { apply keeps_bridgedDomainCreateWithIfs_logged; try typeclasses eauto.
    intros. apply keeps_bridgedDomainCreateWithIfs_framed; typeclasses eauto.
    cbn. lia. }
  { by apply tracked_same. }
  intros bd s1 Hs1.
  destruct (sameWiring_views s s1 Hs1) as (V1 & V2 & V3 & V4 & V5 & V6).
  apply wp_modify_bind. apply wp_final. intros s' Hfin.
  rewrite final_attempt_unit in Hfin.
  match type of Hfin with final (_ _ _ ?x) = _ => set (s2 := x) in * end.
  assert (Ht2 : tracked s0 h1 e1 s2).
  { apply tracked_alter; [done | done | by apply (tracked_same s0 h1 e1 s)]. }
  apply wireExternalEntityToHostEntity_effect in Hfin
    as [Hedges [Hext | (vni & sr & Hvni & Hext)]].
  - apply (tracked_same s0 h1 e1 s2); [done | by apply sameEdges_sameWiring].
  - rewrite Hhe, Hee in Hvni. split.
    + apply (wiredOnce_call ee he vni sr s2 s'); rewrite ?Hhe, ?Hee;
        try done; [| | apply Ht2].
      * unfold s2. by rewrite edgeCalls_frame, V2.
      * unfold s2, edgeBd. rewrite heToEE_alter, decide_True by done.
        rewrite V1, Hst. by eexists.
    + intros Hbd0. destruct Ht as [_ Hs0]. destruct (Hs0 Hbd0) as [Hbds _].
      assert (Hne : ¬ (HostEntity.Name he = h1 ∧ ExternalEntity.Name ee = e1)).
      { rewrite Hhe, Hee. intros [-> ->]. rewrite Hnobd in Hbds. by destruct Hbds. }
      destruct Ht2 as [_ Hs2]. destruct (Hs2 Hbd0) as [Hbd2 Hc2].
      destruct (settled_call ee he vni sr h1 e1 s2 s' Hedges Hext Hne Hbd2)
        as [Hbd' Hc']. split; [done | by rewrite Hc'].
Qed.

Lemma keepsTracked_createVxLANAndBridgeToExtEntity sfc h e v :
  keeps (keepsTracked s0 h1 e1) (createVxLANAndBridgeToExtEntity sfc h e v).
Proof.
  unfold createVxLANAndBridgeToExtEntity, getHEToEEState. keeps_auto.
  - apply keepsTracked_h2eEnsureVxlan.
  - apply keepsTracked_h2eEnsureRoute.
  - apply keepsTracked_h2eEnsureBridge.
Qed.

Lemma keepsTracked_WireHostEntityToExternalEntity he ee :
  keeps (keepsTracked s0 h1 e1) (WireHostEntityToExternalEntity he ee).
Proof.
  apply (keeps_wp (tracked s0 h1 e1)). intros s Ht.
  unfold WireHostEntityToExternalEntity.
  apply wp_modify_bind. apply wp_modify_bind.
  match goal with |- wp _ _ _ ?x => set (s2 := x) end.
  assert (Ht2 : tracked s0 h1 e1 s2).
  { by apply keepsTracked_EEs, keepsTracked_HEs. }
  assert (Hhe : is_Some (cachedHE s2 (HostEntity.Name he))).
  { unfold s2, cachedHE. unfold_setters. rewrite lookup_insert_eq. by eexists. }
  assert (Hee : is_Some (cachedEE s2 (ExternalEntity.Name ee))).
  { unfold s2, cachedEE. unfold_setters. rewrite lookup_insert_eq. by eexists. }
  clearbody s2.
  destruct (ExternalEntity.HostInterface ee) as [hi |]; [| done].
  destruct (ExternalEntity.HostVxlan ee) as [hv |]; [| done].
  eapply wp_run_bind; [reflexivity |].
  destruct (l2CNPStateCacheType.HEToEEs (Driver.l2CNPStateCache s2)
              !! HostEntity.Name he) as [m |] eqn:Hm.
  - eapply wp_run_bind; [reflexivity |].
    destruct (m !! ExternalEntity.Name ee) eqn:Hedge; [done |].
    apply (wp_final _ (tracked s0 h1 e1)). intros s' [= <-].
    by apply tracked_insert_edge.
  - apply wp_bind. apply wp_modify_bind. unfold wp at 1. cbn.
    rewrite lookup_empty.
    apply (wp_final _ (tracked s0 h1 e1)). intros s' [= <-].
    apply tracked_insert_edge; try done.
    + unfold_setters. by rewrite lookup_insert_eq.
    + by apply tracked_insert_host.
Qed.

Lemma runCall_keepsTracked c : keeps (keepsTracked s0 h1 e1) (runCall c).
Proof.
  destruct c; cbn [runCall].
  - apply keeps_SetSystemParameters; typeclasses eauto.
  - apply keeps_WireHostEntityToDestinationHostEntity; typeclasses eauto.
  - apply keepsTracked_WireHostEntityToExternalEntity.
  - apply keeps_WireInternalsForHostEntity; try typeclasses eauto.
    intros. apply keeps_bridgedDomainCreateWithIfs_framed; typeclasses eauto.
  - apply keepsTracked_WireInternalsForExternalEntity.
  - apply keeps_WireSfcEntity; try typeclasses eauto.
    + intros. apply keeps_bridgedDomainCreateWithIfs_framed; typeclasses eauto.
    + intros. apply keeps_bridgedDomainAssociateWithIfs_framed; typeclasses eauto.
    + apply keepsTracked_createVxLANAndBridgeToExtEntity.
Qed.

End tracked.

Lemma wiredOnce_new db ipam : wiredOnce (NewSfcCtlrL2CNPDriver db ipam).
Proof.
  split; [split; intros k x; unfold cachedHE, cachedEE; cbn; by rewrite ?lookup_empty |].
  split.
  - intros h e. unfold heToEE. cbn. rewrite ?lookup_empty. by intros [? ?].
  - intros h e. by left.
Qed.

Lemma runCall_wiredOnce c s s' :
  wiredOnce s → final (runCall c s) = Some s' →
  wiredOnce s' ∧ ∀ h e, settled h e s s'.
Proof.
  intros Hw Hfin. split.
  - by apply (runCall_keepsTracked s "" "" c s s').
  - intros h e. by apply (runCall_keepsTracked s h e c s s').
Qed.

Lemma reachable_wiredOnce s : reachable s → wiredOnce s.
Proof.
  induction 1 as [db ipam | s c s' _ IH Hfin | s b _ IH].
  - apply wiredOnce_new.
  - by apply (runCall_wiredOnce c s s').
  - exact IH.
Qed.

(** *** Creating the bridge makes the request *)

(** Writes are buffered, or the store accepts every write. *)
Definition accepting (s : Driver.t) : Prop :=
  Driver.reconcileInProgress s = true ∨ KVStore.faults (Driver.db s) = [].

(** The mode is the same, a store that accepts every write still does, and
    the bridge of the edge (h, e) is the same. *)
Definition readyFor (h e : string) : relation Driver.t := λ s s',
  Driver.reconcileInProgress s' = Driver.reconcileInProgress s
  ∧ (KVStore.faults (Driver.db s) = [] → KVStore.faults (Driver.db s') = [])
  ∧ edgeBd s' h e = edgeBd s h e.

Lemma readyFor_accepting h e s s' : readyFor h e s s' → accepting s → accepting s'.
Proof. intros (Hm & Hf & _) [Hr | Ha]; [left; by rewrite Hm | right; by apply Hf]. Qed.

#[global] Instance readyFor_preorder h e : PreOrder (readyFor h e).
Proof.
  split.
  - by intros s.
  - intros s1 s2 s3 (H1 & H2 & H3) (G1 & G2 & G3). unfold readyFor.
    rewrite G1, G3. auto.
Qed.
#[global] Instance readyFor_db h e : FrameDb (readyFor h e).
Proof. by intros f s Hf. Qed.
#[global] Instance readyFor_EEs h e : FrameEEs (readyFor h e).
Proof. by intros f s. Qed.
#[global] Instance readyFor_HEs h e : FrameHEs (readyFor h e).
Proof. by intros f s. Qed.
#[global] Instance readyFor_SFCs h e : FrameSFCs (readyFor h e).
Proof. by intros f s. Qed.
#[global] Instance readyFor_SysParms h e : FrameSysParms (readyFor h e).
Proof. by intros f s. Qed.
#[global] Instance readyFor_HEToHEs h e : FrameHEToHEs (readyFor h e).
Proof. by intros f s. Qed.
#[global] Instance readyFor_SFCToHEs h e : FrameSFCToHEs (readyFor h e).
Proof. by intros f s. Qed.
#[global] Instance readyFor_HE h e : FrameHE (readyFor h e).
Proof. by intros f s. Qed.
#[global] Instance readyFor_SFCIFAddr h e : FrameSFCIFAddr (readyFor h e).
Proof. by intros f s. Qed.
#[global] Instance readyFor_after h e : FrameAfter (readyFor h e).
Proof. by intros f s. Qed.
#[global] Instance readyFor_seq h e : FrameSeq (readyFor h e).
Proof. by intros f s. Qed.
#[global] Instance readyFor_heap h e : FrameHeap (readyFor h e).
Proof. by intros f s. Qed.
#[global] Instance readyFor_ext h e : FrameExt (readyFor h e).
Proof. by intros f s. Qed.
#[global] Instance readyFor_ipam h e : FrameIpam (readyFor h e).
Proof. by intros f s. Qed.

Lemma keeps_readyFor_updateHEToEEState h e a b f :
  (∀ st, heToEEStateType.bd (f st) = heToEEStateType.bd st) →
  keeps (readyFor h e) (updateHEToEEState a b f).
Proof.
  intros Hf s s' [= <-]. split; [done |]. split; [done |].
  unfold edgeBd. rewrite heToEE_alter. case_decide; [| done].
  destruct (heToEE s h e); cbn; [by rewrite Hf | done].
Qed.

Lemma keeps_readyFor_h2eEnsureVxlan h e a b v :
  keeps (readyFor h e) (h2eEnsureVxlan a b v).
Proof.
  unfold h2eEnsureVxlan, getHEToEEState. keeps_auto.
  all: by apply keeps_readyFor_updateHEToEEState.
Qed.

Lemma keeps_readyFor_h2eEnsureRoute h e a b :
  keeps (readyFor h e) (h2eEnsureRoute a b).
Proof.
  unfold h2eEnsureRoute, getHEToEEState. keeps_auto.
  all: by apply keeps_readyFor_updateHEToEEState.
Qed.

Lemma keeps_and (R1 R2 : relation Driver.t) {A} (m : M A) :
  keeps R1 m → keeps R2 m → keeps (λ s s', R1 s s' ∧ R2 s s') m.
Proof. intros H1 H2 s s' Hfin. split; [by apply H1 | by apply H2]. Qed.

(** With the route written or buffered, the request is made. *)
Lemma wireExternalEntityToHostEntity_accepted ee he s :
  accepting s →
  is_Some (heToEE s (HostEntity.Name he) (ExternalEntity.Name ee)) →
  match wireExternalEntityToHostEntity ee he s with
  | Ok _ s' =>
      ∃ vni sr, Driver.extEntityDriver s'
                = Driver.extEntityDriver s
                  ++ [SfcCtlrL2WireExternalEntityToHostEntity ee he vni sr]
  | Err _ _ => False
  | _ => True
  end.
Proof.
  intros Hacc [st Hst]. unfold wireExternalEntityToHostEntity, heToEE in *.
  rewrite bind_unfold. cbn.
  destruct (l2CNPStateCacheType.HEToEEs (Driver.l2CNPStateCache s)
              !! HostEntity.Name he) as [m |]; [| done].
  cbn in Hst. rewrite Hst.
  destruct (heToEEStateType.vlanIf st) as [vlanIf |]; [| done].
  rewrite bind_unfold. cbn.
  destruct (Interface.Vxlan vlanIf) as [vxlan |]; [| done].
  rewrite bind_unfold. cbn.
  destruct (ExternalEntity.HostInterface ee) as [hi |]; [| done].
  do 2 (rewrite bind_unfold; cbn).
  unfold createStaticRoute. do 3 (rewrite bind_unfold; cbn).
  destruct (Driver.reconcileInProgress s) eqn:Hrip; cbn.
  - by eexists _, _.
  - destruct Hacc as [Hr | Hf]; [congruence |].
    unfold txnPut, storePut. rewrite Hf. cbn. by eexists _, _.
Qed.

Lemma h2eEnsureBridge_requests h e s :
  wiredOnce s → edgeBd s h e = None → accepting s →
  wp (h2eEnsureBridge h e) (λ _ s', edgeCalls s' h e ≠ []) (λ _, True) s.
Proof.
  intros Hw Hnobd Hacc. unfold h2eEnsureBridge.
  eapply wp_run_bind; [apply getHEToEEState_run |].
  apply wp_deref_bind; [done | intros st Hst].
  destruct (heToEEStateType.bd st) as [bd |] eqn:Hbd.
  { unfold edgeBd in Hnobd. rewrite Hst in Hnobd. cbn in Hnobd. congruence. }
  eapply wp_run_bind; [apply lookupHE_run |].
  eapply wp_run_bind; [apply lookupEE_run |].
  destruct (edge_ends s h e Hw) as [Hhe Hee]; [by rewrite Hst |].
  set (he := default HostEntity.zero (cachedHE s h)) in *.
  set (ee := default ExternalEntity.zero (cachedEE s e)) in *.
  cbv zeta. apply wp_deref_bind; [done | intros vlanIf Hvl].
  eapply wp_run_bind; [reflexivity |].
  apply wp_bind.
  apply (wp_keeps (λ s s', sameWiring s s' ∧ readyFor h e s s')); [| | done].
  { apply keeps_and;
      (apply keeps_bridgedDomainCreateWithIfs_logged; try typeclasses eauto;
       [intros; apply keeps_bridgedDomainCreateWithIfs_framed; typeclasses eauto
       | cbn; lia]). }
  intros bd s1 [Hs1 Hr1].
  destruct (sameWiring_views s s1 Hs1) as (V1 & V2 & V3 & V4 & V5 & V6).
  apply wp_modify_bind.
  match goal with |- wp _ _ _ ?x => set (s2 := x) end.
  assert (Hacc2 : accepting s2) by by apply (readyFor_accepting h e s s1).
  assert (Hedge2 : is_Some (heToEE s2 (HostEntity.Name he) (ExternalEntity.Name ee))).
  { rewrite Hhe, Hee. unfold s2. rewrite heToEE_alter, decide_True by done.
    rewrite V1, Hst. by eexists. }
  pose proof (wireExternalEntityToHostEntity_accepted ee he s2 Hacc2 Hedge2) as Hwire.
  apply wp_bind. unfold wp at 1, attempt.
  destruct (wireExternalEntityToHostEntity ee he s2) as [[] s' | | |]; try done.
  destruct Hwire as (vni & sr & Hext). unfold wp. cbn.
  unfold edgeCalls. rewrite Hext, List.filter_app. cbn.
  rewrite Hhe, Hee, !String.eqb_refl. cbn.
  intros Happ. by apply app_eq_nil in Happ as [_ ?].
Qed.

Lemma keepsTracked_keepsWiredOnce {A} (m : M A) :
  (∀ s0, keeps (keepsTracked s0 "" "") m) → keeps keepsWiredOnce m.
Proof. intros H s s' Hfin Hw. by apply (H s s s' Hfin). Qed.

(** Creating the tunnel and the bridge toward an external entity makes the
    request, when no write is rejected. *)
Lemma createVxLANAndBridgeToExtEntity_requests sfc h e v s :
  wiredOnce s → edgeBd s h e = None → accepting s →
  wp (createVxLANAndBridgeToExtEntity sfc h e v)
     (λ _ s', edgeCalls s' h e ≠ []) (λ _, True) s.
Proof.
  intros Hw Hnobd Hacc. unfold createVxLANAndBridgeToExtEntity.
  eapply wp_run_bind; [reflexivity |].
  destruct (l2CNPStateCacheType.HEToEEs (Driver.l2CNPStateCache s) !! h)
    as [m |]; [| done].
  destruct (m !! e); [| done].
  apply wp_bind.
  apply (wp_keeps (λ a b, keepsWiredOnce a b ∧ readyFor h e a b)); [| | done].
  { apply keeps_and; [| apply keeps_readyFor_h2eEnsureVxlan].
    apply keepsTracked_keepsWiredOnce. intros s0. apply keepsTracked_h2eEnsureVxlan. }
  intros _ s1 [Ht1 Hr1].
  assert (Hw1 : wiredOnce s1) by by apply Ht1.
  apply wp_bind.
  apply (wp_keeps (λ a b, keepsWiredOnce a b ∧ readyFor h e a b)); [| | done].
  { apply keeps_and; [| apply keeps_readyFor_h2eEnsureRoute].
    apply keepsTracked_keepsWiredOnce. intros s0. apply keepsTracked_h2eEnsureRoute. }
  intros _ s2 [Ht2 Hr2].
  assert (Hw2 : wiredOnce s2) by by apply Ht2.
  assert (Hr : readyFor h e s s2) by by transitivity s1.
  apply wp_bind.
  assert (Hb : wp (h2eEnsureBridge h e) (λ _ s', edgeCalls s' h e ≠ []) (λ _, True) s2).
  { apply h2eEnsureBridge_requests; [done | | by apply (readyFor_accepting h e s)].
    destruct Hr as (_ & _ & ->). done. }
  unfold wp in Hb |- *.
  destruct (h2eEnsureBridge h e s2) as [[] s3 | | |]; try done.
  rewrite bind_unfold, getHEToEEState_run.
  by destruct (heToEE s3 h e).
Qed.

Lemma keepsWiredOnce_createVxLANAndBridgeToExtEntity sfc h e v :
  keeps keepsWiredOnce (createVxLANAndBridgeToExtEntity sfc h e v).
Proof.
  apply keepsTracked_keepsWiredOnce. intros s0.
  apply keepsTracked_createVxLANAndBridgeToExtEntity.
Qed.

(** *** The error of the request is dropped *)

Definition panics {A} (m : M A) (s : Driver.t) : Prop := ∃ s', m s = Panic s'.
Definition runsTo {A} (m : M A) (P : A → Driver.t → Prop) (s : Driver.t) : Prop :=
  ∃ a s1, m s = Ok a s1 ∧ P a s1.

Lemma panics_bind {A B} (m : M A) (k : A → M B) s : panics m s → panics (m ≫= k) s.
Proof. intros [s' H]. exists s'. by rewrite bind_unfold, H. Qed.

Lemma panics_bind_runs {A B} (m : M A) (k : A → M B) P s :
  runsTo m P s → (∀ a s1, P a s1 → panics (k a) s1) → panics (m ≫= k) s.
Proof.
  intros (a & s1 & Hm & HP) Hk. destruct (Hk a s1 HP) as [s' Hs'].
  exists s'. by rewrite bind_unfold, Hm.
Qed.

Lemma runsTo_bind {A B} (m : M A) (k : A → M B) P Q s :
  runsTo m P s → (∀ a s1, P a s1 → runsTo (k a) Q s1) → runsTo (m ≫= k) Q s.
Proof.
  intros (a & s1 & Hm & HP) Hk. destruct (Hk a s1 HP) as (b & s2 & Hk2 & HQ).
  exists b, s2. by rewrite bind_unfold, Hm.
Qed.

Lemma runsTo_ret {A} (a : A) (P : A → Driver.t → Prop) s : P a s → runsTo (mret a) P s.
Proof. intros HP. by exists a, s. Qed.
Lemma runsTo_gets {A} (f : Driver.t → A) (P : A → Driver.t → Prop) s :
  P (f s) s → runsTo (gets f) P s.
Proof. intros HP. by exists (f s), s. Qed.
Lemma runsTo_modify f (P : unit → Driver.t → Prop) s :
  P tt (f s) → runsTo (modify f) P s.
Proof. intros HP. by exists tt, (f s). Qed.

(** Not reconciling, the store accepts the next [n] writes and rejects the
    one after. *)
Definition rejectsAfter (n : nat) (fs : list bool) (s : Driver.t) : Prop :=
  Driver.reconcileInProgress s = false
  ∧ KVStore.faults (Driver.db s) = replicate n false ++ true :: fs.

(** The puts that createVxLANAndBridgeToExtEntity sends before the static
    route from the external entity to the host, for an edge in the state [st]
    from the host [he]: the tunnel interface and its ID binding when the edge
    has no tunnel, the static route toward the external entity when the edge
    has none and the host asks for one, and the bridge domain. *)
Definition edgeWrites (st : heToEEStateType.t) (he : HostEntity.t) : nat :=
  ((match heToEEStateType.vlanIf st with Some _ => 0 | None => 2 end)
   + (match heToEEStateType.l3Route st with
      | Some _ => 0
      | None => if HostEntity.CreateVxlanStaticRoute he then 1 else 0
      end)
   + 1)%nat.

Section dropped_error.
Context (he : HostEntity.t) (ee : ExternalEntity.t) (sp : SystemParameters.t)
  (ext : list DriverCall) (fs : list bool).

(** Not reconciling, the store accepts [n] more puts and rejects the one
    after; the two ends of the edge are cached under their names, and no
    request has been added. *)
Definition edgeStage (n : nat) (s : Driver.t) : Prop :=
  rejectsAfter n fs s
  ∧ cachedHE s (HostEntity.Name he) = Some he
  ∧ cachedEE s (ExternalEntity.Name ee) = Some ee
  ∧ l2CNPEntityCacheType.SysParms (Driver.l2CNPEntityCache s) = sp
  ∧ Driver.extEntityDriver s = ext.

(** The edge has a tunnel interface, and the bridge and route of [st]. *)
Definition edgeTunnelled (st : heToEEStateType.t) (s : Driver.t) : Prop :=
  ∃ i, heToEE s (HostEntity.Name he) (ExternalEntity.Name ee)
       = Some (heToEEStateType.mk (Some i) (heToEEStateType.bd st)
                 (heToEEStateType.l3Route st))
       ∧ is_Some (Interface.Vxlan i).

Lemma runsTo_run_bind {A B} (m : M A) (k : A → M B) a s1 Q s :
  m s = Ok a s1 → runsTo (k a) Q s1 → runsTo (m ≫= k) Q s.
Proof. intros Hm (b & s2 & Hk & HQ). exists b, s2. by rewrite bind_unfold, Hm. Qed.

Lemma heToEE_altered f h e m st st' s :
  l2CNPStateCacheType.HEToEEs (Driver.l2CNPStateCache s) = alter (alter f e) h m →
  m !! h ≫= (λ x, x !! e) = Some st →
  st' = f st →
  heToEE s h e = Some st'.
Proof.
  intros Hm Hst ->. unfold heToEE. rewrite Hm, lookup_alter_eq.
  destruct (m !! h) as [x |]; [| done]. cbn in *. by rewrite lookup_alter_eq, Hst.
Qed.

Lemma nextVLanID_stage n st s :
  edgeStage n s ∧ heToEE s (HostEntity.Name he) (ExternalEntity.Name ee) = Some st →
  runsTo nextVLanID
    (λ _ s1, edgeStage n s1
             ∧ heToEE s1 (HostEntity.Name he) (ExternalEntity.Name ee) = Some st) s.
Proof. intros H. unfold runsTo, nextVLanID. eexists _, _. by split. Qed.

Lemma h2eEnsureVxlan_stage st v n s :
  heToEE s (HostEntity.Name he) (ExternalEntity.Name ee) = Some st →
  (∀ i, heToEEStateType.vlanIf st = Some i → is_Some (Interface.Vxlan i)) →
  is_Some (ExternalEntity.HostVxlan ee) →
  edgeStage ((match heToEEStateType.vlanIf st with Some _ => 0 | None => 2 end) + n) s →
  runsTo (h2eEnsureVxlan (HostEntity.Name he) (ExternalEntity.Name ee) v)
    (λ _ s1, edgeStage n s1 ∧ edgeTunnelled st s1) s.
Proof.
  intros Hst Hvx [hv Hhv] Hstage. unfold h2eEnsureVxlan.
  eapply runsTo_run_bind; [by rewrite getHEToEEState_run, Hst |].
  eapply runsTo_run_bind; [reflexivity |].
  destruct (heToEEStateType.vlanIf st) as [i |] eqn:Hvl.
  { apply runsTo_ret. split; [done |]. exists i.
    split; [| by apply Hvx]. rewrite Hst. f_equal. destruct st; cbn in *; by subst. }
  eapply runsTo_run_bind; [by rewrite lookupHE_run, (proj1 (proj2 Hstage)) |].
  eapply runsTo_run_bind; [by rewrite lookupEE_run, (proj1 (proj2 (proj2 Hstage))) |].
  cbn [default from_option]. unfold id. cbv zeta.
  eapply (runsTo_bind _ _ (λ _ s1, edgeStage (2 + n) s1
            ∧ heToEE s1 (HostEntity.Name he) (ExternalEntity.Name ee) = Some st)).
  { destruct (v =? 0); [| by apply runsTo_ret].
    eapply runsTo_run_bind; [reflexivity |].
    destruct (KVStore.he2eeIDs _ !! _) as [ids |]; [| by apply nextVLanID_stage].
    destruct (HE2EEIDs.VlanId ids =? 0); [by apply nextVLanID_stage | by apply runsTo_ret]. }
  clear s Hst Hstage. intros vlanID s [([Hrip Hf] & Hhe & Hee & Hsp & Hext) Hst].
  rewrite Hhv. eapply runsTo_run_bind; [reflexivity |].
  unfold runsTo, vxLanCreate, updateHEToEEState, DatastoreHE2EEIDsCreate, bindingPut,
    txnPut, storePut. runM. rewrite Hrip, Hf. cbn. unfold_setters. cbn.
  rewrite Hrip. cbn.
  eexists _, _. split; [reflexivity |].
  split.
  - unfold edgeStage, rejectsAfter, cachedHE, cachedEE in *. cbn. done.
  - eexists. split; [eapply heToEE_altered; [reflexivity | exact Hst | reflexivity] |].
    cbn. by eexists.
Qed.


(** The edge has a tunnel interface and the bridge of [st]. *)
Definition edgeRouted (st : heToEEStateType.t) (s : Driver.t) : Prop :=
  ∃ i r, heToEE s (HostEntity.Name he) (ExternalEntity.Name ee)
         = Some (heToEEStateType.mk (Some i) (heToEEStateType.bd st) r)
         ∧ is_Some (Interface.Vxlan i).

Lemma h2eEnsureRoute_stage st n s :
  edgeTunnelled st s →
  is_Some (ExternalEntity.HostVxlan ee) →
  is_Some (ExternalEntity.HostInterface ee) →
  edgeStage ((match heToEEStateType.l3Route st with
              | Some _ => 0
              | None => if HostEntity.CreateVxlanStaticRoute he then 1 else 0
              end) + n) s →
  runsTo (h2eEnsureRoute (HostEntity.Name he) (ExternalEntity.Name ee))
    (λ _ s1, edgeStage n s1 ∧ edgeRouted st s1) s.
Proof.
  intros (i & Hst & Hvx) [hv Hhv] [hi Hhi] Hstage. unfold h2eEnsureRoute.
  eapply runsTo_run_bind; [by rewrite getHEToEEState_run, Hst |].
  eapply runsTo_run_bind; [reflexivity |]. cbn [heToEEStateType.l3Route].
  destruct (heToEEStateType.l3Route st) as [r |] eqn:Hr.
  { apply runsTo_ret. split; [done |]. by exists i, (Some r). }
  eapply runsTo_run_bind; [by rewrite lookupHE_run, (proj1 (proj2 Hstage)) |].
  eapply runsTo_run_bind; [by rewrite lookupEE_run, (proj1 (proj2 (proj2 Hstage))) |].
  cbn [default from_option]. unfold id.
  destruct (HostEntity.CreateVxlanStaticRoute he).
  2: { apply runsTo_ret. split; [done |]. by exists i, None. }
  destruct Hstage as ([Hrip Hf] & Hhe & Hee & Hsp & Hext).
  rewrite Hhv, Hhi. cbv zeta.
  unfold runsTo, createStaticRoute, updateHEToEEState, getSysParms, txnPut, storePut.
  runM. runM. rewrite Hrip, Hf. cbn. unfold_setters. cbn.
  eexists _, _. split; [reflexivity |].
  split.
  - unfold edgeStage, rejectsAfter, cachedHE, cachedEE in *. cbn. done.
  - eexists i, _. split; [| done].
    eapply heToEE_altered; [reflexivity | exact Hst | reflexivity].
Qed.

(** With the write of the static route rejected, the request is not made. *)
Lemma wireExternalEntityToHostEntity_rejected st i s :
  heToEE s (HostEntity.Name he) (ExternalEntity.Name ee) = Some st →
  heToEEStateType.vlanIf st = Some i →
  is_Some (Interface.Vxlan i) →
  is_Some (ExternalEntity.HostInterface ee) →
  Driver.reconcileInProgress s = false →
  KVStore.faults (Driver.db s) = true :: fs →
  wireExternalEntityToHostEntity ee he s
  = Err ErrStore (Driver.set_db (KVStore.set_faults fs) s).
Proof.
  intros Hst Hi [vx Hvx] [hi Hhi] Hrip Hf.
  unfold wireExternalEntityToHostEntity, heToEE in *.
  rewrite bind_unfold. cbn [gets].
  destruct (l2CNPStateCacheType.HEToEEs (Driver.l2CNPStateCache s)
              !! HostEntity.Name he) as [m |]; [| done].
  cbn in Hst. rewrite Hst, Hi.
  unfold createStaticRoute, getSysParms, txnPut, storePut. runM. runM.
  rewrite Hvx. cbn. rewrite Hhi. cbn. by rewrite Hrip, Hf.
Qed.

Lemma h2eEnsureBridge_stage st s :
  edgeRouted st s → heToEEStateType.bd st = None →
  is_Some (ExternalEntity.HostInterface ee) →
  is_Some (SystemParameters.DynamicBridgeParms sp) →
  edgeStage 1 s →
  runsTo (h2eEnsureBridge (HostEntity.Name he) (ExternalEntity.Name ee))
    (λ _ s1, edgeBd s1 (HostEntity.Name he) (ExternalEntity.Name ee)
             = Some (length (Driver.bridgeDomains s))
             ∧ Driver.extEntityDriver s1 = ext
             ∧ KVStore.faults (Driver.db s1) = fs) s.
Proof.
  intros (i & r & Hst & [vx Hvx]) Hbd [hi Hhi] [p Hp]
    ([Hrip Hf] & Hhe & Hee & Hsp & Hext).
  unfold h2eEnsureBridge.
  eapply runsTo_run_bind; [by rewrite getHEToEEState_run, Hst |].
  eapply runsTo_run_bind; [reflexivity |]. cbn [heToEEStateType.bd]. rewrite Hbd.
  eapply runsTo_run_bind; [by rewrite lookupHE_run, Hhe |].
  eapply runsTo_run_bind; [by rewrite lookupEE_run, Hee |].
  cbn [default from_option]. unfold id. cbv zeta.
  eapply runsTo_run_bind; [reflexivity |].
  eapply runsTo_run_bind; [reflexivity |]. rewrite Hsp, Hp.
  eapply runsTo_run_bind.
  { unfold bridgedDomainCreateWithIfs_logged, bridgedDomainCreateWithIfs, newBD,
      txnPut, storePut. runM. runM. cbn. unfold_setters. cbn. rewrite Hrip. cbn.
    rewrite Hf. cbn. reflexivity. }
  unfold_setters.
  eapply runsTo_run_bind; [reflexivity |].
  match goal with |- runsTo _ _ ?x => set (s2 := x) end.
  assert (Hst2 : heToEE s2 (HostEntity.Name he) (ExternalEntity.Name ee)
                 = Some (heToEEStateType.mk (Some i)
                           (Some (length (Driver.bridgeDomains s))) r)).
  { eapply heToEE_altered; [reflexivity | exact Hst | reflexivity]. }
  eapply runsTo_run_bind.
  { unfold attempt.
    rewrite (wireExternalEntityToHostEntity_rejected _ i s2 Hst2); by eauto. }
  apply runsTo_ret. split; [| done].
  unfold edgeBd. change (heToEE (Driver.set_db (KVStore.set_faults fs) s2))
    with (heToEE s2). by rewrite Hst2.
Qed.

(** Rejecting the write of the static route from the external entity to the
    host leaves the edge with its bridge domain and without a request, and
    createVxLANAndBridgeToExtEntity returns the bridge domain. *)
Lemma createVxLANAndBridgeToExtEntity_drops_error sfc v st s :
  heToEE s (HostEntity.Name he) (ExternalEntity.Name ee) = Some st →
  heToEEStateType.bd st = None →
  (∀ i, heToEEStateType.vlanIf st = Some i → is_Some (Interface.Vxlan i)) →
  is_Some (ExternalEntity.HostVxlan ee) →
  is_Some (ExternalEntity.HostInterface ee) →
  is_Some (SystemParameters.DynamicBridgeParms sp) →
  edgeStage (edgeWrites st he) s →
  ∃ ptr s',
    createVxLANAndBridgeToExtEntity sfc (HostEntity.Name he) (ExternalEntity.Name ee) v s
    = Ok (Some ptr) s'
    ∧ edgeBd s' (HostEntity.Name he) (ExternalEntity.Name ee) = Some ptr
    ∧ Driver.extEntityDriver s' = ext
    ∧ KVStore.faults (Driver.db s') = fs.
Proof.
  intros Hst Hbd Hvx Hhv Hhi Hp Hstage.
  unfold createVxLANAndBridgeToExtEntity. rewrite bind_unfold. cbn [gets].
  pose proof Hst as Hst0. unfold heToEE in Hst0.
  destruct (l2CNPStateCacheType.HEToEEs (Driver.l2CNPStateCache s)
              !! HostEntity.Name he) as [m |]; [| done].
  cbn in Hst0. rewrite Hst0.
  unfold edgeWrites in Hstage. rewrite <- Nat.add_assoc in Hstage.
  destruct (h2eEnsureVxlan_stage st v _ s Hst Hvx Hhv Hstage)
    as ([] & s1 & Hrun1 & Hs1 & Ht1).
  rewrite bind_unfold, Hrun1.
  destruct (h2eEnsureRoute_stage st 1 s1 Ht1 Hhv Hhi Hs1)
    as ([] & s2 & Hrun2 & Hs2 & Ht2).
  rewrite bind_unfold, Hrun2.
  destruct (h2eEnsureBridge_stage st s2 Ht2 Hbd Hhi Hp Hs2)
    as ([] & s3 & Hrun3 & Hb3 & Hext3 & Hf3).
  rewrite bind_unfold, Hrun3.
  rewrite bind_unfold, getHEToEEState_run.
  unfold edgeBd in Hb3. destruct (heToEE s3 _ _) as [st3 |] eqn:Hst3; [| done].
  cbn in Hb3. exists (length (Driver.bridgeDomains s2)), s3.
  split; [rewrite !bind_unfold; cbn; by rewrite Hb3 |].
  split; [| done]. unfold edgeBd. by rewrite Hst3.
Qed.

End dropped_error.

(** Once the bridge domain of an edge exists, no sequence of operations adds
    a request for the edge. *)
Lemma settled_stateAfter h e calls s :
  wiredOnce s → is_Some (edgeBd s h e) →
  edgeCalls (stateAfter calls s) h e = edgeCalls s h e.
Proof.
  unfold stateAfter. revert s.
  induction calls as [| c calls IH]; intros s Hw Hbd; cbn [fold_left]; [done |].
  destruct (final (runCall c s)) as [s' |] eqn:Hfin; cbn [default from_option];
    [| by apply IH].
  destruct (runCall_wiredOnce c s s' Hw Hfin) as [Hw' Hs].
  destruct (Hs h e Hbd) as [Hbd' Hc]. unfold id. rewrite IH by done. exact Hc.
Qed.

(** A north-south vxlan chain from container c1 on h1 toward ee1. *)
Definition nsChainToRouter : SfcEntity.t :=
  SfcEntity.mk "sfc-ns" "" SFC_NS_VXLAN "" 0 None
    [eeElement "ee1"; memifElement "c1" "p1" "h1"].

Definition nsChainCalls : list Call :=
  [CallSetSystemParameters defaultSysParms;
   CallWireHostEntityToExternalEntity host1 router1;
   CallWireSfcEntity nsChainToRouter].

(** A store that accepts three writes and rejects the fourth. *)
Definition rejectsFourthWrite : KVStore.t :=
  KVStore.set_faults [false; false; false; true] KVStore.empty.

(** C3. createVxLANAndBridgeToExtEntity sets the bridge domain of the edge
    and then drops the error of wireExternalEntityToHostEntity, so an edge can
    be left without its request to the external-entity driver. Not
    reconciling, with an edge (he, ee) that has no bridge domain yet and a
    store that accepts the writes of the tunnel, of the route toward the
    external entity and of the bridge domain, and rejects the next one, which
    is the static route from the external entity to the host: the function
    returns the new bridge domain and no error, the edge has its bridge
    domain, no request has been made for the edge, and none is made by any
    later sequence of operations. In every state the driver reaches, an edge
    has no request or exactly one, and an edge with a request has its bridge
    domain, and its cached tunnel interface has the VNI passed in the request;
    an operation run when the bridge domain of an edge exists leaves the
    requests for the edge as they are; creating the tunnel and the bridge
    makes the request when writes are buffered or the store accepts every
    write. Over a store that rejects the fourth write, wiring the chain
    [nsChainToRouter] returns without error, the edge (h1, ee1) has its bridge
    domain and the VNI 5000, and has no request, also after wiring the chain
    again. *)
Theorem ext_entity_request_lost_when_route_write_rejected :
  (∀ he ee sfc v st fs s,
     wiredOnce s →
     heToEE s (HostEntity.Name he) (ExternalEntity.Name ee) = Some st →
     heToEEStateType.bd st = None →
     cachedHE s (HostEntity.Name he) = Some he →
     cachedEE s (ExternalEntity.Name ee) = Some ee →
     (∀ i, heToEEStateType.vlanIf st = Some i → is_Some (Interface.Vxlan i)) →
     is_Some (ExternalEntity.HostVxlan ee) →
     is_Some (ExternalEntity.HostInterface ee) →
     is_Some (SystemParameters.DynamicBridgeParms
                (l2CNPEntityCacheType.SysParms (Driver.l2CNPEntityCache s))) →
     Driver.reconcileInProgress s = false →
     KVStore.faults (Driver.db s) = replicate (edgeWrites st he) false ++ true :: fs →
     ∃ ptr s',
       createVxLANAndBridgeToExtEntity sfc (HostEntity.Name he) (ExternalEntity.Name ee)
         v s = Ok (Some ptr) s'
       ∧ edgeBd s' (HostEntity.Name he) (ExternalEntity.Name ee) = Some ptr
       ∧ Driver.extEntityDriver s' = Driver.extEntityDriver s
       ∧ ∀ calls, edgeCalls (stateAfter calls s') (HostEntity.Name he)
                    (ExternalEntity.Name ee) = [])
  ∧ (∀ s, reachable s →
       wiredOnce s
       ∧ ∀ h e,
           edgeCalls s h e = []
           ∨ ∃ c, edgeCalls s h e = [c] ∧ is_Some (edgeBd s h e)
                  ∧ edgeVni s h e = Some (callVni c))
  ∧ (∀ s c s' h e,
       wiredOnce s → final (runCall c s) = Some s' → is_Some (edgeBd s h e) →
       is_Some (edgeBd s' h e) ∧ edgeCalls s' h e = edgeCalls s h e)
  ∧ (∀ s sfc h e v r s',
       wiredOnce s → edgeBd s h e = None → accepting s →
       createVxLANAndBridgeToExtEntity sfc h e v s = Ok r s' →
       ∃ c, edgeCalls s' h e = [c] ∧ is_Some (edgeBd s' h e)
            ∧ edgeVni s' h e = Some (callVni c))
  ∧ (let s0 := stateAfter [CallSetSystemParameters defaultSysParms;
                           CallWireHostEntityToExternalEntity host1 router1]
                 (NewSfcCtlrL2CNPDriver rejectsFourthWrite []) in
     let s := stateAfter [CallWireSfcEntity nsChainToRouter] s0 in
     reachable s
     ∧ result (WireSfcEntity nsChainToRouter s0) = Some (inr tt)
     ∧ is_Some (edgeBd s "h1" "ee1")
     ∧ edgeVni s "h1" "ee1" = Some 5000
     ∧ edgeCalls s "h1" "ee1" = []
     ∧ edgeCalls (stateAfter [CallWireSfcEntity nsChainToRouter] s) "h1" "ee1" = []).
Proof.
  split; [| split; [| split; [| split]]].
  - intros he ee sfc v st fs s Hw Hst Hbd Hhe Hee Hvx Hhv Hhi Hp Hrip Hf.
    destruct (createVxLANAndBridgeToExtEntity_drops_error he ee
                (l2CNPEntityCacheType.SysParms (Driver.l2CNPEntityCache s))
                (Driver.extEntityDriver s) fs sfc v st s
                Hst Hbd Hvx Hhv Hhi Hp) as (ptr & s' & Hrun & Hb & Hext & _).
    { by split; [split |]. }
    exists ptr, s'. split; [done |]. split; [done |]. split; [done |].
    assert (Hw' : wiredOnce s').
    { apply (keepsWiredOnce_createVxLANAndBridgeToExtEntity sfc (HostEntity.Name he)
               (ExternalEntity.Name ee) v s s'); [by rewrite Hrun | done]. }
    intros calls. rewrite settled_stateAfter; [| done | by rewrite Hb].
    unfold edgeCalls. rewrite Hext.
    destruct Hw as (_ & _ & Ho).
    destruct (Ho (HostEntity.Name he) (ExternalEntity.Name ee))
      as [Hnil | (c & _ & Hsome & _)]; [done |].
    unfold edgeBd in Hsome. rewrite Hst in Hsome. cbn in Hsome. rewrite Hbd in Hsome.
    by destruct Hsome.
  - intros s Hs. pose proof (reachable_wiredOnce s Hs) as Hw.
    split; [done | apply Hw].
  - intros s c s' h e Hw Hfin Hbd.
    by apply (proj2 (runCall_wiredOnce c s s' Hw Hfin) h e).
  - intros s sfc h e v r s' Hw Hbd Hacc Hrun.
    pose proof (createVxLANAndBridgeToExtEntity_requests sfc h e v s Hw Hbd Hacc) as Hreq.
    assert (Hw' : wiredOnce s').
    { apply (keepsWiredOnce_createVxLANAndBridgeToExtEntity sfc h e v s s'); [| done].
      by rewrite Hrun. }
    unfold wp in Hreq. rewrite Hrun in Hreq.
    destruct Hw' as (_ & _ & Ho). by destruct (Ho h e) as [Hnil | Hone].
  - cbv zeta. split; [apply reachable_stateAfter, reachable_stateAfter, reachable_new |].
    split; [vm_compute; reflexivity |].
    split; [vm_compute; by eexists |].
    split; [vm_compute; reflexivity |].
    split; vm_compute; reflexivity.
Qed.

Lemma ext_entity_request_lost_witness :
  let s0 := stateAfter [CallSetSystemParameters defaultSysParms;
                        CallWireHostEntityToExternalEntity host1 router1]
              (NewSfcCtlrL2CNPDriver rejectsFourthWrite []) in
  ∃ ptr s',
    createVxLANAndBridgeToExtEntity nsChainToRouter "h1" "ee1" 0 s0 = Ok (Some ptr) s'
    ∧ edgeBd s' "h1" "ee1" = Some ptr
    ∧ Driver.extEntityDriver s' = []
    ∧ ∀ calls, edgeCalls (stateAfter calls s') "h1" "ee1" = [].
Proof.
  intros s0.
  destruct ext_entity_request_lost_when_route_write_rejected as (Hlaw & _).
  apply (Hlaw host1 router1 nsChainToRouter 0 heToEEStateType.zero [] s0).
  - apply reachable_wiredOnce, reachable_stateAfter, reachable_new.
  - vm_compute. reflexivity.
  - reflexivity.
  - vm_compute. reflexivity.
  - vm_compute. reflexivity.
  - intros i Hi. discriminate Hi.
  - by eexists.
  - by eexists.
  - vm_compute. by eexists.
  - reflexivity.
  - reflexivity.
Defined.

(** ** The VNI of a host-to-host tunnel *)

(** The VNI that createVxLANAndBridgeToDestHost takes for a new tunnel from
    [sh] to [dh] when the chain supplies none: the one bound in HE2EEIDs, or
    the next value of the counter. *)
Definition h2hVniChoice (s : Driver.t) (sh dh : string) : Z :=
  let shName := HostEntity.Name (default HostEntity.zero (cachedHE s sh)) in
  let dhName := HostEntity.Name (default HostEntity.zero (cachedHE s dh)) in
  match KVStore.he2eeIDs (Driver.db s) !! (shName, dhName) with
  | Some ids =>
      if HE2EEIDs.VlanId ids =? 0 then u32 (vlanCounter s + 1) else HE2EEIDs.VlanId ids
  | None => u32 (vlanCounter s + 1)
  end.

(** The edge from [sh] to [dh] stays recorded, with the same tunnel VNI. *)
Definition tunnelKept (sh dh : string) : relation Driver.t := λ s s',
  (is_Some (heToHE s sh dh) → is_Some (heToHE s' sh dh))
  ∧ h2hVni s' sh dh = h2hVni s sh dh.

#[global] Instance tunnelKept_preorder sh dh : PreOrder (tunnelKept sh dh).
Proof.
  split.
  - by intros s.
  - intros s1 s2 s3 [H1 H2] [G1 G2]. split; [auto | by rewrite G2].
Qed.
#[global] Instance tunnelKept_db sh dh : FrameDb (tunnelKept sh dh).
Proof. by intros f s _. Qed.
#[global] Instance tunnelKept_EEs sh dh : FrameEEs (tunnelKept sh dh).
Proof. by intros f s. Qed.
#[global] Instance tunnelKept_HEs sh dh : FrameHEs (tunnelKept sh dh).
Proof. by intros f s. Qed.
#[global] Instance tunnelKept_SFCs sh dh : FrameSFCs (tunnelKept sh dh).
Proof. by intros f s. Qed.
#[global] Instance tunnelKept_SysParms sh dh : FrameSysParms (tunnelKept sh dh).
Proof. by intros f s. Qed.
#[global] Instance tunnelKept_HEToEEs sh dh : FrameHEToEEs (tunnelKept sh dh).
Proof. by intros f s. Qed.
#[global] Instance tunnelKept_SFCToHEs sh dh : FrameSFCToHEs (tunnelKept sh dh).
Proof. by intros f s. Qed.
#[global] Instance tunnelKept_HE sh dh : FrameHE (tunnelKept sh dh).
Proof. by intros f s. Qed.
#[global] Instance tunnelKept_SFCIFAddr sh dh : FrameSFCIFAddr (tunnelKept sh dh).
Proof. by intros f s. Qed.
#[global] Instance tunnelKept_after sh dh : FrameAfter (tunnelKept sh dh).
Proof. by intros f s. Qed.
#[global] Instance tunnelKept_seq sh dh : FrameSeq (tunnelKept sh dh).
Proof. by intros f s. Qed.
#[global] Instance tunnelKept_heap sh dh : FrameHeap (tunnelKept sh dh).
Proof. by intros f s. Qed.
#[global] Instance tunnelKept_ext sh dh : FrameExt (tunnelKept sh dh).
Proof. by intros f s. Qed.
#[global] Instance tunnelKept_ipam sh dh : FrameIpam (tunnelKept sh dh).
Proof. by intros f s. Qed.

Lemma heToHE_alter f a b s a' b' :
  heToHE (Driver.set_l2CNPStateCache
            (l2CNPStateCacheType.set_HEToHEs (alter (alter f b) a)) s) a' b'
  = if decide (a = a' ∧ b = b') then f <$> heToHE s a' b' else heToHE s a' b'.
Proof.
  unfold heToHE. unfold_setters. rewrite lookup_alter.
  destruct (decide (a = a')) as [<- | Ha].
  - destruct (l2CNPStateCacheType.HEToHEs (Driver.l2CNPStateCache s) !! a) as [m |];
      cbn; [| by case_decide].
    rewrite lookup_alter. destruct (decide (b = b')) as [<- | Hb].
    + destruct (decide _) as [_ | Hd]; [done | exfalso; apply Hd; by split].
    + by destruct (decide _) as [[_ Hd] | _].
  - by destruct (decide _) as [[Hd _] | _].
Qed.

Lemma keeps_tunnelKept_updateHEToHEState sh dh a b f :
  (∀ st, heToHEStateType.vlanIf (f st) = heToHEStateType.vlanIf st) →
  keeps (tunnelKept sh dh) (updateHEToHEState a b f).
Proof.
  intros Hf s s' [= <-]. unfold tunnelKept, h2hVni. rewrite heToHE_alter.
  case_decide; [| done].
  destruct (heToHE s sh dh) as [st |]; cbn; [| done].
  split; [by eexists | by rewrite Hf].
Qed.

Lemma keeps_tunnelKept_h2hEnsureRoute sh dh a b :
  keeps (tunnelKept sh dh) (h2hEnsureRoute a b).
Proof.
  unfold h2hEnsureRoute, getHEToHEState. keeps_auto.
  all: by apply keeps_tunnelKept_updateHEToHEState.
Qed.

Lemma keeps_tunnelKept_h2hEnsureBridge sh dh a b :
  keeps (tunnelKept sh dh) (h2hEnsureBridge a b).
Proof.
  unfold h2hEnsureBridge, getHEToHEState. keeps_auto.
  all: first [ by apply keeps_tunnelKept_updateHEToHEState
             | apply keeps_bridgedDomainCreateWithIfs_logged; try typeclasses eauto;
               [intros; apply keeps_bridgedDomainCreateWithIfs_framed; typeclasses eauto
               | cbn; lia] ].
Qed.

Lemma getHEToHEState_run a b s : getHEToHEState a b s = Ok (heToHE s a b) s.
Proof.
  unfold getHEToHEState, heToHE. rewrite bind_unfold. cbn.
  by destruct (l2CNPStateCacheType.HEToHEs (Driver.l2CNPStateCache s) !! a).
Qed.

(** The tunnel interface carries the VNI it is created with. *)
Lemma vxLanCreate_vni k n v a b s i s' :
  vxLanCreate k n v a b s = Ok i s' →
  (Vxlan.Vni <$> Interface.Vxlan i) = Some v.
Proof.
  unfold vxLanCreate, txnPut, storePut, reconcileInterface. runM.
  destruct (Driver.reconcileInProgress s);
    [| destruct (KVStore.faults (Driver.db s)) as [| [] fs]];
    cbn; intros H; by simplify_eq.
Qed.

Lemma h2hEnsureVxlan_vni sh dh s st :
  heToHE s sh dh = Some st → heToHEStateType.vlanIf st = None →
  wp (h2hEnsureVxlan sh dh 0)
     (λ _ s', is_Some (heToHE s' sh dh) ∧ h2hVni s' sh dh = Some (h2hVniChoice s sh dh))
     (λ _, True) s.
Proof.
  intros Hst Hvl. unfold h2hEnsureVxlan.
  eapply wp_run_bind; [apply getHEToHEState_run |]. rewrite Hst.
  apply wp_deref_bind; [done | intros ? [= <-]]. rewrite Hvl.
  eapply wp_run_bind; [apply lookupHE_run |].
  eapply wp_run_bind; [apply lookupHE_run |].
  cbv zeta. change (0 =? 0) with true. cbv iota.
  assert (Hchoice : wp
    (he2eeID ← DatastoreHE2EEIDsRetrieve
                 (HostEntity.Name (default HostEntity.zero (cachedHE s sh)))
                 (HostEntity.Name (default HostEntity.zero (cachedHE s dh)));
     match he2eeID with
     | Some ids => if HE2EEIDs.VlanId ids =? 0 then nextVLanID
                   else mret (HE2EEIDs.VlanId ids)
     | None => nextVLanID
     end)
    (λ v s1, v = h2hVniChoice s sh dh ∧ tunnelKept sh dh s s1) (λ _, True) s).
  { eapply wp_run_bind; [reflexivity |]. unfold h2hVniChoice. cbv zeta.
    destruct (KVStore.he2eeIDs (Driver.db s) !! _) as [ids |];
      [destruct (HE2EEIDs.VlanId ids =? 0) |]; by split. }
  apply wp_bind. unfold wp at 1. unfold wp in Hchoice.
  match type of Hchoice with match ?m s with _ => _ end => destruct (m s) as [v s1 | | |] end;
    try done.
  destruct Hchoice as [-> Hk1].
  apply wp_bind. unfold wp at 1.
  pose proof (keeps_vxLanCreate (tunnelKept sh dh)
                (HostEntity.Name (default HostEntity.zero (cachedHE s sh)))
                ("IF_VXLAN_H2H_" +:+ HostEntity.Name (default HostEntity.zero (cachedHE s sh))
                   +:+ "_" +:+ HostEntity.Name (default HostEntity.zero (cachedHE s dh)))
                (h2hVniChoice s sh dh)
                (HostEntity.VxlanTunnelIpv4 (default HostEntity.zero (cachedHE s sh)))
                (HostEntity.VxlanTunnelIpv4 (default HostEntity.zero (cachedHE s dh)))
                s1) as Hk2.
  destruct (vxLanCreate _ _ _ _ _ s1) as [vlanIf s2 | | |] eqn:Hvx; try done.
  apply vxLanCreate_vni in Hvx.
  specialize (Hk2 s2 eq_refl).
  assert (Hk : tunnelKept sh dh s s2) by by transitivity s1.
  apply wp_modify_bind.
  match goal with |- wp _ _ _ ?x => set (s3 := x) end.
  assert (Hedge3 : is_Some (heToHE s3 sh dh) ∧ h2hVni s3 sh dh = Some (h2hVniChoice s sh dh)).
  { unfold s3, h2hVni. rewrite heToHE_alter, decide_True by done.
    destruct Hk as [[st2 Hst2] _]; [by rewrite Hst |]. rewrite Hst2. cbn.
    split; [by eexists |].
    destruct (Interface.Vxlan vlanIf) as [vx |]; cbn in *; congruence. }
  clearbody s3.
  apply (wp_keeps (tunnelKept sh dh)); [keeps_auto | | done].
  intros _ s' [Hk1' Hk2']. split; [by apply Hk1', Hedge3 |]. rewrite Hk2'. apply Hedge3.
Qed.

(** C1, the law of the code. *)
Lemma createVxLANAndBridgeToDestHost_vni sfc sh dh s st r s' :
  heToHE s sh dh = Some st → heToHEStateType.vlanIf st = None →
  createVxLANAndBridgeToDestHost sfc sh dh 0 s = Ok r s' →
  h2hVni s' sh dh = Some (h2hVniChoice s sh dh).
Proof.
  intros Hst Hvl Hrun.
  assert (Hwp : wp (createVxLANAndBridgeToDestHost sfc sh dh 0)
                  (λ _ s', h2hVni s' sh dh = Some (h2hVniChoice s sh dh)) (λ _, True) s).
  { unfold createVxLANAndBridgeToDestHost.
    eapply wp_run_bind; [reflexivity |].
    destruct (l2CNPStateCacheType.HEToHEs (Driver.l2CNPStateCache s) !! sh)
      as [m |]; [| done].
    destruct (m !! dh); [| done].
    apply wp_bind.
    pose proof (h2hEnsureVxlan_vni sh dh s st Hst Hvl) as Hv.
    unfold wp in Hv |- *.
    destruct (h2hEnsureVxlan sh dh 0 s) as [[] s1 | | |]; try done.
    destruct Hv as [Hedge1 Hv1].
    fold (wp (h2hEnsureRoute sh dh ≫= λ _, h2hEnsureBridge sh dh ≫= λ _,
              getHEToHEState sh dh ≫= λ st, deref st ≫= λ heToHEState,
              mret (heToHEStateType.bd heToHEState))
            (λ _ s', h2hVni s' sh dh = Some (h2hVniChoice s sh dh)) (λ _, True) s1).
    apply (wp_keeps (tunnelKept sh dh)); [| | done].
    - keeps_auto;
        first [ apply keeps_tunnelKept_h2hEnsureRoute
              | apply keeps_tunnelKept_h2hEnsureBridge
              | unfold getHEToHEState; keeps_auto ].
    - intros _ s2 [_ Hk]. by rewrite Hk. }
  unfold wp in Hwp. by rewrite Hrun in Hwp.
Qed.

(** h1 is wired to the destination host h2, over a store in which
    HE2HEIDs[h1, h2] is bound to 6000. *)
Definition driverWithH2HBinding : Driver.t :=
  stateAfter [CallSetSystemParameters defaultSysParms;
              CallWireHostEntityToDestinationHostEntity host1 host2]
    (NewSfcCtlrL2CNPDriver storeWithH2HBinding []).

(** C1. The VNI of a new tunnel from sh to dh, for a chain without a vlan_id,
    is the one bound in HE2EEIDs[sh, dh] if there is one, else the next value
    of the VLAN counter: the HE2HEIDs binding is not looked up. With
    HE2HEIDs[h1, h2] = 6000 persisted, the first chain from h1 to h2 gets VNI
    5000 from the counter, and the binding is overwritten with 5000. With
    HE2EEIDs[h1, h2] = 7000 persisted instead, the tunnel gets VNI 7000. *)
Theorem persisted_h2h_binding_not_reused :
  (∀ sfc sh dh s st r s',
     heToHE s sh dh = Some st → heToHEStateType.vlanIf st = None →
     createVxLANAndBridgeToDestHost sfc sh dh 0 s = Ok r s' →
     h2hVni s' sh dh = Some (h2hVniChoice s sh dh))
  ∧ (let s := stateAfter h2hCalls (NewSfcCtlrL2CNPDriver storeWithH2HBinding []) in
     let s' := stateAfter h2hCalls (NewSfcCtlrL2CNPDriver storeWithH2EBinding []) in
     KVStore.he2heIDs storeWithH2HBinding !! ("h1", "h2") = Some (HE2HEIDs.mk 6000)
     ∧ h2hVni s "h1" "h2" = Some 5000
     ∧ vlanCounter s = 5000
     ∧ KVStore.he2heIDs (Driver.db s) !! ("h1", "h2") = Some (HE2HEIDs.mk 5000)
     ∧ h2hVni s' "h1" "h2" = Some 7000
     ∧ vlanCounter s' = 4999).
Proof.
  split; [apply createVxLANAndBridgeToDestHost_vni |].
  vm_compute. repeat split.
Qed.

Lemma persisted_h2h_binding_witness :
  KVStore.he2heIDs (Driver.db driverWithH2HBinding) !! ("h1", "h2")
  = Some (HE2HEIDs.mk 6000)
  ∧ ∃ r s', createVxLANAndBridgeToDestHost h2hChain "h1" "h2" 0 driverWithH2HBinding
            = Ok r s'
            ∧ h2hVni s' "h1" "h2" = Some 5000.
Proof.
  split; [reflexivity |].
  assert (Hrun : ∃ r s', createVxLANAndBridgeToDestHost h2hChain "h1" "h2" 0
                           driverWithH2HBinding = Ok r s').
  { vm_compute. by eexists _, _. }
  destruct Hrun as (r & s' & Hrun). exists r, s'. split; [done |].
  apply (proj1 persisted_h2h_binding_not_reused h2hChain "h1" "h2"
           driverWithH2HBinding heToHEStateType.zero r s'); [| | done];
    reflexivity.
Defined.

(** * Further properties of the driver *)

(** ** Addresses and names *)

(** The character [c] does not occur in [s]. *)
Fixpoint freeOf (c : ascii) (s : string) : Prop :=
  match s with
  | EmptyString => True
  | String a r => a ≠ c ∧ freeOf c r
  end.

(** [s] with every [c] replaced by [d]. *)
Fixpoint replaceChar (c d : ascii) (s : string) : string :=
  match s with
  | EmptyString => EmptyString
  | String a r => String (if Ascii.eqb a c then d else a) (replaceChar c d r)
  end.

Lemma append_nil_l (s : string) : "" +:+ s = s.
Proof. reflexivity. Qed.
Lemma append_cons (a : ascii) (r s : string) : String a r +:+ s = String a (r +:+ s).
Proof. reflexivity. Qed.
Lemma append_nil_r (s : string) : s +:+ "" = s.
Proof. induction s as [| a r IH]; [done |]. by rewrite append_cons, IH. Qed.
Lemma append_assoc (a b c : string) : (a +:+ b) +:+ c = a +:+ (b +:+ c).
Proof.
  induction a as [| x r IH]; [done |]. by rewrite !append_cons, IH.
Qed.
Lemma length_append (a b : string) :
  String.length (a +:+ b) = (String.length a + String.length b)%nat.
Proof.
  induction a as [| x r IH]; [done |]. rewrite append_cons. cbn. by rewrite IH.
Qed.

Lemma Split_nonempty s sep : Split s sep ≠ [].
Proof.
  destruct s as [| a r]; cbn; [done |].
  destruct (Ascii.eqb a sep); [done |]. by destruct (Split r sep).
Qed.

Lemma Split_cons s sep : ∃ h t, Split s sep = h :: t.
Proof.
  pose proof (Split_nonempty s sep). destruct (Split s sep) as [| h t]; [done |].
  by exists h, t.
Qed.

(** The first piece of a split is the text before the first separator. *)
Lemma Split_head s sep h t :
  Split s sep = h :: t →
  freeOf sep h
  ∧ ((t = [] ∧ s = h) ∨ ∃ rest, s = h +:+ String sep rest ∧ Split rest sep = t).
Proof.
  revert h t. induction s as [| a r IH]; intros h t; cbn.
  - intros [= <- <-]. split; [done | by left].
  - destruct (Ascii.eqb_spec a sep) as [-> | Hne].
    + intros [= <- <-]. split; [done |]. right. by exists r.
    + destruct (Split_cons r sep) as (h' & t' & Hr). rewrite Hr.
      intros [= <- <-]. destruct (IH h' t' Hr) as [Hfree Hshape].
      split; [by split |].
      destruct Hshape as [[-> ->] | (rest & -> & Hrest)]; [by left |].
      right. by exists rest.
Qed.

Lemma Split_free s sep : freeOf sep s → Split s sep = [s].
Proof.
  induction s as [| a r IH]; cbn; [done |]. intros [Hne Hfree].
  destruct (Ascii.eqb_spec a sep) as [-> | _]; [done |]. by rewrite IH.
Qed.

Lemma Split_app_free a sep b :
  freeOf sep a → Split (a +:+ String sep b) sep = a :: Split b sep.
Proof.
  induction a as [| c r IH]; rewrite ?append_nil_l, ?append_cons; cbn.
  - intros _. by rewrite Ascii.eqb_refl.
  - intros [Hne Hfree]. destruct (Ascii.eqb_spec c sep) as [-> | _]; [done |].
    by rewrite IH.
Qed.

Lemma stripSlash_free s : freeOf slash (stripSlashAndSubnetIpv4Address s).
Proof.
  unfold stripSlashAndSubnetIpv4Address.
  destruct (Split_cons s slash) as (h & t & Hs). rewrite Hs.
  by destruct (Split_head s slash h t Hs).
Qed.

Lemma stripSlash_id s : freeOf slash s → stripSlashAndSubnetIpv4Address s = s.
Proof. intros Hs. unfold stripSlashAndSubnetIpv4Address. by rewrite Split_free. Qed.

Lemma stripSlash_cut a b :
  freeOf slash a → stripSlashAndSubnetIpv4Address (a +:+ "/" +:+ b) = a.
Proof.
  intros Ha. unfold stripSlashAndSubnetIpv4Address.
  change (a +:+ "/" +:+ b) with (a +:+ String slash b). by rewrite Split_app_free.
Qed.

Lemma stripSlash_shape s :
  stripSlashAndSubnetIpv4Address s = s
  ∨ ∃ rest, s = stripSlashAndSubnetIpv4Address s +:+ "/" +:+ rest.
Proof.
  unfold stripSlashAndSubnetIpv4Address.
  destruct (Split_cons s slash) as (h & t & Hs). rewrite Hs.
  destruct (Split_head s slash h t Hs) as [_ [[_ ->] | (rest & -> & _)]];
    [by left | right; by exists rest].
Qed.

(** X1. The address without its subnet is the text before the first "/":
    it has no "/", an address without "/" is returned as it is, and
    everything from the first "/" on is dropped. *)
Theorem stripSlashAndSubnetIpv4Address_before_first_slash :
  (∀ s, freeOf slash (stripSlashAndSubnetIpv4Address s))
  ∧ (∀ s, freeOf slash s → stripSlashAndSubnetIpv4Address s = s)
  ∧ (∀ a b, freeOf slash a → stripSlashAndSubnetIpv4Address (a +:+ "/" +:+ b) = a)
  ∧ (∀ s, stripSlashAndSubnetIpv4Address s = s
          ∨ ∃ rest, s = stripSlashAndSubnetIpv4Address s +:+ "/" +:+ rest)
  ∧ (∀ s, stripSlashAndSubnetIpv4Address (stripSlashAndSubnetIpv4Address s)
          = stripSlashAndSubnetIpv4Address s).
Proof.
  split; [apply stripSlash_free |]. split; [apply stripSlash_id |].
  split; [apply stripSlash_cut |]. split; [apply stripSlash_shape |].
  intros s. apply stripSlash_id, stripSlash_free.
Qed.

Lemma stripSlashAndSubnetIpv4Address_witness :
  stripSlashAndSubnetIpv4Address "10.0.0.1" = "10.0.0.1"
  ∧ stripSlashAndSubnetIpv4Address ("10.0.0.1" +:+ "/" +:+ "24/8") = "10.0.0.1".
Proof.
  destruct stripSlashAndSubnetIpv4Address_before_first_slash as (_ & Hid & Hcut & _).
  split; [apply Hid | apply Hcut]; cbn; repeat split; discriminate.
Defined.

Lemma join_from (acc : string) (l : list string) :
  fold_left (λ acc s, acc +:+ "_" +:+ s) l acc
  = acc +:+ fold_left (λ acc s, acc +:+ "_" +:+ s) l "".
Proof.
  revert acc. induction l as [| x l IH]; intros acc; cbn.
  - by rewrite append_nil_r.
  - rewrite IH, (IH ("" +:+ "_" +:+ x)). by rewrite append_nil_l, !append_assoc.
Qed.

(** X2. Replacing the slashes of a name gives the name with each "/" turned
    into "_", and nothing else changed. *)
Theorem replaceSlashesWithUScores_replaces_each_slash (s : string) :
  replaceSlashesWithUScores s = replaceChar slash "_" s
  ∧ String.length (replaceSlashesWithUScores s) = String.length s
  ∧ freeOf slash (replaceSlashesWithUScores s)
  ∧ (freeOf slash s → replaceSlashesWithUScores s = s).
Proof.
  assert (Heq : replaceSlashesWithUScores s = replaceChar slash "_" s).
  { unfold replaceSlashesWithUScores. induction s as [| a r IH]; cbn; [done |].
    destruct (Split_cons r slash) as (h & t & Hr). rewrite Hr in IH |- *.
    destruct (Ascii.eqb_spec a slash) as [-> | Hne]; cbn [fold_left];
      rewrite join_from, <- IH, (join_from h); reflexivity. }
  rewrite Heq. split; [done |]. split; [| split].
  - clear Heq. induction s as [| a r IH]; cbn; [done | by rewrite IH].
  - clear Heq. induction s as [| a r IH]; cbn; [done |].
    split; [| done]. by destruct (Ascii.eqb_spec a slash) as [-> | Hne].
  - clear Heq. induction s as [| a r IH]; cbn; [done |]. intros [Hne Hfree].
    destruct (Ascii.eqb_spec a slash) as [-> | _]; [done |]. by rewrite IH.
Qed.

Lemma replaceSlashesWithUScores_witness :
  replaceSlashesWithUScores "GigabitEthernet0/8/0" = "GigabitEthernet0_8_0"
  ∧ replaceSlashesWithUScores "eth0" = "eth0".
Proof.
  split.
  - by rewrite (proj1 (replaceSlashesWithUScores_replaces_each_slash _)).
  - apply (replaceSlashesWithUScores_replaces_each_slash "eth0").
    cbn; repeat split; discriminate.
Defined.

(** Every character is below 128: for such a byte [b], [fmt.Sprintf("%c", b)]
    is the byte itself. *)
Fixpoint asciiOnly (s : string) : Prop :=
  match s with
  | EmptyString => True
  | String a r => (nat_of_ascii a < 128)%nat ∧ asciiOnly r
  end.

Lemma byteAt_length str i :
  asciiOnly str → (i < String.length str)%nat → String.length (byteAt str i) = 1%nat.
Proof.
  unfold byteAt. revert i. induction str as [| a r IH]; intros i Ha Hi; cbn in *; [lia |].
  destruct Ha as [Ha Hr]. destruct i as [| i].
  - unfold Sprintf_c. cbv zeta. by rewrite (proj2 (Nat.ltb_lt _ _) Ha).
  - apply IH; [done | lia].
Qed.

Lemma bytesAt_length str (f : nat → nat) (l : list nat) acc :
  asciiOnly str → (∀ i, i ∈ l → (f i < String.length str)%nat) →
  String.length (fold_left (λ outStr i, outStr +:+ byteAt str (f i)) l acc)
  = (String.length acc + length l)%nat.
Proof.
  intros Ha. revert acc. induction l as [| i l IH]; intros acc Hl; cbn; [lia |].
  rewrite IH by (intros j Hj; apply Hl; by right).
  rewrite length_append, byteAt_length; [lia | done |]. apply Hl. by left.
Qed.

Lemma stringFirstNLastM_length n m str :
  asciiOnly str →
  String.length (stringFirstNLastM n m str) = Nat.min (String.length str) (n + m).
Proof.
  intros Ha. unfold stringFirstNLastM.
  destruct (Nat.leb_spec (String.length str) (n + m)); [lia |]. cbv zeta.
  set (first := fold_left _ (seq 0 n) "").
  pose proof (bytesAt_length str (λ i, String.length str - m + i)%nat (seq 0 m)
                first Ha) as Hlast.
  pose proof (bytesAt_length str (λ i, i) (seq 0 n) "" Ha) as Hfirst.
  cbv beta in Hlast, Hfirst. fold first in Hfirst.
  rewrite Hlast, Hfirst.
  - rewrite !length_seq. cbn. lia.
  - intros i Hi. apply elem_of_seq in Hi. lia.
  - intros i Hi. apply elem_of_seq in Hi. lia.
Qed.

Lemma formatDigits_length fuel alphabet base v (k : nat) :
  1 < base → 0 ≤ v < base ^ Z.of_nat k → (1 ≤ k)%nat →
  (String.length (formatDigits fuel alphabet base v) ≤ k)%nat.
Proof.
  intros Hb. revert v k. induction fuel as [| fuel IH]; intros v k Hv Hk; cbn.
  - lia.
  - destruct (Z.ltb_spec v base) as [Hlt | Hge]; [cbn; lia |].
    rewrite length_append. cbn.
    destruct k as [| [| k]]; [lia | |].
    + change (Z.of_nat 1) with 1 in Hv. rewrite Z.pow_1_r in Hv. lia.
    + specialize (IH (v / base) (S k)).
      assert (0 ≤ v / base < base ^ Z.of_nat (S k)).
      { split; [apply Z.div_pos; lia |].
        apply Z.div_lt_upper_bound; [lia |].
        replace (Z.of_nat (S (S k))) with (Z.succ (Z.of_nat (S k))) in Hv by lia.
        rewrite Z.pow_succ_r in Hv by lia. lia. }
      specialize (IH ltac:(done) ltac:(lia)). lia.
Qed.

(** X3. The host-side name of the veth toward the vswitch, which is the base
    name, "_" and the veth id in base 36, has at most 15 characters when the
    id has at most 3 digits, that is for ids below 36^3 = 46656: it fits
    IFNAMSIZ. *)
Theorem constructBaseHostName_fits_interface_name (container port : string) :
  asciiOnly container → asciiOnly port →
  (∀ v, (String.length v ≤ 3)%nat →
        (String.length (constructBaseHostName container port v +:+ "_" +:+ v) ≤ 15)%nat)
  ∧ (∀ vethID, 0 ≤ vethID < 46656 →
       let vethIDStr := FormatUint vethID 36 in
       (String.length (constructBaseHostName container port vethIDStr
                       +:+ "_" +:+ vethIDStr) ≤ 15)%nat).
Proof.
  intros Hac Hap.
  assert (Hfits : ∀ v, (String.length v ≤ 3)%nat →
    (String.length (constructBaseHostName container port v +:+ "_" +:+ v) ≤ 15)%nat).
  { intros v Hv. unfold constructBaseHostName. cbv zeta.
    rewrite !length_append.
    destruct (String.length v) as [| [| [| [| lv]]]] eqn:Hlv; [| | | | exfalso; lia];
      destruct (String.length container) as [| [| [| [| [| lc]]]]] eqn:Hlc;
      destruct (String.length port) as [| [| [| [| [| lp]]]]] eqn:Hlp;
      cbv beta iota;
      rewrite !length_append, !stringFirstNLastM_length, ?Hlc, ?Hlp by done;
      cbn [String.length]; lia. }
  split; [done |]. intros vethID Hid. cbv zeta. apply Hfits.
  unfold FormatUint. apply formatDigits_length; [lia | | lia].
  change (36 ^ Z.of_nat 3) with 46656. lia.
Qed.

Lemma constructBaseHostName_witness :
  (String.length (constructBaseHostName "vnfunction1" "myport1" "2" +:+ "_" +:+ "2")
   ≤ 15)%nat.
Proof.
  apply (constructBaseHostName_fits_interface_name "vnfunction1" "myport1");
    [repeat split; apply Nat.ltb_lt; reflexivity ..| cbn; lia].
Defined.

(** ** Addresses of container interfaces *)

(** The key of a container interface in the cache of addresses. *)
Definition sfcIfKey (container port : string) : string := container +:+ "/" +:+ port.

(** X4. The addresses recorded for a container interface are read back with
    the subnet stripped from the IP address. The cache is keyed by
    container + "/" + port: another interface with the same key reads the
    same record, any other one reads what it read before, and an interface
    without a record gets an error. *)
Theorem sfcInterfaceIPAndMac_round_trip (s : Driver.t) :
  (∀ container port ip mac, ∃ s',
     setSfcInterfaceIPAndMac container port ip mac s = Ok tt s'
     ∧ (∀ c p, sfcIfKey c p = sfcIfKey container port →
               GetSfcInterfaceIPAndMac c p s'
               = Ok (stripSlashAndSubnetIpv4Address ip, mac) s')
     ∧ (∀ c p, sfcIfKey c p ≠ sfcIfKey container port →
               result (GetSfcInterfaceIPAndMac c p s')
               = result (GetSfcInterfaceIPAndMac c p s)))
  ∧ (∀ c p,
       l2CNPStateCacheType.SFCIFAddr (Driver.l2CNPStateCache s) !! sfcIfKey c p = None →
       GetSfcInterfaceIPAndMac c p s = Err (ErrAddressesNotFound c p) s).
Proof.
  split.
  - intros container port ip mac. eexists. split; [reflexivity |]. split.
    + intros c p Hkey. unfold GetSfcInterfaceIPAndMac. rewrite bind_unfold.
      unfold gets. unfold_setters. unfold sfcIfKey in Hkey. rewrite Hkey.
      by rewrite lookup_insert_eq.
    + intros c p Hkey. unfold GetSfcInterfaceIPAndMac. rewrite !bind_unfold.
      unfold gets. unfold_setters. unfold sfcIfKey in Hkey.
      rewrite lookup_insert_ne by done.
      by destruct (l2CNPStateCacheType.SFCIFAddr (Driver.l2CNPStateCache s) !! _).
  - intros c p Hnone. unfold GetSfcInterfaceIPAndMac. rewrite bind_unfold.
    unfold gets. unfold sfcIfKey in Hnone. by rewrite Hnone.
Qed.

Lemma sfcInterfaceIPAndMac_witness :
  ∃ s', setSfcInterfaceIPAndMac "a/b" "c" "10.0.0.7/24" "02:00:00:00:00:01" newDriver
        = Ok tt s'
        ∧ GetSfcInterfaceIPAndMac "a" "b/c" s' = Ok ("10.0.0.7", "02:00:00:00:00:01") s'
        ∧ result (GetSfcInterfaceIPAndMac "a" "c" s')
          = Some (inl (ErrAddressesNotFound "a" "c")).
Proof.
  destruct (proj1 (sfcInterfaceIPAndMac_round_trip newDriver)
              "a/b" "c" "10.0.0.7/24" "02:00:00:00:00:01") as (s' & Hset & Hsame & Hother).
  exists s'. split; [done |]. split.
  - by apply Hsame.
  - rewrite Hother by done.
    by rewrite (proj2 (sfcInterfaceIPAndMac_round_trip newDriver) "a" "c").
Defined.

(** The address an element with an address of its own gets: the address, with
    "/24" appended unless it has exactly one "/". *)
Definition ownIpv4 (a : string) : string :=
  if (length (Split a slash) =? 2)%nat then a else a +:+ "/24".

Lemma stripSlashAndSubnetIpv4Address_ownIpv4 a :
  stripSlashAndSubnetIpv4Address (ownIpv4 a) = stripSlashAndSubnetIpv4Address a.
Proof.
  unfold ownIpv4. destruct (length (Split a slash) =? 2)%nat; [done |].
  destruct (stripSlash_shape a) as [Heq | (rest & Heq)].
  - rewrite Heq. rewrite <- Heq at 2.
    change (a +:+ "/24") with (a +:+ "/" +:+ "24"). rewrite <- Heq at 1.
    apply stripSlash_cut, stripSlash_free.
  - rewrite Heq at 1. rewrite !append_assoc.
    change ("/" +:+ rest +:+ "/24") with ("/" +:+ (rest +:+ "/24")).
    apply stripSlash_cut, stripSlash_free.
Qed.

(** A relation every computation keeps. *)
Definition anyChange : relation Driver.t := λ _ _, True.

Lemma keeps_anyChange {A} (m : M A) : keeps anyChange m.
Proof. by intros s s' _. Qed.

Lemma assignIpv4_own sfc e sfcID g s :
  isEmpty (SfcElement.Ipv4Addr e) = false →
  wp (assignIpv4 sfc e sfcID g)
     (λ r _, r = (ownIpv4 (SfcElement.Ipv4Addr e), 0)) (λ _, True) s.
Proof.
  intros Hne. unfold assignIpv4. rewrite Hne. cbv zeta.
  apply wp_bind. apply (wp_keeps anyChange); [apply keeps_anyChange | | done].
  intros _ s1 _. done.
Qed.

Lemma assignMac_own e sfcID g s :
  isEmpty (SfcElement.MacAddr e) = false →
  assignMac e sfcID g s = Ok (SfcElement.MacAddr e, 0) s.
Proof. intros Hne. unfold assignMac. by rewrite Hne. Qed.

Lemma wp_mono {A} (m : M A) (Q Q' : A → Driver.t → Prop) (E E' : Driver.t → Prop) s :
  (∀ a s', Q a s' → Q' a s') → (∀ s', E s' → E' s') → wp m Q E s → wp m Q' E' s.
Proof. intros HQ HE. unfold wp. destruct (m s); auto. Qed.

Lemma wp_any_bind {A B} (m : M A) (k : A → M B) Q (E : Driver.t → Prop) s :
  (∀ s', E s') → (∀ a s', wp (k a) Q E s') → wp (m ≫= k) Q E s.
Proof.
  intros HE Hk. apply wp_bind. apply (wp_keeps anyChange); [apply keeps_anyChange | |];
    auto.
Qed.

Lemma wp_Ok {A} (m : M A) (Q : A → Driver.t → Prop) E s a s' :
  wp m Q E s → m s = Ok a s' → Q a s'.
Proof. unfold wp. intros H Hrun. by rewrite Hrun in H. Qed.

(** What is recorded for the interface of [e]. *)
Definition recordedFor (e : SfcElement.t) (s : Driver.t)
  : option sfcInterfaceAddressStateType.t :=
  l2CNPStateCacheType.SFCIFAddr (Driver.l2CNPStateCache s)
    !! sfcIfKey (SfcElement.Container e) (SfcElement.PortLabel e).

Lemma createMemIfPair_records sfc host e g s :
  isEmpty (SfcElement.Ipv4Addr e) = false → isEmpty (SfcElement.MacAddr e) = false →
  wp (createMemIfPair sfc host e g)
     (λ _ s', recordedFor e s'
              = Some (sfcInterfaceAddressStateType.mk (ownIpv4 (SfcElement.Ipv4Addr e))
                        (SfcElement.MacAddr e)))
     (λ _, True) s.
Proof.
  intros Hip Hmac. unfold createMemIfPair. cbv zeta.
  apply wp_any_bind; [done | intros sfcID s1].
  apply wp_any_bind; [done | intros memifID s2].
  apply wp_bind. eapply wp_mono; [| | apply (assignIpv4_own sfc e sfcID g s2 Hip)];
    [| done].
  intros r s3 ->. cbv beta iota.
  eapply wp_run_bind; [by apply assignMac_own |]. cbv beta iota.
  apply wp_any_bind; [done | intros mtu s4].
  apply wp_any_bind; [done | intros _ s5].
  apply wp_any_bind; [done | intros [err | i] s6]; [done |].
  apply wp_any_bind; [done | intros r s7].
  apply wp_any_bind; [done | intros _ s8].
  apply wp_modify_bind.
  destruct r as [err | ?]; [done |].
  unfold wp, recordedFor, sfcIfKey. cbn. unfold_setters. by rewrite lookup_insert_eq.
Qed.

Lemma createAFPacketVEthPair_records sfc e s :
  isEmpty (SfcElement.Ipv4Addr e) = false → isEmpty (SfcElement.MacAddr e) = false →
  wp (createAFPacketVEthPair sfc e)
     (λ _ s', recordedFor e s'
              = Some (sfcInterfaceAddressStateType.mk (ownIpv4 (SfcElement.Ipv4Addr e))
                        (SfcElement.MacAddr e)))
     (λ _, True) s.
Proof.
  intros Hip Hmac. unfold createAFPacketVEthPair. cbv zeta.
  apply wp_any_bind; [done | intros sfcID s1].
  apply wp_any_bind; [done | intros vethID s2].
  apply wp_bind. eapply wp_mono; [| | apply (assignIpv4_own sfc e sfcID true s2 Hip)];
    [| done].
  intros r s3 ->. cbv beta iota.
  eapply wp_run_bind; [by apply assignMac_own |]. cbv beta iota.
  apply wp_any_bind; [done | intros mtu s4].
  apply wp_any_bind; [done | intros _ s5].
  apply wp_any_bind; [done | intros _ s6].
  apply wp_any_bind; [done | intros _ s7].
  apply wp_any_bind; [done | intros [err | i] s8]; [done |].
  apply wp_any_bind; [done | intros r s9].
  apply wp_any_bind; [done | intros _ s10].
  apply wp_modify_bind.
  unfold wp, recordedFor, sfcIfKey. cbn. unfold_setters. by rewrite lookup_insert_eq.
Qed.

(** X5. Once the interface pair of a container that carries its own IPv4 and
    MAC address is created, memif or veth/af-packet, the addresses read back
    for the container and the port are the element's IPv4 address up to its
    first "/" and the element's MAC address. *)
Theorem wired_container_addresses_read_back sfc e s :
  SfcElement.Ipv4Addr e ≠ "" → SfcElement.MacAddr e ≠ "" →
  (∀ host g name s', createMemIfPair sfc host e g s = Ok name s' →
     GetSfcInterfaceIPAndMac (SfcElement.Container e) (SfcElement.PortLabel e) s'
     = Ok (stripSlashAndSubnetIpv4Address (SfcElement.Ipv4Addr e), SfcElement.MacAddr e) s')
  ∧ (∀ name s', createAFPacketVEthPair sfc e s = Ok name s' →
       GetSfcInterfaceIPAndMac (SfcElement.Container e) (SfcElement.PortLabel e) s'
       = Ok (stripSlashAndSubnetIpv4Address (SfcElement.Ipv4Addr e), SfcElement.MacAddr e)
            s').
Proof.
  intros Hip Hmac.
  apply String.eqb_neq in Hip, Hmac. fold (isEmpty (SfcElement.Ipv4Addr e)) in Hip.
  fold (isEmpty (SfcElement.MacAddr e)) in Hmac.
  assert (Hget : ∀ s', recordedFor e s'
                 = Some (sfcInterfaceAddressStateType.mk (ownIpv4 (SfcElement.Ipv4Addr e))
                           (SfcElement.MacAddr e)) →
    GetSfcInterfaceIPAndMac (SfcElement.Container e) (SfcElement.PortLabel e) s'
    = Ok (stripSlashAndSubnetIpv4Address (SfcElement.Ipv4Addr e), SfcElement.MacAddr e) s').
  { intros s' Hrec. unfold GetSfcInterfaceIPAndMac. rewrite bind_unfold. unfold gets.
    unfold recordedFor, sfcIfKey in Hrec. rewrite Hrec. cbn.
    by rewrite stripSlashAndSubnetIpv4Address_ownIpv4. }
  split.
  - intros host g name s' Hrun. apply Hget.
    exact (wp_Ok _ _ _ _ _ _ (createMemIfPair_records sfc host e g s Hip Hmac) Hrun).
  - intros name s' Hrun. apply Hget.
    exact (wp_Ok _ _ _ _ _ _ (createAFPacketVEthPair_records sfc e s Hip Hmac) Hrun).
Qed.

(** A memif container that carries its addresses, the IPv4 address without a
    prefix length. *)
Definition addressedElement : SfcElement.t :=
  SfcElement.mk "c1" "p1" "h1" "10.1.1.5" "02:00:00:00:00:09" VPP_CONTAINER_MEMIF 0 0
    RX_MODE_UNKNOWN [] "" [] [].

Lemma wired_container_addresses_witness :
  ∃ name s',
    createMemIfPair ewBridgeChain "h1" addressedElement false newDriver = Ok name s'
    ∧ GetSfcInterfaceIPAndMac "c1" "p1" s' = Ok ("10.1.1.5", "02:00:00:00:00:09") s'.
Proof.
  assert (Hrun : ∃ name s', createMemIfPair ewBridgeChain "h1" addressedElement false
                              newDriver = Ok name s').
  { vm_compute. by eexists _, _. }
  destruct Hrun as (name & s' & Hrun). exists name, s'. split; [done |].
  apply (proj1 (wired_container_addresses_read_back ewBridgeChain addressedElement
                  newDriver ltac:(discriminate) ltac:(discriminate))
           "h1" false name s' Hrun).
Defined.

(** ** What wiring a chain leaves alone *)

(** The entity cache and the reconcile mode are the same. *)
Definition entitiesKept : relation Driver.t := λ s s',
  Driver.l2CNPEntityCache s' = Driver.l2CNPEntityCache s
  ∧ Driver.reconcileInProgress s' = Driver.reconcileInProgress s.

#[global] Instance entitiesKept_preorder : PreOrder entitiesKept.
Proof.
  split; [by intros s |].
  intros s1 s2 s3 [H1 H2] [G1 G2]. unfold entitiesKept. by rewrite G1, G2.
Qed.
#[global] Instance entitiesKept_db : FrameDb entitiesKept.
Proof. by intros f s _. Qed.
#[global] Instance entitiesKept_HEToEEs : FrameHEToEEs entitiesKept.
Proof. by intros f s. Qed.
#[global] Instance entitiesKept_HEToHEs : FrameHEToHEs entitiesKept.
Proof. by intros f s. Qed.
#[global] Instance entitiesKept_SFCToHEs : FrameSFCToHEs entitiesKept.
Proof. by intros f s. Qed.
#[global] Instance entitiesKept_HE : FrameHE entitiesKept.
Proof. by intros f s. Qed.
#[global] Instance entitiesKept_SFCIFAddr : FrameSFCIFAddr entitiesKept.
Proof. by intros f s. Qed.
#[global] Instance entitiesKept_after : FrameAfter entitiesKept.
Proof. by intros f s. Qed.
#[global] Instance entitiesKept_seq : FrameSeq entitiesKept.
Proof. by intros f s. Qed.
#[global] Instance entitiesKept_heap : FrameHeap entitiesKept.
Proof. by intros f s. Qed.
#[global] Instance entitiesKept_ext : FrameExt entitiesKept.
Proof. by intros f s. Qed.
#[global] Instance entitiesKept_ipam : FrameIpam entitiesKept.
Proof. by intros f s. Qed.

(** The chain types that WireSfcEntity wires. *)
Definition wiredSfcType (t : SfcType) : bool :=
  match t with
  | SFC_NS_VXLAN | SFC_NS_NIC_BD | SFC_NS_NIC_VRF | SFC_NS_NIC_L2XCONN
  | SFC_EW_MEMIF | SFC_EW_BD | SFC_EW_BD_L2FIB | SFC_EW_L2XCONN => true
  | _ => false
  end.

Lemma entitiesKept_wiring sfc :
  keeps entitiesKept (wireSfcNorthSouthVXLANElements sfc)
  ∧ keeps entitiesKept (wireSfcNorthSouthNICElements sfc)
  ∧ keeps entitiesKept (wireSfcEastWestElements sfc).
Proof.
  assert (Hc : ∀ k n ifs p, (length ifs ≤ 1)%nat →
                 keeps entitiesKept (bridgedDomainCreateWithIfs k n ifs p)).
  { intros. apply keeps_bridgedDomainCreateWithIfs_framed; typeclasses eauto. }
  assert (Ha : ∀ k bd ifs, keeps entitiesKept (bridgedDomainAssociateWithIfs k bd ifs)).
  { intros. apply keeps_bridgedDomainAssociateWithIfs_framed; typeclasses eauto. }
  split; [| split].
  - apply keeps_wireSfcNorthSouthVXLANElements; try typeclasses eauto; try done.
    intros. apply keeps_createVxLANAndBridgeToExtEntity_framed; try typeclasses eauto.
    done.
  - apply keeps_wireSfcNorthSouthNICElements; try typeclasses eauto; done.
  - apply keeps_wireSfcEastWestElements; try typeclasses eauto; done.
Qed.

(** X6. Wiring a chain of one of the eight wired types caches the chain under
    its name, also when the wiring fails or panics, and changes nothing else
    in the entity cache: the hosts, the external entities, the system
    parameters and the other chains are as before, and so is the reconcile
    mode. A chain of any other type is rejected, and is not cached. *)
Theorem WireSfcEntity_caches_the_chain (sfc : SfcEntity.t) (s : Driver.t) :
  (wiredSfcType (SfcEntity.Type_ sfc) = true →
   ∀ s', final (WireSfcEntity sfc s) = Some s' →
     Driver.l2CNPEntityCache s' = Driver.l2CNPEntityCache (cacheSfc sfc s)
     ∧ l2CNPEntityCacheType.SFCs (Driver.l2CNPEntityCache s') !! SfcEntity.Name sfc
       = Some sfc
     ∧ Driver.reconcileInProgress s' = Driver.reconcileInProgress s)
  ∧ (wiredSfcType (SfcEntity.Type_ sfc) = false →
     WireSfcEntity sfc s = Err (ErrUnknownEntityType (SfcEntity.Type_ sfc)) s).
Proof.
  destruct (entitiesKept_wiring sfc) as (Hns & Hnic & Hew).
  split.
  - intros Ht s' Hfin.
    assert (Hk : entitiesKept (cacheSfc sfc s) s').
    { unfold WireSfcEntity in Hfin. cbv zeta in Hfin.
      destruct (SfcEntity.Type_ sfc); try discriminate Ht;
        rewrite bind_unfold in Hfin; cbn in Hfin;
        first [by apply Hns | by apply Hnic | by apply Hew]. }
    destruct Hk as [Hc Hr]. split; [done |]. split; [| done].
    rewrite Hc. unfold cacheSfc. unfold_setters. by rewrite lookup_insert_eq.
  - intros Ht. unfold WireSfcEntity. cbv zeta.
    by destruct (SfcEntity.Type_ sfc); try discriminate Ht.
Qed.

Lemma WireSfcEntity_caches_witness :
  (∃ e, WireSfcEntity nsChainUnwiredHost driverWithRouter
        = Err e (cacheSfc nsChainUnwiredHost driverWithRouter))
  ∧ l2CNPEntityCacheType.SFCs
      (Driver.l2CNPEntityCache (cacheSfc nsChainUnwiredHost driverWithRouter)) !! "sfc-ns"
    = Some nsChainUnwiredHost
  ∧ WireSfcEntity (SfcEntity.mk "sfc-x" "" SFC_EW_VETH "" 0 None []) newDriver
    = Err (ErrUnknownEntityType SFC_EW_VETH) newDriver.
Proof.
  split; [eexists; vm_compute; reflexivity |]. split.
  - assert (Hfin : final (WireSfcEntity nsChainUnwiredHost driverWithRouter)
                   = Some (cacheSfc nsChainUnwiredHost driverWithRouter))
      by (vm_compute; reflexivity).
    destruct (proj1 (WireSfcEntity_caches_the_chain nsChainUnwiredHost driverWithRouter)
                eq_refl _ Hfin) as (_ & Hc & _).
    exact Hc.
  - by apply (proj2 (WireSfcEntity_caches_the_chain
                       (SfcEntity.mk "sfc-x" "" SFC_EW_VETH "" 0 None []) newDriver)).
Defined.

(** ** Bridge domains are kept *)

(** The same bridge domain, with members added at the end. *)
Definition bridgeKept (b b' : BridgeDomain.t) : Prop :=
  BridgeDomain_set_Interfaces [] b' = BridgeDomain_set_Interfaces [] b
  ∧ BridgeDomain.Interfaces b `prefix_of` BridgeDomain.Interfaces b'.

(** Every bridge domain is still held at its address, with its name and its
    parameters, and with the members it had, in their order, first. *)
Definition bridgesKept : relation Driver.t := λ s s',
  ∀ ptr b, Driver.bridgeDomains s !! ptr = Some b →
    ∃ b', Driver.bridgeDomains s' !! ptr = Some b' ∧ bridgeKept b b'.

#[global] Instance bridgeKept_preorder : PreOrder bridgeKept.
Proof.
  split; [by intros b |].
  intros b1 b2 b3 [H1 H2] [G1 G2]. split; [by rewrite G1 | by transitivity
    (BridgeDomain.Interfaces b2)].
Qed.

#[global] Instance bridgesKept_preorder : PreOrder bridgesKept.
Proof.
  split.
  - intros s ptr b Hb. by exists b.
  - intros s1 s2 s3 H12 H23 ptr b Hb.
    destruct (H12 ptr b Hb) as (b2 & Hb2 & Hk2).
    destruct (H23 ptr b2 Hb2) as (b3 & Hb3 & Hk3).
    exists b3. split; [done | by transitivity b2].
Qed.
#[global] Instance bridgesKept_db : FrameDb bridgesKept.
Proof. intros f s _ ptr b Hb. by exists b. Qed.
#[global] Instance bridgesKept_EEs : FrameEEs bridgesKept.
Proof. intros f s ptr b Hb. by exists b. Qed.
#[global] Instance bridgesKept_HEs : FrameHEs bridgesKept.
Proof. intros f s ptr b Hb. by exists b. Qed.
#[global] Instance bridgesKept_SFCs : FrameSFCs bridgesKept.
Proof. intros f s ptr b Hb. by exists b. Qed.
#[global] Instance bridgesKept_SysParms : FrameSysParms bridgesKept.
Proof. intros f s ptr b Hb. by exists b. Qed.
#[global] Instance bridgesKept_HEToEEs : FrameHEToEEs bridgesKept.
Proof. intros f s ptr b Hb. by exists b. Qed.
#[global] Instance bridgesKept_HEToHEs : FrameHEToHEs bridgesKept.
Proof. intros f s ptr b Hb. by exists b. Qed.
#[global] Instance bridgesKept_SFCToHEs : FrameSFCToHEs bridgesKept.
Proof. intros f s ptr b Hb. by exists b. Qed.
#[global] Instance bridgesKept_HE : FrameHE bridgesKept.
Proof. intros f s ptr b Hb. by exists b. Qed.
#[global] Instance bridgesKept_SFCIFAddr : FrameSFCIFAddr bridgesKept.
Proof. intros f s ptr b Hb. by exists b. Qed.
#[global] Instance bridgesKept_after : FrameAfter bridgesKept.
Proof. intros f s ptr b Hb. by exists b. Qed.
#[global] Instance bridgesKept_seq : FrameSeq bridgesKept.
Proof. intros f s ptr b Hb. by exists b. Qed.
#[global] Instance bridgesKept_ext : FrameExt bridgesKept.
Proof. intros f s ptr b Hb. by exists b. Qed.
#[global] Instance bridgesKept_ipam : FrameIpam bridgesKept.
Proof. intros f s ptr b Hb. by exists b. Qed.

Lemma associateIfs_prefix members ifs : members `prefix_of` associateIfs members ifs.
Proof.
  unfold associateIfs. revert members.
  induction ifs as [| iface ifs IH]; intros members; cbn [fold_left]; [done |].
  destruct (bdHasInterface members iface); [apply IH |].
  transitivity (members ++ [iface]); [by apply prefix_app_r | apply IH].
Qed.

Lemma bridgesKept_newBD bd : keeps bridgesKept (newBD bd).
Proof.
  intros s s' [= <-] ptr b Hb. exists b. split; [| done].
  unfold_setters. by apply lookup_app_l_Some.
Qed.

Lemma bridgesKept_bridgedDomainCreateWithIfs k n ifs p :
  keeps bridgesKept (bridgedDomainCreateWithIfs k n ifs p).
Proof.
  unfold bridgedDomainCreateWithIfs. keeps_auto. apply bridgesKept_newBD.
Qed.

Lemma bridgesKept_bridgedDomainAssociateWithIfs k bd ifs :
  keeps bridgesKept (bridgedDomainAssociateWithIfs k bd ifs).
Proof.
  intros s s' Hfin.
  destruct (match bd with Some ptr => Driver.bridgeDomains s !! ptr | None => None end)
    as [b |] eqn:Hb.
  - destruct bd as [ptr |]; [| done]. cbn in Hb.
    rewrite (bridgedDomainAssociateWithIfs_run k ptr ifs s b Hb) in Hfin.
    set (b' := BridgeDomain_set_Interfaces _ b) in *.
    transitivity (Driver.set_bridgeDomains (λ h, <[ptr := b']> h) s).
    + intros q c Hc. unfold_setters. destruct (decide (q = ptr)) as [Heq | Hne].
      * subst q. exists b'. rewrite list_lookup_insert_eq by by eapply lookup_lt_Some.
        split; [done |]. pose proof (eq_trans (eq_sym Hc) Hb) as Heq. injection Heq as ->.
        split; [done | apply associateIfs_prefix].
      * exists c. by rewrite list_lookup_insert_ne.
    + destruct (Driver.reconcileInProgress s).
      * by apply (keeps_reconcileBridgeDomain bridgesKept k b').
      * by apply (keeps_txnPut bridgesKept k (RBridgeDomain b')).
  - rewrite bridgedDomainAssociateWithIfs_nil_or_dangling in Hfin by done.
    by injection Hfin as <-.
Qed.

Lemma runCall_bridgesKept c : keeps bridgesKept (runCall c).
Proof.
  assert (Hc : ∀ k n ifs p, (length ifs ≤ 1)%nat →
                 keeps bridgesKept (bridgedDomainCreateWithIfs k n ifs p)).
  { intros. apply bridgesKept_bridgedDomainCreateWithIfs. }
  destruct c; cbn [runCall].
  - apply keeps_SetSystemParameters; typeclasses eauto.
  - apply keeps_WireHostEntityToDestinationHostEntity; typeclasses eauto.
  - apply keeps_WireHostEntityToExternalEntity; typeclasses eauto.
  - apply keeps_WireInternalsForHostEntity; try typeclasses eauto. done.
  - apply keeps_WireInternalsForExternalEntity; typeclasses eauto.
  - apply keeps_WireSfcEntity; try typeclasses eauto; [done | |].
    + apply bridgesKept_bridgedDomainAssociateWithIfs.
    + intros. apply keeps_createVxLANAndBridgeToExtEntity_framed;
        try typeclasses eauto. done.
Qed.

(** X7. No operation of the engine deletes, moves or renames a bridge domain,
    or changes its parameters, or removes or reorders its members: through
    any sequence of operations, whatever their outcomes, a bridge domain is
    held at the same address with the same name and parameters, and its
    member list only grows at the end. *)
Theorem bridge_domains_only_grow (calls : list Call) (s : Driver.t) (ptr : bdPtr)
  (b : BridgeDomain.t) :
  Driver.bridgeDomains s !! ptr = Some b →
  ∃ b', Driver.bridgeDomains (stateAfter calls s) !! ptr = Some b'
        ∧ BridgeDomain.Name b' = BridgeDomain.Name b
        ∧ BridgeDomain_set_Interfaces [] b' = BridgeDomain_set_Interfaces [] b
        ∧ BridgeDomain.Interfaces b `prefix_of` BridgeDomain.Interfaces b'.
Proof.
  intros Hb.
  assert (Hk : bridgesKept s (stateAfter calls s)).
  { unfold stateAfter. clear Hb. revert s.
    induction calls as [| c calls IH]; intros s; cbn [fold_left]; [reflexivity |].
    destruct (final (runCall c s)) as [s1 |] eqn:Hfin; cbn [default]; [| apply IH].
    transitivity s1; [by apply (runCall_bridgesKept c) | apply IH]. }
  destruct (Hk ptr b Hb) as (b' & Hb' & Hsame & Hpre).
  exists b'. split; [done |]. split; [| done].
  by apply (f_equal BridgeDomain.Name) in Hsame.
Qed.

Lemma bridge_domains_only_grow_witness :
  ∃ b', Driver.bridgeDomains
          (stateAfter [CallWireSfcEntity ewBridgeChain]
             (stateAfter [CallSetSystemParameters defaultSysParms;
                          CallWireInternalsForHostEntity host1] newDriver)) !! 0%nat
        = Some b'
        ∧ BridgeDomain.Name b' = "BD_INTERNAL_EW_h1"
        ∧ [] `prefix_of` BridgeDomain.Interfaces b'.
Proof.
  destruct (bridge_domains_only_grow [CallWireSfcEntity ewBridgeChain]
              (stateAfter [CallSetSystemParameters defaultSysParms;
                           CallWireInternalsForHostEntity host1] newDriver) 0%nat
              (BridgeDomain.mk "BD_INTERNAL_EW_h1" true true true true false 0 []))
    as (b' & Hb' & Hn & _ & Hpre); [reflexivity |].
  exists b'. repeat split; done.
Defined.

(** ** Preparing a host *)

(** The cache of host records is as it was, and the host still has its state. *)
Definition hostStateKept (name : string) : relation Driver.t := λ s s',
  l2CNPEntityCacheType.HEs (Driver.l2CNPEntityCache s')
  = l2CNPEntityCacheType.HEs (Driver.l2CNPEntityCache s)
  ∧ (is_Some (l2CNPStateCacheType.HE (Driver.l2CNPStateCache s) !! name) →
     is_Some (l2CNPStateCacheType.HE (Driver.l2CNPStateCache s') !! name)).

#[global] Instance hostStateKept_preorder name : PreOrder (hostStateKept name).
Proof.
  split; [by intros s |].
  intros s1 s2 s3 [H1 H2] [G1 G2]. split; [by rewrite G1 | auto].
Qed.
#[global] Instance hostStateKept_db name : FrameDb (hostStateKept name).
Proof. by intros f s _. Qed.
#[global] Instance hostStateKept_after name : FrameAfter (hostStateKept name).
Proof. by intros f s. Qed.
#[global] Instance hostStateKept_seq name : FrameSeq (hostStateKept name).
Proof. by intros f s. Qed.
#[global] Instance hostStateKept_heap name : FrameHeap (hostStateKept name).
Proof. by intros f s. Qed.

Lemma hostStateKept_updateHEState name n f :
  keeps (hostStateKept name) (updateHEState n f).
Proof.
  intros s s' [= <-]. split; [done |]. unfold_setters. cbn.
  intros [h Hh]. destruct (decide (n = name)) as [-> | Hne].
  - rewrite lookup_alter_eq, Hh. by eexists.
  - rewrite lookup_alter_ne by done. by eexists.
Qed.

Lemma WireInternalsForHostEntity_known he s :
  l2CNPEntityCacheType.HEs (Driver.l2CNPEntityCache s) !! HostEntity.Name he = Some he →
  is_Some (l2CNPStateCacheType.HE (Driver.l2CNPStateCache s) !! HostEntity.Name he) →
  WireInternalsForHostEntity he s = Ok tt s.
Proof.
  intros HHE [h Hh]. unfold WireInternalsForHostEntity.
  rewrite bind_unfold. unfold modify at 1. cbn beta iota.
  rewrite bind_unfold. unfold gets at 1. cbn beta iota.
  unfold_setters. cbn. rewrite Hh. unfold mret, M_ret. f_equal.
  destruct s as [db [sp hes ees sfcs] st after rip q heap ext ip]. cbn in *.
  by rewrite insert_id.
Qed.

Lemma WireInternalsForHostEntity_records he s s' :
  final (WireInternalsForHostEntity he s) = Some s' →
  l2CNPEntityCacheType.HEs (Driver.l2CNPEntityCache s')
  = <[HostEntity.Name he := he]> (l2CNPEntityCacheType.HEs (Driver.l2CNPEntityCache s))
  ∧ is_Some (l2CNPStateCacheType.HE (Driver.l2CNPStateCache s') !! HostEntity.Name he).
Proof.
  unfold WireInternalsForHostEntity.
  rewrite bind_unfold. unfold modify at 1. cbn beta iota.
  rewrite bind_unfold. unfold gets at 1. cbn beta iota.
  match goal with |- context [match ?x with Some _ => _ | None => _ end] =>
    destruct x as [h |] eqn:Hh end.
  - intros [= <-]. split; [done | by eexists].
  - rewrite bind_unfold. unfold modify at 1. cbn beta iota.
    match goal with |- final (?t ?s1) = _ → _ =>
      assert (Ht : keeps (hostStateKept (HostEntity.Name he)) t) end.
    { pose proof (hostStateKept_updateHEState (HostEntity.Name he)) as Hu.
      keeps_auto; try apply Hu.
      all: try (apply keeps_createEthernet || apply keeps_createLoopback
                || apply keeps_DatastoreHEIDsRetrieve
                || apply keeps_DatastoreHEIDsCreate
                || apply keeps_bridgedDomainCreateWithIfs_logged);
        try typeclasses eauto; try done.
      all: first [ by cbn; lia
                 | intros; apply keeps_bridgedDomainCreateWithIfs_framed;
                   typeclasses eauto ]. }
    intros Hfin. destruct (Ht _ _ Hfin) as [Hhes Hst]. split; [by rewrite Hhes |].
    apply Hst. unfold_setters. cbn. rewrite lookup_insert_eq. by eexists.
Qed.

(** X8. A host is prepared once: after a call of WireInternalsForHostEntity
    that ended, with a result, an error or a panic, the same call returns
    without error and leaves the state as it is. The state of the host is
    recorded before its resources are created, so a call that failed half way
    is not made up for by calling again. *)
Theorem WireInternalsForHostEntity_wires_a_host_once (he : HostEntity.t)
  (s s' : Driver.t) :
  final (WireInternalsForHostEntity he s) = Some s' →
  WireInternalsForHostEntity he s' = Ok tt s'.
Proof.
  intros Hfin. destruct (WireInternalsForHostEntity_records he s s' Hfin) as [Hhes Hst].
  apply WireInternalsForHostEntity_known; [| done].
  by rewrite Hhes, lookup_insert_eq.
Qed.

Lemma WireInternalsForHostEntity_once_witness :
  let s := NewSfcCtlrL2CNPDriver (KVStore.set_faults [true] KVStore.empty) [] in
  ∃ s', WireInternalsForHostEntity host1 s = Err ErrStore s'
        ∧ WireInternalsForHostEntity host1 s' = Ok tt s'
        ∧ Driver.bridgeDomains s' = [].
Proof.
  eexists. split; [reflexivity |]. split; [| reflexivity].
  apply (WireInternalsForHostEntity_wires_a_host_once host1
           (NewSfcCtlrL2CNPDriver (KVStore.set_faults [true] KVStore.empty) [])).
  reflexivity.
Defined.

(** Only the store, the reconcile buffer and the sequences differ. *)
Definition cachesKept : relation Driver.t := λ s s',
  Driver.bridgeDomains s' = Driver.bridgeDomains s
  ∧ Driver.l2CNPStateCache s' = Driver.l2CNPStateCache s
  ∧ Driver.l2CNPEntityCache s' = Driver.l2CNPEntityCache s
  ∧ Driver.reconcileInProgress s' = Driver.reconcileInProgress s.

#[global] Instance cachesKept_preorder : PreOrder cachesKept.
Proof.
  split; [by intros s |].
  intros s1 s2 s3 (H1 & H2 & H3 & H4) (G1 & G2 & G3 & G4).
  unfold cachesKept. by rewrite G1, G2, G3, G4.
Qed.
#[global] Instance cachesKept_db : FrameDb cachesKept.
Proof. by intros f s _. Qed.
#[global] Instance cachesKept_after : FrameAfter cachesKept.
Proof. by intros f s. Qed.
#[global] Instance cachesKept_seq : FrameSeq cachesKept.
Proof. by intros f s. Qed.

Lemma wp_kept_bind (R : relation Driver.t) {A B} (m : M A) (k : A → M B) Q s :
  keeps R m →
  (∀ a s', R s s' → wp (k a) Q (λ _, True) s') →
  wp (m ≫= k) Q (λ _, True) s.
Proof. intros Hm Hk. apply wp_bind. by apply (wp_keeps R). Qed.

(** The bridge domain that [bridgedDomainCreateWithIfs] builds. *)
Definition bridgeOf (bdName : string) (parms : BDParms.t) (ifs : list BDInterface.t)
  : BridgeDomain.t :=
  BridgeDomain.mk bdName (BDParms.Flood parms) (BDParms.UnknownUnicastFlood parms)
    (BDParms.Forward parms) (BDParms.Learn parms) (BDParms.ArpTermination parms)
    (BDParms.MacAge parms) ifs.

Lemma bridgedDomainCreateWithIfs_logged_new k n ifs p s :
  wp (bridgedDomainCreateWithIfs_logged k n ifs p)
     (λ ptr s', ∃ parms, p = Some parms
        ∧ ptr = length (Driver.bridgeDomains s)
        ∧ Driver.bridgeDomains s' = Driver.bridgeDomains s ++ [bridgeOf n parms ifs]
        ∧ Driver.l2CNPStateCache s' = Driver.l2CNPStateCache s
        ∧ Driver.l2CNPEntityCache s' = Driver.l2CNPEntityCache s
        ∧ Driver.reconcileInProgress s' = Driver.reconcileInProgress s)
     (λ _, True) s.
Proof.
  unfold wp, bridgedDomainCreateWithIfs_logged, bridgedDomainCreateWithIfs.
  destruct p as [parms |]; [| done].
  unfold newBD, reconcileBridgeDomain, txnPut, storePut. runM.
  destruct (Driver.reconcileInProgress s) eqn:Hrip; cbn; rewrite ?Hrip; cbn.
  - exists parms. by rewrite Hrip.
  - destruct (KVStore.faults (Driver.db s)) as [| [] fs]; cbn; [| done |];
      exists parms; by rewrite Hrip.
Qed.

(** X9. On a host that has no state yet, a call of WireInternalsForHostEntity
    that returns without error has created exactly two bridge domains, in this
    order and without members: BD_INTERNAL_EW_<host> with the dynamic bridge
    parameters of the system, and BD_INTERNAL_EW_L2FIB_<host> with the static
    ones. The state of the host points at the two, every bridge domain that
    existed is as it was, and the record of the host is cached. *)
Theorem WireInternalsForHostEntity_creates_the_host_bridges (he : HostEntity.t)
  (s s' : Driver.t) :
  l2CNPStateCacheType.HE (Driver.l2CNPStateCache s) !! HostEntity.Name he = None →
  WireInternalsForHostEntity he s = Ok tt s' →
  let name := HostEntity.Name he in
  let sp := l2CNPEntityCacheType.SysParms (Driver.l2CNPEntityCache s) in
  let n := length (Driver.bridgeDomains s) in
  ∃ dyn stat,
    SystemParameters.DynamicBridgeParms sp = Some dyn
    ∧ SystemParameters.StaticBridgeParms sp = Some stat
    ∧ Driver.bridgeDomains s'
      = Driver.bridgeDomains s
        ++ [bridgeOf ("BD_INTERNAL_EW_" +:+ name) dyn [];
            bridgeOf ("BD_INTERNAL_EW_L2FIB_" +:+ name) stat []]
    ∧ l2CNPStateCacheType.HE (Driver.l2CNPStateCache s') !! name
      = Some (heStateType.mk (Some n) (Some (S n)))
    ∧ l2CNPEntityCacheType.HEs (Driver.l2CNPEntityCache s') !! name = Some he.
Proof.
  intros Hnew Hrun. cbv zeta.
  pattern s'.
  match goal with |- ?P s' =>
    refine (wp_Ok (WireInternalsForHostEntity he) (λ _, P) (λ _, True) s tt s' _ Hrun)
  end.
  clear s' Hrun.
  unfold WireInternalsForHostEntity. cbv zeta.
  apply wp_modify_bind. apply wp_bind. unfold gets at 1, wp at 1.
  set (s0 := Driver.set_l2CNPEntityCache _ s).
  change (l2CNPStateCacheType.HE (Driver.l2CNPStateCache s0) !! HostEntity.Name he)
    with (l2CNPStateCacheType.HE (Driver.l2CNPStateCache s) !! HostEntity.Name he).
  rewrite Hnew. apply wp_modify_bind.
  set (s1 := Driver.set_l2CNPStateCache _ s0).
  assert (Hk1 : ∀ A (m : M A), keeps cachesKept m → keeps cachesKept m) by done.
  apply (wp_kept_bind cachesKept).
  { unfold getMtu. keeps_auto. }
  intros mtu s2 H2. apply (wp_kept_bind cachesKept).
  { keeps_auto; apply keeps_createEthernet; typeclasses eauto. }
  intros _ s3 H3. apply (wp_kept_bind cachesKept).
  { unfold getMtu. keeps_auto;
      first [ apply keeps_createLoopback | apply keeps_DatastoreHEIDsRetrieve ];
      typeclasses eauto. }
  intros macID s4 H4.
  assert (H14 : cachesKept s1 s4) by (by transitivity s2; [| transitivity s3]).
  clear H2 H3 H4. destruct H14 as (Hheap & Hst & Hent & Hrip).
  apply wp_bind. unfold getSysParms, gets at 1, wp at 1. rewrite Hent.
  apply wp_bind.
  eapply wp_mono; [| | apply bridgedDomainCreateWithIfs_logged_new]; [| done].
  intros p1 s5 (dyn & Hdyn & -> & Hheap5 & Hst5 & Hent5 & Hrip5).
  unfold updateHEState. apply wp_modify_bind.
  apply wp_bind. unfold gets at 1, wp at 1.
  apply wp_bind.
  eapply wp_mono; [| | apply bridgedDomainCreateWithIfs_logged_new]; [| done].
  intros p2 s6 (stat & Hstat & -> & Hheap6 & Hst6 & Hent6 & Hrip6).
  apply wp_modify_bind.
  apply (wp_keeps cachesKept); [| | done].
  { keeps_auto; try (apply keeps_DatastoreHEIDsCreate; typeclasses eauto). }
  intros _ s7 (Hheap7 & Hst7 & Hent7 & Hrip7).
  exists dyn, stat.
  cbn in Hstat, Hheap6, Hst6, Hent6, Hheap7, Hst7, Hent7.
  rewrite Hent5, Hent in Hstat.
  rewrite Hheap7, Hst7, Hent7, Hheap6, Hst6, Hent6, Hheap5, Hst5, Hent5, Hheap, Hst, Hent.
  subst s1 s0. cbn. rewrite <- app_assoc. cbn.
  repeat split; try done; [| by rewrite lookup_insert_eq].
  rewrite !lookup_alter_eq, !lookup_insert_eq. cbn.
  by rewrite length_app, Nat.add_1_r.
Qed.

Lemma WireInternalsForHostEntity_bridges_witness :
  let s := stateAfter [CallSetSystemParameters defaultSysParms] newDriver in
  let s' := stateAfter [CallWireInternalsForHostEntity host1] s in
  WireInternalsForHostEntity host1 s = Ok tt s'
  ∧ ∃ dyn stat,
      Driver.bridgeDomains s'
      = [bridgeOf "BD_INTERNAL_EW_h1" dyn []; bridgeOf "BD_INTERNAL_EW_L2FIB_h1" stat []]
      ∧ l2CNPStateCacheType.HE (Driver.l2CNPStateCache s') !! "h1"
        = Some (heStateType.mk (Some 0%nat) (Some 1%nat)).
Proof.
  intros s s'.
  assert (Hrun : WireInternalsForHostEntity host1 s = Ok tt s') by (vm_compute; reflexivity).
  split; [exact Hrun |].
  destruct (WireInternalsForHostEntity_creates_the_host_bridges host1 s s' eq_refl Hrun)
    as (dyn & stat & _ & _ & Hheap & Hst & _).
  exists dyn, stat. split; [exact Hheap | exact Hst].
Defined.

(** The writes that precede the bridge domains of a host: its ethernet
    interface and its loopback interface, when configured. *)
Definition hostInterfaceWrites (he : HostEntity.t) : nat :=
  ((if negb (isEmpty (HostEntity.EthIfName he)) then 1 else 0)
   + (if negb (isEmpty (HostEntity.LoopbackIpv4 he))
         || negb (isEmpty (HostEntity.LoopbackIpv6 he)) then 1 else 0))%nat.

Lemma createEthernet_accepted k a b c d mtu rx n fs s :
  rejectsAfter (S n) fs s →
  runsTo (createEthernet k a b c d mtu rx) (λ _, rejectsAfter n fs) s.
Proof.
  intros [Hrip Hf]. unfold runsTo, createEthernet, txnPut, storePut. cbv zeta.
  rewrite bind_unfold. unfold gets. rewrite Hrip, Hf. cbn.
  eexists _, _. split; [done |]. by split.
Qed.

Lemma createLoopback_accepted k a b c d mtu rx n fs s :
  rejectsAfter (S n) fs s →
  runsTo (createLoopback k a b c d mtu rx) (λ _, rejectsAfter n fs) s.
Proof.
  intros [Hrip Hf]. unfold runsTo, createLoopback, txnPut, storePut. cbv zeta.
  rewrite bind_unfold. unfold gets. rewrite Hrip, Hf. cbn.
  eexists _, _. split; [done |]. by split.
Qed.

Lemma getMtu_runs mtu (P : Z → Driver.t → Prop) s :
  (∀ v, P v s) → runsTo (getMtu mtu) P s.
Proof.
  intros HP. unfold getMtu. destruct (mtu =? 0); [by apply runsTo_gets | by apply runsTo_ret].
Qed.

Lemma nextMacInstanceID_runs n fs s :
  rejectsAfter n fs s → runsTo nextMacInstanceID (λ _, rejectsAfter n fs) s.
Proof. intros H. unfold runsTo, nextMacInstanceID. eexists _, _. by split. Qed.

Lemma bridgedDomainCreateWithIfs_logged_rejected k n ifs p fs s :
  rejectsAfter 0 fs s → panics (bridgedDomainCreateWithIfs_logged k n ifs p) s.
Proof.
  intros [Hrip Hf]. unfold panics, bridgedDomainCreateWithIfs_logged,
    bridgedDomainCreateWithIfs, newBD, txnPut, storePut.
  destruct p as [parms |]; runM; [| by eexists].
  unfold_setters. cbn. rewrite Hrip. cbn. rewrite Hf. cbn. by eexists.
Qed.

Lemma bridgedDomainCreateWithIfs_logged_accepted k n ifs p j fs s :
  rejectsAfter (S j) fs s →
  panics (bridgedDomainCreateWithIfs_logged k n ifs p) s
  ∨ runsTo (bridgedDomainCreateWithIfs_logged k n ifs p) (λ _, rejectsAfter j fs) s.
Proof.
  intros [Hrip Hf]. unfold panics, runsTo, bridgedDomainCreateWithIfs_logged,
    bridgedDomainCreateWithIfs, newBD, txnPut, storePut.
  destruct p as [parms |]; runM; [| left; by eexists].
  unfold_setters. cbn. rewrite Hrip. cbn. rewrite Hf. cbn. right. eexists _, _. split; [done |]. by split.
Qed.

(** X10. The error of a rejected bridge-domain write is not returned: when
    the store, not reconciling, accepts the writes of the interfaces of a new
    host and rejects the write of its first or of its second bridge domain,
    WireInternalsForHostEntity panics, on the name of the nil bridge domain
    that it logs. *)
Theorem WireInternalsForHostEntity_rejected_bridge_write_panics (he : HostEntity.t)
  (s : Driver.t) (j : nat) (fs : list bool) :
  l2CNPStateCacheType.HE (Driver.l2CNPStateCache s) !! HostEntity.Name he = None →
  Driver.reconcileInProgress s = false →
  (j ≤ 1)%nat →
  KVStore.faults (Driver.db s) = replicate (hostInterfaceWrites he + j) false ++ true :: fs →
  ∃ s', WireInternalsForHostEntity he s = Panic s'.
Proof.
  intros Hnew Hrip Hj Hf.
  assert (Hready : rejectsAfter (hostInterfaceWrites he + j) fs s) by done.
  clear Hrip Hf. change (panics (WireInternalsForHostEntity he) s).
  remember (hostInterfaceWrites he + j)%nat as N eqn:HN.
  unfold WireInternalsForHostEntity. cbv zeta.
  apply (panics_bind_runs _ _ (λ _ s1, s1 = Driver.set_l2CNPEntityCache
           (l2CNPEntityCacheType.set_HEs <[HostEntity.Name he := he]>) s));
    [by apply runsTo_modify |].
  intros _ s1 ->.
  apply (panics_bind_runs _ _ (λ a s1, a = None ∧ rejectsAfter N fs s1));
    [by apply runsTo_gets |].
  intros st s1 [-> H1].
  apply (panics_bind_runs _ _ (λ _, rejectsAfter N fs)); [by apply runsTo_modify |].
  clear s s1 Hnew H1 Hready. intros _ s H.
  apply (panics_bind_runs _ _ (λ _, rejectsAfter N fs)); [by apply getMtu_runs |].
  clear s H. intros mtu s H. subst N. unfold hostInterfaceWrites in H.
  set (lb := negb (isEmpty (HostEntity.LoopbackIpv4 he))
             || negb (isEmpty (HostEntity.LoopbackIpv6 he))) in *.
  apply (panics_bind_runs _ _ (λ _, rejectsAfter ((if lb then 1 else 0) + j) fs)).
  { destruct (negb (isEmpty (HostEntity.EthIfName he)));
      [by apply createEthernet_accepted | by apply runsTo_ret]. }
  clear s H. intros _ s H.
  apply (panics_bind_runs _ _ (λ _, rejectsAfter j fs)).
  { destruct lb; [| by apply runsTo_ret].
    apply (runsTo_bind _ _ (λ _, rejectsAfter (S j) fs)).
    - destruct (isEmpty (HostEntity.LoopbackMacAddr he)); [| by apply runsTo_ret].
      apply (runsTo_bind _ _ (λ _, rejectsAfter (S j) fs));
        [unfold DatastoreHEIDsRetrieve; by apply runsTo_gets |].
      intros [ids |] s1 H1.
      + destruct (HEIDs.LoopbackMacAddrId ids =? 0); [| by apply runsTo_ret].
        apply (runsTo_bind _ _ (λ _, rejectsAfter (S j) fs));
          [by apply nextMacInstanceID_runs |].
        intros id s2 H2. by apply runsTo_ret.
      + apply (runsTo_bind _ _ (λ _, rejectsAfter (S j) fs));
          [by apply nextMacInstanceID_runs |].
        intros id s2 H2. by apply runsTo_ret.
    - intros [mac id] s1 H1.
      apply (runsTo_bind _ _ (λ _, rejectsAfter (S j) fs)); [by apply getMtu_runs |].
      intros mtu' s2 H2.
      apply (runsTo_bind _ _ (λ _, rejectsAfter j fs));
        [by apply createLoopback_accepted |].
      intros _ s3 H3. by apply runsTo_ret. }
  clear s H. intros macID s H.
  apply (panics_bind_runs _ _ (λ _, rejectsAfter j fs));
    [unfold getSysParms; by apply runsTo_gets |].
  clear s H. intros sp s H.
  destruct j as [| [| j]]; [| | lia].
  - by apply panics_bind, (bridgedDomainCreateWithIfs_logged_rejected _ _ _ _ fs).
  - destruct (bridgedDomainCreateWithIfs_logged_accepted (HostEntity.Name he)
                ("BD_INTERNAL_EW_" +:+ HostEntity.Name he) []
                (SystemParameters.DynamicBridgeParms sp) 0 fs s H) as [Hp | Hr];
      [by apply panics_bind |].
    apply (panics_bind_runs _ _ _ _ Hr). clear s H Hr. intros bd s H.
    apply (panics_bind_runs _ _ (λ _, rejectsAfter 0 fs));
      [unfold updateHEState; by apply runsTo_modify |].
    clear s H. intros _ s H.
    apply (panics_bind_runs _ _ (λ _, rejectsAfter 0 fs));
      [unfold getSysParms; by apply runsTo_gets |].
    clear s H. intros sp' s H.
    by apply panics_bind, (bridgedDomainCreateWithIfs_logged_rejected _ _ _ _ fs).
Qed.

Lemma WireInternalsForHostEntity_panics_witness :
  ∃ s', WireInternalsForHostEntity host1
          (stateAfter [CallSetSystemParameters defaultSysParms]
             (NewSfcCtlrL2CNPDriver (KVStore.set_faults [false; false; true] KVStore.empty) []))
        = Panic s'.
Proof.
  apply (WireInternalsForHostEntity_rejected_bridge_write_panics host1 _ 1 []);
    [reflexivity | reflexivity | lia | reflexivity].
Defined.

(** ** North-south chains on a physical NIC *)

Definition nsNicSfcType (t : SfcType) : bool :=
  match t with
  | SFC_NS_NIC_BD | SFC_NS_NIC_VRF | SFC_NS_NIC_L2XCONN => true
  | _ => false
  end.

Lemma nsNicScan_spec sfc els c he s :
  0 <= c <= 1 →
  (1 < c + countType HOST_ENTITY els →
   nsNicScan sfc els c he s = Err (ErrNSNicOnlyOneHE (SfcEntity.Name sfc)) s)
  ∧ (c + countType HOST_ENTITY els <= 1 →
     ∃ he', nsNicScan sfc els c he s = Ok (c + countType HOST_ENTITY els, he') s
            ∧ (countType HOST_ENTITY els = 0 → he' = he)
            ∧ (countType HOST_ENTITY els = 1 →
               ∃ h, he' = Some h ∧ h ∈ els ∧ SfcElement.Type_ h = HOST_ENTITY)).
Proof.
  revert c he. induction els as [| e els IH]; intros c he Hc.
  - unfold countType. cbn. split; [lia |]. intros _. exists he.
    rewrite Z.add_0_r. split; [done |]. split; [done | lia].
  - rewrite countType_cons. pose proof (countType_nonneg HOST_ENTITY els) as Hn.
    cbn [nsNicScan]. destruct (decide (SfcElement.Type_ e = HOST_ENTITY)) as [Ht | Ht].
    + rewrite Ht. cbv zeta. destruct (1 <? c + 1) eqn:Hlt.
      * apply Z.ltb_lt in Hlt. split; [done | lia].
      * apply Z.ltb_ge in Hlt.
        destruct (IH (c + 1) (Some e)) as [Hbad Hok]; [lia |].
        split; [intros H; apply Hbad; lia |].
        intros H. destruct Hok as (he' & Hrun & H0 & H1); [lia |].
        exists he'. rewrite Hrun. split; [f_equal; f_equal; lia |].
        split; [lia |]. intros _. exists e.
        split; [apply H0; lia |]. split; [by left | done].
    + destruct (IH c he Hc) as [Hbad Hok]. rewrite Z.add_0_l.
      assert (Hgoal :
        (1 < c + countType HOST_ENTITY els →
         nsNicScan sfc els c he s = Err (ErrNSNicOnlyOneHE (SfcEntity.Name sfc)) s)
        ∧ (c + countType HOST_ENTITY els <= 1 →
           ∃ he', nsNicScan sfc els c he s = Ok (c + countType HOST_ENTITY els, he') s
                  ∧ (countType HOST_ENTITY els = 0 → he' = he)
                  ∧ (countType HOST_ENTITY els = 1 →
                     ∃ h, he' = Some h ∧ h ∈ e :: els
                          ∧ SfcElement.Type_ h = HOST_ENTITY))).
      { split; [done |]. intros H. destruct (Hok H) as (he' & Hrun & H0 & H1).
        exists he'. split; [done |]. split; [done |].
        intros H1'. destruct (H1 H1') as (h & -> & Hin & Hth).
        exists h. split; [done |]. split; [by right | done]. }
      by destruct (SfcElement.Type_ e).
Qed.

(** X11. A north-south chain on a physical NIC (SFC_NS_NIC_BD, SFC_NS_NIC_VRF
    or SFC_NS_NIC_L2XCONN) must have exactly one HOST_ENTITY element: with
    none, or with more than one, WireSfcEntity returns the matching error with
    the chain cached and nothing else changed. With exactly one, that element
    is taken as the NIC without a look at the cache of hosts, and the first
    effect is the write of its ethernet interface: if the store rejects it,
    the store's error is returned. *)
Theorem ns_nic_chain_validation (sfc : SfcEntity.t) (s : Driver.t) :
  nsNicSfcType (SfcEntity.Type_ sfc) = true →
  let hosts := countType HOST_ENTITY (SfcEntity.Elements sfc) in
  (hosts = 0 →
   WireSfcEntity sfc s = Err (ErrNSNicNoHE (SfcEntity.Name sfc)) (cacheSfc sfc s))
  ∧ (1 < hosts →
     WireSfcEntity sfc s = Err (ErrNSNicOnlyOneHE (SfcEntity.Name sfc)) (cacheSfc sfc s))
  ∧ (hosts = 1 →
     ∃ he, he ∈ SfcEntity.Elements sfc ∧ SfcElement.Type_ he = HOST_ENTITY
       ∧ nsNicScan sfc (SfcEntity.Elements sfc) 0 None (cacheSfc sfc s)
         = Ok (1, Some he) (cacheSfc sfc s)
       ∧ ∀ fs, Driver.reconcileInProgress s = false →
           KVStore.faults (Driver.db s) = true :: fs →
           WireSfcEntity sfc s
           = Err ErrStore (Driver.set_db (KVStore.set_faults fs) (cacheSfc sfc s))).
Proof.
  intros Ht hosts.
  assert (Hrun : WireSfcEntity sfc s = wireSfcNorthSouthNICElements sfc (cacheSfc sfc s)).
  { unfold WireSfcEntity. destruct (SfcEntity.Type_ sfc); try done;
      by rewrite bind_unfold. }
  rewrite Hrun. unfold wireSfcNorthSouthNICElements. rewrite bind_unfold.
  destruct (nsNicScan_spec sfc (SfcEntity.Elements sfc) 0 None (cacheSfc sfc s))
    as [Hbad Hok]; [lia |].
  rewrite Z.add_0_l in Hbad, Hok. fold hosts in Hbad, Hok.
  split; [| split].
  - intros H0. destruct Hok as (he' & -> & _ & _); [lia |].
    cbn beta iota. fold hosts. by rewrite H0.
  - intros H1. by rewrite Hbad.
  - intros H1. destruct Hok as (he' & Hscan & _ & Hone); [lia |].
    destruct (Hone H1) as (h & -> & Hin & Hth).
    rewrite H1 in Hscan.
    exists h. split; [done |]. split; [done |]. split; [done |].
    intros fs Hrip Hf. rewrite Hscan. cbn beta iota.
    change (1 =? 0) with false. cbn iota.
    rewrite bind_unfold. unfold deref at 1. cbn.
    rewrite bind_unfold.
    assert (Hmtu : ∃ mtu, getMtu (SfcElement.Mtu h) (cacheSfc sfc s)
                          = Ok mtu (cacheSfc sfc s)).
    { unfold getMtu. destruct (SfcElement.Mtu h =? 0); by eexists. }
    destruct Hmtu as [mtu ->]. rewrite bind_unfold.
    unfold createEthernet at 1. cbv zeta. rewrite bind_unfold. unfold gets at 1.
    change (Driver.reconcileInProgress (cacheSfc sfc s))
      with (Driver.reconcileInProgress s).
    rewrite Hrip. unfold txnPut, storePut.
    change (Driver.db (cacheSfc sfc s)) with (Driver.db s). by rewrite Hf.
Qed.

(** A chain on a NIC, of containers only. *)
Definition nsNicChainWithoutHost : SfcEntity.t :=
  SfcEntity.mk "sfc-nic" "" SFC_NS_NIC_BD "" 0 None
    [memifElement "c1" "p1" "h1"; memifElement "c2" "p1" "h1"].

Lemma ns_nic_chain_witness :
  WireSfcEntity nsNicChainWithoutHost newDriver
  = Err (ErrNSNicNoHE "sfc-nic") (cacheSfc nsNicChainWithoutHost newDriver).
Proof.
  apply (ns_nic_chain_validation nsNicChainWithoutHost newDriver); reflexivity.
Defined.

(** ** East-west chains *)

Definition ewSfcType (t : SfcType) : bool :=
  match t with
  | SFC_EW_MEMIF | SFC_EW_BD | SFC_EW_BD_L2FIB | SFC_EW_L2XCONN => true
  | _ => false
  end.

Lemma ewWireLoop_external_entity sfc els i prev s :
  (∃ e, e ∈ els ∧ SfcElement.Type_ e = EXTERNAL_ENTITY) →
  ∀ a s', ewWireLoop sfc els i prev s ≠ Ok a s'.
Proof.
  revert i prev s. induction els as [| e els IH]; intros i prev s (x & Hin & Hx) a s'.
  - by apply elem_of_nil in Hin.
  - cbn [ewWireLoop]. rewrite bind_unfold.
    apply elem_of_cons in Hin as [<- | Hin].
    + unfold ewWireElement. by rewrite Hx.
    + destruct (ewWireElement sfc i e prev s) as [p s1 | | |]; try done.
      apply IH. by exists x.
Qed.

(** X12. An east-west chain with an EXTERNAL_ENTITY element is never wired
    with success, whatever the state: WireSfcEntity does not return without
    error. The chain is not checked before the wiring starts: the error is
    raised when the loop reaches the element, so a chain that starts with it
    is rejected with only the chain cached, and the elements in front of an
    external entity further on are wired first. *)
Theorem ew_chain_rejects_external_entity (sfc : SfcEntity.t) (s : Driver.t) :
  ewSfcType (SfcEntity.Type_ sfc) = true →
  (∃ e, e ∈ SfcEntity.Elements sfc ∧ SfcElement.Type_ e = EXTERNAL_ENTITY) →
  (∀ a s', WireSfcEntity sfc s ≠ Ok a s')
  ∧ (∀ e els, SfcEntity.Elements sfc = e :: els →
       SfcElement.Type_ e = EXTERNAL_ENTITY →
       ∃ err, WireSfcEntity sfc s = Err err (cacheSfc sfc s)).
Proof.
  intros Ht Hee.
  assert (Hrun : WireSfcEntity sfc s = wireSfcEastWestElements sfc (cacheSfc sfc s)).
  { unfold WireSfcEntity. destruct (SfcEntity.Type_ sfc); try done;
      by rewrite bind_unfold. }
  rewrite Hrun. unfold wireSfcEastWestElements. split.
  - intros a s'. destruct (_ && _); [done |]. by apply ewWireLoop_external_entity.
  - intros e els Hels He. destruct (_ && _); [by eexists |].
    rewrite Hels. cbn [ewWireLoop]. rewrite bind_unfold.
    unfold ewWireElement. rewrite He. by eexists.
Qed.

(** An east-west bridge chain of a container followed by an external entity. *)
Definition ewChainWithRouter : SfcEntity.t :=
  SfcEntity.mk "sfc-ew" "" SFC_EW_BD "" 0 None
    [memifElement "c1" "p1" "h1"; eeElement "ee1"].

Lemma ew_chain_external_entity_witness :
  let s := stateAfter [CallSetSystemParameters defaultSysParms;
                       CallWireInternalsForHostEntity host1] newDriver in
  let s' := stateAfter [CallWireSfcEntity ewChainWithRouter] s in
  WireSfcEntity ewChainWithRouter s = Err (ErrEWExternalEntity "sfc-ew") s'
  ∧ (∀ a s1, WireSfcEntity ewChainWithRouter s ≠ Ok a s1)
  ∧ length (KVStore.puts (Driver.db s)) = 3%nat
  ∧ length (KVStore.puts (Driver.db s')) = 6%nat.
Proof.
  intros s s'. split; [by vm_compute |].
  split; [| split; by vm_compute].
  apply (ew_chain_rejects_external_entity ewChainWithRouter s); [reflexivity |].
  exists (eeElement "ee1"). split; [| reflexivity].
  apply elem_of_cons. right. apply elem_of_cons. by left.
Defined.

(** ** Memif pairs between containers *)

(** [twp m Q s]: run from [s], [m] ends, and if it returns, with a value and
    a state in [Q]. *)
Definition twp {A} (m : M A) (Q : A → Driver.t → Prop) (s : Driver.t) : Prop :=
  match m s with
  | Ok a s' => Q a s'
  | Err _ _ | Panic _ => True
  | Diverge => False
  end.

Lemma twp_bind {A B} (m : M A) (k : A → M B) Q s :
  twp m (λ a s1, twp (k a) Q s1) s → twp (m ≫= k) Q s.
Proof. unfold twp. rewrite bind_unfold. by destruct (m s). Qed.

Lemma twp_mono {A} (m : M A) (Q Q' : A → Driver.t → Prop) s :
  (∀ a s', Q a s' → Q' a s') → twp m Q s → twp m Q' s.
Proof. intros HQ. unfold twp. destruct (m s); auto. Qed.

Lemma twp_ret {A} (a : A) (Q : A → Driver.t → Prop) s : Q a s → twp (mret a) Q s.
Proof. done. Qed.
Lemma twp_gets {A} (f : Driver.t → A) (Q : A → Driver.t → Prop) s :
  Q (f s) s → twp (gets f) Q s.
Proof. done. Qed.

(** The resource writes that reached the store (the puts of ID bindings are
    not among them). *)
Definition putsCount (s : Driver.t) : Z := Z.of_nat (length (KVStore.puts (Driver.db s))).

(** The resource writes [l], and no others, have reached the store if the
    engine is not reconciling, which it is or is not as before. *)
Definition wrote (l : list StoreWrite) (s s' : Driver.t) : Prop :=
  Driver.reconcileInProgress s' = Driver.reconcileInProgress s
  ∧ (Driver.reconcileInProgress s = false →
     KVStore.puts (Driver.db s') = KVStore.puts (Driver.db s) ++ l).

Lemma wrote_refl s : wrote [] s s.
Proof. split; [done | by rewrite app_nil_r]. Qed.

Lemma wrote_trans l m s1 s2 s3 : wrote l s1 s2 → wrote m s2 s3 → wrote (l ++ m) s1 s3.
Proof.
  intros [H1 H2] [G1 G2]. split; [by rewrite G1 |].
  intros H. rewrite G2, H2 by congruence. by rewrite app_assoc.
Qed.

(** One end of a memif pair between containers: the interface [name] with
    the memif ID [id], master or slave on the socket of [masterContainer]. *)
Definition memifEnd (name : string) (id : Z) (isMaster : bool) (masterContainer : string)
  (mtu : Z) (rxMode : RxModeType) : Interface.t :=
  Interface.mk name MEMORY_INTERFACE true "" mtu [] None
    (Some (Memif.mk id isMaster ("/tmp/memif_" +:+ masterContainer +:+ ".sock")))
    None (rxModeControllerToInterface rxMode).

Section pairs.
Context (sfcName : string) (vnfElement1 vnfElement2 : SfcElement.t)
  (vnfRepeatCount mtu : Z) (rxMode : RxModeType).

(** The containers of the link [k] of the chain of pairs from [vnfElement1]
    to [vnfElement2]: the first link starts at the container of
    [vnfElement1], the last one ends at the container of [vnfElement2], and
    the link [k] ends, and the link [k + 1] starts, at "vnfx-k". *)
Definition linkFrom (k : Z) : string :=
  if k =? 0 then SfcElement.Container vnfElement1 else "vnfx-" +:+ Itoa (k - 1).
Definition linkTo (k : Z) : string :=
  if k =? vnfRepeatCount then SfcElement.Container vnfElement2 else "vnfx-" +:+ Itoa k.

(** The two writes of the link [k] with the memif ID [id]: the master end in
    the first container, then the slave end in the second one, on the socket
    of the first. *)
Definition linkWrites (k id : Z) : list StoreWrite :=
  [TxnPut (linkFrom k)
     (RInterface (memifEnd (SfcElement.PortLabel vnfElement1) id true (linkFrom k)
                    mtu rxMode));
   TxnPut (linkTo k)
     (RInterface (memifEnd (SfcElement.PortLabel vnfElement2) id false (linkFrom k)
                    mtu rxMode))].

(** The writes of the links [k], [k + 1], ... with the memif IDs [ids]. *)
Fixpoint linksWrites (k : Z) (ids : list Z) : list StoreWrite :=
  match ids with
  | [] => []
  | id :: rest => linkWrites k id ++ linksWrites (k + 1) rest
  end.

Lemma linksWrites_length k ids : length (linksWrites k ids) = (2 * length ids)%nat.
Proof.
  revert k. induction ids as [| id ids IH]; intros k; [done |].
  cbn [linksWrites]. rewrite length_app, IH. cbn. lia.
Qed.

Lemma memIfCreate_wrote k n id master mc s :
  twp (memIfCreate k n id master mc "" "" "" mtu rxMode)
      (λ _, wrote [TxnPut k (RInterface (memifEnd n id master mc mtu rxMode))] s) s.
Proof.
  unfold twp, memIfCreate, reconcileInterface, txnPut, storePut. cbv zeta. runM.
  destruct (Driver.reconcileInProgress s) eqn:Hrip.
  - cbn. split; [done | congruence].
  - destruct (KVStore.faults (Driver.db s)) as [| [] fs]; cbn; try done;
      (split; [done |]); intros _; reflexivity.
Qed.

Lemma nextMemIfID_wrote s : twp nextMemIfID (λ _, wrote [] s) s.
Proof. unfold twp, nextMemIfID. cbn. split; [done |]. by rewrite app_nil_r. Qed.

Lemma recordedSFCIDs_wrote a b c v1 v2 v3 v4 s :
  twp (r ← attempt (DatastoreSFCIDsCreate a b c v1 v2 v3 v4); recordSfcIDs r)
      (λ _, wrote [] s) s.
Proof.
  unfold twp, DatastoreSFCIDsCreate, bindingPut, recordSfcIDs. runM.
  destruct (KVStore.faults (Driver.db s)) as [| [] fs]; cbn;
    destruct (Driver.reconcileInProgress s) eqn:Hrip; cbn;
    (split; [done |]); intros; cbn; try congruence; by rewrite app_nil_r.
Qed.

Lemma interContainerMemIfPairsLoop_wrote fuel repeatCount s :
  0 <= repeatCount <= vnfRepeatCount + 1 →
  vnfRepeatCount < 2 ^ 32 - 1 →
  (Z.to_nat (vnfRepeatCount + 1 - repeatCount) < fuel)%nat →
  twp (interContainerMemIfPairsLoop fuel sfcName vnfElement1 vnfElement2
         vnfRepeatCount mtu rxMode repeatCount)
      (λ _ s', ∃ ids, length ids = Z.to_nat (vnfRepeatCount + 1 - repeatCount)
                      ∧ wrote (linksWrites repeatCount ids) s s') s.
Proof.
  revert repeatCount s. induction fuel as [| fuel IH]; intros c s Hc HR Hfuel; [lia |].
  cbn [interContainerMemIfPairsLoop].
  destruct (c <=? vnfRepeatCount) eqn:Hle.
  - apply Z.leb_le in Hle. cbv zeta.
    assert (Hfrom : (if c =? 0 then SfcElement.Container vnfElement1
                     else "vnfx-" +:+ Itoa (u32 (c - 1))) = linkFrom c).
    { unfold linkFrom. destruct (c =? 0) eqn:Hc0; [done |].
      apply Z.eqb_neq in Hc0. unfold u32. rewrite Z.mod_small by lia. done. }
    rewrite Hfrom. fold (linkTo c).
    apply twp_bind. unfold DatastoreSFCIDsRetrieve. apply twp_gets.
    apply twp_bind.
    apply (twp_mono _ (λ _, wrote [] s)).
    2: { destruct (_ !! _) as [ids |]; [destruct (SFCIDs.MemifId ids =? 0) |];
           first [apply nextMemIfID_wrote | apply twp_ret, wrote_refl]. }
    intros memifID s1 H1.
    apply twp_bind. unfold createInterContainerMemIfPair.
    apply twp_bind. eapply twp_mono; [| apply memIfCreate_wrote].
    intros if1 s2 H2. apply twp_bind. eapply twp_mono; [| apply memIfCreate_wrote].
    intros if2 s3 H3. apply twp_ret.
    apply twp_bind.
    assert (Hrec := recordedSFCIDs_wrote sfcName (linkFrom c)
      (SfcElement.PortLabel vnfElement1) 0 0 memifID 0 s3).
    unfold twp in Hrec. rewrite bind_unfold in Hrec.
    unfold twp at 1.
    destruct (attempt _ s3) as [r s4 | | |]; try done.
    apply twp_bind. unfold twp at 1. destruct (recordSfcIDs r s4) as [[] s5 | | |]; try done.
    assert (Hu : u32 (c + 1) = c + 1) by (unfold u32; apply Z.mod_small; lia).
    rewrite Hu. eapply twp_mono; [| apply IH; lia].
    intros u6 s6 (ids & Hlen & H6). cbn beta.
    exists (memifID :: ids). split.
    { cbn [length]. rewrite Hlen. lia. }
    pose proof (wrote_trans _ _ _ _ _ (wrote_trans _ _ _ _ _ (wrote_trans _ _ _ _ _
      (wrote_trans _ _ _ _ _ H1 H2) H3) Hrec) H6) as H.
    cbn [linksWrites]. unfold linkWrites.
    by rewrite app_nil_l, app_nil_r in H.
  - apply Z.leb_gt in Hle. unfold twp. cbn.
    exists []. split; [cbn; lia | apply wrote_refl].
Qed.

Lemma interContainerMemIfPairsLoop_wraps fuel repeatCount s :
  vnfRepeatCount = 2 ^ 32 - 1 →
  0 <= repeatCount < 2 ^ 32 →
  ∀ a s', interContainerMemIfPairsLoop fuel sfcName vnfElement1 vnfElement2
            vnfRepeatCount mtu rxMode repeatCount s ≠ Ok a s'.
Proof.
  intros HR. revert repeatCount s.
  induction fuel as [| fuel IH]; intros c s Hc a s'; [done |].
  cbn [interContainerMemIfPairsLoop].
  assert (Hle : (c <=? vnfRepeatCount) = true) by (apply Z.leb_le; lia).
  rewrite Hle. cbv zeta.
  repeat (rewrite bind_unfold;
          match goal with |- context [match ?x with Ok _ _ => _ | _ => _ end] =>
            destruct x as [? ? | | |]; try done end).
  apply IH. unfold u32. apply Z.mod_pos_bound. lia.
Qed.

End pairs.

(** The MTU that getMtu takes for an element: its own, or the system default
    when it has none. *)
Definition mtuOf (s : Driver.t) (e : SfcElement.t) : Z :=
  if SfcElement.Mtu e =? 0
  then SystemParameters.Mtu (l2CNPEntityCacheType.SysParms (Driver.l2CNPEntityCache s))
  else SfcElement.Mtu e.

(** X13. Between two containers of an east-west memif chain,
    createOneOrMoreInterContainerMemIfPairs with a repeat count R below
    2^32 - 1 always ends, and when it returns without error while the engine
    is not reconciling, the resource writes it has sent to the store are, in
    order, those of the links 0 to R and no others: for the link k the
    master end of a memif pair in the first container of the link, on the
    port of the first element, then its slave end in the second container,
    on the port of the second element, both with the same memif ID and on
    the socket of the first container; the first link starts at the container
    of the first element, the last one ends at the container of the second,
    and the link k ends, and the next one starts, at "vnfx-k". These are
    2 * (R + 1) writes (the puts of ID bindings apart). With R = 2^32 - 1 the
    counter of the loop wraps before it can pass R: the function never returns
    without error. *)
Theorem createOneOrMoreInterContainerMemIfPairs_pairs (sfcName : string)
  (vnfElement1 vnfElement2 : SfcElement.t) (vnfRepeatCount : Z) (s : Driver.t) :
  (0 <= vnfRepeatCount < 2 ^ 32 - 1 →
   createOneOrMoreInterContainerMemIfPairs sfcName vnfElement1 vnfElement2
     vnfRepeatCount s ≠ Diverge
   ∧ ∀ s', createOneOrMoreInterContainerMemIfPairs sfcName vnfElement1 vnfElement2
             vnfRepeatCount s = Ok tt s' →
           Driver.reconcileInProgress s = false →
           (∃ ids, length ids = Z.to_nat (vnfRepeatCount + 1)
                   ∧ KVStore.puts (Driver.db s')
                     = KVStore.puts (Driver.db s)
                       ++ linksWrites vnfElement1 vnfElement2 vnfRepeatCount
                            (mtuOf s vnfElement1) (SfcElement.RxMode vnfElement1) 0 ids)
           ∧ putsCount s' = putsCount s + 2 * (vnfRepeatCount + 1))
  ∧ (vnfRepeatCount = 2 ^ 32 - 1 →
     ∀ s', createOneOrMoreInterContainerMemIfPairs sfcName vnfElement1 vnfElement2
             vnfRepeatCount s ≠ Ok tt s').
Proof.
  unfold createOneOrMoreInterContainerMemIfPairs. rewrite bind_unfold.
  assert (Hmtu : getMtu (SfcElement.Mtu vnfElement1) s = Ok (mtuOf s vnfElement1) s).
  { unfold getMtu, mtuOf. by destruct (_ =? 0). }
  rewrite Hmtu. split.
  - intros HR.
    pose proof (interContainerMemIfPairsLoop_wrote sfcName vnfElement1 vnfElement2
                  vnfRepeatCount (mtuOf s vnfElement1) (SfcElement.RxMode vnfElement1)
                  (Z.to_nat vnfRepeatCount + 2) 0 s) as H.
    unfold twp in H. rewrite Z.sub_0_r in H.
    destruct (interContainerMemIfPairsLoop _ _ _ _ _ _ _ _ s) as [[] s1 | | |].
    + split; [done |]. intros s' [= <-] Hrip.
      destruct H as (ids & Hlen & _ & Hputs); [lia | lia | lia |].
      specialize (Hputs Hrip). split; [by exists ids |].
      unfold putsCount. rewrite Hputs, length_app, linksWrites_length, Hlen. lia.
    + done.
    + done.
    + exfalso. apply H; lia.
  - intros HR s'. apply interContainerMemIfPairsLoop_wraps; [done | lia].
Qed.

Lemma createOneOrMoreInterContainerMemIfPairs_witness :
  let s := stateAfter [CallSetSystemParameters defaultSysParms] newDriver in
  let e1 := memifElement "c1" "p1" "h1" in
  let e2 := memifElement "c2" "p2" "h1" in
  ∃ s', createOneOrMoreInterContainerMemIfPairs "sfc-memif" e1 e2 1 s = Ok tt s'
        ∧ (∃ ids, length ids = 2%nat
                  ∧ KVStore.puts (Driver.db s')
                    = linksWrites e1 e2 1 1500 RX_MODE_UNKNOWN 0 ids)
        ∧ KVStore.puts (Driver.db s')
          = [TxnPut "c1" (RInterface (memifEnd "p1" 1 true "c1" 1500 RX_MODE_UNKNOWN));
             TxnPut "vnfx-0" (RInterface (memifEnd "p2" 1 false "c1" 1500 RX_MODE_UNKNOWN));
             TxnPut "vnfx-0" (RInterface (memifEnd "p1" 2 true "vnfx-0" 1500 RX_MODE_UNKNOWN));
             TxnPut "c2" (RInterface (memifEnd "p2" 2 false "vnfx-0" 1500 RX_MODE_UNKNOWN))]
        ∧ putsCount s' = 4.
Proof.
  intros s e1 e2. eexists. split; [by vm_compute |].
  destruct (proj2 (proj1 (createOneOrMoreInterContainerMemIfPairs_pairs "sfc-memif"
           e1 e2 1 s) ltac:(lia)) _ ltac:(by vm_compute) eq_refl) as [Hw Hn].
  split; [exact Hw |]. split; [by vm_compute | exact Hn].
Defined.

(** ** Edges between hosts *)

(** A field that is set stays as it is. *)
Definition fieldKept {A} (x x' : option A) : Prop := ∀ a, x = Some a → x' = Some a.

Definition h2hForward (st st' : heToHEStateType.t) : Prop :=
  fieldKept (heToHEStateType.vlanIf st) (heToHEStateType.vlanIf st')
  ∧ fieldKept (heToHEStateType.bd st) (heToHEStateType.bd st')
  ∧ fieldKept (heToHEStateType.l3Route st) (heToHEStateType.l3Route st').

(** Every edge between hosts is still recorded, with the tunnel, the bridge
    domain and the route it had. *)
Definition h2hEdgesForward : relation Driver.t := λ s s',
  ∀ sh dh st, heToHE s sh dh = Some st →
    ∃ st', heToHE s' sh dh = Some st' ∧ h2hForward st st'.

(** The edges between hosts are the same. *)
Definition sameH2H : relation Driver.t := λ s s',
  l2CNPStateCacheType.HEToHEs (Driver.l2CNPStateCache s')
  = l2CNPStateCacheType.HEToHEs (Driver.l2CNPStateCache s).

Lemma h2hForward_refl st : h2hForward st st.
Proof. unfold h2hForward, fieldKept. auto. Qed.

Lemma h2hForward_trans a b c : h2hForward a b → h2hForward b c → h2hForward a c.
Proof.
  intros (H1 & H2 & H3) (G1 & G2 & G3). unfold h2hForward, fieldKept in *.
  repeat split; auto.
Qed.

#[global] Instance h2hEdgesForward_preorder : PreOrder h2hEdgesForward.
Proof.
  split.
  - intros s sh dh st Hst. exists st. split; [done | apply h2hForward_refl].
  - intros s1 s2 s3 H12 H23 sh dh st Hst.
    destruct (H12 _ _ _ Hst) as (st2 & Hst2 & Hf2).
    destruct (H23 _ _ _ Hst2) as (st3 & Hst3 & Hf3).
    exists st3. split; [done | by eapply h2hForward_trans].
Qed.

#[global] Instance sameH2H_preorder : PreOrder sameH2H.
Proof.
  split; [by intros s |]. intros s1 s2 s3 H1 H2. unfold sameH2H in *. by rewrite H2.
Qed.

Lemma sameH2H_forward s s' : sameH2H s s' → h2hEdgesForward s s'.
Proof.
  intros H sh dh st Hst. exists st. split; [| apply h2hForward_refl].
  unfold heToHE in *. by rewrite H.
Qed.

#[global] Instance sameH2H_db : FrameDb sameH2H.
Proof. by intros f s _. Qed.
#[global] Instance sameH2H_EEs : FrameEEs sameH2H.
Proof. by intros f s. Qed.
#[global] Instance sameH2H_HEs : FrameHEs sameH2H.
Proof. by intros f s. Qed.
#[global] Instance sameH2H_SFCs : FrameSFCs sameH2H.
Proof. by intros f s. Qed.
#[global] Instance sameH2H_SysParms : FrameSysParms sameH2H.
Proof. by intros f s. Qed.
#[global] Instance sameH2H_HEToEEs : FrameHEToEEs sameH2H.
Proof. by intros f s. Qed.
#[global] Instance sameH2H_SFCToHEs : FrameSFCToHEs sameH2H.
Proof. by intros f s. Qed.
#[global] Instance sameH2H_HE : FrameHE sameH2H.
Proof. by intros f s. Qed.
#[global] Instance sameH2H_SFCIFAddr : FrameSFCIFAddr sameH2H.
Proof. by intros f s. Qed.
#[global] Instance sameH2H_after : FrameAfter sameH2H.
Proof. by intros f s. Qed.
#[global] Instance sameH2H_seq : FrameSeq sameH2H.
Proof. by intros f s. Qed.
#[global] Instance sameH2H_heap : FrameHeap sameH2H.
Proof. by intros f s. Qed.
#[global] Instance sameH2H_ext : FrameExt sameH2H.
Proof. by intros f s. Qed.
#[global] Instance sameH2H_ipam : FrameIpam sameH2H.
Proof. by intros f s. Qed.

#[global] Instance h2hEdgesForward_db : FrameDb h2hEdgesForward.
Proof. intros f s _. by apply sameH2H_forward. Qed.
#[global] Instance h2hEdgesForward_EEs : FrameEEs h2hEdgesForward.
Proof. intros f s. by apply sameH2H_forward. Qed.
#[global] Instance h2hEdgesForward_HEs : FrameHEs h2hEdgesForward.
Proof. intros f s. by apply sameH2H_forward. Qed.
#[global] Instance h2hEdgesForward_SFCs : FrameSFCs h2hEdgesForward.
Proof. intros f s. by apply sameH2H_forward. Qed.
#[global] Instance h2hEdgesForward_SysParms : FrameSysParms h2hEdgesForward.
Proof. intros f s. by apply sameH2H_forward. Qed.
#[global] Instance h2hEdgesForward_HEToEEs : FrameHEToEEs h2hEdgesForward.
Proof. intros f s. by apply sameH2H_forward. Qed.
#[global] Instance h2hEdgesForward_SFCToHEs : FrameSFCToHEs h2hEdgesForward.
Proof. intros f s. by apply sameH2H_forward. Qed.
#[global] Instance h2hEdgesForward_HE : FrameHE h2hEdgesForward.
Proof. intros f s. by apply sameH2H_forward. Qed.
#[global] Instance h2hEdgesForward_SFCIFAddr : FrameSFCIFAddr h2hEdgesForward.
Proof. intros f s. by apply sameH2H_forward. Qed.
#[global] Instance h2hEdgesForward_after : FrameAfter h2hEdgesForward.
Proof. intros f s. by apply sameH2H_forward. Qed.
#[global] Instance h2hEdgesForward_seq : FrameSeq h2hEdgesForward.
Proof. intros f s. by apply sameH2H_forward. Qed.
#[global] Instance h2hEdgesForward_heap : FrameHeap h2hEdgesForward.
Proof. intros f s. by apply sameH2H_forward. Qed.
#[global] Instance h2hEdgesForward_ext : FrameExt h2hEdgesForward.
Proof. intros f s. by apply sameH2H_forward. Qed.
#[global] Instance h2hEdgesForward_ipam : FrameIpam h2hEdgesForward.
Proof. intros f s. by apply sameH2H_forward. Qed.

Lemma keeps_of_wp (R : relation Driver.t) {A} (m : M A) :
  (∀ s, wp m (λ _, R s) (R s) s) → keeps R m.
Proof.
  intros H s s' Hfin. specialize (H s). unfold wp in H.
  destruct (m s); cbn in Hfin; by simplify_eq.
Qed.

Lemma wp_rel_bind (R : relation Driver.t) {A B} (m : M A) (k : A → M B) Q
  (E : Driver.t → Prop) s :
  keeps R m →
  (∀ s', R s s' → E s') →
  (∀ a s', R s s' → wp (k a) Q E s') →
  wp (m ≫= k) Q E s.
Proof. intros Hm HE Hk. apply wp_bind. by apply (wp_keeps R). Qed.

(** A field of the edge from [a] to [b] is filled in a state whose edges are
    those of [s], where the field is not set. *)
Lemma h2hEdgesForward_fill a b f s s1 st :
  sameH2H s s1 → heToHE s a b = Some st → h2hForward st (f st) →
  h2hEdgesForward s
    (Driver.set_l2CNPStateCache
       (l2CNPStateCacheType.set_HEToHEs (alter (alter f b) a)) s1).
Proof.
  intros Hsame Hst Hf sh dh st0 Hst0. rewrite heToHE_alter.
  assert (Hs1 : heToHE s1 sh dh = heToHE s sh dh) by (unfold heToHE; by rewrite Hsame).
  rewrite Hs1, Hst0. destruct (decide _) as [[-> ->] | _]; cbn.
  - exists (f st0). split; [done |]. rewrite Hst in Hst0. by injection Hst0 as <-.
  - exists st0. split; [done | apply h2hForward_refl].
Qed.

Lemma sameH2H_bridge k n ifs p : keeps sameH2H (bridgedDomainCreateWithIfs_logged k n ifs p).
Proof.
  unfold bridgedDomainCreateWithIfs_logged. keeps_auto.
  apply keeps_bridgedDomainCreateWithIfs_framed; typeclasses eauto.
Qed.

Lemma h2hEnsureVxlan_forward a b v : keeps h2hEdgesForward (h2hEnsureVxlan a b v).
Proof.
  apply keeps_of_wp. intros s. unfold h2hEnsureVxlan.
  eapply wp_run_bind; [apply getHEToHEState_run |].
  apply wp_deref_bind; [reflexivity | intros st Hst].
  destruct (heToHEStateType.vlanIf st) eqn:Hvl; [apply wp_ret; reflexivity |].
  eapply wp_run_bind; [apply lookupHE_run |].
  eapply wp_run_bind; [apply lookupHE_run |]. cbv zeta.
  apply (wp_rel_bind sameH2H).
  { unfold DatastoreHE2EEIDsRetrieve, nextVLanID, getSeq. keeps_auto. }
  { intros s1 H1. by apply sameH2H_forward. }
  intros vni s1 H1. apply (wp_rel_bind sameH2H).
  { apply keeps_vxLanCreate; typeclasses eauto. }
  { intros s2 H2. apply sameH2H_forward. by transitivity s1. }
  intros vlanIf s2 H2. unfold updateHEToHEState. apply wp_modify_bind.
  assert (H3 : h2hEdgesForward s
    (Driver.set_l2CNPStateCache
       (l2CNPStateCacheType.set_HEToHEs
          (alter (alter (λ st, heToHEStateType.mk (Some vlanIf) (heToHEStateType.bd st)
                                 (heToHEStateType.l3Route st)) b) a)) s2)).
  { apply (h2hEdgesForward_fill _ _ _ _ _ st); [by transitivity s1 | done |].
    unfold h2hForward, fieldKept. cbn. rewrite Hvl. by repeat split. }
  apply (wp_keeps sameH2H).
  - unfold DatastoreHE2HEIDsCreate. keeps_auto.
  - intros _ s4 H4. transitivity (Driver.set_l2CNPStateCache
       (l2CNPStateCacheType.set_HEToHEs
          (alter (alter (λ st, heToHEStateType.mk (Some vlanIf) (heToHEStateType.bd st)
                                 (heToHEStateType.l3Route st)) b) a)) s2);
      [done | by apply sameH2H_forward].
  - intros s4 H4. transitivity (Driver.set_l2CNPStateCache
       (l2CNPStateCacheType.set_HEToHEs
          (alter (alter (λ st, heToHEStateType.mk (Some vlanIf) (heToHEStateType.bd st)
                                 (heToHEStateType.l3Route st)) b) a)) s2);
      [done | by apply sameH2H_forward].
Qed.

Lemma h2hEnsureRoute_forward a b : keeps h2hEdgesForward (h2hEnsureRoute a b).
Proof.
  apply keeps_of_wp. intros s. unfold h2hEnsureRoute.
  eapply wp_run_bind; [apply getHEToHEState_run |].
  apply wp_deref_bind; [reflexivity | intros st Hst].
  destruct (heToHEStateType.l3Route st) eqn:Hrt; [apply wp_ret; reflexivity |].
  eapply wp_run_bind; [apply lookupHE_run |].
  eapply wp_run_bind; [apply lookupHE_run |].
  destruct (HostEntity.CreateVxlanStaticRoute _); [| apply wp_ret; reflexivity].
  cbv zeta. eapply wp_run_bind; [reflexivity |].
  apply (wp_rel_bind sameH2H).
  { apply keeps_createStaticRoute; typeclasses eauto. }
  { intros s1 H1. by apply sameH2H_forward. }
  intros sr s1 H1. unfold updateHEToHEState, wp, modify.
  apply (h2hEdgesForward_fill _ _ _ _ _ st); [done | done |].
  unfold h2hForward, fieldKept. cbn. rewrite Hrt. by repeat split.
Qed.

Lemma h2hEnsureBridge_forward a b : keeps h2hEdgesForward (h2hEnsureBridge a b).
Proof.
  apply keeps_of_wp. intros s. unfold h2hEnsureBridge.
  eapply wp_run_bind; [apply getHEToHEState_run |].
  apply wp_deref_bind; [reflexivity | intros st Hst].
  destruct (heToHEStateType.bd st) eqn:Hbd; [apply wp_ret; reflexivity |].
  eapply wp_run_bind; [apply lookupHE_run |].
  eapply wp_run_bind; [apply lookupHE_run |]. cbv zeta.
  apply wp_deref_bind; [reflexivity | intros vlanIf Hvl].
  eapply wp_run_bind; [reflexivity |].
  apply (wp_rel_bind sameH2H).
  { apply sameH2H_bridge. }
  { intros s1 H1. by apply sameH2H_forward. }
  intros bd s1 H1. unfold updateHEToHEState, wp, modify.
  apply (h2hEdgesForward_fill _ _ _ _ _ st); [done | done |].
  unfold h2hForward, fieldKept. cbn. rewrite Hbd. by repeat split.
Qed.

Lemma createVxLANAndBridgeToDestHost_forward sfc a b v :
  keeps h2hEdgesForward (createVxLANAndBridgeToDestHost sfc a b v).
Proof.
  unfold createVxLANAndBridgeToDestHost, getHEToHEState. keeps_auto.
  all: first [ apply h2hEnsureVxlan_forward | apply h2hEnsureRoute_forward
             | apply h2hEnsureBridge_forward ].
Qed.

Lemma WireHostEntityToDestinationHostEntity_forward sh dh :
  keeps h2hEdgesForward (WireHostEntityToDestinationHostEntity sh dh).
Proof.
  apply keeps_of_wp. intros s. unfold WireHostEntityToDestinationHostEntity.
  apply wp_modify_bind. apply wp_modify_bind.
  apply wp_bind. unfold gets at 1, wp at 1.
  set (s1 := Driver.set_l2CNPEntityCache _ (Driver.set_l2CNPEntityCache _ s)).
  assert (Hsame : ∀ a b, heToHE s1 a b = heToHE s a b) by done.
  change (l2CNPStateCacheType.HEToHEs (Driver.l2CNPStateCache s1))
    with (l2CNPStateCacheType.HEToHEs (Driver.l2CNPStateCache s)).
  destruct (l2CNPStateCacheType.HEToHEs (Driver.l2CNPStateCache s)
              !! HostEntity.Name sh) as [m |] eqn:Hm.
  - apply wp_bind. apply wp_ret.
    destruct (m !! HostEntity.Name dh) as [st |] eqn:Hst.
    + apply wp_ret. by apply sameH2H_forward.
    + unfold wp, modify. intros a b st Hab. unfold heToHE in *. unfold_setters. cbn.
      destruct (decide (HostEntity.Name sh = a)) as [<- | Ha].
      * rewrite lookup_insert_eq. cbn. rewrite Hm in Hab. cbn in Hab.
        destruct (decide (HostEntity.Name dh = b)) as [<- | Hb]; [congruence |].
        rewrite lookup_insert_ne by done. exists st. split; [done | apply h2hForward_refl].
      * rewrite lookup_insert_ne by done. exists st. split; [done | apply h2hForward_refl].
  - apply wp_bind. apply wp_modify_bind. apply wp_ret.
    rewrite lookup_empty. unfold wp, modify.
    intros a b st Hab. unfold heToHE in *. unfold_setters. cbn.
    destruct (decide (HostEntity.Name sh = a)) as [<- | Ha].
    + rewrite Hm in Hab. done.
    + rewrite !lookup_insert_ne by done. exists st. split; [done | apply h2hForward_refl].
Qed.

Lemma WireSfcEntity_forward sfc : keeps h2hEdgesForward (WireSfcEntity sfc).
Proof.
  assert (Hc : ∀ k n ifs p, (length ifs ≤ 1)%nat →
                 keeps h2hEdgesForward (bridgedDomainCreateWithIfs k n ifs p)).
  { intros. apply keeps_bridgedDomainCreateWithIfs_framed; typeclasses eauto. }
  assert (Ha : ∀ k bd ifs, keeps h2hEdgesForward (bridgedDomainAssociateWithIfs k bd ifs)).
  { intros. apply keeps_bridgedDomainAssociateWithIfs_framed; typeclasses eauto. }
  assert (He : ∀ sfc a b v,
                 keeps h2hEdgesForward (createVxLANAndBridgeToExtEntity sfc a b v)).
  { intros. apply keeps_createVxLANAndBridgeToExtEntity_framed; try typeclasses eauto.
    done. }
  assert (Hbridge : ∀ scan e, keeps h2hEdgesForward (nsVxlanBridge sfc scan e)).
  { intros. unfold nsVxlanBridge. keeps_auto;
      first [apply He | apply createVxLANAndBridgeToDestHost_forward]. }
  assert (Hafp : ∀ bd e,
            keeps h2hEdgesForward (createAFPacketVEthPairAndAddToBridge sfc bd e)).
  { intros. apply keeps_createAFPacketVEthPairAndAddToBridge; try typeclasses eauto;
      done. }
  assert (Hmemif : ∀ h bd e g,
            keeps h2hEdgesForward (createMemIfPairAndAddToBridge sfc h bd e g)).
  { intros. apply keeps_createMemIfPairAndAddToBridge; try typeclasses eauto; done. }
  assert (Hns : keeps h2hEdgesForward (wireSfcNorthSouthVXLANElements sfc)).
  { unfold wireSfcNorthSouthVXLANElements. keeps_auto.
    - apply keeps_nsVxlanScan; typeclasses eauto.
    - unfold nsVxlanWireElement. keeps_auto;
        first [apply Hbridge | apply Hafp | apply Hmemif]. }
  assert (Hnic : keeps h2hEdgesForward (wireSfcNorthSouthNICElements sfc)).
  { apply keeps_wireSfcNorthSouthNICElements; try typeclasses eauto; done. }
  assert (Hew : keeps h2hEdgesForward (wireSfcEastWestElements sfc)).
  { apply keeps_wireSfcEastWestElements; try typeclasses eauto; done. }
  unfold WireSfcEntity. keeps_auto; first [apply Hns | apply Hnic | apply Hew].
Qed.

Lemma runCall_h2hEdgesForward c : keeps h2hEdgesForward (runCall c).
Proof.
  destruct c; cbn [runCall].
  - apply keeps_SetSystemParameters; typeclasses eauto.
  - apply WireHostEntityToDestinationHostEntity_forward.
  - apply keeps_WireHostEntityToExternalEntity; typeclasses eauto.
  - apply keeps_WireInternalsForHostEntity; try typeclasses eauto.
    intros. apply keeps_bridgedDomainCreateWithIfs_framed; typeclasses eauto.
  - apply keeps_WireInternalsForExternalEntity; typeclasses eauto.
  - apply WireSfcEntity_forward.
Qed.

Lemma stateAfter_keeps (R : relation Driver.t) `{!PreOrder R} :
  (∀ c, keeps R (runCall c)) → ∀ calls s, R s (stateAfter calls s).
Proof.
  intros HR calls. unfold stateAfter.
  induction calls as [| c calls IH]; intros s; cbn [fold_left]; [reflexivity |].
  destruct (final (runCall c s)) as [s1 |] eqn:Hfin; cbn [default]; [| apply IH].
  transitivity s1; [by apply (HR c) | apply IH].
Qed.

(** X14. An edge between two hosts only moves forward: through any sequence
    of operations, whatever their outcomes, the edge stays recorded, and its
    vxlan tunnel, its bridge domain and its static route, once set, are never
    replaced or removed. So the VNI of the tunnel is the one it was created
    with: a later chain between the same hosts that asks for another vlan_id
    is attached to the tunnel as it is. *)
Theorem h2h_edges_only_move_forward (calls : list Call) (s : Driver.t)
  (sh dh : string) (st : heToHEStateType.t) :
  heToHE s sh dh = Some st →
  ∃ st', heToHE (stateAfter calls s) sh dh = Some st'
    ∧ (∀ i, heToHEStateType.vlanIf st = Some i → heToHEStateType.vlanIf st' = Some i)
    ∧ (∀ b, heToHEStateType.bd st = Some b → heToHEStateType.bd st' = Some b)
    ∧ (∀ r, heToHEStateType.l3Route st = Some r → heToHEStateType.l3Route st' = Some r)
    ∧ (∀ v, h2hVni s sh dh = Some v → h2hVni (stateAfter calls s) sh dh = Some v).
Proof.
  intros Hst.
  destruct (stateAfter_keeps h2hEdgesForward runCall_h2hEdgesForward calls s sh dh st Hst)
    as (st' & Hst' & Hv & Hb & Hr).
  exists st'. split; [done |]. split; [done |]. split; [done |]. split; [done |].
  intros v. unfold h2hVni. rewrite Hst, Hst'. cbn.
  destruct (heToHEStateType.vlanIf st) as [i |] eqn:Hi; [| done].
  by rewrite (Hv i eq_refl).
Qed.

(** The chain [h2hChain] again, asking for VNI 7777. *)
Definition h2hChainWithVlan : SfcEntity.t :=
  SfcEntity.mk "sfc-ns-2" "" SFC_NS_VXLAN "" 0 None
    [SfcElement.mk "h2" "" "" "" "" HOST_ENTITY 7777 0 RX_MODE_UNKNOWN [] "" [] [];
     memifElement "c2" "p1" "h1"].

Lemma h2h_edges_witness :
  let s := stateAfter h2hCalls newDriver in
  h2hVni s "h1" "h2" = Some 5000
  ∧ result (WireSfcEntity h2hChainWithVlan s) = Some (inr tt)
  ∧ h2hVni (stateAfter [CallWireSfcEntity h2hChainWithVlan] s) "h1" "h2" = Some 5000.
Proof.
  intros s.
  assert (Hst : ∃ st, heToHE s "h1" "h2" = Some st) by (vm_compute; by eexists).
  destruct Hst as [st Hst].
  destruct (h2h_edges_only_move_forward [CallWireSfcEntity h2hChainWithVlan] s
              "h1" "h2" st Hst) as (st' & _ & _ & _ & _ & Hvni).
  assert (Hv : h2hVni s "h1" "h2" = Some 5000) by (by vm_compute).
  split; [exact Hv |]. split; [by vm_compute |]. exact (Hvni 5000 Hv).
Defined.

(** ** Edges from a host to an external entity *)

Definition h2eForward (st st' : heToEEStateType.t) : Prop :=
  fieldKept (heToEEStateType.vlanIf st) (heToEEStateType.vlanIf st')
  ∧ fieldKept (heToEEStateType.bd st) (heToEEStateType.bd st')
  ∧ fieldKept (heToEEStateType.l3Route st) (heToEEStateType.l3Route st').

(** Every edge from a host to an external entity is still recorded, with the tunnel, the bridge
    domain and the route it had. *)
Definition h2eEdgesForward : relation Driver.t := λ s s',
  ∀ sh dh st, heToEE s sh dh = Some st →
    ∃ st', heToEE s' sh dh = Some st' ∧ h2eForward st st'.

(** The edges from a host to an external entity are the same. *)
Definition sameH2E : relation Driver.t := λ s s',
  l2CNPStateCacheType.HEToEEs (Driver.l2CNPStateCache s')
  = l2CNPStateCacheType.HEToEEs (Driver.l2CNPStateCache s).

Lemma h2eForward_refl st : h2eForward st st.
Proof. unfold h2eForward, fieldKept. auto. Qed.

Lemma h2eForward_trans a b c : h2eForward a b → h2eForward b c → h2eForward a c.
Proof.
  intros (H1 & H2 & H3) (G1 & G2 & G3). unfold h2eForward, fieldKept in *.
  repeat split; auto.
Qed.

#[global] Instance h2eEdgesForward_preorder : PreOrder h2eEdgesForward.
Proof.
  split.
  - intros s sh dh st Hst. exists st. split; [done | apply h2eForward_refl].
  - intros s1 s2 s3 H12 H23 sh dh st Hst.
    destruct (H12 _ _ _ Hst) as (st2 & Hst2 & Hf2).
    destruct (H23 _ _ _ Hst2) as (st3 & Hst3 & Hf3).
    exists st3. split; [done | by eapply h2eForward_trans].
Qed.

#[global] Instance sameH2E_preorder : PreOrder sameH2E.
Proof.
  split; [by intros s |]. intros s1 s2 s3 H1 H2. unfold sameH2E in *. by rewrite H2.
Qed.

Lemma sameH2E_forward s s' : sameH2E s s' → h2eEdgesForward s s'.
Proof.
  intros H sh dh st Hst. exists st. split; [| apply h2eForward_refl].
  unfold heToEE in *. by rewrite H.
Qed.

#[global] Instance sameH2E_db : FrameDb sameH2E.
Proof. by intros f s _. Qed.
#[global] Instance sameH2E_EEs : FrameEEs sameH2E.
Proof. by intros f s. Qed.
#[global] Instance sameH2E_HEs : FrameHEs sameH2E.
Proof. by intros f s. Qed.
#[global] Instance sameH2E_SFCs : FrameSFCs sameH2E.
Proof. by intros f s. Qed.
#[global] Instance sameH2E_SysParms : FrameSysParms sameH2E.
Proof. by intros f s. Qed.
#[global] Instance sameH2E_HEToHEs : FrameHEToHEs sameH2E.
Proof. by intros f s. Qed.
#[global] Instance sameH2E_SFCToHEs : FrameSFCToHEs sameH2E.
Proof. by intros f s. Qed.
#[global] Instance sameH2E_HE : FrameHE sameH2E.
Proof. by intros f s. Qed.
#[global] Instance sameH2E_SFCIFAddr : FrameSFCIFAddr sameH2E.
Proof. by intros f s. Qed.
#[global] Instance sameH2E_after : FrameAfter sameH2E.
Proof. by intros f s. Qed.
#[global] Instance sameH2E_seq : FrameSeq sameH2E.
Proof. by intros f s. Qed.
#[global] Instance sameH2E_heap : FrameHeap sameH2E.
Proof. by intros f s. Qed.
#[global] Instance sameH2E_ext : FrameExt sameH2E.
Proof. by intros f s. Qed.
#[global] Instance sameH2E_ipam : FrameIpam sameH2E.
Proof. by intros f s. Qed.

#[global] Instance h2eEdgesForward_db : FrameDb h2eEdgesForward.
Proof. intros f s _. by apply sameH2E_forward. Qed.
#[global] Instance h2eEdgesForward_EEs : FrameEEs h2eEdgesForward.
Proof. intros f s. by apply sameH2E_forward. Qed.
#[global] Instance h2eEdgesForward_HEs : FrameHEs h2eEdgesForward.
Proof. intros f s. by apply sameH2E_forward. Qed.
#[global] Instance h2eEdgesForward_SFCs : FrameSFCs h2eEdgesForward.
Proof. intros f s. by apply sameH2E_forward. Qed.
#[global] Instance h2eEdgesForward_SysParms : FrameSysParms h2eEdgesForward.
Proof. intros f s. by apply sameH2E_forward. Qed.
#[global] Instance h2eEdgesForward_HEToHEs : FrameHEToHEs h2eEdgesForward.
Proof. intros f s. by apply sameH2E_forward. Qed.
#[global] Instance h2eEdgesForward_SFCToHEs : FrameSFCToHEs h2eEdgesForward.
Proof. intros f s. by apply sameH2E_forward. Qed.
#[global] Instance h2eEdgesForward_HE : FrameHE h2eEdgesForward.
Proof. intros f s. by apply sameH2E_forward. Qed.
#[global] Instance h2eEdgesForward_SFCIFAddr : FrameSFCIFAddr h2eEdgesForward.
Proof. intros f s. by apply sameH2E_forward. Qed.
#[global] Instance h2eEdgesForward_after : FrameAfter h2eEdgesForward.
Proof. intros f s. by apply sameH2E_forward. Qed.
#[global] Instance h2eEdgesForward_seq : FrameSeq h2eEdgesForward.
Proof. intros f s. by apply sameH2E_forward. Qed.
#[global] Instance h2eEdgesForward_heap : FrameHeap h2eEdgesForward.
Proof. intros f s. by apply sameH2E_forward. Qed.
#[global] Instance h2eEdgesForward_ext : FrameExt h2eEdgesForward.
Proof. intros f s. by apply sameH2E_forward. Qed.
#[global] Instance h2eEdgesForward_ipam : FrameIpam h2eEdgesForward.
Proof. intros f s. by apply sameH2E_forward. Qed.

(** A field of the edge from [a] to [b] is filled in a state whose edges are
    those of [s], where the field is not set. *)
Lemma h2eEdgesForward_fill a b f s s1 st :
  sameH2E s s1 → heToEE s a b = Some st → h2eForward st (f st) →
  h2eEdgesForward s
    (Driver.set_l2CNPStateCache
       (l2CNPStateCacheType.set_HEToEEs (alter (alter f b) a)) s1).
Proof.
  intros Hsame Hst Hf sh dh st0 Hst0. rewrite heToEE_alter.
  assert (Hs1 : heToEE s1 sh dh = heToEE s sh dh) by (unfold heToEE; by rewrite Hsame).
  rewrite Hs1, Hst0. destruct (decide _) as [[-> ->] | _]; cbn.
  - exists (f st0). split; [done |]. rewrite Hst in Hst0. by injection Hst0 as <-.
  - exists st0. split; [done | apply h2eForward_refl].
Qed.

Lemma h2eEnsureVxlan_forward a b v : keeps h2eEdgesForward (h2eEnsureVxlan a b v).
Proof.
  apply keeps_of_wp. intros s. unfold h2eEnsureVxlan.
  eapply wp_run_bind; [apply getHEToEEState_run |].
  apply wp_deref_bind; [reflexivity | intros st Hst].
  destruct (heToEEStateType.vlanIf st) eqn:Hvl; [apply wp_ret; reflexivity |].
  eapply wp_run_bind; [apply lookupHE_run |].
  eapply wp_run_bind; [apply lookupEE_run |]. cbv zeta.
  apply (wp_rel_bind sameH2E).
  { unfold DatastoreHE2EEIDsRetrieve, nextVLanID, getSeq. keeps_auto. }
  { intros s1 H1. by apply sameH2E_forward. }
  intros vni s1 H1.
  apply wp_deref_bind; [by apply sameH2E_forward | intros hostVxlan Hhv].
  apply (wp_rel_bind sameH2E).
  { apply keeps_vxLanCreate; typeclasses eauto. }
  { intros s2 H2. apply sameH2E_forward. by transitivity s1. }
  intros vlanIf s2 H2. unfold updateHEToEEState. apply wp_modify_bind.
  assert (H3 : h2eEdgesForward s
    (Driver.set_l2CNPStateCache
       (l2CNPStateCacheType.set_HEToEEs
          (alter (alter (λ st, heToEEStateType.mk (Some vlanIf) (heToEEStateType.bd st)
                                 (heToEEStateType.l3Route st)) b) a)) s2)).
  { apply (h2eEdgesForward_fill _ _ _ _ _ st); [by transitivity s1 | done |].
    unfold h2eForward, fieldKept. cbn. rewrite Hvl. by repeat split. }
  apply (wp_keeps sameH2E).
  - unfold DatastoreHE2EEIDsCreate. keeps_auto.
  - intros _ s4 H4. etransitivity; [exact H3 | by apply sameH2E_forward].
  - intros s4 H4. etransitivity; [exact H3 | by apply sameH2E_forward].
Qed.

Lemma h2eEnsureRoute_forward a b : keeps h2eEdgesForward (h2eEnsureRoute a b).
Proof.
  apply keeps_of_wp. intros s. unfold h2eEnsureRoute.
  eapply wp_run_bind; [apply getHEToEEState_run |].
  apply wp_deref_bind; [reflexivity | intros st Hst].
  destruct (heToEEStateType.l3Route st) eqn:Hrt; [apply wp_ret; reflexivity |].
  eapply wp_run_bind; [apply lookupHE_run |].
  eapply wp_run_bind; [apply lookupEE_run |].
  destruct (HostEntity.CreateVxlanStaticRoute _); [| apply wp_ret; reflexivity].
  cbv zeta.
  apply wp_deref_bind; [reflexivity | intros hostVxlan Hhv].
  apply wp_deref_bind; [reflexivity | intros hostInterface Hhi].
  eapply wp_run_bind; [reflexivity |].
  apply (wp_rel_bind sameH2E).
  { apply keeps_createStaticRoute; typeclasses eauto. }
  { intros s1 H1. by apply sameH2E_forward. }
  intros sr s1 H1. unfold updateHEToEEState, wp, modify.
  apply (h2eEdgesForward_fill _ _ _ _ _ st); [done | done |].
  unfold h2eForward, fieldKept. cbn. rewrite Hrt. by repeat split.
Qed.

Lemma h2eEnsureBridge_forward a b : keeps h2eEdgesForward (h2eEnsureBridge a b).
Proof.
  apply keeps_of_wp. intros s. unfold h2eEnsureBridge.
  eapply wp_run_bind; [apply getHEToEEState_run |].
  apply wp_deref_bind; [reflexivity | intros st Hst].
  destruct (heToEEStateType.bd st) eqn:Hbd; [apply wp_ret; reflexivity |].
  eapply wp_run_bind; [apply lookupHE_run |].
  eapply wp_run_bind; [apply lookupEE_run |]. cbv zeta.
  apply wp_deref_bind; [reflexivity | intros vlanIf Hvl].
  eapply wp_run_bind; [reflexivity |].
  apply (wp_rel_bind sameH2E).
  { unfold bridgedDomainCreateWithIfs_logged. keeps_auto.
    apply keeps_bridgedDomainCreateWithIfs_framed; typeclasses eauto. }
  { intros s1 H1. by apply sameH2E_forward. }
  intros bd s1 H1. unfold updateHEToEEState. apply wp_modify_bind.
  assert (H3 : h2eEdgesForward s
    (Driver.set_l2CNPStateCache
       (l2CNPStateCacheType.set_HEToEEs
          (alter (alter (λ st, heToEEStateType.mk (heToEEStateType.vlanIf st) (Some bd)
                                 (heToEEStateType.l3Route st)) b) a)) s1)).
  { apply (h2eEdgesForward_fill _ _ _ _ _ st); [done | done |].
    unfold h2eForward, fieldKept. cbn. rewrite Hbd. by repeat split. }
  apply (wp_keeps sameH2E).
  - keeps_auto. apply keeps_wireExternalEntityToHostEntity; typeclasses eauto.
  - intros _ s4 H4. etransitivity; [exact H3 | by apply sameH2E_forward].
  - intros s4 H4. etransitivity; [exact H3 | by apply sameH2E_forward].
Qed.

Lemma createVxLANAndBridgeToExtEntity_forward sfc a b v :
  keeps h2eEdgesForward (createVxLANAndBridgeToExtEntity sfc a b v).
Proof.
  unfold createVxLANAndBridgeToExtEntity, getHEToEEState. keeps_auto.
  all: first [ apply h2eEnsureVxlan_forward | apply h2eEnsureRoute_forward
             | apply h2eEnsureBridge_forward ].
Qed.

Lemma WireHostEntityToExternalEntity_forward he ee :
  keeps h2eEdgesForward (WireHostEntityToExternalEntity he ee).
Proof.
  apply keeps_of_wp. intros s. unfold WireHostEntityToExternalEntity.
  apply wp_modify_bind. apply wp_modify_bind.
  set (s1 := Driver.set_l2CNPEntityCache _ (Driver.set_l2CNPEntityCache _ s)).
  assert (Hs1 : sameH2E s s1) by done.
  destruct (ExternalEntity.HostInterface ee); [| by apply sameH2E_forward].
  destruct (ExternalEntity.HostVxlan ee); [| by apply sameH2E_forward].
  apply wp_bind. unfold gets at 1, wp at 1.
  change (l2CNPStateCacheType.HEToEEs (Driver.l2CNPStateCache s1))
    with (l2CNPStateCacheType.HEToEEs (Driver.l2CNPStateCache s)).
  destruct (l2CNPStateCacheType.HEToEEs (Driver.l2CNPStateCache s)
              !! HostEntity.Name he) as [m |] eqn:Hm.
  - apply wp_bind. apply wp_ret.
    destruct (m !! ExternalEntity.Name ee) as [st |] eqn:Hst.
    + apply wp_ret. by apply sameH2E_forward.
    + unfold wp, modify. intros a b st Hab. unfold heToEE in *. unfold_setters. cbn.
      destruct (decide (HostEntity.Name he = a)) as [<- | Ha].
      * rewrite lookup_insert_eq. cbn. rewrite Hm in Hab. cbn in Hab.
        destruct (decide (ExternalEntity.Name ee = b)) as [<- | Hb]; [congruence |].
        rewrite lookup_insert_ne by done. exists st. split; [done | apply h2eForward_refl].
      * rewrite lookup_insert_ne by done. exists st. split; [done | apply h2eForward_refl].
  - apply wp_bind. apply wp_modify_bind. apply wp_ret.
    rewrite lookup_empty. unfold wp, modify.
    intros a b st Hab. unfold heToEE in *. unfold_setters. cbn.
    destruct (decide (HostEntity.Name he = a)) as [<- | Ha].
    + rewrite Hm in Hab. done.
    + rewrite !lookup_insert_ne by done. exists st. split; [done | apply h2eForward_refl].
Qed.

Lemma runCall_h2eEdgesForward c : keeps h2eEdgesForward (runCall c).
Proof.
  destruct c; cbn [runCall].
  - apply keeps_SetSystemParameters; typeclasses eauto.
  - apply keeps_WireHostEntityToDestinationHostEntity; typeclasses eauto.
  - apply WireHostEntityToExternalEntity_forward.
  - apply keeps_WireInternalsForHostEntity; try typeclasses eauto.
    intros. apply keeps_bridgedDomainCreateWithIfs_framed; typeclasses eauto.
  - apply keeps_WireInternalsForExternalEntity; typeclasses eauto.
  - apply keeps_WireSfcEntity; try typeclasses eauto.
    + intros. apply keeps_bridgedDomainCreateWithIfs_framed; typeclasses eauto.
    + intros. apply keeps_bridgedDomainAssociateWithIfs_framed; typeclasses eauto.
    + apply createVxLANAndBridgeToExtEntity_forward.
Qed.

(** The VNI of the tunnel of the edge from [he] to [ee]. *)
Definition h2eVni (s : Driver.t) (he ee : string) : option Z :=
  st ← heToEE s he ee;
  vlanIf ← heToEEStateType.vlanIf st;
  vxlan ← Interface.Vxlan vlanIf;
  Some (Vxlan.Vni vxlan).

(** X15. An edge from a host to an external entity only moves forward:
    through any sequence of operations, whatever their outcomes, the edge
    stays recorded, and its vxlan tunnel, its bridge domain and its static
    route, once set, are never replaced or removed; the VNI of the tunnel is
    the one it was created with. *)
Theorem h2e_edges_only_move_forward (calls : list Call) (s : Driver.t)
  (he ee : string) (st : heToEEStateType.t) :
  heToEE s he ee = Some st →
  ∃ st', heToEE (stateAfter calls s) he ee = Some st'
    ∧ (∀ i, heToEEStateType.vlanIf st = Some i → heToEEStateType.vlanIf st' = Some i)
    ∧ (∀ b, heToEEStateType.bd st = Some b → heToEEStateType.bd st' = Some b)
    ∧ (∀ r, heToEEStateType.l3Route st = Some r → heToEEStateType.l3Route st' = Some r)
    ∧ (∀ v, h2eVni s he ee = Some v → h2eVni (stateAfter calls s) he ee = Some v).
Proof.
  intros Hst.
  destruct (stateAfter_keeps h2eEdgesForward runCall_h2eEdgesForward calls s he ee st Hst)
    as (st' & Hst' & Hv & Hb & Hr).
  exists st'. split; [done |]. split; [done |]. split; [done |]. split; [done |].
  intros v. unfold h2eVni. rewrite Hst, Hst'. cbn.
  destruct (heToEEStateType.vlanIf st) as [i |] eqn:Hi; [| done].
  by rewrite (Hv i eq_refl).
Qed.

Lemma h2e_edges_witness :
  let s := stateAfter nsChainCalls newDriver in
  h2eVni s "h1" "ee1" = Some 5000
  ∧ h2eVni (stateAfter [CallWireSfcEntity nsChainToRouter;
                         CallWireHostEntityToExternalEntity host1 router1] s) "h1" "ee1"
    = Some 5000.
Proof.
  intros s.
  assert (Hst : ∃ st, heToEE s "h1" "ee1" = Some st) by (vm_compute; by eexists).
  destruct Hst as [st Hst].
  destruct (h2e_edges_only_move_forward
              [CallWireSfcEntity nsChainToRouter;
               CallWireHostEntityToExternalEntity host1 router1] s
              "h1" "ee1" st Hst) as (st' & _ & _ & _ & _ & Hvni).
  assert (Hv : h2eVni s "h1" "ee1" = Some 5000) by (by vm_compute).
  split; [exact Hv | exact (Hvni 5000 Hv)].
Defined.

(** ** Members of the east-west bridge of a host *)

(** The states of the hosts are the same. *)
Definition sameHE : relation Driver.t := λ s s',
  l2CNPStateCacheType.HE (Driver.l2CNPStateCache s')
  = l2CNPStateCacheType.HE (Driver.l2CNPStateCache s).

#[global] Instance sameHE_preorder : PreOrder sameHE.
Proof.
  split; [by intros s |]. intros s1 s2 s3 H1 H2. unfold sameHE in *. by rewrite H2.
Qed.
#[global] Instance sameHE_db : FrameDb sameHE.
Proof. by intros f s _. Qed.
#[global] Instance sameHE_EEs : FrameEEs sameHE.
Proof. by intros f s. Qed.
#[global] Instance sameHE_HEs : FrameHEs sameHE.
Proof. by intros f s. Qed.
#[global] Instance sameHE_SFCs : FrameSFCs sameHE.
Proof. by intros f s. Qed.
#[global] Instance sameHE_SysParms : FrameSysParms sameHE.
Proof. by intros f s. Qed.
#[global] Instance sameHE_HEToEEs : FrameHEToEEs sameHE.
Proof. by intros f s. Qed.
#[global] Instance sameHE_HEToHEs : FrameHEToHEs sameHE.
Proof. by intros f s. Qed.
#[global] Instance sameHE_SFCToHEs : FrameSFCToHEs sameHE.
Proof. by intros f s. Qed.
#[global] Instance sameHE_SFCIFAddr : FrameSFCIFAddr sameHE.
Proof. by intros f s. Qed.
#[global] Instance sameHE_after : FrameAfter sameHE.
Proof. by intros f s. Qed.
#[global] Instance sameHE_seq : FrameSeq sameHE.
Proof. by intros f s. Qed.
#[global] Instance sameHE_heap : FrameHeap sameHE.
Proof. by intros f s. Qed.
#[global] Instance sameHE_ext : FrameExt sameHE.
Proof. by intros f s. Qed.
#[global] Instance sameHE_ipam : FrameIpam sameHE.
Proof. by intros f s. Qed.

(** The bridge domains are kept and the states of the hosts are the same. *)
Definition hostBridgesKept : relation Driver.t := λ s s',
  bridgesKept s s' ∧ sameHE s s'.

#[global] Instance hostBridgesKept_preorder : PreOrder hostBridgesKept.
Proof.
  split; [by intros s |].
  intros s1 s2 s3 [H1 H2] [G1 G2]. split; by etransitivity.
Qed.

Section host_bridges.
Context (sfc : SfcEntity.t).

Lemma hostBridgesKept_pieces :
  (∀ h e g, keeps hostBridgesKept (createMemIfPair sfc h e g))
  ∧ (∀ e, keeps hostBridgesKept (createAFPacketVEthPair sfc e))
  ∧ (∀ k bd macs i, keeps hostBridgesKept (createL2FibEntries k bd macs i))
  ∧ (∀ k bd ifs, keeps hostBridgesKept (bridgedDomainAssociateWithIfs k bd ifs))
  ∧ (∀ els i p, keeps hostBridgesKept (ewWireLoop sfc els i p)).
Proof.
  assert (Hc1 : ∀ k n ifs p, (length ifs ≤ 1)%nat →
                  keeps bridgesKept (bridgedDomainCreateWithIfs k n ifs p)).
  { intros. apply bridgesKept_bridgedDomainCreateWithIfs. }
  assert (Hc2 : ∀ k n ifs p, (length ifs ≤ 1)%nat →
                  keeps sameHE (bridgedDomainCreateWithIfs k n ifs p)).
  { intros. apply keeps_bridgedDomainCreateWithIfs_framed; typeclasses eauto. }
  assert (Ha1 := bridgesKept_bridgedDomainAssociateWithIfs).
  assert (Ha2 : ∀ k bd ifs, keeps sameHE (bridgedDomainAssociateWithIfs k bd ifs)).
  { intros. apply keeps_bridgedDomainAssociateWithIfs_framed; typeclasses eauto. }
  split; [| split; [| split; [| split]]].
  - intros h e g. apply keeps_and; apply keeps_createMemIfPair; typeclasses eauto.
  - intros e. apply keeps_and; apply keeps_createAFPacketVEthPair; typeclasses eauto.
  - intros k bd macs i. apply keeps_and; apply keeps_createL2FibEntries;
      typeclasses eauto.
  - intros k bd ifs. apply keeps_and; [apply Ha1 | apply Ha2].
  - intros els i p.
    apply keeps_and; apply keeps_ewWireLoop; try typeclasses eauto; done.
Qed.

End host_bridges.

(** The vswitch end of the interface pair of a container. *)
Definition vswitchIfName (e : SfcElement.t) : string :=
  match SfcElement.Type_ e with
  | VPP_CONTAINER_AFP | NON_VPP_CONTAINER_AFP =>
      "IF_AFPIF_VSWITCH_" +:+ SfcElement.Container e +:+ "_" +:+ SfcElement.PortLabel e
  | _ => "IF_MEMIF_VSWITCH_" +:+ SfcElement.Container e +:+ "_" +:+ SfcElement.PortLabel e
  end.

Definition isContainer (e : SfcElement.t) : bool :=
  match SfcElement.Type_ e with
  | VPP_CONTAINER_AFP | NON_VPP_CONTAINER_AFP
  | VPP_CONTAINER_MEMIF | NON_VPP_CONTAINER_MEMIF => true
  | _ => false
  end.

Lemma wp_and {A} (m : M A) (Q1 Q2 : A → Driver.t → Prop) (E1 E2 : Driver.t → Prop) s :
  wp m Q1 E1 s → wp m Q2 E2 s → wp m (λ a s', Q1 a s' ∧ Q2 a s') (λ s', E1 s' ∧ E2 s') s.
Proof. unfold wp. by destruct (m s). Qed.

Lemma createMemIfPair_name sfc h e g s :
  wp (createMemIfPair sfc h e g)
     (λ name _, name = "IF_MEMIF_VSWITCH_" +:+ SfcElement.Container e +:+ "_"
                       +:+ SfcElement.PortLabel e)
     (λ _, True) s.
Proof.
  unfold createMemIfPair. cbv zeta.
  apply wp_any_bind; [done | intros sfcID s1].
  apply wp_any_bind; [done | intros memifID s2].
  apply wp_any_bind; [done | intros [ip ipID] s3].
  apply wp_any_bind; [done | intros [mac macID] s4].
  apply wp_any_bind; [done | intros mtu s5].
  apply wp_any_bind; [done | intros _ s6].
  apply wp_any_bind; [done | intros [err | i] s7]; [done |].
  apply wp_any_bind; [done | intros r s8].
  apply wp_any_bind; [done | intros _ s9].
  apply wp_any_bind; [done | intros _ s10].
  by destruct r.
Qed.

Lemma afPacketCreate_name k n h ip mac ip6 mtu rx s :
  wp (attempt (afPacketCreate k n h ip mac ip6 mtu rx))
     (λ r _, ∀ i, r = inr i → Interface.Name i = n) (λ _, True) s.
Proof.
  unfold wp, attempt, afPacketCreate, reconcileInterface, txnPut, storePut. cbv zeta.
  runM. destruct (Driver.reconcileInProgress s); cbn.
  - by intros i [= <-].
  - destruct (KVStore.faults (Driver.db s)) as [| [] fs]; cbn; try done;
      by intros i [= <-].
Qed.

Lemma createAFPacketVEthPair_name sfc e s :
  wp (createAFPacketVEthPair sfc e)
     (λ name _, name = "IF_AFPIF_VSWITCH_" +:+ SfcElement.Container e +:+ "_"
                       +:+ SfcElement.PortLabel e)
     (λ _, True) s.
Proof.
  unfold createAFPacketVEthPair. cbv zeta.
  apply wp_any_bind; [done | intros sfcID s1].
  apply wp_any_bind; [done | intros vethID s2].
  apply wp_any_bind; [done | intros [ip ipID] s3].
  apply wp_any_bind; [done | intros [mac macID] s4].
  apply wp_any_bind; [done | intros mtu s5].
  apply wp_any_bind; [done | intros _ s6].
  apply wp_any_bind; [done | intros _ s7].
  apply wp_any_bind; [done | intros _ s8].
  apply wp_bind. eapply wp_mono; [| | apply afPacketCreate_name]; [| done].
  intros [err | i] s9 Hname; [done |]. cbv beta iota.
  apply wp_any_bind; [done | intros r s10].
  apply wp_any_bind; [done | intros _ s11].
  apply wp_any_bind; [done | intros _ s12].
  apply wp_ret. by apply Hname.
Qed.

(** The bridge domain at [ptr] has a member named [ifName]. *)
Definition bridgeHasMember (s : Driver.t) (ptr : bdPtr) (ifName : string) : Prop :=
  ∃ b, Driver.bridgeDomains s !! ptr = Some b
       ∧ ifName ∈ memberNames (BridgeDomain.Interfaces b).

Lemma bridgeHasMember_kept s s' ptr n :
  bridgesKept s s' → bridgeHasMember s ptr n → bridgeHasMember s' ptr n.
Proof.
  intros Hk (b & Hb & Hn). destruct (Hk ptr b Hb) as (b' & Hb' & _ & Hpre).
  exists b'. split; [done |]. destruct Hpre as [l ->].
  unfold memberNames. rewrite map_app. apply elem_of_app. by left.
Qed.

Lemma associateIfs_has members iface :
  BDInterface.Name iface ∈ memberNames (associateIfs members [iface]).
Proof.
  destruct (decide (BDInterface.Name iface ∈ memberNames members)) as [Hin | Hin].
  - by rewrite associateIfs_member.
  - rewrite associateIfs_new by done. unfold memberNames. rewrite map_app.
    apply elem_of_app. right. cbn. by left.
Qed.

Lemma bridgedDomainAssociateWithIfs_member k bd n s :
  wp (bridgedDomainAssociateWithIfs k bd [BDInterface.mk n])
     (λ _ s', ∃ ptr, bd = Some ptr ∧ bridgeHasMember s' ptr n) (λ _, True) s.
Proof.
  destruct (match bd with Some ptr => Driver.bridgeDomains s !! ptr | None => None end)
    as [b |] eqn:Hb.
  - destruct bd as [ptr |]; [| done]. cbn in Hb.
    unfold wp. rewrite (bridgedDomainAssociateWithIfs_run k ptr _ s b Hb). cbv zeta.
    set (b' := BridgeDomain_set_Interfaces _ b).
    set (s1 := Driver.set_bridgeDomains _ s).
    assert (H1 : bridgeHasMember s1 ptr n).
    { exists b'. split.
      - subst s1. unfold_setters. cbn. apply list_lookup_insert_eq.
        by eapply lookup_lt_Some.
      - subst b'. cbn. apply (associateIfs_has _ (BDInterface.mk n)). }
    assert (Hk : ∀ s', final ((if Driver.reconcileInProgress s
                              then reconcileBridgeDomain k b'
                              else txnPut k (RBridgeDomain b')) s1) = Some s' →
                       bridgeHasMember s' ptr n).
    { intros s' Hfin. apply (bridgeHasMember_kept s1); [| done].
      destruct (Driver.reconcileInProgress s).
      - by apply (keeps_reconcileBridgeDomain bridgesKept k b').
      - by apply (keeps_txnPut bridgesKept k (RBridgeDomain b')). }
    match goal with |- match ?x with _ => _ end =>
      destruct x as [[] s2 | | |]; try done end.
    exists ptr. split; [done |]. by apply Hk.
  - unfold wp. by rewrite bridgedDomainAssociateWithIfs_nil_or_dangling.
Qed.

Lemma wp_bind_both (R : relation Driver.t) {A B} (m : M A) (k : A → M B)
  (Q0 : A → Driver.t → Prop) Q s :
  keeps R m → wp m Q0 (λ _, True) s →
  (∀ a s1, R s s1 → Q0 a s1 → wp (k a) Q (λ _, True) s1) →
  wp (m ≫= k) Q (λ _, True) s.
Proof.
  intros Hm H0 Hk. apply wp_bind. specialize (Hm s). unfold wp in *.
  destruct (m s) as [a s1 | | |]; try done. apply Hk; [by apply Hm | done].
Qed.

(** The chains whose containers join a bridge domain of their host: the
    dynamic one for SFC_EW_BD, the static one for SFC_EW_BD_L2FIB without
    bridge parameters of its own. *)
Definition joinsHostBridge (sfc : SfcEntity.t) : Prop :=
  SfcEntity.Type_ sfc = SFC_EW_BD
  ∨ (SfcEntity.Type_ sfc = SFC_EW_BD_L2FIB ∧ SfcEntity.BdParms sfc = None).

Definition ewHostBridge (sfc : SfcEntity.t) (h : heStateType.t) : option bdPtr :=
  if bool_decide (SfcEntity.Type_ sfc = SFC_EW_BD)
  then heStateType.ewBD h else heStateType.ewBDL2Fib h.

(** In [s'], the vswitch end of the pair of [e] is a member of the bridge
    domain that the host of [e] had for the chain in [s]. *)
Definition onHostBridge (sfc : SfcEntity.t) (s s' : Driver.t) (e : SfcElement.t) : Prop :=
  ∃ h ptr,
    l2CNPStateCacheType.HE (Driver.l2CNPStateCache s) !! SfcElement.EtcdVppSwitchKey e
    = Some h
    ∧ ewHostBridge sfc h = Some ptr
    ∧ bridgeHasMember s' ptr (vswitchIfName e).

Section host_bridge_members.
Context (sfc : SfcEntity.t) (Hsfc : joinsHostBridge sfc).

Lemma joinsHostBridge_type :
  isEWBridgeType (SfcEntity.Type_ sfc) = true
  ∧ bool_decide (SfcEntity.Type_ sfc = SFC_EW_MEMIF) = false.
Proof. unfold isEWBridgeType. by destruct Hsfc as [-> | [-> _]]. Qed.

Lemma ewBridge_host e s :
  wp (ewBridge sfc e)
     (λ bd s', s' = s
        ∧ ∃ h, l2CNPStateCacheType.HE (Driver.l2CNPStateCache s)
                 !! SfcElement.EtcdVppSwitchKey e = Some h
               ∧ bd = ewHostBridge sfc h)
     (λ _, True) s.
Proof.
  unfold ewBridge, ewHostBridge. cbv zeta. apply wp_bind. unfold gets at 1, wp at 1.
  destruct (_ !! _) as [h |] eqn:Hh; [| done].
  destruct Hsfc as [Ht | [Ht Hp]]; rewrite Ht; cbn.
  - split; [done |]. by exists h.
  - rewrite Hp. split; [done |]. by exists h.
Qed.

Lemma joined_member {C} (m : M string) e s (c : C) :
  keeps hostBridgesKept m →
  wp m (λ name _, name = vswitchIfName e) (λ _, True) s →
  wp (bd ← ewBridge sfc e;
      ifName ← (n ← m;
                bridgedDomainAssociateWithIfs (SfcElement.EtcdVppSwitchKey e) bd
                  [BDInterface.mk n] ;;
                mret n);
      createL2FibEntries (SfcElement.EtcdVppSwitchKey e) bd (SfcElement.L2FibMacs e)
        ifName ;;
      mret c)
     (λ _ s', onHostBridge sfc s s' e) (λ _, True) s.
Proof.
  intros Hkm Hname.
  destruct (hostBridgesKept_pieces sfc) as (_ & _ & Hfib & Hassoc & _).
  apply wp_bind. eapply wp_mono; [| | apply ewBridge_host]; [| done].
  intros bd s0 (-> & h & Hh & ->).
  apply wp_bind.
  apply (wp_bind_both hostBridgesKept _ _ (λ name _, name = vswitchIfName e));
    [done | done |].
  intros n s1 H1 ->.
  apply (wp_bind_both hostBridgesKept _ _
           (λ _ s', ∃ ptr, ewHostBridge sfc h = Some ptr
                           ∧ bridgeHasMember s' ptr (vswitchIfName e)));
    [apply Hassoc | apply bridgedDomainAssociateWithIfs_member |].
  intros _ s2 H2 (ptr & Hptr & Hmem). apply wp_ret.
  apply (wp_keeps hostBridgesKept); [| | done].
  - keeps_auto; try apply Hfib.
  - intros _ s3 [H3 _]. exists h, ptr. split; [done |]. split; [done |].
    by apply (bridgeHasMember_kept s2).
Qed.

Lemma ewWireElement_member i e prev s :
  isContainer e = true →
  wp (ewWireElement sfc i e prev) (λ _ s', onHostBridge sfc s s' e) (λ _, True) s.
Proof.
  intros Hc. destruct joinsHostBridge_type as [Hbr Hmemif].
  destruct (hostBridgesKept_pieces sfc) as (Hkm & Hka & _).
  unfold ewWireElement, isContainer, vswitchIfName in *. cbv zeta.
  rewrite Hbr, Hmemif.
  destruct (SfcElement.Type_ e) eqn:Ht; try discriminate Hc.
  all: first
    [ apply (joined_member (createAFPacketVEthPair sfc e) e s prev); [apply Hka |];
      unfold vswitchIfName; rewrite Ht; apply createAFPacketVEthPair_name
    | apply (joined_member (createMemIfPair sfc (SfcElement.EtcdVppSwitchKey e) e true)
               e s prev); [apply Hkm |];
      unfold vswitchIfName; rewrite Ht; apply createMemIfPair_name ].
Qed.

Lemma ewWireLoop_members els i prev s :
  wp (ewWireLoop sfc els i prev)
     (λ _ s', ∀ e, e ∈ els → isContainer e = true → onHostBridge sfc s s' e)
     (λ _, True) s.
Proof.
  destruct (hostBridgesKept_pieces sfc) as (_ & _ & _ & _ & Hloop).
  revert i prev s. induction els as [| e els IH]; intros i prev s.
  - apply wp_ret. intros e He. by apply elem_of_nil in He.
  - cbn [ewWireLoop].
    apply (wp_bind_both hostBridgesKept _ _
             (λ _ s', isContainer e = true → onHostBridge sfc s s' e)).
    + pose proof (Hloop [e] i prev) as H1. cbn [ewWireLoop] in H1.
      intros s0 s' Hfin. apply (H1 s0 s'). rewrite bind_unfold.
      destruct (ewWireElement sfc i e prev s0); try done.
    + destruct (isContainer e) eqn:Hc.
      * eapply wp_mono; [| | by apply ewWireElement_member]; [| done]. done.
      * unfold wp. by destruct (ewWireElement sfc i e prev s).
    + intros p s1 [Hb1 Hh1] Hhead.
      pose proof (IH (S i) p s1) as Htail. pose proof (Hloop els (S i) p s1) as Hk.
      unfold wp in Htail |- *.
      destruct (ewWireLoop sfc els (S i) p s1) as [[] s2 | | |]; try done.
      destruct (Hk s2 eq_refl) as [Hb2 Hh2].
      intros x Hx Hcx. apply elem_of_cons in Hx as [-> | Hx].
      * destruct (Hhead Hcx) as (h & ptr & Hh & Hp & Hm).
        exists h, ptr. split; [done |]. split; [done |].
        by apply (bridgeHasMember_kept s1).
      * destruct (Htail x Hx Hcx) as (h & ptr & Hh & Hp & Hm).
        exists h, ptr. split; [by rewrite <- Hh1 |]. by split.
Qed.

End host_bridge_members.

(** X16. When WireSfcEntity returns without error for an east-west bridge
    chain (SFC_EW_BD, or SFC_EW_BD_L2FIB without bridge parameters of its
    own), every container element of the chain is attached: the vswitch end
    of its memif or af-packet pair is a member of the east-west bridge domain
    that its host had when the call was made, the dynamic one for SFC_EW_BD
    and the static one for SFC_EW_BD_L2FIB. *)
Theorem ew_bridge_chain_members (sfc : SfcEntity.t) (s s' : Driver.t)
  (e : SfcElement.t) :
  joinsHostBridge sfc →
  WireSfcEntity sfc s = Ok tt s' →
  e ∈ SfcEntity.Elements sfc → isContainer e = true →
  ∃ h ptr b,
    l2CNPStateCacheType.HE (Driver.l2CNPStateCache s) !! SfcElement.EtcdVppSwitchKey e
    = Some h
    ∧ (if bool_decide (SfcEntity.Type_ sfc = SFC_EW_BD)
       then heStateType.ewBD h else heStateType.ewBDL2Fib h) = Some ptr
    ∧ Driver.bridgeDomains s' !! ptr = Some b
    ∧ vswitchIfName e ∈ memberNames (BridgeDomain.Interfaces b).
Proof.
  intros Hsfc Hrun He Hc.
  assert (Hew : wireSfcEastWestElements sfc (cacheSfc sfc s) = Ok tt s').
  { revert Hrun. unfold WireSfcEntity. cbv zeta.
    destruct Hsfc as [-> | [-> _]]; by rewrite bind_unfold. }
  unfold wireSfcEastWestElements in Hew.
  destruct (joinsHostBridge_type sfc Hsfc) as [_ Hm]. rewrite Hm in Hew. cbn in Hew.
  clear Hm.
  pose proof (ewWireLoop_members sfc Hsfc (SfcEntity.Elements sfc) 0 "" (cacheSfc sfc s))
    as Hwp.
  unfold wp in Hwp. rewrite Hew in Hwp.
  destruct (Hwp e He Hc) as (h & ptr & Hh & Hp & b & Hb & Hm).
  by exists h, ptr, b.
Qed.

Lemma ew_bridge_chain_members_witness :
  let s := stateAfter [CallSetSystemParameters defaultSysParms;
                       CallWireInternalsForHostEntity host1] newDriver in
  let s' := stateAfter [CallWireSfcEntity ewBridgeChain] s in
  WireSfcEntity ewBridgeChain s = Ok tt s'
  ∧ ∃ b, Driver.bridgeDomains s' !! 0%nat = Some b
         ∧ "IF_MEMIF_VSWITCH_c1_p1" ∈ memberNames (BridgeDomain.Interfaces b).
Proof.
  intros s s'.
  assert (Hrun : WireSfcEntity ewBridgeChain s = Ok tt s') by (by vm_compute).
  split; [exact Hrun |].
  destruct (ew_bridge_chain_members ewBridgeChain s s' (memifElement "c1" "p1" "h1"))
    as (h & ptr & b & Hh & Hp & Hb & Hm);
    [by left | exact Hrun | | reflexivity |].
  { apply elem_of_cons. right. apply elem_of_cons. by left. }
  assert (Hh0 : l2CNPStateCacheType.HE (Driver.l2CNPStateCache s) !! "h1"
                = Some (heStateType.mk (Some 0%nat) (Some 1%nat))) by (by vm_compute).
  change (SfcElement.EtcdVppSwitchKey (memifElement "c1" "p1" "h1")) with "h1" in Hh.
  rewrite Hh0 in Hh. injection Hh as <-. cbn in Hp. injection Hp as <-.
  by exists b.
Defined.

(** ** Members of the bridge of a north-south vxlan chain *)

(** Bridge domains and edges are kept. *)
Definition wiringForward : relation Driver.t := λ s s',
  bridgesKept s s' ∧ h2eEdgesForward s s' ∧ h2hEdgesForward s s'.

#[global] Instance wiringForward_preorder : PreOrder wiringForward.
Proof.
  split; [by intros s |].
  intros s1 s2 s3 (H1 & H2 & H3) (G1 & G2 & G3).
  split; [| split]; by etransitivity.
Qed.

Lemma keeps_and3 (R1 R2 R3 : relation Driver.t) {A} (m : M A) :
  keeps R1 m → keeps R2 m → keeps R3 m →
  keeps (λ s s', R1 s s' ∧ R2 s s' ∧ R3 s s') m.
Proof. intros H1 H2 H3 s s' Hfin. split; [| split]; auto. Qed.

Section ns_vxlan_members.
Context (sfc : SfcEntity.t).

Lemma wiringForward_pieces :
  (∀ h e g, keeps wiringForward (createMemIfPair sfc h e g))
  ∧ (∀ e, keeps wiringForward (createAFPacketVEthPair sfc e))
  ∧ (∀ k bd ifs, keeps wiringForward (bridgedDomainAssociateWithIfs k bd ifs))
  ∧ (∀ scan e, keeps wiringForward (nsVxlanWireElement sfc scan e)).
Proof.
  assert (Hc1 : ∀ k n ifs p, (length ifs ≤ 1)%nat →
                  keeps bridgesKept (bridgedDomainCreateWithIfs k n ifs p)).
  { intros. apply bridgesKept_bridgedDomainCreateWithIfs. }
  assert (Hc2 : ∀ k n ifs p, (length ifs ≤ 1)%nat →
                  keeps h2eEdgesForward (bridgedDomainCreateWithIfs k n ifs p)).
  { intros. apply keeps_bridgedDomainCreateWithIfs_framed; typeclasses eauto. }
  assert (Hc3 : ∀ k n ifs p, (length ifs ≤ 1)%nat →
                  keeps h2hEdgesForward (bridgedDomainCreateWithIfs k n ifs p)).
  { intros. apply keeps_bridgedDomainCreateWithIfs_framed; typeclasses eauto. }
  assert (Ha1 := bridgesKept_bridgedDomainAssociateWithIfs).
  assert (Ha2 : ∀ k bd ifs, keeps h2eEdgesForward (bridgedDomainAssociateWithIfs k bd ifs)).
  { intros. apply keeps_bridgedDomainAssociateWithIfs_framed; typeclasses eauto. }
  assert (Ha3 : ∀ k bd ifs, keeps h2hEdgesForward (bridgedDomainAssociateWithIfs k bd ifs)).
  { intros. apply keeps_bridgedDomainAssociateWithIfs_framed; typeclasses eauto. }
  assert (He1 : ∀ sfc a b v,
                  keeps bridgesKept (createVxLANAndBridgeToExtEntity sfc a b v)).
  { intros. apply keeps_createVxLANAndBridgeToExtEntity_framed; try typeclasses eauto.
    done. }
  assert (He3 : ∀ sfc a b v,
                  keeps h2hEdgesForward (createVxLANAndBridgeToExtEntity sfc a b v)).
  { intros. apply keeps_createVxLANAndBridgeToExtEntity_framed; try typeclasses eauto.
    done. }
  split; [| split; [| split]].
  - intros h e g. apply keeps_and3; apply keeps_createMemIfPair; typeclasses eauto.
  - intros e. apply keeps_and3; apply keeps_createAFPacketVEthPair; typeclasses eauto.
  - intros k bd ifs. by apply keeps_and3.
  - intros scan e. apply keeps_and3.
    + apply keeps_nsVxlanWireElement; try typeclasses eauto; done.
    + apply keeps_nsVxlanWireElement; try typeclasses eauto; try done.
      apply createVxLANAndBridgeToExtEntity_forward.
    + unfold nsVxlanWireElement, nsVxlanBridge. keeps_auto.
      all: first [ apply He3 | apply createVxLANAndBridgeToDestHost_forward
                 | apply keeps_createAFPacketVEthPairAndAddToBridge;
                   try typeclasses eauto; done
                 | apply keeps_createMemIfPairAndAddToBridge;
                   try typeclasses eauto; done ].
Qed.


(** The bridge domain of the edge toward the target of the chain: the
    external entity if the chain has one, else the destination host. *)
Definition nsEdgeBridge (scan : nsScan.t) (s : Driver.t) (switch : string)
  : option bdPtr :=
  if negb (nsScan.eeCount scan =? 0)
  then heToEE s switch (nsScan.eeName scan) ≫= heToEEStateType.bd
  else heToHE s switch (nsScan.dhName scan) ≫= heToHEStateType.bd.

Definition nsAttached (scan : nsScan.t) (s : Driver.t) (e : SfcElement.t) : Prop :=
  ∃ ptr, nsEdgeBridge scan s (SfcElement.EtcdVppSwitchKey e) = Some ptr
         ∧ bridgeHasMember s ptr (vswitchIfName e).

Lemma nsEdgeBridge_kept scan s s' switch ptr :
  wiringForward s s' → nsEdgeBridge scan s switch = Some ptr →
  nsEdgeBridge scan s' switch = Some ptr.
Proof.
  intros (_ & He & Hh). unfold nsEdgeBridge. destruct (negb _).
  - destruct (heToEE s switch _) as [st |] eqn:Hst; [| done]. cbn. intros Hbd.
    destruct (He _ _ _ Hst) as (st' & -> & _ & Hb & _). cbn. by apply Hb.
  - destruct (heToHE s switch _) as [st |] eqn:Hst; [| done]. cbn. intros Hbd.
    destruct (Hh _ _ _ Hst) as (st' & -> & _ & Hb & _). cbn. by apply Hb.
Qed.

Lemma nsAttached_kept scan s s' e :
  wiringForward s s' → nsAttached scan s e → nsAttached scan s' e.
Proof.
  intros Hk (ptr & Hp & Hm). exists ptr. split.
  - by apply (nsEdgeBridge_kept scan s).
  - destruct Hk as [Hb _]. by apply (bridgeHasMember_kept s).
Qed.

Lemma createVxLANAndBridgeToExtEntity_returns a b v s :
  wp (createVxLANAndBridgeToExtEntity sfc a b v)
     (λ bd s', heToEE s' a b ≫= heToEEStateType.bd = bd) (λ _, True) s.
Proof.
  unfold createVxLANAndBridgeToExtEntity.
  apply wp_any_bind; [done | intros m s1].
  destruct m as [m |]; [| done]. destruct (m !! b); [| done].
  apply wp_any_bind; [done | intros _ s2].
  apply wp_any_bind; [done | intros _ s3].
  apply wp_any_bind; [done | intros _ s4].
  eapply wp_run_bind; [apply getHEToEEState_run |].
  apply wp_deref_bind; [done | intros st Hst]. apply wp_ret. by rewrite Hst.
Qed.

Lemma createVxLANAndBridgeToDestHost_returns a b v s :
  wp (createVxLANAndBridgeToDestHost sfc a b v)
     (λ bd s', heToHE s' a b ≫= heToHEStateType.bd = bd) (λ _, True) s.
Proof.
  unfold createVxLANAndBridgeToDestHost.
  apply wp_any_bind; [done | intros m s1].
  destruct m as [m |]; [| done]. destruct (m !! b); [| done].
  apply wp_any_bind; [done | intros _ s2].
  apply wp_any_bind; [done | intros _ s3].
  apply wp_any_bind; [done | intros _ s4].
  eapply wp_run_bind; [apply getHEToHEState_run |].
  apply wp_deref_bind; [done | intros st Hst]. apply wp_ret. by rewrite Hst.
Qed.

Lemma nsVxlanBridge_returns scan e s :
  wp (nsVxlanBridge sfc scan e)
     (λ bd s', nsEdgeBridge scan s' (SfcElement.EtcdVppSwitchKey e) = bd) (λ _, True) s.
Proof.
  unfold nsVxlanBridge, nsEdgeBridge. destruct (negb _).
  - apply wp_deref_bind; [done | intros x Hx].
    apply createVxLANAndBridgeToExtEntity_returns.
  - apply wp_deref_bind; [done | intros x Hx].
    apply createVxLANAndBridgeToDestHost_returns.
Qed.

Lemma ns_joined_member {C} (m : M string) scan e s (c : C) :
  keeps wiringForward m →
  (∀ s0, wp m (λ name _, name = vswitchIfName e) (λ _, True) s0) →
  wp (bd ← nsVxlanBridge sfc scan e;
      (n ← m;
       bridgedDomainAssociateWithIfs (SfcElement.EtcdVppSwitchKey e) bd
         [BDInterface.mk n] ;;
       mret n) ;;
      mret c)
     (λ _ s', nsAttached scan s' e) (λ _, True) s.
Proof.
  intros Hkm Hname.
  destruct wiringForward_pieces as (_ & _ & Hassoc & _).
  apply wp_bind. eapply wp_mono; [| | apply nsVxlanBridge_returns]; [| done].
  intros bd s1 Hbd. cbv beta in Hbd.
  apply wp_bind.
  apply (wp_bind_both wiringForward _ _ (λ name _, name = vswitchIfName e));
    [done | apply Hname |].
  intros n s2 H2 ->.
  apply (wp_bind_both wiringForward _ _
           (λ _ s', ∃ ptr, bd = Some ptr ∧ bridgeHasMember s' ptr (vswitchIfName e)));
    [apply Hassoc | apply bridgedDomainAssociateWithIfs_member |].
  intros _ s3 H3 (ptr & -> & Hmem). apply wp_ret. apply wp_ret.
  exists ptr. split; [| done].
  apply (nsEdgeBridge_kept scan s1); [by transitivity s2 | done].
Qed.

Lemma nsVxlanWireElement_member scan e s :
  isContainer e = true →
  wp (nsVxlanWireElement sfc scan e) (λ _ s', nsAttached scan s' e) (λ _, True) s.
Proof.
  intros Hc. destruct wiringForward_pieces as (Hkm & Hka & _).
  unfold nsVxlanWireElement, isContainer in *.
  destruct (SfcElement.Type_ e) eqn:Ht; try discriminate Hc.
  all: first
    [ apply (ns_joined_member (createAFPacketVEthPair sfc e) scan e s tt);
      [apply Hka |]; intros s0; unfold vswitchIfName; rewrite Ht;
      apply createAFPacketVEthPair_name
    | apply (ns_joined_member
               (createMemIfPair sfc (SfcElement.EtcdVppSwitchKey e) e false) scan e s tt);
      [apply Hkm |]; intros s0; unfold vswitchIfName; rewrite Ht;
      apply createMemIfPair_name ].
Qed.

Lemma nsVxlanWire_members scan els s :
  wp (forEach els (nsVxlanWireElement sfc scan))
     (λ _ s', ∀ e, e ∈ els → isContainer e = true → nsAttached scan s' e)
     (λ _, True) s.
Proof.
  destruct wiringForward_pieces as (_ & _ & _ & Hel).
  assert (Hloop : ∀ l, keeps wiringForward (forEach l (nsVxlanWireElement sfc scan))).
  { intros l. apply keeps_forEach; [typeclasses eauto | apply Hel]. }
  revert s. induction els as [| e els IH]; intros s.
  - apply wp_ret. intros e He. by apply elem_of_nil in He.
  - cbn [forEach].
    apply (wp_bind_both wiringForward _ _
             (λ _ s', isContainer e = true → nsAttached scan s' e)).
    + apply Hel.
    + destruct (isContainer e) eqn:Hc.
      * eapply wp_mono; [| | by apply nsVxlanWireElement_member]; [| done]. done.
      * unfold wp. by destruct (nsVxlanWireElement sfc scan e s).
    + intros [] s1 H1 Hhead.
      pose proof (IH s1) as Htail. pose proof (Hloop els s1) as Hk.
      unfold wp in Htail |- *.
      destruct (forEach els (nsVxlanWireElement sfc scan) s1) as [[] s2 | | |];
        try done.
      specialize (Hk s2 eq_refl).
      intros x Hx Hcx. apply elem_of_cons in Hx as [-> | Hx].
      * apply (nsAttached_kept scan s1); [done | by apply Hhead].
      * by apply Htail.
Qed.

End ns_vxlan_members.

Lemma nsVxlanScan_names sfc els acc s r s' :
  nsVxlanScan sfc els acc s = Ok r s' →
  nsScan.eeCount r = nsScan.eeCount acc + countType EXTERNAL_ENTITY els
  ∧ ((countType EXTERNAL_ENTITY els = 0 ∧ nsScan.eeName r = nsScan.eeName acc)
     ∨ ∃ x, x ∈ els ∧ SfcElement.Type_ x = EXTERNAL_ENTITY
            ∧ SfcElement.Container x = nsScan.eeName r)
  ∧ ((countType HOST_ENTITY els = 0 ∧ nsScan.dhName r = nsScan.dhName acc)
     ∨ ∃ x, x ∈ els ∧ SfcElement.Type_ x = HOST_ENTITY
            ∧ SfcElement.Container x = nsScan.dhName r).
Proof.
  revert acc. induction els as [| e els IH]; intros acc.
  - cbn. intros [= <- <-]. unfold countType. cbn.
    split; [lia |]. split; left; by split.
  - rewrite !countType_cons. cbn [nsVxlanScan].
    assert (Hlift : ∀ acc',
      nsVxlanScan sfc els acc' s = Ok r s' →
      nsScan.eeCount acc'
      = nsScan.eeCount acc
        + (if decide (SfcElement.Type_ e = EXTERNAL_ENTITY) then 1 else 0) →
      (SfcElement.Type_ e = EXTERNAL_ENTITY →
       nsScan.eeName acc' = SfcElement.Container e) →
      (SfcElement.Type_ e ≠ EXTERNAL_ENTITY → nsScan.eeName acc' = nsScan.eeName acc) →
      (SfcElement.Type_ e = HOST_ENTITY →
       nsScan.dhName acc' = SfcElement.Container e) →
      (SfcElement.Type_ e ≠ HOST_ENTITY → nsScan.dhName acc' = nsScan.dhName acc) →
      nsScan.eeCount r
      = nsScan.eeCount acc
        + ((if decide (SfcElement.Type_ e = EXTERNAL_ENTITY) then 1 else 0)
           + countType EXTERNAL_ENTITY els)
      ∧ (((if decide (SfcElement.Type_ e = EXTERNAL_ENTITY) then 1 else 0)
          + countType EXTERNAL_ENTITY els = 0 ∧ nsScan.eeName r = nsScan.eeName acc)
         ∨ ∃ x, x ∈ e :: els ∧ SfcElement.Type_ x = EXTERNAL_ENTITY
                ∧ SfcElement.Container x = nsScan.eeName r)
      ∧ (((if decide (SfcElement.Type_ e = HOST_ENTITY) then 1 else 0)
          + countType HOST_ENTITY els = 0 ∧ nsScan.dhName r = nsScan.dhName acc)
         ∨ ∃ x, x ∈ e :: els ∧ SfcElement.Type_ x = HOST_ENTITY
                ∧ SfcElement.Container x = nsScan.dhName r)).
    { intros acc' Hrun Hcnt Hee1 Hee2 Hdh1 Hdh2.
      destruct (IH acc' Hrun) as (Hc & He & Hd).
      pose proof (countType_nonneg EXTERNAL_ENTITY els).
      pose proof (countType_nonneg HOST_ENTITY els).
      split; [lia |]. split.
      - destruct He as [[Hz Hn] | (x & Hx & Htx & Hcx)].
        + destruct (decide (SfcElement.Type_ e = EXTERNAL_ENTITY)) as [Hte | Hte].
          * right. exists e. split; [by left |]. split; [done |].
            by rewrite Hn, Hee1.
          * left. split; [lia |]. by rewrite Hn, Hee2.
        + right. exists x. split; [by right | done].
      - destruct Hd as [[Hz Hn] | (x & Hx & Htx & Hcx)].
        + destruct (decide (SfcElement.Type_ e = HOST_ENTITY)) as [Hte | Hte].
          * right. exists e. split; [by left |]. split; [done |].
            by rewrite Hn, Hdh1.
          * left. split; [lia |]. by rewrite Hn, Hdh2.
        + right. exists x. split; [by right | done]. }
    destruct (SfcElement.Type_ e) eqn:Ht.
    all: try (intros Hrun; apply (Hlift acc Hrun);
              [case_decide; [done | lia] | done..]).
    + cbv zeta. destruct (1 <? nsScan.eeCount acc + 1); [done |].
      rewrite bind_unfold. unfold getEEs, gets.
      destruct (_ !! _); [| done].
      intros Hrun.
      apply (Hlift _ Hrun); cbn; first [done | congruence | case_decide; (done || lia)].
    + cbv zeta. destruct (1 <? nsScan.dhCount acc + 1); [done |].
      rewrite bind_unfold. unfold getHEs, gets.
      destruct (_ !! _); [| done].
      intros Hrun.
      apply (Hlift _ Hrun); cbn; first [done | congruence | case_decide; (done || lia)].
Qed.

(** X17. When WireSfcEntity returns without error for a north-south vxlan
    chain, every container element of the chain is attached to the bridge
    domain of the edge from its host to the target of the chain: the vswitch
    end of its memif or af-packet pair is a member of the bridge domain
    recorded for the edge to the chain's external entity, or, when the chain
    has no external entity, for the edge to its destination host. *)
Theorem ns_vxlan_chain_members (sfc : SfcEntity.t) (s s' : Driver.t)
  (e : SfcElement.t) :
  SfcEntity.Type_ sfc = SFC_NS_VXLAN →
  WireSfcEntity sfc s = Ok tt s' →
  e ∈ SfcEntity.Elements sfc → isContainer e = true →
  ∃ ptr b,
    Driver.bridgeDomains s' !! ptr = Some b
    ∧ vswitchIfName e ∈ memberNames (BridgeDomain.Interfaces b)
    ∧ ((∃ x, x ∈ SfcEntity.Elements sfc ∧ SfcElement.Type_ x = EXTERNAL_ENTITY
             ∧ heToEE s' (SfcElement.EtcdVppSwitchKey e) (SfcElement.Container x)
                 ≫= heToEEStateType.bd = Some ptr)
       ∨ (countType EXTERNAL_ENTITY (SfcEntity.Elements sfc) = 0
          ∧ ∃ x, x ∈ SfcEntity.Elements sfc ∧ SfcElement.Type_ x = HOST_ENTITY
                 ∧ heToHE s' (SfcElement.EtcdVppSwitchKey e) (SfcElement.Container x)
                     ≫= heToHEStateType.bd = Some ptr)).
Proof.
  intros Ht Hrun He Hc.
  assert (Hns : wireSfcNorthSouthVXLANElements sfc (cacheSfc sfc s) = Ok tt s').
  { revert Hrun. unfold WireSfcEntity. cbv zeta. rewrite Ht. by rewrite bind_unfold. }
  unfold wireSfcNorthSouthVXLANElements in Hns. rewrite bind_unfold in Hns.
  destruct (nsVxlanScan sfc (SfcEntity.Elements sfc) nsScan.init (cacheSfc sfc s))
    as [scan s0 | | |] eqn:Hscan; try done.
  destruct (nsVxlanScan_names _ _ _ _ _ _ Hscan) as (Hcnt & Hee & Hdh).
  cbn in Hcnt, Hee, Hdh.
  destruct ((nsScan.eeCount scan =? 0) && (nsScan.dhCount scan =? 0)) eqn:Hzero;
    [done |].
  pose proof (nsVxlanWire_members sfc scan (SfcEntity.Elements sfc) s0) as Hwp.
  unfold wp in Hwp. rewrite Hns in Hwp.
  destruct (Hwp e He Hc) as (ptr & Hp & b & Hb & Hm).
  exists ptr, b. split; [done |]. split; [done |].
  unfold nsEdgeBridge in Hp.
  pose proof (countType_nonneg EXTERNAL_ENTITY (SfcEntity.Elements sfc)) as Hnn.
  destruct (nsScan.eeCount scan =? 0) eqn:Hz; cbn in Hp.
  - apply Z.eqb_eq in Hz. right. split; [lia |].
    destruct Hdh as [[Hd0 _] | (x & Hx & Htx & Hcx)].
    + exfalso. cbn in Hzero. apply Z.eqb_neq in Hzero.
      destruct (nsVxlanScan_spec sfc (cacheSfc sfc s) (SfcEntity.Elements sfc)
                  nsScan.init) as [Hbad Hok]; [cbn; lia | cbn; lia |].
      destruct Hok as (r & Hr & _ & Hd).
      { intros Hf. destruct (Hbad Hf) as [err Herr]. by rewrite Herr in Hscan. }
      rewrite Hscan in Hr. injection Hr as <- _. cbn in Hd. lia.
    + exists x. split; [done |]. split; [done |]. by rewrite Hcx.
  - apply Z.eqb_neq in Hz. left.
    destruct Hee as [[He0 _] | (x & Hx & Htx & Hcx)]; [lia |].
    exists x. split; [done |]. split; [done |]. by rewrite Hcx.
Qed.

Lemma ns_vxlan_chain_members_witness :
  let s := stateAfter [CallSetSystemParameters defaultSysParms;
                       CallWireHostEntityToExternalEntity host1 router1] newDriver in
  let s' := stateAfter [CallWireSfcEntity nsChainToRouter] s in
  WireSfcEntity nsChainToRouter s = Ok tt s'
  ∧ ∃ ptr b, Driver.bridgeDomains s' !! ptr = Some b
             ∧ "IF_MEMIF_VSWITCH_c1_p1" ∈ memberNames (BridgeDomain.Interfaces b).
Proof.
  intros s s'.
  assert (Hrun : WireSfcEntity nsChainToRouter s = Ok tt s') by (by vm_compute).
  split; [exact Hrun |].
  destruct (ns_vxlan_chain_members nsChainToRouter s s' (memifElement "c1" "p1" "h1"))
    as (ptr & b & Hb & Hm & _); [reflexivity | exact Hrun | | reflexivity |].
  { apply elem_of_cons. right. apply elem_of_cons. by left. }
  by exists ptr, b.
Defined.

(** ** The bridge of a north-south chain on a NIC *)

Section ns_nic_bridge.
Context (sfc : SfcEntity.t).

Lemma bridgesKept_nic_pieces :
  (∀ h e g, keeps bridgesKept (createMemIfPair sfc h e g))
  ∧ (∀ e, keeps bridgesKept (createAFPacketVEthPair sfc e))
  ∧ (∀ k bd macs i, keeps bridgesKept (createL2FibEntries k bd macs i))
  ∧ (∀ he bd e, keeps bridgesKept (nsNicWireElement sfc he bd e)).
Proof.
  assert (Hc : ∀ k n ifs p, (length ifs ≤ 1)%nat →
                 keeps bridgesKept (bridgedDomainCreateWithIfs k n ifs p)).
  { intros. apply bridgesKept_bridgedDomainCreateWithIfs. }
  assert (Ha := bridgesKept_bridgedDomainAssociateWithIfs).
  split; [| split; [| split]].
  - intros h e g. apply keeps_createMemIfPair; typeclasses eauto.
  - intros e. apply keeps_createAFPacketVEthPair; typeclasses eauto.
  - intros k bd macs i. apply keeps_createL2FibEntries; typeclasses eauto.
  - intros he bd e. apply keeps_nsNicWireElement; try typeclasses eauto; done.
Qed.

Lemma nic_joined_member (m : M string) ptr e s :
  keeps bridgesKept m →
  (∀ s0, wp m (λ name _, name = vswitchIfName e) (λ _, True) s0) →
  wp (ifName ← (n ← m;
                bridgedDomainAssociateWithIfs (SfcElement.EtcdVppSwitchKey e) (Some ptr)
                  [BDInterface.mk n] ;;
                mret n);
      createL2FibEntries (SfcElement.EtcdVppSwitchKey e) (Some ptr)
        (SfcElement.L2FibMacs e) ifName)
     (λ _ s', bridgeHasMember s' ptr (vswitchIfName e)) (λ _, True) s.
Proof.
  intros Hkm Hname.
  destruct bridgesKept_nic_pieces as (_ & _ & Hfib & _).
  apply wp_bind.
  apply (wp_bind_both bridgesKept _ _ (λ name _, name = vswitchIfName e));
    [done | apply Hname |].
  intros n s1 H1 ->.
  apply (wp_bind_both bridgesKept _ _
           (λ _ s', ∃ p, Some ptr = Some p ∧ bridgeHasMember s' p (vswitchIfName e)));
    [apply bridgesKept_bridgedDomainAssociateWithIfs
    | apply bridgedDomainAssociateWithIfs_member |].
  intros _ s2 H2 (p & [= <-] & Hmem). apply wp_ret.
  apply (wp_keeps bridgesKept); [apply Hfib | | done].
  intros _ s3 H3. by apply (bridgeHasMember_kept s2).
Qed.

Lemma nsNicWireElement_member he ptr e s :
  SfcEntity.Type_ sfc = SFC_NS_NIC_BD → isContainer e = true →
  wp (nsNicWireElement sfc he (Some ptr) e)
     (λ _ s', bridgeHasMember s' ptr (vswitchIfName e)) (λ _, True) s.
Proof.
  intros Hsfc Hc. destruct bridgesKept_nic_pieces as (Hkm & Hka & _).
  unfold nsNicWireElement, isContainer in *. cbv zeta. rewrite Hsfc.
  destruct (SfcElement.Type_ e) eqn:Ht; try discriminate Hc.
  all: first
    [ apply (nic_joined_member (createAFPacketVEthPair sfc e) ptr e s);
      [apply Hka |]; intros s0; unfold vswitchIfName; rewrite Ht;
      apply createAFPacketVEthPair_name
    | apply (nic_joined_member
               (createMemIfPair sfc (SfcElement.EtcdVppSwitchKey e) e false) ptr e s);
      [apply Hkm |]; intros s0; unfold vswitchIfName; rewrite Ht;
      apply createMemIfPair_name ].
Qed.

Lemma nsNicWire_members he ptr els s :
  SfcEntity.Type_ sfc = SFC_NS_NIC_BD →
  wp (forEach els (nsNicWireElement sfc he (Some ptr)))
     (λ _ s', bridgesKept s s'
              ∧ ∀ e, e ∈ els → isContainer e = true →
                  bridgeHasMember s' ptr (vswitchIfName e))
     (λ _, True) s.
Proof.
  intros Hsfc. destruct bridgesKept_nic_pieces as (_ & _ & _ & Hel).
  assert (Hloop : ∀ l, keeps bridgesKept (forEach l (nsNicWireElement sfc he (Some ptr)))).
  { intros l. apply keeps_forEach; [typeclasses eauto | apply Hel]. }
  revert s. induction els as [| e els IH]; intros s.
  - apply wp_ret. split; [reflexivity |]. intros e He. by apply elem_of_nil in He.
  - cbn [forEach].
    apply (wp_bind_both bridgesKept _ _
             (λ _ s', isContainer e = true → bridgeHasMember s' ptr (vswitchIfName e))).
    + apply Hel.
    + destruct (isContainer e) eqn:Hc.
      * eapply wp_mono; [| | by apply nsNicWireElement_member]; [| done]. done.
      * unfold wp. by destruct (nsNicWireElement sfc he (Some ptr) e s).
    + intros [] s1 H1 Hhead.
      pose proof (IH s1) as Htail. pose proof (Hloop els s1) as Hk.
      unfold wp in Htail |- *.
      destruct (forEach els (nsNicWireElement sfc he (Some ptr)) s1) as [[] s2 | | |];
        try done.
      specialize (Hk s2 eq_refl). destruct Htail as [_ Htail].
      split; [by transitivity s1 |].
      intros x Hx Hcx. apply elem_of_cons in Hx as [-> | Hx].
      * apply (bridgeHasMember_kept s1); [done | by apply Hhead].
      * by apply Htail.
Qed.

End ns_nic_bridge.


(** A bridged chain on the NIC Gig0/1 of h1. *)
Definition nsNicBridgeChain : SfcEntity.t :=
  SfcEntity.mk "sfc-nic" "" SFC_NS_NIC_BD "" 0 None
    [SfcElement.mk "h1" "Gig0/1" "" "" "" HOST_ENTITY 0 0 RX_MODE_UNKNOWN [] "" [] [];
     memifElement "c1" "p1" "h1"].

